(* ===== verification/_CoqProject ===== *)
-Q . S2P
Prelude.v
Go.v
GoStrings.v
Uuid.v
TimeText.v
Json.v
JsonDec.v
Base64.v
Domain.v
Ports.v
TaskService.v
TaskTheorems.v
TeamService.v
CacheJson.v
AuthService.v
CommentService.v
AnalyticsService.v
MySQLEngine.v
MySQLStorage.v
MySQLSpec.v
TaskCache.v
StorageTheorems.v
System.v
Interleave.v
Concurrent.v
Flight.v
MySQLAnalytics.v
EmailClient.v
World.v
RoundTrips.v
Concrete.v
Races.v
Slogx.v
SlogxHandler.v
SlogxLogger.v
Startup.v
Lifecycle.v
Genschema.v
Api.v
Wire.v
Generated.v
Handler.v
Http.v
Middleware.v
RateBound.v
Server.v
Registry.v
Schema.v
Listing.v
ConcreteServer.v
Seed.v
SeedRun.v
Witnesses.v
OpsWitnesses.v
