(* ===== verification/Prelude.v ===== *)
(** * team-tasks: a verification development

    team-tasks is a Go service in which teams share a task board: users
    register and log in, create teams and invite one another, create, list,
    update and comment on tasks, read histories and reports. It is an HTTP API
    over MySQL, with lists of tasks cached in Redis and invitations mailed by
    another service. This library models the service from the router to the
    tables, the package that does its logging, its start-up and shutdown and the
    two tools beside it, and proves what makes them correct.

    ** How the program is put together, and which file models what

    A request goes through four layers; each is modelled from its own source and
    meets the next through an interface with laws.

    - internal/middleware and the router (Middleware.v, Server.v): request ids,
      metrics, the soft JWT check, the rate limiter, and the routes of app.New.
      A handler is a function of the context, the request and the state of the
      process: world, limiter map, counters.
    - internal/handler/api/v1 and internal/handler (Api.v, Wire.v, Generated.v,
      Handler.v, Http.v): the wire types with their decoders and encoders,
      parameter binding, strict handlers and response writers, and the fourteen
      handlers. Generated.v is the generated file as it is written, with its
      interfaces, request objects, layers of middleware and options, and shows
      that the options the program uses come to Api.v. Http.v states what a
      call must do in terms of service requests.
    - internal/service (TaskService.v, TeamService.v, AuthService.v,
      CommentService.v, AnalyticsService.v), over internal/domain (Domain.v).
      Every method is a Definition of the same name in the monad [comp W] of
      Go.v: a world in, a world and a value or an error out. The interfaces the
      services declare are the records of Ports.v, polymorphic in the world.
    - internal/storage (MySQLEngine.v, MySQLStorage.v, MySQLAnalytics.v,
      TaskCache.v) and internal/circuitbreaker (EmailClient.v): the statements
      as functions on tables with the constraints of the migrations,
      transactions and lost round trips; the cache with its SCAN loop; the
      breaker's settings and what a call does inside it.

    Ports.v is where they meet. A world is observed as a [board]: users, teams,
    memberships, tasks, history, comments, and as the entries of the cache. For
    each interface a class says what every operation may do to the board, when
    it succeeds, when it fails, and when the answer is lost although the write
    was done. The services' theorems (TaskTheorems.v and the service files) are
    proved from these classes for every world; MySQLSpec.v, StorageTheorems.v
    and TaskCache.v prove that the storages are instances, and World.v wires
    both together as app.New does. Concrete.v and ConcreteServer.v instantiate
    every library the model leaves abstract, so that the program runs inside
    Rocq; Witnesses.v and OpsWitnesses.v apply each theorem there.

    Around the request path:

    - System.v: any sequence of requests, failures and expiries, as steps of an
      abstract machine on boards. Interleave.v, Concurrent.v and RoundTrips.v:
      the same operations as trees of calls, a listing as its two queries, of
      which any number are in flight; Flight.v: what holds of them all the same.
      Races.v: three schedules that go wrong, and pages that repeat.
    - Schema.v: the migrations as a typing of tables. Listing.v: the services,
      the database, the cache and JSON together.
    - internal/metrics (Registry.v): the two collectors, and that what the
      middleware records in them is what was served.
    - pkg/slogx and pkg/logger (Slogx.v, SlogxHandler.v, SlogxLogger.v): masking
      and values, groups among them; the dynamic handler, its configurations as heap objects behind an atomic
      pointer, the cached chain behind two more, the methods as trees of atomic
      steps; and all the loggers of a process, derived from one another, kept
      in contexts or set as the default.
    - internal/config, db.go, client.go, app.New, Shutdown, cmd/teamtasks
      (Startup.v, Lifecycle.v): what the process opens, retries, holds and gives
      back, and the goroutines of main with the operating system's signals.
    - scripts/genschema (Genschema.v) and scripts/seed (Seed.v, SeedRun.v).
    - Prelude.v, Go.v, GoStrings.v, Uuid.v: shared lemmas, the runtime (error
      chains, 64-bit integers, time and its calendar), package strings,
      google/uuid. TimeText.v, Json.v, JsonDec.v, Base64.v: the parts of time,
      encoding/json and encoding/base64 that the program uses, with their round
      trips; CacheJson.v: the JSON of cached lists.

    ** What the theorems show

    - Access: an HTTP request changes the board only as a service request of the
      user its bearer token authenticates (Server.serve_http_authenticated);
      success is only given to permitted requests, or to reports for a user, and
      refusals only to requests without permission (Http.http_authorised); every call is answered exactly as the
      specification says (Http.http_served), and the chain passes that answer
      on, counted once and under its request id, or turns the request away
      (Server.serve_http_chain); tokens come from logins and are honoured until
      they expire (Login_sound, Login_JWT, Login_uniform).
    - The board: in every reachable state tasks, assignees, histories and
      comments belong to members (system_sound, server_sound), each operation
      refines a step of the abstract machine (system_refines), and this
      survives any interleaving of calls (concurrent_sound); run without
      interruption the trees of calls are the sequential operations (lemma
      thread_of_serve). What requests in flight
      answer was permitted and was on the board at some time of the run
      (concurrent_answers), and the tables stay as the migrations type them
      (tables_typed).
    - The operations: what each one stores, records, returns and flushes
      (Update_correct, audit_trail_exact, Create_correct, List_correct,
      Invite_correct, Register_correct, Add_correct and others), and what is
      left when it fails (Update_fails_safe and the other _fails_safe).
    - The cache: without failures and one request at a time, what is cached is
      what storage could answer (system_coherent), and a list is a page of the
      tables at that moment, through JSON and back (list_current,
      cachedList_roundtrip); with requests in flight it may be old (stale_list)
      or of two boards at once (torn_list) but never made up, and updates can
      undo each other (lost_update).
    - Storage: atomicity under lost round trips; pages as slices of a listing
      newest first, which is one listing when no two tasks have the same time
      (ListTasks_pages) and otherwise may change between pages (repeated_page);
      the SCAN loop; the reports as the joins and windows they stand for.
    - Rates: however the two steps of requests, taking a limiter and calling it,
      interleave with each other and with cleanup ticks, a key is admitted no
      more than its bucket allows (rate_bound), if no request is stuck between
      its steps for nine minutes; one that is can be lent more (late_request).
    - Logging: whatever is derived, shared and reconfigured, the loggers of a
      process do what loggers without pointers and caches would
      (loggers_refine); attributes under removed keys never show, inside groups
      either, and masks hide all but a few bytes (redaction, mask_hides,
      service_logger), but a group is not asked about (removed_group_shown); used by two goroutines, a
      chain can outlive its configuration (stale_chain) and updates can be lost
      (lost_config).
    - The process: start-up retries are bounded, wait long enough and leak
      nothing (mysql_New_correct, startup_waits, app_no_leak, main_exit); the
      goroutines of main end, with the exit code and the shutdown of one
      sequential run (lifecycle_ends, lifecycle_exit).
    - The tools: the README's diagram is the one of the migrations
      (readme_current), patching is repeatable (patch_again), what each function
      of the seed tool sends is read as it means it (bodies_read), and run
      against the whole modelled service in the concrete world, from JSON to
      tables, the tool fills it as it says (seed_populates).

    ** Bounds and fuel

    The SCAN loop has fuel: the bound the server gives on the length of an
    iteration, plus one; Invalidate_complete shows that it is enough. The JSON
    scanner has twice the length of its text and one, which is enough for any
    text (scan_fuel). The retry loops recurse on the attempts they have left,
    ten as in the source. All other recursion is structural. [int] is 64 bits
    wide where the code computes with it: offsets wrap as they do in Go. Rates
    and tokens of the limiter, which Go keeps in floats, are rationals, and a
    bucket may be a nanosecond's refill out.

    ** What is assumed of code that is not here

    Libraries and servers are parameters with their documented behaviour as
    laws: google/uuid's text form, bcrypt, golang-jwt, x/time/rate, chi's
    matching, the OpenAPI binder and the JSON of its email and date types,
    gobreaker, SCAN and glob patterns, and of MySQL the collation, column
    limits, date rounding and the order that ORDER BY leaves open: a function of
    the table and of the statement's number, so that equal rows may change places
    from one statement to the next. chi has the pattern of a mount for what does
    not match below it. A ping of Redis is given a deadline, and the driver says
    what comes of it. A masker answers no group. A round trip can fail before or after it takes effect; a
    transaction commits or rolls back as a whole, so that between the calls of
    other requests it is one step. LastInsertId does not fail.
    The body of a request is a text; the body of an answer is the value handed
    to the JSON encoder, and Wire.body_text the bytes it comes to. Text is
    bytes; letter case and white space are those of ASCII. ListenAndServe
    returns ErrServerClosed, as documented, after a Shutdown.

    ** What is not modelled

    The log lines of the services and what they would show, contexts and their
    cancellation, and timeouts, which change no state of the service.
    Recoverer, since no handler panics in the model. The buckets and the scraped
    page of Prometheus, the embedded OpenAPI document, how cleanenv reads the
    configuration, and a signal that comes before signal.Notify, which kills the
    process: input and output of other code. Of encoding/json the messages of
    its errors. The test suite's scaffolding. *)
From Stdlib Require Export Ascii Sorting.Sorted.
From stdpp Require Export base tactics strings gmap pretty numbers option fin_maps list.

#[export] Set Warnings "-clear-no-such-hyp".

(** ** Strings *)

(** Every character of [s] satisfies [p]. *)
Fixpoint str_forall (p : ascii → bool) (s : string) : bool :=
  match s with
  | EmptyString => true
  | String c s' => p c && str_forall p s'
  end.

Lemma str_app_cons c s1 s2 : String c s1 +:+ s2 = String c (s1 +:+ s2).
Proof. done. Qed.

Lemma str_app_nil_l s : "" +:+ s = s.
Proof. done. Qed.

Lemma str_app_assoc s1 s2 s3 : (s1 +:+ s2) +:+ s3 = s1 +:+ (s2 +:+ s3).
Proof. induction s1 as [|c s1 IH]; [done|]. by rewrite !str_app_cons, IH. Qed.

Lemma str_app_nil_r s : s +:+ "" = s.
Proof. induction s as [|c s IH]; [done|]. by rewrite str_app_cons, IH. Qed.

Lemma str_length_app s1 s2 :
  String.length (s1 +:+ s2) = String.length s1 + String.length s2.
Proof. induction s1 as [|c s1 IH]; [done|]. rewrite str_app_cons. simpl. by rewrite IH. Qed.

Lemma str_forall_app p s1 s2 :
  str_forall p (s1 +:+ s2) = str_forall p s1 && str_forall p s2.
Proof.
  induction s1 as [|d s1 IH]; [done|].
  rewrite str_app_cons. simpl. by rewrite IH, andb_assoc.
Qed.

Lemma str_forall_impl (p q : ascii → bool) s :
  (∀ c, p c = true → q c = true) → str_forall p s = true → str_forall q s = true.
Proof.
  intros Hpq. induction s as [|c s IH]; [done|]; simpl.
  intros [Hc Hs]%andb_true_iff. by rewrite (Hpq c Hc), IH.
Qed.

(** Right-nested, fully applied concatenations. *)
Create Rewrite HintDb str_norm.
#[export] Hint Rewrite str_app_assoc str_app_cons str_app_nil_l : str_norm.

(** Strings of the same length at the front of equal strings are equal. *)
Lemma str_app_eq_length s1 s2 t1 t2 :
  String.length s1 = String.length s2 →
  s1 +:+ t1 = s2 +:+ t2 → s1 = s2 ∧ t1 = t2.
Proof.
  revert s2. induction s1 as [|c s1 IH]; intros [|d s2] Hl; try done.
  rewrite !str_app_cons. intros [= -> Heq].
  destruct (IH s2) as [-> ->]; [by injection Hl|done|done].
Qed.

(** A first field free of the separator is determined by the joined string. *)
Lemma str_sep_inj_l p c s1 s2 t1 t2 :
  p c = false → str_forall p s1 = true → str_forall p s2 = true →
  s1 +:+ String c t1 = s2 +:+ String c t2 → s1 = s2 ∧ t1 = t2.
Proof.
  intros Hc. revert s2. induction s1 as [|d s1 IH]; intros [|e s2]; simpl.
  - intros _ _ [= ->]. done.
  - intros _ [He _]%andb_true_iff. rewrite str_app_cons. intros [= <- _]. congruence.
  - intros [Hd _]%andb_true_iff _. rewrite str_app_cons. intros [= -> _]. congruence.
  - rewrite !str_app_cons. intros [_ H1]%andb_true_iff [_ H2]%andb_true_iff [= -> Heq].
    destruct (IH s2) as [-> ->]; done.
Qed.

(** Dually, a last field free of the separator is determined. *)
Lemma str_sep_inj_r p c s1 s2 t1 t2 :
  p c = false → str_forall p t1 = true → str_forall p t2 = true →
  s1 +:+ String c t1 = s2 +:+ String c t2 → s1 = s2 ∧ t1 = t2.
Proof.
  intros Hc Ht1 Ht2.
  assert (Hno : ∀ s t, str_forall p (s +:+ String c t) = true → False).
  { intros s t. rewrite str_forall_app. simpl. rewrite Hc, andb_false_r. done. }
  revert s2. induction s1 as [|d s1 IH]; intros [|e s2].
  - rewrite !str_app_nil_l. intros [= ->]. done.
  - rewrite str_app_cons, str_app_nil_l. intros [= <- ->]. by apply Hno in Ht1.
  - rewrite str_app_cons, str_app_nil_l. intros [= -> <-]. by apply Hno in Ht2.
  - rewrite !str_app_cons. intros [= -> Heq]. destruct (IH s2) as [-> ->]; done.
Qed.

(** ** Decimal numerals *)

Definition is_digit (c : ascii) : bool :=
  let n := N_of_ascii c in (48 <=? n)%N && (n <=? 57)%N.

(** The value of a digit string read after a prefix of value [acc]. *)
Fixpoint undec (acc : N) (s : string) : N :=
  match s with
  | EmptyString => acc
  | String c s' => undec (10 * acc + (N_of_ascii c - 48))%N s'
  end.

Lemma pretty_N_char_digit n : (n < 10)%N →
  is_digit (pretty_N_char n) = true ∧ (N_of_ascii (pretty_N_char n) - 48 = n)%N.
Proof.
  intros Hn.
  assert (n ∈ [0; 1; 2; 3; 4; 5; 6; 7; 8; 9]%N) as Hin.
  { rewrite !elem_of_cons. lia. }
  rewrite !elem_of_cons, elem_of_nil in Hin.
  by destruct_or! Hin; subst.
Qed.

Lemma pretty_N_go_spec n s :
  undec 0 (pretty_N_go n s) = undec n s ∧
  str_forall is_digit (pretty_N_go n s) = str_forall is_digit s.
Proof.
  revert s. induction (N.lt_wf_0 n) as [n _ IH]; intros s.
  destruct (decide (n = 0%N)) as [->|Hn].
  - by rewrite pretty_N_go_0.
  - rewrite pretty_N_go_step by lia.
    assert (Hlt : (n `div` 10 < n)%N) by (apply N.div_lt; lia).
    assert (Hm : (n `mod` 10 < 10)%N) by (apply N.mod_lt; lia).
    destruct (IH _ Hlt (String (pretty_N_char (n `mod` 10)) s)) as [-> ->].
    destruct (pretty_N_char_digit _ Hm) as [Hd Hv]. simpl.
    rewrite Hd, Hv. split; [|done]. f_equal.
    symmetry. apply N.div_mod. lia.
Qed.

Lemma pretty_N_digits (n : N) : str_forall is_digit (pretty n) = true.
Proof.
  unfold pretty, pretty_N. case_decide; [done|].
  by rewrite (proj2 (pretty_N_go_spec n "")).
Qed.

Lemma undec_pretty_N (n : N) : undec 0 (pretty n) = n.
Proof.
  unfold pretty, pretty_N. case_decide; [by subst|].
  by rewrite (proj1 (pretty_N_go_spec n "")).
Qed.

(** [k] zeros. *)
Fixpoint zeros (k : nat) : string :=
  match k with O => "" | S k => String "0" (zeros k) end.

Lemma undec_zeros k s : undec 0 (zeros k +:+ s) = undec 0 s.
Proof. induction k as [|k IH]; [done|]. simpl zeros. by rewrite str_app_cons. Qed.

Lemma zeros_digits k : str_forall is_digit (zeros k) = true.
Proof. by induction k. Qed.

(** ** Options *)

Lemma bool_decide_Some_eq `{EqDecision A} (x y : A) :
  bool_decide (Some x = Some y) = bool_decide (x = y).
Proof. apply bool_decide_ext. naive_solver. Qed.


(** ** Lists *)

Lemma StronglySorted_omap {A B} (R : A → A → Prop) (S : B → B → Prop) (f : A → option B) l :
  (∀ x y a b, R x y → f x = Some a → f y = Some b → S a b) →
  StronglySorted R l → StronglySorted S (omap f l).
Proof.
  intros HRS. induction 1 as [|x l Hl IH Hx]; [constructor|]. simpl.
  destruct (f x) as [a|] eqn:Ha; [|done]. constructor; [done|].
  apply Forall_forall. intros b Hb. apply list_elem_of_omap in Hb as (y & Hy & Hfy).
  rewrite Forall_forall in Hx. by eapply HRS; [apply Hx| |].
Qed.

Lemma omap_lookup_seq {A} (l1 l2 : list A) :
  omap ((l1 ++ l2) !!.) (seq (length l1) (length l2)) = l2.
Proof.
  revert l1. induction l2 as [|a l2 IH]; intros l1; [done|]. simpl.
  rewrite list_lookup_middle by done. f_equal.
  specialize (IH (l1 ++ [a])). rewrite length_app, <-(assoc_L (++)) in IH. simpl in IH.
  by rewrite Nat.add_1_r in IH.
Qed.
