(* ===== verification/Go.v ===== *)
(** * Go: the language runtime the service relies on

    Error values with their [%w] chains, effectful calls as state passing over
    an arbitrary world, the machine width of [int], and [time.Time] with the
    calendar conversion that [Format("2006-01-02")] performs. *)
From S2P Require Import Prelude.

(** ** Error values

    The sentinels of internal/domain/errors.go, the sentinels the drivers and
    internal/storage/redis return, a MySQL server error, any other leaf error,
    and the chain node [fmt.Errorf] builds around one [%w] verb, with the text
    before and after it. *)
Inductive error : Type :=
  | ErrNotFound
  | ErrForbidden
  | ErrConflict
  | ErrUnauthorized
  | ErrCacheMiss
  | ErrNoRows
  | RedisNil
  | MySQLError (Number : Z) (Message : string)
  | OtherError (msg : string)
  | Errorf (pre : string) (cause : error) (post : string).

#[global] Instance error_eq_dec : EqDecision error.
Proof. solve_decision. Defined.

(** [errors.Is(err, target)]: some error of the chain is the target. *)
Fixpoint errors_Is (err target : error) : bool :=
  bool_decide (err = target) ||
  match err with Errorf _ cause _ => errors_Is cause target | _ => false end.

(** [errors.As(err, &me)] for a [*mysql.MySQLError]: the first one of the chain. *)
Fixpoint errors_As_MySQL (err : error) : option Z :=
  match err with
  | MySQLError n _ => Some n
  | Errorf _ cause _ => errors_As_MySQL cause
  | _ => None
  end.

(** The chain's root: what is left when every [%w] layer is removed. *)
Fixpoint root_cause (err : error) : error :=
  match err with Errorf _ cause _ => root_cause cause | e => e end.

Definition is_sentinel (e : error) : bool :=
  match e with Errorf _ _ _ => false | _ => true end.

Lemma errors_Is_Errorf pre e post target :
  is_sentinel target = true →
  errors_Is (Errorf pre e post) target = errors_Is e target.
Proof. intros H. cbn [errors_Is]. case_bool_decide; [subst; discriminate H|done]. Qed.

(** On a sentinel, [errors.Is] looks only at the root of the chain. *)
Lemma errors_Is_root e target :
  is_sentinel target = true →
  errors_Is e target = bool_decide (root_cause e = target).
Proof.
  intros H. induction e as [| | | | | | | | |pre e IH post];
    [by cbn [errors_Is root_cause]; rewrite orb_false_r..|].
  by rewrite errors_Is_Errorf.
Qed.

Lemma errors_Is_refl e : errors_Is e e = true.
Proof. destruct e; cbn [errors_Is]; by rewrite bool_decide_true. Qed.

(** An error chain has one root, so it matches at most one sentinel. *)
Lemma errors_Is_unique e t1 t2 :
  is_sentinel t1 = true → is_sentinel t2 = true →
  errors_Is e t1 = true → errors_Is e t2 = true → t1 = t2.
Proof.
  intros H1 H2. rewrite !errors_Is_root, !bool_decide_eq_true by done. congruence.
Qed.

Arguments errors_Is err target : simpl never.

(** ** Effectful calls

    A Go call that may fail, over a world of type [W]: it returns the world it
    leaves and a value or an error. The world is returned on an error too. *)
Inductive result (A : Type) : Type :=
  | Ok (a : A)
  | Err (e : error).
Arguments Ok {A} a.
Arguments Err {A} e.

#[global] Instance result_eq_dec `{EqDecision A} : EqDecision (result A).
Proof. solve_decision. Defined.

(** Results chain as calls do: the first error ends the chain. *)
#[global] Instance result_ret : MRet result := λ A a, Ok a.
#[global] Instance result_bind : MBind result := λ A B f r,
  match r with Ok a => f a | Err e => Err e end.

Lemma result_bind_Ok {A B} (r : result A) (f : A → result B) b :
  (r ≫= f) = Ok b ↔ ∃ a, r = Ok a ∧ f a = Ok b.
Proof. destruct r as [a|e]; simpl; naive_solver. Qed.

Lemma result_bind_Err {A B} (r : result A) (f : A → result B) e :
  (r ≫= f) = Err e ↔ r = Err e ∨ ∃ a, r = Ok a ∧ f a = Err e.
Proof. destruct r as [a|e']; simpl; naive_solver. Qed.

(** All of a list, or the first error ([for range] with an early return). *)
Fixpoint result_mapM {A B} (f : A → result B) (l : list A) : result (list B) :=
  match l with
  | [] => Ok []
  | a :: l => b ← f a; bs ← result_mapM f l; Ok (b :: bs)
  end.

Lemma result_mapM_Ok {A B C} (f : B → result C) (g : A → B) (h : A → C) l :
  (∀ a, f (g a) = Ok (h a)) → result_mapM f (g <$> l) = Ok (h <$> l).
Proof.
  intros Hf. induction l as [|a l IH]; [done|].
  change ((b ← f (g a); bs ← result_mapM f (g <$> l); Ok (b :: bs)) = Ok (h <$> a :: l)).
  by rewrite Hf, IH.
Qed.

Definition comp (W A : Type) : Type := W → W * result A.

#[global] Instance comp_ret W : MRet (comp W) := λ A a w, (w, Ok a).
#[global] Instance comp_bind W : MBind (comp W) := λ A B f m w,
  match m w with
  | (w', Ok a) => f a w'
  | (w', Err e) => (w', Err e)
  end.

(** A result computed without effects. *)
Definition lift_result {W A} (r : result A) : comp W A := λ w, (w, r).

(** [return ..., err] *)
Definition throw {W A} (e : error) : comp W A := λ w, (w, Err e).

(** [if err != nil { return ..., h(err) }] after a call *)
Definition on_err {W A} (h : error → error) (m : comp W A) : comp W A := λ w,
  match m w with
  | (w', Ok a) => (w', Ok a)
  | (w', Err e) => (w', Err (h e))
  end.

(** [if err := call(); err != nil { log.Warn(...) }]: the error is dropped *)
Definition ignore_err {W A} (m : comp W A) : comp W unit := λ w, ((m w).1, Ok tt).

(** A call whose error the caller inspects: the result is a value. *)
Definition attempt {W A} (m : comp W A) : comp W (result A) := λ w,
  ((m w).1, Ok (m w).2).

(** [fmt.Errorf("<op>: <what>: %w", op, err)] *)
Definition wrap (pre : string) (err : error) : error := Errorf (pre +:+ ": ") err "".

Lemma wrap_Is pre e target :
  is_sentinel target = true → errors_Is (wrap pre e) target = errors_Is e target.
Proof. apply errors_Is_Errorf. Qed.

Lemma comp_bind_run {W A B} (m : comp W A) (f : A → comp W B) w :
  (m ≫= f) w = match m w with
               | (w', Ok a) => f a w'
               | (w', Err e) => (w', Err e)
               end.
Proof. done. Qed.

Lemma on_err_run {W A} h (m : comp W A) w :
  on_err h m w = match m w with
                 | (w', Ok a) => (w', Ok a)
                 | (w', Err e) => (w', Err (h e))
                 end.
Proof. done. Qed.

(** The monad laws, for rewriting composed handlers. *)
Lemma comp_ret_bind {W A B} (a : A) (f : A → comp W B) w : (mret a ≫= f) w = f a w.
Proof. done. Qed.

Lemma comp_bind_assoc {W A B C} (m : comp W A) (f : A → comp W B) (g : B → comp W C) w :
  ((m ≫= f) ≫= g) w = (m ≫= (λ a, f a ≫= g)) w.
Proof. unfold mbind, comp_bind. by destruct (m w) as [w' [a|e]]. Qed.

(** *** What a call preserves *)

Definition preserves {W A} (P : W → Prop) (m : comp W A) : Prop := ∀ w, P w → P (m w).1.

Lemma preserves_ret {W A} P (a : A) : preserves P (mret a : comp W A).
Proof. by intros w. Qed.
Lemma preserves_lift {W A} P (r : result A) : preserves P (lift_result r : comp W A).
Proof. by intros w. Qed.
Lemma preserves_bind {W A B} P (m : comp W A) (f : A → comp W B) :
  preserves P m → (∀ a, preserves P (f a)) → preserves P (m ≫= f).
Proof.
  intros Hm Hf w Hw. unfold mbind, comp_bind. specialize (Hm w Hw).
  destruct (m w) as [w' [a|e]]; [by apply Hf|done].
Qed.
Lemma preserves_on_err {W A} P h (m : comp W A) : preserves P m → preserves P (on_err h m).
Proof. intros Hm w Hw. unfold on_err. specialize (Hm w Hw). by destruct (m w) as [w' [a|e]]. Qed.

(** *** Inversion of a run

    What a composed call did, in terms of the calls it is made of. *)
Lemma bind_inv {W A B} (m : comp W A) (f : A → comp W B) w w' r :
  (m ≫= f) w = (w', r) →
  (∃ w1 a, m w = (w1, Ok a) ∧ f a w1 = (w', r)) ∨ (∃ e, m w = (w', Err e) ∧ r = Err e).
Proof.
  unfold mbind, comp_bind. destruct (m w) as [w1 [a|e]]; [by eauto|].
  intros [= -> <-]. eauto.
Qed.

Lemma ret_inv {W A} (a : A) (w w' : W) r : (mret a : comp W A) w = (w', r) → w' = w ∧ r = Ok a.
Proof. by intros [= -> <-]. Qed.

Lemma throw_inv {W A} e (w w' : W) (r : result A) : throw e w = (w', r) → w' = w ∧ r = Err e.
Proof. by intros [= -> <-]. Qed.

Lemma on_err_inv {W A} h (m : comp W A) w w' r :
  on_err h m w = (w', r) →
  (∃ a, m w = (w', Ok a) ∧ r = Ok a) ∨ (∃ e, m w = (w', Err e) ∧ r = Err (h e)).
Proof. unfold on_err. destruct (m w) as [w1 [a|e]]; intros [= -> <-]; eauto. Qed.

Lemma ignore_err_inv {W A} (m : comp W A) w w' r :
  ignore_err m w = (w', r) → r = Ok tt ∧ ∃ r0, m w = (w', r0).
Proof. unfold ignore_err. destruct (m w) as [w1 r0]. intros [= -> <-]. eauto. Qed.

Lemma attempt_inv {W A} (m : comp W A) w w' r :
  attempt m w = (w', r) → ∃ r0, m w = (w', r0) ∧ r = Ok r0.
Proof. unfold attempt. destruct (m w) as [w1 r0]. intros [= -> <-]. eauto. Qed.

Lemma on_err_bind_inv {W A B} h (m : comp W A) (f : A → comp W B) w w' r :
  (on_err h m ≫= f) w = (w', r) →
  (∃ w1 a, m w = (w1, Ok a) ∧ f a w1 = (w', r)) ∨ (∃ e, m w = (w', Err e) ∧ r = Err (h e)).
Proof.
  unfold mbind, comp_bind, on_err. destruct (m w) as [w1 [a|e]]; [by eauto|].
  intros [= -> <-]. eauto.
Qed.

Lemma ignore_err_bind_inv {W A B} (m : comp W A) (f : unit → comp W B) w w' r :
  (ignore_err m ≫= f) w = (w', r) → ∃ w1 r0, m w = (w1, r0) ∧ f tt w1 = (w', r).
Proof. unfold mbind, comp_bind, ignore_err. destruct (m w) as [w1 r0]. eauto. Qed.

Lemma attempt_bind_inv {W A B} (m : comp W A) (f : result A → comp W B) w w' r :
  (attempt m ≫= f) w = (w', r) → ∃ w1 r0, m w = (w1, r0) ∧ f r0 w1 = (w', r).
Proof. unfold mbind, comp_bind, attempt. destruct (m w) as [w1 r0]. eauto. Qed.

(** [run H as w x E] performs the first call of the sequence [H] runs: [E] is
    that call, leaving world [w] and result [x]; the second goal, if any, is the
    failure of the call. *)
Tactic Notation "run" hyp(H) "as" ident(w) ident(x) ident(E) :=
  lazymatch type of H with
  | @mbind _ _ _ _ _ (on_err _ _) _ = _ =>
      apply on_err_bind_inv in H as [(w & x & E & H)|(x & E & ?)]
  | @mbind _ _ _ _ _ (ignore_err _) _ = _ => apply ignore_err_bind_inv in H as (w & x & E & H)
  | @mbind _ _ _ _ _ (attempt _) _ = _ => apply attempt_bind_inv in H as (w & x & E & H)
  | @mbind _ _ _ _ _ _ _ = _ => apply bind_inv in H as [(w & x & E & H)|(x & E & ?)]
  end; simplify_eq/=.

(** [run_last H as x E] takes apart a single call at the end of a sequence. *)
Tactic Notation "run_last" hyp(H) "as" ident(x) ident(E) :=
  lazymatch type of H with
  | on_err _ _ _ = _ => apply on_err_inv in H as [(x & E & ?)|(x & E & ?)]
  | ignore_err _ _ = _ => apply ignore_err_inv in H as (? & x & E)
  | attempt _ _ = _ => apply attempt_inv in H as (x & E & ?)
  end; simplify_eq/=.

Ltac run_ret H :=
  lazymatch type of H with
  | @mret _ _ _ _ _ = _ => apply ret_inv in H as [? ?]
  | throw _ _ = _ => apply throw_inv in H as [? ?]
  end; simplify_eq/=.

(** ** Round trips to a server *)

(** What becomes of a round trip to the server: it is lost before the server
    acts, or its answer is lost after. *)
Inductive fault : Type :=
  | NoFault
  | FailBefore (msg : string)
  | FailAfter (msg : string).

(** ** Machine integers *)

Open Scope Z_scope.

(** [int] is 64 bits wide and wraps around. *)
Definition int64_wrap (z : Z) : Z := (z + 2 ^ 63) `mod` 2 ^ 64 - 2 ^ 63.
Definition int64_range (z : Z) : Prop := - 2 ^ 63 ≤ z < 2 ^ 63.

Lemma int64_wrap_id z : int64_range z → int64_wrap z = z.
Proof. unfold int64_range, int64_wrap. intros ?. rewrite Z.mod_small; lia. Qed.

Lemma int64_wrap_range z : int64_range (int64_wrap z).
Proof.
  unfold int64_range, int64_wrap.
  pose proof (Z.mod_pos_bound (z + 2 ^ 63) (2 ^ 64)). lia.
Qed.

(** [%d] of an [int]. *)
Definition fmt_d (z : Z) : string := pretty z.

(** [time]'s [appendInt(b, x, width)]: decimal, zero-padded to [width]. *)
Definition append_int (x : Z) (width : nat) : string :=
  let digits := pretty (Z.to_N (Z.abs x)) in
  (if x <? 0 then "-" else "") +:+
  zeros (width - String.length digits) +:+ digits.

(** ** time.Time

    An instant, in nanoseconds since the Unix epoch, and the UTC offset of its
    location in seconds. *)
Record time : Type := Time { t_ns : Z; t_off : Z }.

#[global] Instance time_eq_dec : EqDecision time.
Proof. solve_decision. Defined.

(** The zero value of [time.Time]: January 1 of year 1, UTC. *)
Definition zero_time : time := Time (-62135596800000000000) 0.

(** [t.Equal(u)] compares instants, whatever the locations. *)
Definition time_Equal (t u : time) : bool := bool_decide (t_ns t = t_ns u).

Definition time_UTC (t : time) : time := Time (t_ns t) 0.

Definition ns_per_day : Z := 86400000000000.

(** The civil day of [t] in its own location, in days since the epoch. *)
Definition day_of (t : time) : Z := (t_ns t + t_off t * 1000000000) `div` ns_per_day.

(** Days since the epoch to (year, month, day) in the proleptic Gregorian
    calendar, by 400-year eras that start on March 1. *)
Definition civil_of_days (days : Z) : Z * Z * Z :=
  let z := days + 719468 in
  let era := z `div` 146097 in
  let doe := z `mod` 146097 in
  let yoe := (doe - doe `div` 1460 + doe `div` 36524 - doe `div` 146096) `div` 365 in
  let doy := doe - (365 * yoe + yoe `div` 4 - yoe `div` 100) in
  let mp := (5 * doy + 2) `div` 153 in
  let d := doy - (153 * mp + 2) `div` 5 + 1 in
  let m := if mp <? 10 then mp + 3 else mp - 9 in
  (yoe + era * 400 + (if m <=? 2 then 1 else 0), m, d).

Definition days_of_civil (ymd : Z * Z * Z) : Z :=
  let '(y0, m, d) := ymd in
  let y := y0 - (if m <=? 2 then 1 else 0) in
  let era := y `div` 400 in
  let yoe := y `mod` 400 in
  let mp := if m <=? 2 then m + 9 else m - 3 in
  let doy := (153 * mp + 2) `div` 5 + d - 1 in
  let doe := yoe * 365 + yoe `div` 4 - yoe `div` 100 + doy in
  era * 146097 + doe - 719468.

(** [t.Format("2006-01-02")] *)
Definition Format_date (t : time) : string :=
  let '(y, m, d) := civil_of_days (day_of t) in
  append_int y 4 +:+ "-" +:+ append_int m 2 +:+ "-" +:+ append_int d 2.

(** *** The calendar conversion is injective *)

Lemma civil_bounds doe :
  0 ≤ doe < 146097 →
  let yoe := (doe - doe `div` 1460 + doe `div` 36524 - doe `div` 146096) `div` 365 in
  let doy := doe - (365 * yoe + yoe `div` 4 - yoe `div` 100) in
  0 ≤ yoe < 400 ∧ 0 ≤ doy ≤ 366.
Proof.
  intros ? yoe doy. subst yoe doy. split; Z.div_mod_to_equations; lia.
Qed.

Lemma month_of_mp mp m :
  m = (if mp <? 10 then mp + 3 else mp - 9) → 0 ≤ mp < 12 →
  mp = (if m <=? 2 then m + 9 else m - 3) ∧ 1 ≤ m ≤ 12.
Proof. intros ->; destruct (Z.ltb_spec mp 10); case_match; lia. Qed.

Lemma days_of_civil_of_days days : days_of_civil (civil_of_days days) = days.
Proof.
  unfold days_of_civil, civil_of_days. cbv zeta.
  set (z := days + 719468). set (doe := z `mod` 146097). set (era := z `div` 146097).
  assert (Hdoe : 0 ≤ doe < 146097) by (subst doe; apply Z.mod_pos_bound; lia).
  assert (Hz : z = 146097 * era + doe) by (apply Z.div_mod; lia).
  pose proof (civil_bounds doe Hdoe) as Hb. cbv zeta in Hb.
  set (yoe := (doe - doe `div` 1460 + doe `div` 36524 - doe `div` 146096) `div` 365) in *.
  set (doy := doe - (365 * yoe + yoe `div` 4 - yoe `div` 100)) in *.
  set (mp := (5 * doy + 2) `div` 153) in *.
  assert (Hmp : 0 ≤ mp < 12) by (subst mp; Z.div_mod_to_equations; lia).
  destruct (month_of_mp mp _ eq_refl Hmp) as [Hm _]. rewrite <-Hm.
  set (m := if mp <? 10 then mp + 3 else mp - 9) in *.
  replace (yoe + era * 400 + (if m <=? 2 then 1 else 0) - (if m <=? 2 then 1 else 0))
    with (yoe + era * 400) by lia.
  rewrite Z.div_add, Z.mod_add, Z.div_small, Z.mod_small by lia.
  subst doy z. lia.
Qed.

Lemma civil_of_days_md days :
  let '(_, m, d) := civil_of_days days in 1 ≤ m ≤ 12 ∧ 1 ≤ d.
Proof.
  unfold civil_of_days. cbv zeta.
  set (doe := (days + 719468) `mod` 146097).
  assert (Hdoe : 0 ≤ doe < 146097) by (subst doe; apply Z.mod_pos_bound; lia).
  pose proof (civil_bounds doe Hdoe) as Hb. cbv zeta in Hb.
  set (yoe := (doe - doe `div` 1460 + doe `div` 36524 - doe `div` 146096) `div` 365) in *.
  set (doy := doe - (365 * yoe + yoe `div` 4 - yoe `div` 100)) in *.
  set (mp := (5 * doy + 2) `div` 153) in *.
  assert (Hmp : 0 ≤ mp < 12) by (subst mp; Z.div_mod_to_equations; lia).
  split; [by apply (month_of_mp mp _ eq_refl Hmp)|].
  subst mp. Z.div_mod_to_equations. lia.
Qed.

Lemma append_int_abs x width :
  undec 0 (zeros (width - String.length (pretty (Z.to_N (Z.abs x)))) +:+
           pretty (Z.to_N (Z.abs x))) = Z.to_N (Z.abs x).
Proof. by rewrite undec_zeros, undec_pretty_N. Qed.

Lemma zpad_digits k (n : N) : str_forall is_digit (zeros k +:+ pretty n) = true.
Proof. by rewrite str_forall_app, zeros_digits, pretty_N_digits. Qed.

Lemma append_int_inj x y width : append_int x width = append_int y width → x = y.
Proof.
  unfold append_int. intros H.
  assert (Hd : ∀ s t, str_forall is_digit s = true → s = "-" +:+ t → False).
  { intros s t Hs ->. done. }
  destruct (Z.ltb_spec x 0), (Z.ltb_spec y 0).
  - rewrite !str_app_cons, !str_app_nil_l in H. injection H as H.
    apply (f_equal (undec 0)) in H. rewrite !append_int_abs in H. lia.
  - rewrite str_app_nil_l in H. exfalso. by eapply Hd; [apply zpad_digits|symmetry].
  - rewrite str_app_nil_l in H. exfalso. by eapply Hd; [apply zpad_digits|].
  - rewrite !str_app_nil_l in H. apply (f_equal (undec 0)) in H.
    rewrite !append_int_abs in H. lia.
Qed.

Lemma append_int_digits x width :
  0 ≤ x → str_forall is_digit (append_int x width) = true.
Proof.
  intros Hx. unfold append_int. destruct (Z.ltb_spec x 0); [lia|].
  rewrite str_app_nil_l. apply zpad_digits.
Qed.

(** Two instants print the same date exactly when they fall on the same civil
    day of their locations. *)
Lemma Format_date_inj t u : Format_date t = Format_date u ↔ day_of t = day_of u.
Proof.
  split; [|unfold Format_date; by intros ->].
  unfold Format_date.
  pose proof (civil_of_days_md (day_of t)). pose proof (civil_of_days_md (day_of u)).
  destruct (civil_of_days (day_of t)) as [[y m] d] eqn:Et.
  destruct (civil_of_days (day_of u)) as [[y' m'] d'] eqn:Eu.
  assert (Hr : ∀ a b c : string, a +:+ "-" +:+ b +:+ "-" +:+ c =
    (a +:+ String "-" b) +:+ String "-" c).
  { intros a b c. by rewrite str_app_assoc, !str_app_cons, !str_app_nil_l. }
  rewrite !Hr. clear Hr. intros Heq.
  apply (str_sep_inj_r is_digit) in Heq as [Heq Hd]; [|done|apply append_int_digits; lia..].
  apply (str_sep_inj_r is_digit) in Heq as [Hy Hm]; [|done|apply append_int_digits; lia..].
  apply append_int_inj in Hy, Hm, Hd. subst.
  rewrite <-(days_of_civil_of_days (day_of t)), <-(days_of_civil_of_days (day_of u)).
  by rewrite Et, Eu.
Qed.

Example Format_date_epoch : Format_date (Time 0 0) = "1970-01-01".
Proof. reflexivity. Qed.

Example Format_date_leap : Format_date (Time (951782400 * 1000000000) 0) = "2000-02-29".
Proof. reflexivity. Qed.

Example Format_date_zero : Format_date zero_time = "0001-01-01".
Proof. reflexivity. Qed.
