(* ===== verification/GoStrings.v ===== *)
(** * GoStrings: package strings

    The functions of Go's [strings] that the program calls, on byte strings,
    with the facts about them that more than one component uses. Case and white
    space are the ASCII ones. *)
From S2P Require Import Prelude.

(** strings.CutPrefix *)
Fixpoint CutPrefix (s prefix : string) {struct prefix} : option string :=
  match prefix, s with
  | EmptyString, _ => Some s
  | String p prefix, String c s => if bool_decide (p = c) then CutPrefix s prefix else None
  | String _ _, EmptyString => None
  end.

Lemma CutPrefix_app p s : CutPrefix (p +:+ s) p = Some s.
Proof.
  induction p as [|c p IH]; [done|]. rewrite str_app_cons. cbn. by rewrite bool_decide_true.
Qed.

Lemma CutPrefix_Some s p t : CutPrefix s p = Some t → s = p +:+ t.
Proof.
  revert s. induction p as [|c p IH]; intros s; [by intros [= ->]|].
  destruct s as [|d s]; [done|]. cbn. case_bool_decide; [|done]. subst.
  intros Hs. by rewrite str_app_cons, (IH _ Hs).
Qed.

(** [strings.IndexByte] and [strings.LastIndexByte] *)
Fixpoint IndexByte (s : string) (c : ascii) : option nat :=
  match s with
  | EmptyString => None
  | String d s => if bool_decide (d = c) then Some 0%nat else S <$> IndexByte s c
  end.
Fixpoint LastIndexByte (s : string) (c : ascii) : option nat :=
  match s with
  | EmptyString => None
  | String d s =>
      match LastIndexByte s c with
      | Some i => Some (S i)
      | None => if bool_decide (d = c) then Some 0%nat else None
      end
  end.

(** [s[i:]] and [s[:i]] *)
Fixpoint drop_str (i : nat) (s : string) : string :=
  match i, s with S i, String _ s => drop_str i s | _, _ => s end.
Fixpoint take_str (i : nat) (s : string) : string :=
  match i, s with S i, String c s => String c (take_str i s) | _, _ => "" end.

(** ** Slices *)

Lemma take_drop_str i s : take_str i s +:+ drop_str i s = s.
Proof.
  revert i. induction s as [|c s IH]; intros [|i]; cbn; try done.
  by rewrite str_app_cons, IH.
Qed.

Lemma take_str_length i s : (i ≤ String.length s)%nat → String.length (take_str i s) = i.
Proof.
  revert i. induction s as [|c s IH]; intros [|i]; cbn; try lia. intros Hi. rewrite IH; lia.
Qed.

Lemma drop_str_length i s : String.length (drop_str i s) = (String.length s - i)%nat.
Proof. revert i. induction s as [|c s IH]; intros [|i]; cbn; auto. Qed.

Lemma drop_str_app s t : drop_str (String.length s) (s +:+ t) = t.
Proof. induction s as [|c s IH]; [by destruct t|]. rewrite str_app_cons. apply IH. Qed.

Lemma take_str_app s t : take_str (String.length s) (s +:+ t) = s.
Proof. induction s as [|c s IH]; [by destruct t|]. rewrite str_app_cons. cbn. by rewrite IH. Qed.

Lemma drop_str_0 s : drop_str 0 s = s.
Proof. by destruct s. Qed.

(** [s[len(s)-n:]] *)
Definition last_str (n : nat) (s : string) : string := drop_str (String.length s - n) s.

Lemma last_str_length n s : (n ≤ String.length s)%nat → String.length (last_str n s) = n.
Proof. unfold last_str. rewrite drop_str_length. lia. Qed.

(** ** Searching *)

Definition HasPrefix (s prefix : string) : bool :=
  if CutPrefix s prefix is Some _ then true else false.

Lemma HasPrefix_true s p : HasPrefix s p = true ↔ ∃ t, s = p +:+ t.
Proof.
  unfold HasPrefix. destruct (CutPrefix s p) as [t|] eqn:E.
  - split; [|done]. intros _. exists t. by apply CutPrefix_Some.
  - split; [done|]. intros [t ->]. by rewrite CutPrefix_app in E.
Qed.

(** [strings.Index]: where [sub] occurs first. *)
Fixpoint Index (s sub : string) : option nat :=
  if HasPrefix s sub then Some 0%nat
  else match s with EmptyString => None | String _ s => S <$> Index s sub end.

Lemma Index_Some s sub i :
  Index s sub = Some i → ∃ t, s = take_str i s +:+ sub +:+ t ∧ (i ≤ String.length s)%nat.
Proof.
  revert i. induction s as [|c s IH]; intros i; cbn [Index].
  - destruct (HasPrefix _ sub) eqn:Hp; [|done]. intros [= <-].
    apply HasPrefix_true in Hp as [t Ht]. by exists t.
  - destruct (HasPrefix _ sub) eqn:Hp.
    + intros [= <-]. apply HasPrefix_true in Hp as [t Ht]. exists t. split; [done|]. cbn. lia.
    + destruct (Index s sub) as [k|] eqn:Hk; [|done]. intros [= <-].
      destruct (IH k eq_refl) as (t & Ht & Hl). exists t. cbn [take_str String.length].
      rewrite str_app_cons, <-Ht. split; [done|lia].
Qed.

(** [strings.Split] at a single byte. *)
Fixpoint Split (s : string) (sep : ascii) : list string :=
  match s with
  | EmptyString => [EmptyString]
  | String c s =>
      if bool_decide (c = sep) then EmptyString :: Split s sep
      else match Split s sep with
           | p :: ps => String c p :: ps
           | [] => [String c EmptyString]
           end
  end.

(** [strings.ReplaceAll(s, c, "")] *)
Fixpoint remove_byte (c : ascii) (s : string) : string :=
  match s with
  | EmptyString => EmptyString
  | String d s => if bool_decide (d = c) then remove_byte c s else String d (remove_byte c s)
  end.

(** ** Case *)

Definition lower_char (c : ascii) : ascii :=
  let n := N_of_ascii c in if ((65 <=? n) && (n <=? 90))%N then ascii_of_N (n + 32) else c.
Fixpoint ToLower (s : string) : string :=
  match s with EmptyString => EmptyString | String c s => String (lower_char c) (ToLower s) end.

(** ** White space *)

Definition is_space (c : ascii) : bool :=
  let n := N_of_ascii c in ((9 <=? n) && (n <=? 13) || (n =? 32))%N.

Fixpoint TrimLeft (s : string) : string :=
  match s with String c s' => if is_space c then TrimLeft s' else s | EmptyString => EmptyString end.
Fixpoint TrimRight (s : string) : string :=
  match s with
  | EmptyString => EmptyString
  | String c s =>
      match TrimRight s with
      | EmptyString => if is_space c then EmptyString else String c EmptyString
      | s => String c s
      end
  end.
Definition TrimSpace (s : string) : string := TrimRight (TrimLeft s).

(** [strings.Fields]: the maximal runs of other characters. *)
Fixpoint fields_from (word : string) (s : string) : list string :=
  let done := match word with EmptyString => [] | _ => [word] end in
  match s with
  | EmptyString => done
  | String c s =>
      if is_space c then done ++ fields_from EmptyString s
      else fields_from (word +:+ String c EmptyString) s
  end.
Definition Fields (s : string) : list string := fields_from EmptyString s.

(** [strings.SplitN] at a single byte: at most [n] pieces, the last unsplit. *)
Fixpoint SplitN (s : string) (sep : ascii) (n : nat) : list string :=
  match n with
  | O => []
  | S n =>
      match n, IndexByte s sep with
      | S _, Some i => take_str i s :: SplitN (drop_str (S i) s) sep n
      | _, _ => [s]
      end
  end.

(** [%q] of a text with nothing to escape. *)
Definition dquote : string := String "034" EmptyString.
Definition quoted (s : string) : string := dquote +:+ s +:+ dquote.
