(* ===== verification/Uuid.v ===== *)
(** * Uuid: identifiers and the google/uuid library

    [uuid.UUID] is a Go array of sixteen bytes. What the library computes on it
    (the string form, parsing) is a class: the operations, and the documented
    behaviour the program relies on. [Canonical] is one implementation, which
    shows that the documented behaviour can be met. *)
From Stdlib Require Import Strings.Byte NArith Eqdep_dec.
From S2P Require Import Prelude Go.

#[global] Instance byte_eq_dec : EqDecision byte := Byte.byte_eq_dec.

#[global] Program Instance byte_countable : Countable byte :=
  inj_countable Byte.to_N Byte.of_N _.
Next Obligation. intros b. apply Byte.of_to_N. Qed.

(** ** uuid.UUID = [16]byte *)
Record uuid : Type := UUID {
  id_bytes : list byte;
  id_length : bool_decide (length id_bytes = 16%nat) = true
}.

Lemma uuid_eq (a b : uuid) : id_bytes a = id_bytes b → a = b.
Proof.
  destruct a as [la Ha], b as [lb Hb]. simpl. intros ->. f_equal.
  apply Eqdep_dec.UIP_dec, bool_dec.
Qed.

#[global] Instance uuid_eq_dec : EqDecision uuid.
Proof.
  intros a b. refine (cast_if (decide (id_bytes a = id_bytes b))).
  - by apply uuid_eq.
  - by intros ->.
Defined.

(** [copy] of sixteen bytes into an array; [None] for another length. *)
Definition uuid_of_bytes (l : list byte) : option uuid :=
  match bool_dec (bool_decide (length l = 16%nat)) true with
  | left H => Some (UUID l H)
  | right _ => None
  end.

Lemma uuid_of_id_bytes id : uuid_of_bytes (id_bytes id) = Some id.
Proof.
  unfold uuid_of_bytes. destruct (bool_dec _ _) as [H|H].
  - f_equal. by apply uuid_eq.
  - exfalso. apply H, id_length.
Qed.

Lemma uuid_of_bytes_Some l id : uuid_of_bytes l = Some id → id_bytes id = l.
Proof. unfold uuid_of_bytes. destruct (bool_dec _ _); [by intros [= <-]|done]. Qed.

Lemma uuid_of_bytes_None l : uuid_of_bytes l = None ↔ length l ≠ 16%nat.
Proof.
  unfold uuid_of_bytes. destruct (bool_dec _ _) as [H|H]; split; intros H'; try done.
  - exfalso. apply H', (bool_decide_eq_true_1 _ H).
  - intros Hl. apply H. by rewrite bool_decide_true.
Qed.

Lemma id_bytes_length id : length (id_bytes id) = 16%nat.
Proof. exact (bool_decide_eq_true_1 _ (id_length id)). Qed.

#[global] Program Instance uuid_countable : Countable uuid :=
  inj_countable id_bytes uuid_of_bytes _.
Next Obligation. apply uuid_of_id_bytes. Qed.

(** ** The library's functions *)
Class UuidLib := {
  uuid_String : uuid → string;
  uuid_Parse : string → result uuid
}.

(** The characters of a canonical UUID string. *)
Definition is_uuid_char (c : ascii) : bool :=
  let n := N_of_ascii c in
  (is_digit c || ((97 <=? n) && (n <=? 102)) || (n =? 45))%N.

Class UuidLibSpec `{UuidLib} : Prop := {
  uuid_String_inj : ∀ a b, uuid_String a = uuid_String b → a = b;
  uuid_String_chars : ∀ a, str_forall is_uuid_char (uuid_String a) = true;
  uuid_Parse_String : ∀ a, uuid_Parse (uuid_String a) = Ok a
}.

(** ** One implementation *)
Module Canonical.

Definition hex_char (n : N) : ascii := ascii_of_N (if (n <? 10)%N then 48 + n else 87 + n).

Definition unhex_char (c : ascii) : option N :=
  let n := N_of_ascii c in
  if ((48 <=? n) && (n <=? 57))%N then Some (n - 48)%N
  else if ((97 <=? n) && (n <=? 102))%N then Some (n - 87)%N
  else None.

Definition hex_byte (b : byte) : string :=
  let n := Byte.to_N b in
  String (hex_char (n / 16)) (String (hex_char (n `mod` 16)) "").

Fixpoint hex (l : list byte) : string :=
  match l with [] => "" | b :: l => hex_byte b +:+ hex l end.

Fixpoint unhex (s : string) : option (list byte) :=
  match s with
  | EmptyString => Some []
  | String c (String d s) =>
      hi ← unhex_char c; lo ← unhex_char d; b ← Byte.of_N (16 * hi + lo);
      l ← unhex s; Some (b :: l)
  | _ => None
  end.

Fixpoint drop_dashes (s : string) : string :=
  match s with
  | EmptyString => ""
  | String c s => if bool_decide (c = "-"%char) then drop_dashes s else String c (drop_dashes s)
  end.

Definition to_string (id : uuid) : string :=
  let l := id_bytes id in
  hex (take 4 l) +:+ "-" +:+ hex (take 2 (drop 4 l)) +:+ "-" +:+
  hex (take 2 (drop 6 l)) +:+ "-" +:+ hex (take 2 (drop 8 l)) +:+ "-" +:+ hex (drop 10 l).

Definition parse (s : string) : result uuid :=
  match unhex (drop_dashes s) ≫= uuid_of_bytes with
  | Some id => Ok id
  | None => Err (OtherError "invalid UUID format")
  end.

Lemma hex_app l1 l2 : hex (l1 ++ l2) = hex l1 +:+ hex l2.
Proof. induction l1 as [|b l1 IH]; [done|]. simpl hex. by rewrite IH, str_app_assoc. Qed.

Lemma hex_byte_spec b :
  str_forall (λ c, is_uuid_char c && negb (bool_decide (c = "-"%char))) (hex_byte b) = true ∧
  (∀ s, unhex (hex_byte b +:+ s) = l ← unhex s; Some (b :: l)).
Proof. destruct b; (split; [vm_compute; reflexivity|intros s; reflexivity]). Qed.

Lemma hex_chars l :
  str_forall (λ c, is_uuid_char c && negb (bool_decide (c = "-"%char))) (hex l) = true.
Proof.
  induction l as [|b l IH]; [done|]. simpl hex.
  by rewrite str_forall_app, (proj1 (hex_byte_spec b)), IH.
Qed.

Lemma unhex_hex l : unhex (hex l) = Some l.
Proof.
  induction l as [|b l IH]; [done|]. simpl hex.
  by rewrite (proj2 (hex_byte_spec b)), IH.
Qed.

Lemma drop_dashes_app s t : drop_dashes (s +:+ t) = drop_dashes s +:+ drop_dashes t.
Proof.
  induction s as [|c s IH]; [done|]. rewrite str_app_cons. simpl.
  case_bool_decide; [done|]. by rewrite IH.
Qed.

Lemma drop_dashes_hex l : drop_dashes (hex l) = hex l.
Proof.
  generalize (hex_chars l). induction (hex l) as [|c s IH]; [done|]. simpl.
  intros [[_ Hc]%andb_true_iff Hs]%andb_true_iff. case_bool_decide; [done|].
  by rewrite IH.
Qed.

Lemma drop_dashes_to_string id : drop_dashes (to_string id) = hex (id_bytes id).
Proof.
  unfold to_string. rewrite !drop_dashes_app, !drop_dashes_hex.
  change (drop_dashes "-") with "". rewrite !str_app_nil_l, <-!hex_app. f_equal.
  set (l := id_bytes id).
  assert (Hs : ∀ n k, take n (drop k l) ++ drop (k + n) l = drop k l).
  { intros n k. by rewrite <-drop_drop, take_drop. }
  change (drop 10 l) with (drop (8 + 2) l). rewrite (Hs 2%nat 8%nat).
  change (drop 8 l) with (drop (6 + 2) l). rewrite (Hs 2%nat 6%nat).
  change (drop 6 l) with (drop (4 + 2) l). rewrite (Hs 2%nat 4%nat).
  by rewrite take_drop.
Qed.

Lemma parse_to_string id : parse (to_string id) = Ok id.
Proof.
  unfold parse. rewrite drop_dashes_to_string, unhex_hex. simpl.
  by rewrite uuid_of_id_bytes.
Qed.

Lemma to_string_chars id : str_forall is_uuid_char (to_string id) = true.
Proof.
  assert (H : ∀ l, str_forall is_uuid_char (hex l) = true).
  { intros l. eapply str_forall_impl, (hex_chars l). by intros c [? _]%andb_true_iff. }
  unfold to_string. by rewrite !str_forall_app, !H.
Qed.

#[export] Instance lib : UuidLib := {| uuid_String := to_string; uuid_Parse := parse |}.

#[export] Instance lib_spec : UuidLibSpec.
Proof.
  split; simpl.
  - intros a b Heq. cut (Ok a = Ok b); [by intros [= ->]|].
    rewrite <-(parse_to_string a), <-(parse_to_string b). by rewrite Heq.
  - apply to_string_chars.
  - apply parse_to_string.
Qed.

(** Identifiers for examples: fifteen zero bytes and the given last one. *)
Definition nth_id (b : byte) : uuid := UUID (replicate 15 x00 ++ [b]) eq_refl.

Example to_string_nth :
  to_string (nth_id xaf) = "00000000-0000-0000-0000-0000000000af".
Proof. reflexivity. Qed.

End Canonical.
