(* ===== verification/TimeText.v ===== *)
(** * TimeText: package time, RFC 3339

    [Time.MarshalJSON] and [Time.UnmarshalJSON] without the quotes: the text of
    an instant with its offset, to the nanosecond, and the strict reader. *)
From S2P Require Import Prelude Go GoStrings.
Open Scope Z_scope.

(** ** Numbers of a fixed width *)

Definition digit_char (n : N) : ascii := ascii_of_N (48 + n)%N.

Fixpoint fixed (w : nat) (n : N) : string :=
  match w with O => "" | S w => fixed w (n / 10) +:+ String (digit_char (n mod 10)) "" end.

(** A byte that must come next. *)
Definition eat (c : ascii) (s : string) : option string :=
  match s with String d t => if bool_decide (d = c) then Some t else None | EmptyString => None end.

(** [w] digits of a number within bounds. *)
Definition num (w : nat) (lo hi : Z) (s : string) : option (Z * string) :=
  let u := take_str w s in
  let n := Z.of_N (undec 0 u) in
  if bool_decide (String.length u = w) && str_forall is_digit u && (lo <=? n) && (n <=? hi)
  then Some (n, drop_str w s) else None.

(** ** Dates *)

Definition isLeap (y : Z) : bool := (y mod 4 =? 0) && (negb (y mod 100 =? 0) || (y mod 400 =? 0)).
Definition daysIn (m y : Z) : Z :=
  if m =? 2 then (if isLeap y then 29 else 28)
  else if (m =? 4) || (m =? 6) || (m =? 9) || (m =? 11) then 30 else 31.

(** ** The text of a time *)

Definition ns_per_sec : Z := 1000000000.

(** Trailing zeros removed. *)
Fixpoint trim_zeros (s : string) : string :=
  match s with
  | EmptyString => ""
  | String c t =>
      match trim_zeros t with
      | "" => if bool_decide (c = "0"%char) then "" else String c ""
      | t => String c t
      end
  end.

(** appendNano: nothing for no fraction. *)
Definition fraction (ns : N) : string :=
  match trim_zeros (fixed 9 ns) with "" => "" | s => String "." s end.

(** The offset, whose division by sixty truncates; an hour of more than
    twenty-three is an error. *)
Definition zone (off : Z) : option string :=
  if off =? 0 then Some "Z"
  else
    let z := Z.quot off 60 in
    let hh := Z.abs z / 60 in
    if hh <? 24 then
      Some (String (if z <? 0 then "-" else "+") (fixed 2 (Z.to_N hh) +:+ ":" +:+ fixed 2 (Z.to_N (Z.abs z mod 60))))
    else None.

(** appendStrictRFC3339: a year outside of four digits is an error. *)
Definition appendStrictRFC3339 (t : time) : option string :=
  let local := t_ns t + t_off t * ns_per_sec in
  let '(y, m, d) := civil_of_days (local `div` ns_per_day) in
  let ns := local `mod` ns_per_day in
  let sec := ns / ns_per_sec in
  if (0 <=? y) && (y <=? 9999) then
    z ← zone (t_off t);
    Some (fixed 4 (Z.to_N y) +:+ "-" +:+ fixed 2 (Z.to_N m) +:+ "-" +:+ fixed 2 (Z.to_N d) +:+ "T" +:+
          fixed 2 (Z.to_N (sec / 3600)) +:+ ":" +:+ fixed 2 (Z.to_N (sec / 60 mod 60)) +:+ ":" +:+
          fixed 2 (Z.to_N (sec mod 60)) +:+ fraction (Z.to_N (ns mod ns_per_sec)) +:+ z)
  else None.

(** ** Reading it *)

(** getnum: one digit or two. *)
Definition num12 (hi : Z) (s : string) : option (Z * string) :=
  match num 2 0 hi s with
  | Some ns => Some ns
  | None => if str_forall is_digit (take_str 2 s) && (2 <=? String.length s)%nat then None else num 1 0 hi s
  end.

Fixpoint span_digits (s : string) : string * string :=
  match s with
  | String c t => if is_digit c then let '(u, r) := span_digits t in (String c u, r) else ("", s)
  | EmptyString => ("", "")
  end.

(** parseNanoseconds: the first nine digits. *)
Definition nanos (u : string) : Z :=
  let u := take_str 9 u in Z.of_N (undec 0 u) * 10 ^ (9 - Z.of_nat (String.length u)).

(** A point, or a comma, and digits. *)
Definition parse_fraction (s : string) : Z * string :=
  match s with
  | String c t =>
      if bool_decide (c ∈ ["."%char; ","%char]) then
        match span_digits t with ("", _) => (0, s) | (u, r) => (nanos u, r) end
      else (0, s)
  | EmptyString => (0, s)
  end.

(** The offset in seconds at the end of the text; twenty-four hours and sixty
    minutes are taken. *)
Definition parse_zone (s : string) : option Z :=
  match eat "Z" s with
  | Some s => match s with "" => Some 0 | _ => None end
  | None =>
      match s with
      | String c s =>
          '(hh, s) ← num 2 0 24 s;
          s ← eat ":" s;
          '(mm, s) ← num 2 0 60 s;
          let off := (hh * 60 + mm) * 60 in
          match s with
          | "" => if bool_decide (c = "+"%char) then Some off
                  else if bool_decide (c = "-"%char) then Some (- off) else None
          | _ => None
          end
      | EmptyString => None
      end
  end.

(** time.Parse with the layout RFC3339, which is what parseStrictRFC3339 falls
    back to, and a faster reading of a part of the same texts comes before it. *)
Definition parseRFC3339 (s : string) : option time :=
  '(y, s) ← num 4 0 9999 s; s ← eat "-" s;
  '(m, s) ← num 2 1 12 s; s ← eat "-" s;
  '(d, s) ← num 2 0 99 s; s ← eat "T" s;
  '(hh, s) ← num12 23 s; s ← eat ":" s;
  '(mm, s) ← num 2 0 59 s; s ← eat ":" s;
  '(ss, s) ← num 2 0 59 s;
  let '(ns, s) := parse_fraction s in
  off ← parse_zone s;
  if (1 <=? d) && (d <=? daysIn m y) then
    Some (Time (days_of_civil (y, m, d) * ns_per_day + (hh * 3600 + mm * 60 + ss - off) * ns_per_sec + ns) off)
  else None.

(** ** Round trip *)

Lemma digit_char_digit n : (n < 10)%N → is_digit (digit_char n) = true ∧ (N_of_ascii (digit_char n) - 48 = n)%N.
Proof.
  intros Hn. unfold digit_char, is_digit. rewrite N_ascii_embedding by lia. split; [|lia].
  apply andb_true_iff. rewrite !N.leb_le. lia.
Qed.

Lemma fixed_digits w n : str_forall is_digit (fixed w n) = true.
Proof.
  revert n. induction w as [|w IH]; intros n; [done|]. cbn [fixed]. rewrite str_forall_app, IH. cbn.
  destruct (digit_char_digit (n mod 10)) as [-> _]; [apply N.mod_lt; lia|done].
Qed.

Lemma fixed_length w n : String.length (fixed w n) = w.
Proof. revert n. induction w as [|w IH]; intros n; [done|]. cbn [fixed]. rewrite str_length_app, IH. cbn. lia. Qed.

Lemma undec_snoc a s c : undec a (s +:+ String c "") = (10 * undec a s + (N_of_ascii c - 48))%N.
Proof. revert a. induction s as [|d s IH]; intros a; [done|]. rewrite str_app_cons. cbn. apply IH. Qed.

Lemma undec_fixed w n : (n < 10 ^ N.of_nat w)%N → undec 0 (fixed w n) = n.
Proof.
  revert n. induction w as [|w IH]; intros n Hn; [cbn in *; lia|]. cbn [fixed]. rewrite undec_snoc.
  destruct (digit_char_digit (n mod 10)) as [_ ->]; [apply N.mod_lt; lia|].
  rewrite Nat2N.inj_succ, N.pow_succ_r' in Hn. rewrite IH by (apply N.Div0.div_lt_upper_bound; lia).
  symmetry. apply N.div_mod. lia.
Qed.

Lemma num_fixed w lo hi n r :
  lo ≤ n ≤ hi → 0 ≤ n < 10 ^ Z.of_nat w → num w lo hi (fixed w (Z.to_N n) +:+ r) = Some (n, r).
Proof.
  intros Hb Hn. unfold num.
  pose proof (take_str_app (fixed w (Z.to_N n)) r) as Ht. rewrite fixed_length in Ht. rewrite Ht.
  pose proof (drop_str_app (fixed w (Z.to_N n)) r) as Hd. rewrite fixed_length in Hd. rewrite Hd.
  rewrite fixed_length, fixed_digits, undec_fixed, Z2N.id by lia.
  rewrite bool_decide_true by done. cbn [andb].
  destruct (Z.leb_spec lo n), (Z.leb_spec n hi); try lia. done.
Qed.

Lemma eat_app c s : eat c (String c s) = Some s.
Proof. cbn. by rewrite bool_decide_true. Qed.

Lemma eat_sep c s : eat c (String c "" +:+ s) = Some s.
Proof. by rewrite str_app_cons, str_app_nil_l, eat_app. Qed.

(** *** Fractions *)

Lemma trim_zeros_app s : ∃ k, s = trim_zeros s +:+ zeros k.
Proof.
  induction s as [|c s [k IH]]; [by exists O|]. cbn [trim_zeros]. destruct (trim_zeros s) as [|d u].
  - rewrite str_app_nil_l in IH. case_bool_decide; subst.
    + exists (S k). done.
    + exists k. done.
  - exists k. rewrite IH at 1. done.
Qed.

Lemma zeros_length k : String.length (zeros k) = k.
Proof. induction k as [|k IH]; [done|]. cbn. by rewrite IH. Qed.

Lemma undec_app_zeros a s k : undec a (s +:+ zeros k) = (undec a s * 10 ^ N.of_nat k)%N.
Proof.
  revert a. induction s as [|c s IH]; intros a; [|rewrite str_app_cons; cbn; apply IH].
  rewrite str_app_nil_l. revert a. induction k as [|k IHk]; intros a; [cbn [zeros undec]; by rewrite N.mul_1_r|].
  rewrite Nat2N.inj_succ, N.pow_succ_r'. cbn [zeros undec]. rewrite IHk.
  cbn [undec]. change (N_of_ascii "0" - 48)%N with 0%N. lia.
Qed.

Lemma span_digits_app u r :
  str_forall is_digit u = true → match r with String c _ => is_digit c = false | "" => True end →
  span_digits (u +:+ r) = (u, r).
Proof.
  induction u as [|c u IH]; cbn [str_forall].
  - intros _ Hr. rewrite str_app_nil_l. destruct r as [|c r]; [done|]. cbn. by rewrite Hr.
  - intros [Hc Hu]%andb_true_iff Hr. rewrite str_app_cons. cbn. by rewrite Hc, IH.
Qed.

Lemma parse_fraction_point s :
  parse_fraction (String "." s) = match span_digits s with ("", _) => (0, String "." s) | (u, r) => (nanos u, r) end.
Proof. reflexivity. Qed.

Lemma parse_fraction_text n r :
  (n < 10 ^ 9)%N → match r with String c _ => is_digit c = false ∧ c ∉ ["."%char; ","%char] | "" => False end →
  parse_fraction (fraction n +:+ r) = (Z.of_N n, r).
Proof.
  intros Hn Hr. unfold fraction. destruct (trim_zeros_app (fixed 9 n)) as [k Hk].
  pose proof (fixed_digits 9 n) as Hd. pose proof (fixed_length 9 n) as Hl. pose proof (undec_fixed 9 n Hn) as Hu.
  destruct (trim_zeros (fixed 9 n)) as [|c u] eqn:Ht.
  - rewrite Hk, undec_app_zeros in Hu. cbn in Hu. subst n. rewrite str_app_nil_l. unfold parse_fraction.
    destruct r as [|d r]; [done|]. destruct Hr as [_ Hr]. by rewrite bool_decide_false.
  - set (t := String c u) in *. rewrite Hk, str_forall_app in Hd. apply andb_true_iff in Hd as [Hd _].
    rewrite Hk, str_length_app, zeros_length in Hl. rewrite Hk, undec_app_zeros in Hu.
    rewrite str_app_cons, parse_fraction_point. rewrite span_digits_app; [|done|by destruct r; [|destruct Hr]].
    subst t. cbv beta iota. f_equal. unfold nanos. cbv zeta.
    assert (take_str 9 (String c u) = String c u) as ->.
    { rewrite <-(take_drop_str 9 (String c u)) at 2.
      assert (drop_str 9 (String c u) = "") as ->; [|by rewrite str_app_nil_r].
      pose proof (drop_str_length 9 (String c u)) as Hx. destruct (drop_str 9 (String c u)); [done|]. cbn in Hx, Hl. lia. }
    rewrite <-Hu, N2Z.inj_mul, N2Z.inj_pow. do 2 f_equal. lia.
Qed.

(** *** Offsets *)

(** The bytes of these texts. *)
Definition text_char (c : ascii) : bool :=
  is_digit c || bool_decide (c ∈ ["-"%char; ":"%char; "T"%char; "Z"%char; "+"%char; "."%char]).

Lemma digits_text s : str_forall is_digit s = true → str_forall text_char s = true.
Proof.
  induction s as [|c s IH]; [done|]. cbn. unfold text_char at 1.
  intros [-> Hs]%andb_true_iff. by rewrite IH.
Qed.

Lemma fixed_text w n : str_forall text_char (fixed w n) = true.
Proof. apply digits_text, fixed_digits. Qed.

Lemma fraction_text n : str_forall text_char (fraction n) = true.
Proof.
  unfold fraction. destruct (trim_zeros_app (fixed 9 n)) as [k Hk]. pose proof (fixed_text 9 n) as Ht.
  rewrite Hk, str_forall_app in Ht. apply andb_true_iff in Ht as [Ht _]. by destruct (trim_zeros (fixed 9 n)).
Qed.

Definition offset_ok (off : Z) : bool := (off mod 60 =? 0) && (Z.abs off <? 86400).

Lemma zone_read off :
  offset_ok off = true →
  ∃ c s, zone off = Some (String c s) ∧ parse_zone (String c s) = Some off ∧ is_digit c = false ∧
    (c ∉ ["."%char; ","%char]) ∧ str_forall text_char (String c s) = true.
Proof.
  unfold offset_ok. rewrite andb_true_iff, Z.eqb_eq, Z.ltb_lt. intros [Hm Ha]. unfold zone.
  destruct (Z.eqb_spec off 0) as [->|Hne]; [eexists _, _; split_and!; [done..|set_solver|done]|]. cbv zeta.
  assert (∃ k, off = 60 * k) as [k ->] by (exists (off / 60); apply Z.div_exact in Hm; lia).
  rewrite (Z.mul_comm 60 k), Z.quot_mul by lia.
  assert (0 ≤ Z.abs k / 60 < 24) as Hh by (split; [apply Z.div_pos; lia|apply Z.div_lt_upper_bound; lia]).
  assert (0 ≤ Z.abs k mod 60 < 60) as Hk by (apply Z.mod_pos_bound; lia).
  destruct (Z.ltb_spec (Z.abs k / 60) 24); [|lia]. eexists _, _. split; [done|].
  set (c := if k <? 0 then "-"%char else "+"%char).
  assert (c = "-"%char ∧ k < 0 ∨ c = "+"%char ∧ 0 < k) as Hc
    by (subst c; destruct (Z.ltb_spec k 0); [left|right]; (split; [done|lia])).
  clearbody c. split.
  - unfold parse_zone. assert (∀ s, eat "Z" (String c s) = None) as -> by (by destruct Hc as [[-> _]|[-> _]]).
    rewrite num_fixed by lia. cbn [mbind option_bind]. rewrite (str_app_cons ":"), str_app_nil_l, eat_app.
    cbn [mbind option_bind]. rewrite <-(str_app_nil_r (fixed 2 (Z.to_N (Z.abs k mod 60)))).
    rewrite num_fixed by lia. cbn [mbind option_bind].
    assert ((Z.abs k / 60 * 60 + Z.abs k mod 60) * 60 = Z.abs k * 60) as -> by (pose proof (Z.div_mod (Z.abs k) 60); lia).
    destruct Hc as [[-> ?]|[-> ?]]; cbn; f_equal; lia.
  - cbn [str_forall]. rewrite !str_forall_app, !fixed_text.
    destruct Hc as [[-> _]|[-> _]]; (split; [done|]; split; [set_solver|done]).
Qed.

(** *** Dates *)

(** The last day of a year that starts in March is the leap day. *)
Lemma leap_day doe :
  0 ≤ doe < 146097 →
  let yoe := (doe - doe `div` 1460 + doe `div` 36524 - doe `div` 146096) `div` 365 in
  let doy := doe - (365 * yoe + yoe `div` 4 - yoe `div` 100) in
  doy ≤ 365 ∧ (doy = 365 → yoe mod 4 = 3 ∧ (yoe mod 100 ≠ 99 ∨ yoe = 399)).
Proof.
  intros ? yoe doy. subst yoe doy.
  split; [Z.div_mod_to_equations; lia|]. intros H'. split; Z.div_mod_to_equations; lia.
Qed.

Lemma leap_after y era : y mod 4 = 3 → y mod 100 ≠ 99 ∨ y = 399 → isLeap (y + era * 400 + 1) = true.
Proof.
  intros H4 H100. unfold isLeap.
  assert ((y + era * 400 + 1) mod 4 = 0) as -> by (Z.div_mod_to_equations; lia). cbn [Z.eqb andb].
  destruct H100 as [H100| ->].
  - assert ((y + era * 400 + 1) mod 100 ≠ 0) as ->%Z.eqb_neq by (Z.div_mod_to_equations; lia). done.
  - assert ((399 + era * 400 + 1) mod 400 = 0) as -> by (Z.div_mod_to_equations; lia). apply orb_true_r.
Qed.

Lemma civil_days_in days :
  let '(y, m, d) := civil_of_days days in 1 ≤ m ≤ 12 ∧ 1 ≤ d ≤ daysIn m y.
Proof.
  pose proof (civil_of_days_md days) as Hmd. unfold civil_of_days in *. cbv zeta in *.
  set (era := (days + 719468) `div` 146097) in *. set (doe := (days + 719468) `mod` 146097) in *.
  assert (Hdoe : 0 ≤ doe < 146097) by (subst doe; apply Z.mod_pos_bound; lia).
  clearbody doe era. pose proof (civil_bounds doe Hdoe) as Hb. pose proof (leap_day doe Hdoe) as Hl. cbv zeta in Hb, Hl.
  set (yoe := (doe - doe `div` 1460 + doe `div` 36524 - doe `div` 146096) `div` 365) in *.
  set (doy := doe - (365 * yoe + yoe `div` 4 - yoe `div` 100)) in *.
  clearbody doy yoe. destruct Hmd as [Hm Hd], Hl as [Hle Hl]. split; [done|]. split; [done|]. clear Hm Hd.
  set (mp := (5 * doy + 2) `div` 153).
  assert (Hmp : 153 * mp ≤ 5 * doy + 2 < 153 * mp + 153) by (subst mp; Z.div_mod_to_equations; lia). clearbody mp.
  assert (mp = 11 ∨ 0 ≤ mp ≤ 10) as [->|Hr] by lia.
  - cbn [Z.ltb Z.compare Pos.compare Pos.compare_cont]. change ((153 * 11 + 2) `div` 5) with 337.
    change (11 - 9) with 2. cbn [Z.leb Z.compare Pos.compare Pos.compare_cont]. unfold daysIn. cbn [Z.eqb Pos.eqb].
    destruct (decide (doy = 365)) as [->|]; [|destruct (isLeap _); lia].
    destruct (Hl eq_refl) as [H4 H100]. rewrite leap_after by done. lia.
  - clear Hl Hle. assert (mp = 0 ∨ mp = 1 ∨ mp = 2 ∨ mp = 3 ∨ mp = 4 ∨ mp = 5 ∨ mp = 6 ∨ mp = 7 ∨ mp = 8 ∨ mp = 9 ∨ mp = 10)
      as Hcases by lia.
    destruct_or! Hcases; subst mp;
      (match goal with |- context [daysIn ?m _] => let m' := eval compute in m in change m with m' end);
      unfold daysIn; cbn [Z.eqb Pos.eqb orb]; Z.div_mod_to_equations; lia.
Qed.

(** *** Times *)

(** The times that have a text. *)
Definition printable (t : time) : bool :=
  let '(y, _, _) := civil_of_days (day_of t) in (0 <=? y) && (y <=? 9999) && offset_ok (t_off t).

Lemma day_clock x :
  0 ≤ x < 86400 → 0 ≤ x / 3600 ≤ 23 ∧ 0 ≤ x / 60 mod 60 ≤ 59 ∧ 0 ≤ x mod 60 ≤ 59 ∧
  x / 3600 * 3600 + x / 60 mod 60 * 60 + x mod 60 = x.
Proof. intros Hx. Z.div_mod_to_equations. lia. Qed.

Lemma num12_fixed n r : 0 ≤ n ≤ 23 → num12 23 (fixed 2 (Z.to_N n) +:+ r) = Some (n, r).
Proof. intros Hn. unfold num12. by rewrite num_fixed by lia. Qed.

(** A printable time has a text of plain characters, which reads as the time. *)
Lemma time_text t :
  printable t = true →
  ∃ s, appendStrictRFC3339 t = Some s ∧ parseRFC3339 s = Some t ∧ str_forall text_char s = true.
Proof.
  unfold printable, appendStrictRFC3339. cbv zeta. fold (day_of t).
  change (t_ns t + t_off t * ns_per_sec) with (t_ns t + t_off t * 1000000000). fold (day_of t).
  pose proof (civil_days_in (day_of t)) as Hin. pose proof (days_of_civil_of_days (day_of t)) as Hciv.
  destruct (civil_of_days (day_of t)) as [[y m] d]. destruct Hin as [Hm Hd].
  rewrite !andb_true_iff, !Z.leb_le. intros [Hy Hoff].
  set (local := t_ns t + t_off t * 1000000000) in *.
  assert (0 ≤ local mod ns_per_day < ns_per_day) as Hb by (by apply Z.mod_pos_bound).
  assert (local = day_of t * ns_per_day + local mod ns_per_day) as Hloc
    by (unfold day_of; rewrite Z.mul_comm; by apply Z.div_mod).
  set (r := local mod ns_per_day) in *. clearbody r.
  set (sec := r / ns_per_sec). set (ns := r mod ns_per_sec).
  assert (r = sec * ns_per_sec + ns ∧ 0 ≤ sec < 86400 ∧ 0 ≤ ns < ns_per_sec) as (Hr & Hsec & Hns).
  { subst sec ns. unfold ns_per_day, ns_per_sec in *. Z.div_mod_to_equations. lia. }
  clearbody sec ns. destruct (day_clock sec Hsec) as (H1 & H2 & H3 & Hclock).
  rewrite (proj2 (Z.leb_le 0 y)), (proj2 (Z.leb_le y 9999)) by lia. cbn [andb].
  destruct (zone_read _ Hoff) as (c & z & -> & Hz & Hc & Hc' & Htc). cbn [mbind option_bind].
  assert (daysIn m y ≤ 31) as H31 by (unfold daysIn; repeat case_match; lia).
  eexists. split; [done|]. split.
  - unfold parseRFC3339.
    repeat (first [rewrite num_fixed by lia | rewrite num12_fixed by lia | rewrite eat_sep]; cbn [mbind option_bind]).
    rewrite parse_fraction_text by (done || unfold ns_per_sec in *; lia).
    rewrite Hz. cbn [mbind option_bind]. rewrite (proj2 (Z.leb_le 1 d)), (proj2 (Z.leb_le d (daysIn m y))) by lia.
    cbn [andb]. rewrite Hciv, Hclock, Z2N.id by lia. destruct t as [n off]. cbn [t_ns t_off] in *. f_equal. f_equal.
    unfold ns_per_sec in *. lia.
  - by rewrite !str_forall_app, !fixed_text, fraction_text, Htc.
Qed.
