(* ===== verification/Json.v ===== *)
(** * Json: package encoding/json, the text

    Texts in UTF-8, JSON values, the compact encoder with its escapes and the
    scanner, with two results: the scanner reads what the encoder writes, and
    its fuel is enough for any text. A string value is kept as it is written
    between its quotes, since [time.Time] reads that text; every other type
    reads what it stands for. A text that does not scan is [None]: the messages
    are the package's. *)
From S2P Require Import Prelude Go GoStrings TimeText.
#[local] Open Scope nat_scope.

(** ** UTF-8 *)

Definition byte_in (lo hi : N) (c : ascii) : bool :=
  ((lo <=? N_of_ascii c) && (N_of_ascii c <=? hi))%N.
Definition cont : ascii → bool := byte_in 128 191.

(** The length of the encoded rune a text starts with; none is [0]. *)
Definition rune_len (s : string) : nat :=
  match s with
  | EmptyString => 0
  | String a s =>
      if byte_in 0 127 a then 1 else
      match s with
      | EmptyString => 0
      | String b s =>
          if byte_in 194 223 a && cont b then 2 else
          match s with
          | EmptyString => 0
          | String c s =>
              if (byte_in 224 224 a && byte_in 160 191 b ||
                  (byte_in 225 236 a || byte_in 238 239 a) && cont b ||
                  byte_in 237 237 a && byte_in 128 159 b) && cont c then 3 else
              match s with
              | EmptyString => 0
              | String d _ =>
                  if (byte_in 240 240 a && byte_in 144 191 b ||
                      byte_in 241 243 a && cont b ||
                      byte_in 244 244 a && byte_in 128 143 b) && cont c && cont d then 4 else 0
              end
          end
      end
  end.

(** A text made of encoded runes. *)
Fixpoint valid_utf8 (s : string) : bool :=
  match s with
  | EmptyString => true
  | String _ t =>
      match rune_len s, t with
      | 1, t | 2, String _ t | 3, String _ (String _ t) | 4, String _ (String _ (String _ t)) => valid_utf8 t
      | _, _ => false
      end
  end.

Definition of_byte (n : N) : ascii := ascii_of_N n.

(** utf8.AppendRune *)
Definition encode_rune (r : N) : string :=
  (if r <? 128 then String (of_byte r) ""
   else if r <? 2048 then String (of_byte (192 + r / 64)) (String (of_byte (128 + r mod 64)) "")
   else if r <? 65536 then
     String (of_byte (224 + r / 4096)) (String (of_byte (128 + (r / 64) mod 64))
       (String (of_byte (128 + r mod 64)) ""))
   else
     String (of_byte (240 + r / 262144)) (String (of_byte (128 + (r / 4096) mod 64))
       (String (of_byte (128 + (r / 64) mod 64)) (String (of_byte (128 + r mod 64)) ""))))%N.

Definition replacement : string := encode_rune 65533.

(** ** Strings *)

Definition quote_char : ascii := "034"%char.
Definition backslash : ascii := "092"%char.

Definition hex_digit (n : N) : ascii := of_byte (if n <? 10 then 48 + n else 87 + n)%N.

(** [appendString] on an ASCII byte, with the HTML characters escaped. *)
Definition escape_ascii (a : ascii) : string :=
  let n := N_of_ascii a in
  (if (n =? 34) || (n =? 92) then String backslash (String a "")
   else if n =? 8 then String backslash "b" else if n =? 12 then String backslash "f"
   else if n =? 10 then String backslash "n" else if n =? 13 then String backslash "r"
   else if n =? 9 then String backslash "t"
   else if (n <? 32) || (n =? 38) || (n =? 60) || (n =? 62) then
     String backslash ("u00" +:+ String (hex_digit (n / 16)) (String (hex_digit (n mod 16)) ""))
   else String a "")%N.

(** U+2028 and U+2029 are escaped too. *)
Definition escape_three (a b c : ascii) : string :=
  if (byte_in 226 226 a && byte_in 128 128 b && byte_in 168 169 c) then
    String backslash ("u202" +:+ String (hex_digit (N_of_ascii c - 160)%N) "")
  else String a (String b (String c "")).

(** [appendString]: what stands between the quotes; a byte that is no text is
    the replacement character. *)
Fixpoint escape (s : string) : string :=
  match s with
  | EmptyString => ""
  | String a t =>
      match rune_len s, t with
      | 1, t => escape_ascii a +:+ escape t
      | 2, String b t => String a (String b (escape t))
      | 3, String b (String c t) => escape_three a b c +:+ escape t
      | 4, String b (String c (String d t)) => String a (String b (String c (String d (escape t))))
      | _, _ => String backslash "ufffd" +:+ escape t
      end
  end.

Definition is_hex (c : ascii) : bool := byte_in 48 57 c || byte_in 97 102 c || byte_in 65 70 c.
Definition hex_val (c : ascii) : N :=
  let n := N_of_ascii c in (if n <=? 57 then n - 48 else if n <=? 70 then n - 55 else n - 87)%N.
Definition hex4 (a b c d : ascii) : N := (hex_val a * 4096 + hex_val b * 256 + hex_val c * 16 + hex_val d)%N.

(** The escapes of one character. *)
Definition unescape (e : ascii) : option ascii :=
  let n := N_of_ascii e in
  (if (n =? 34) || (n =? 92) || (n =? 47) then Some e
   else if n =? 98 then Some (of_byte 8) else if n =? 102 then Some (of_byte 12)
   else if n =? 110 then Some (of_byte 10) else if n =? 114 then Some (of_byte 13)
   else if n =? 116 then Some (of_byte 9) else None)%N.

(** The scanner after a quote: what is written up to the closing quote, and the
    text after it. *)
Fixpoint scan_string (s : string) : option (string * string) :=
  match s with
  | EmptyString => None
  | String c t =>
      if bool_decide (c = quote_char) then Some ("", t)
      else if bool_decide (c = backslash) then
        match t with
        | EmptyString => None
        | String e t =>
            if bool_decide (is_Some (unescape e)) then
              '(raw, r) ← scan_string t; Some (String c (String e raw), r)
            else if bool_decide (e = "u"%char) then
              match t with
              | String h1 (String h2 (String h3 (String h4 t))) =>
                  if is_hex h1 && is_hex h2 && is_hex h3 && is_hex h4 then
                    '(raw, r) ← scan_string t;
                    Some (String c (String e (String h1 (String h2 (String h3 (String h4 raw))))), r)
                  else None
              | _ => None
              end
            else None
        end
      else if byte_in 0 31 c then None
      else '(raw, r) ← scan_string t; Some (String c raw, r)
  end.

(** [unquote]: the text that is written so. A surrogate that is not the first of
    a pair, and a byte that is no text, are the replacement character. *)
Fixpoint unquote (s : string) : string :=
  match s with
  | EmptyString => ""
  | String c t =>
      if bool_decide (c = backslash) then
        match t with
        | EmptyString => ""
        | String e t =>
            match unescape e with
            | Some c => String c (unquote t)
            | None =>
                match t with
                | String h1 (String h2 (String h3 (String h4 t))) =>
                    let r := hex4 h1 h2 h3 h4 in
                    if ((55296 <=? r) && (r <? 57344))%N then
                      match t with
                      | String b (String u (String g1 (String g2 (String g3 (String g4 t'))))) =>
                          let r' := hex4 g1 g2 g3 g4 in
                          if bool_decide (b = backslash) && bool_decide (u = "u"%char) &&
                             ((r <? 56320) && (56320 <=? r') && (r' <? 57344))%N then
                            encode_rune (65536 + (r - 55296) * 1024 + (r' - 56320))%N +:+ unquote t'
                          else replacement +:+ unquote t
                      | _ => replacement +:+ unquote t
                      end
                    else encode_rune r +:+ unquote t
                | _ => ""
                end
            end
        end
      else
        match rune_len s, t with
        | 1, t => String c (unquote t)
        | 2, String b t => String c (String b (unquote t))
        | 3, String b (String d t) => String c (String b (String d (unquote t)))
        | 4, String b (String d (String e t)) => String c (String b (String d (String e (unquote t))))
        | _, _ => replacement +:+ unquote t
        end
  end.

(** *** Round trip *)

(** The length depends on the rune alone. *)
Lemma rune_len_rune s :
  match rune_len s with
  | 1 => ∃ a t, s = String a t ∧ byte_in 0 127 a = true
  | 2 => ∃ a b t, s = String a (String b t) ∧ ∀ t', rune_len (String a (String b t')) = 2
  | 3 => ∃ a b c t, s = String a (String b (String c t)) ∧
           ∀ t', rune_len (String a (String b (String c t'))) = 3
  | 4 => ∃ a b c d t, s = String a (String b (String c (String d t))) ∧
           ∀ t', rune_len (String a (String b (String c (String d t')))) = 4
  | _ => True
  end.
Proof.
  destruct s as [|a s]; [done|]. cbn [rune_len]. destruct (byte_in 0 127 a) eqn:Ha; [by exists a, s|].
  destruct s as [|b s]; [done|]. destruct (byte_in 194 223 a && cont b) eqn:Hb.
  { exists a, b, s. split; [done|]. intros t. cbn [rune_len]. by rewrite Ha, Hb. }
  destruct s as [|c s]; [done|]. destruct (_ && cont c) eqn:Hc.
  { exists a, b, c, s. split; [done|]. intros t. cbn [rune_len]. by rewrite Ha, Hb, Hc. }
  destruct s as [|d s]; [done|]. destruct (_ && cont d) eqn:Hd; [|done].
  exists a, b, c, d, s. split; [done|]. intros t. cbn [rune_len]. by rewrite Ha, Hb, Hc, Hd.
Qed.

(** Texts rune by rune. *)
Lemma utf8_ind (P : string → Prop) :
  P "" →
  (∀ a s, byte_in 0 127 a = true → valid_utf8 s = true → P s → P (String a s)) →
  (∀ a b s, (∀ t, rune_len (String a (String b t)) = 2%nat) → valid_utf8 s = true → P s →
     P (String a (String b s))) →
  (∀ a b c s, (∀ t, rune_len (String a (String b (String c t))) = 3%nat) → valid_utf8 s = true → P s →
     P (String a (String b (String c s)))) →
  (∀ a b c d s, (∀ t, rune_len (String a (String b (String c (String d t)))) = 4%nat) →
     valid_utf8 s = true → P s → P (String a (String b (String c (String d s))))) →
  ∀ s, valid_utf8 s = true → P s.
Proof.
  intros P0 P1 P2 P3 P4 s. remember (String.length s) as n eqn:Hn. revert s Hn.
  induction (lt_wf n) as [n _ IH]. intros s -> Hv.
  assert (∀ t, (String.length t < String.length s)%nat → valid_utf8 t = true → P t) as IH' by (intros; by eapply IH).
  clear IH. destruct s as [|a s]; [done|]. cbn [valid_utf8] in Hv.
  pose proof (rune_len_rune (String a s)) as Hr.
  destruct (rune_len (String a s)) as [|[|[|[|[|n]]]]]; try done.
  - destruct Hr as (? & ? & [= <- <-] & Ha). apply P1; [done..|]. apply IH'; [cbn; lia|done].
  - destruct Hr as (? & b & t & [= <- ->] & Ht). apply P2; [done..|]. apply IH'; [cbn; lia|done].
  - destruct Hr as (? & b & c & t & [= <- ->] & Ht). apply P3; [done..|]. apply IH'; [cbn; lia|done].
  - destruct Hr as (? & b & c & d & t & [= <- ->] & Ht). apply P4; [done..|]. apply IH'; [cbn; lia|done].
Qed.

(** The bytes of longer runes are not ASCII. *)
Definition high : ascii → bool := byte_in 128 255.

Lemma byte_in_weaken lo hi lo' hi' c :
  (lo' ≤ lo)%N → (hi ≤ hi')%N → byte_in lo hi c = true → byte_in lo' hi' c = true.
Proof. unfold byte_in. rewrite !andb_true_iff, !N.leb_le. lia. Qed.

Lemma high_plain a : high a = true → a ≠ quote_char ∧ a ≠ backslash ∧ byte_in 0 31 a = false ∧ byte_in 0 127 a = false.
Proof.
  intros Ha. split_and!; [by intros ->..| |]; unfold high, byte_in in *;
    rewrite andb_true_iff, !N.leb_le in Ha; apply andb_false_iff; rewrite !N.leb_gt; lia.
Qed.

Ltac high_solve :=
  repeat match goal with
  | H : _ || _ = true |- _ => apply orb_true_iff in H as [H|H]
  | H : _ && _ = true |- _ => apply andb_true_iff in H as [? H]
  end;
  split_and!; (eapply byte_in_weaken; [| |eassumption]; lia).

Lemma rune_len_two a b t : rune_len (String a (String b t)) = 2 → high a = true ∧ high b = true.
Proof.
  cbn [rune_len]. destruct (byte_in 0 127 a); [done|]. destruct (byte_in 194 223 a && cont b) eqn:H.
  - intros _. high_solve.
  - destruct t as [|c t]; [done|]. destruct (_ && cont c); [done|]. by repeat case_match.
Qed.

Lemma rune_len_three a b c t :
  rune_len (String a (String b (String c t))) = 3 → high a = true ∧ high b = true ∧ high c = true.
Proof.
  cbn [rune_len]. destruct (byte_in 0 127 a); [done|]. destruct (byte_in 194 223 a && cont b); [done|].
  destruct (_ && cont c) eqn:H; [|by repeat case_match].
  intros _. high_solve.
Qed.

Lemma rune_len_four a b c d t :
  rune_len (String a (String b (String c (String d t)))) = 4 →
  high a = true ∧ high b = true ∧ high c = true ∧ high d = true.
Proof.
  cbn [rune_len]. destruct (byte_in 0 127 a); [done|]. destruct (byte_in 194 223 a && cont b); [done|].
  destruct (_ && cont c); [done|]. destruct (_ && cont d) eqn:H; [|done]. intros _. high_solve.
Qed.

Lemma escape_ascii_plain a :
  byte_in 0 127 a = true →
  (∀ s, unquote (escape_ascii a +:+ s) = String a (unquote s)) ∧
  (∀ s, scan_string (escape_ascii a +:+ s) =
    '(raw, r) ← scan_string s; Some (escape_ascii a +:+ raw, r)).
Proof.
  destruct a as [[] [] [] [] [] [] [] []]; intros Ha; try discriminate Ha; clear Ha; split; intros s;
    reflexivity.
Qed.

Lemma rune_len_ascii a s : byte_in 0 127 a = true → rune_len (String a s) = 1.
Proof. intros Ha. cbn [rune_len]. by rewrite Ha. Qed.

(** A plain byte is scanned as it is. *)
Lemma scan_high a s :
  high a = true → scan_string (String a s) = ('(raw, r) ← scan_string s; Some (String a raw, r)).
Proof.
  intros (H1 & H2 & H3 & _)%high_plain. cbn [scan_string]. by rewrite !bool_decide_false, H3 by done.
Qed.

Lemma byte_in_one n a : byte_in n n a = true → a = of_byte n.
Proof.
  unfold byte_in. rewrite andb_true_iff, !N.leb_le. intros H. unfold of_byte.
  rewrite <-(ascii_N_embedding a). f_equal. lia.
Qed.

Lemma byte_in_two n a : byte_in n (n + 1) a = true → a = of_byte n ∨ a = of_byte (n + 1).
Proof.
  unfold byte_in. rewrite andb_true_iff, !N.leb_le. intros H. unfold of_byte.
  rewrite <-(ascii_N_embedding a). destruct (decide (N_of_ascii a = n)) as [->|]; [by left|right]. f_equal. lia.
Qed.

Lemma escape_three_plain a b c :
  (∀ t, rune_len (String a (String b (String c t))) = 3) →
  (∀ s, unquote (escape_three a b c +:+ s) = String a (String b (String c (unquote s)))) ∧
  (∀ s, scan_string (escape_three a b c +:+ s) =
    '(raw, r) ← scan_string s; Some (escape_three a b c +:+ raw, r)).
Proof.
  intros Hl. destruct (rune_len_three a b c "" (Hl "")) as (Ha & Hb & Hc). unfold escape_three.
  destruct (byte_in 226 226 a && byte_in 128 128 b && byte_in 168 169 c) eqn:H.
  - apply andb_true_iff in H as [[->%byte_in_one ->%byte_in_one]%andb_true_iff H].
    by apply (byte_in_two 168) in H as [-> | ->].
  - destruct (high_plain a Ha) as (_ & Hbs & _). split; intros s; rewrite !str_app_cons, str_app_nil_l.
    + cbn [unquote]. rewrite bool_decide_false by done. by rewrite Hl.
    + rewrite !scan_high by done. by destruct (scan_string s) as [[raw r]|].
Qed.

(** What is written between the quotes of a text reads as the text. *)
Lemma unquote_escape s : valid_utf8 s = true → unquote (escape s) = s.
Proof.
  revert s. apply utf8_ind.
  - done.
  - intros a s Ha _ IH. cbn [escape]. rewrite rune_len_ascii by done.
    rewrite (proj1 (escape_ascii_plain a Ha)). by rewrite IH.
  - intros a b s Hl _ IH. destruct (rune_len_two a b "" (Hl "")) as [(_ & Hb & _)%high_plain _].
    cbn [escape]. rewrite Hl. cbn [unquote]. rewrite bool_decide_false by done. by rewrite Hl, IH.
  - intros a b c s Hl _ IH. cbn [escape]. rewrite Hl. by rewrite (proj1 (escape_three_plain a b c Hl)), IH.
  - intros a b c d s Hl _ IH. destruct (rune_len_four a b c d "" (Hl "")) as [(_ & Hb & _)%high_plain _].
    cbn [escape]. rewrite Hl. cbn [unquote]. rewrite bool_decide_false by done. by rewrite Hl, IH.
Qed.

Lemma scan_escape s r :
  valid_utf8 s = true → scan_string (escape s +:+ String quote_char r) = Some (escape s, r).
Proof.
  revert s. apply utf8_ind.
  - done.
  - intros a s Ha _ IH. cbn [escape]. rewrite rune_len_ascii, str_app_assoc by done.
    by rewrite (proj2 (escape_ascii_plain a Ha)), IH.
  - intros a b s Hl _ IH. destruct (rune_len_two a b "" (Hl "")) as [Ha Hb].
    cbn [escape]. rewrite Hl. rewrite !str_app_cons, !scan_high by done. by rewrite IH.
  - intros a b c s Hl _ IH. cbn [escape]. rewrite Hl, str_app_assoc.
    by rewrite (proj2 (escape_three_plain a b c Hl)), IH.
  - intros a b c d s Hl _ IH. destruct (rune_len_four a b c d "" (Hl "")) as (Ha & Hb & Hc & Hd).
    cbn [escape]. rewrite Hl. rewrite !str_app_cons, !scan_high by done. by rewrite IH.
Qed.

(** ** Values *)

#[local] Set Warnings "-register-all,-abstract-large-number".

(** Strings and keys as they are written, numbers as their literals. *)
Inductive json : Type :=
  | JNull
  | JBool (b : bool)
  | JNumber (lit : string)
  | JString (raw : string)
  | JArray (l : list json)
  | JObject (l : list (string * json)).

(** *** The encoder, without white space *)

Definition quoted_raw (raw : string) : string := String quote_char (raw +:+ String quote_char "").

Fixpoint join (l : list string) : string :=
  match l with [] => "" | [s] => s | s :: l => s +:+ String "," (join l) end.

Fixpoint encode (j : json) : string :=
  match j with
  | JNull => "null"
  | JBool b => if b then "true" else "false"
  | JNumber lit => lit
  | JString raw => quoted_raw raw
  | JArray l => String "[" (join (encode <$> l) +:+ "]")
  | JObject l => String "{" (join ((λ kv, quoted_raw kv.1 +:+ String ":" (encode kv.2)) <$> l) +:+ "}")
  end.

(** *** The scanner *)

Definition is_ws (c : ascii) : bool :=
  let n := N_of_ascii c in ((n =? 32) || (n =? 9) || (n =? 10) || (n =? 13))%N.
Fixpoint skip_ws (s : string) : string :=
  match s with String c t => if is_ws c then skip_ws t else s | EmptyString => "" end.

(** One digit or more. *)
Definition scan_digits1 (s : string) : option (string * string) :=
  match span_digits s with ("", _) => None | ur => Some ur end.

(** The integer part: a zero, or digits that start with another. *)
Definition scan_int (s : string) : option (string * string) :=
  match s with
  | String c t =>
      if bool_decide (c = "0"%char) then Some ("0", t)
      else if is_digit c then Some (span_digits s) else None
  | EmptyString => None
  end.

Definition scan_frac (s : string) : option (string * string) :=
  match eat "." s with
  | Some t => '(u, r) ← scan_digits1 t; Some (String "." u, r)
  | None => Some ("", s)
  end.

(** A sign that may come next. *)
Definition scan_sign (signs : list ascii) (s : string) : string * string :=
  match s with
  | String c t => if bool_decide (c ∈ signs) then (String c "", t) else ("", s)
  | EmptyString => ("", "")
  end.

Definition scan_exp (s : string) : option (string * string) :=
  match s with
  | String e t =>
      if bool_decide (e ∈ ["e"%char; "E"%char]) then
        let '(sign, t) := scan_sign ["+"%char; "-"%char] t in
        '(u, r) ← scan_digits1 t; Some (String e (sign +:+ u), r)
      else Some ("", s)
  | EmptyString => Some ("", "")
  end.

Definition scan_number (s : string) : option (string * string) :=
  let '(sign, s) := scan_sign ["-"%char] s in
  '(int, s) ← scan_int s;
  '(frac, s) ← scan_frac s;
  '(exp, s) ← scan_exp s;
  Some (sign +:+ int +:+ frac +:+ exp, s).

Definition scan_literal (s : string) : option (json * string) :=
  match CutPrefix s "null", CutPrefix s "true", CutPrefix s "false" with
  | Some r, _, _ => Some (JNull, r)
  | _, Some r, _ => Some (JBool true, r)
  | _, _, Some r => Some (JBool false, r)
  | _, _, _ => '(lit, r) ← scan_number s; Some (JNumber lit, r)
  end.

(** A value at the head of a text, the members of an object after its brace and
    the elements of an array after its bracket. Two calls have read at least a
    byte, so twice the length of the text is fuel enough (scan_fuel below);
    [depth] is what is left of the nesting that is allowed. *)
Fixpoint scan_value (fuel depth : nat) (s : string) : option (json * string) :=
  match fuel with
  | O => None
  | S fuel =>
      match skip_ws s with
      | String c t =>
          if bool_decide (c = quote_char) then '(raw, r) ← scan_string t; Some (JString raw, r)
          else if bool_decide (c = "{"%char) then
            match depth with
            | O => None
            | S depth =>
                match eat "}" (skip_ws t) with
                | Some r => Some (JObject [], r)
                | None => '(l, r) ← scan_members fuel depth t; Some (JObject l, r)
                end
            end
          else if bool_decide (c = "["%char) then
            match depth with
            | O => None
            | S depth =>
                match eat "]" (skip_ws t) with
                | Some r => Some (JArray [], r)
                | None => '(l, r) ← scan_elements fuel depth t; Some (JArray l, r)
                end
            end
          else scan_literal (String c t)
      | EmptyString => None
      end
  end
with scan_members (fuel depth : nat) (s : string) : option (list (string * json) * string) :=
  match fuel with
  | O => None
  | S fuel =>
      t ← eat quote_char (skip_ws s);
      '(key, t) ← scan_string t;
      t ← eat ":" (skip_ws t);
      '(v, t) ← scan_value fuel depth t;
      match eat "," (skip_ws t) with
      | Some t => '(l, r) ← scan_members fuel depth t; Some ((key, v) :: l, r)
      | None => r ← eat "}" (skip_ws t); Some ([(key, v)], r)
      end
  end
with scan_elements (fuel depth : nat) (s : string) : option (list json * string) :=
  match fuel with
  | O => None
  | S fuel =>
      '(v, t) ← scan_value fuel depth s;
      match eat "," (skip_ws t) with
      | Some t => '(l, r) ← scan_elements fuel depth t; Some (v :: l, r)
      | None => r ← eat "]" (skip_ws t); Some ([v], r)
      end
  end.

Definition maxNestingDepth : nat := 10000.

(** [Unmarshal]: one value and nothing but white space after it; a [Decoder]
    takes the first value and leaves the rest. *)
Definition parse_first (s : string) : option (json * string) :=
  scan_value (S (2 * String.length s)) maxNestingDepth s.
Definition parse (s : string) : option json :=
  '(j, r) ← parse_first s; match skip_ws r with "" => Some j | _ => None end.

(** *** Enough fuel *)

Lemma skip_ws_length s : String.length (skip_ws s) ≤ String.length s.
Proof. induction s as [|c s IH]; [done|]. cbn. destruct (is_ws c); cbn; lia. Qed.

(** The scanner splits the text. *)
Lemma scan_string_split s raw r : scan_string s = Some (raw, r) → s = raw +:+ String quote_char r.
Proof.
  remember (String.length s) as n eqn:Hn. revert s raw r Hn. induction (lt_wf n) as [n _ IH].
  intros s raw r ->.
  assert (∀ t raw' r', scan_string t = Some (raw', r') → String.length t < String.length s →
    t = raw' +:+ String quote_char r') as IH' by (intros; by eapply IH).
  clear IH. destruct s as [|c t]; [done|]. cbn [scan_string].
  case_bool_decide; [by intros [= <- <-]; subst|]. case_bool_decide.
  - destruct t as [|e t]; [done|]. case_bool_decide.
    + destruct (scan_string t) as [[raw' r']|] eqn:Ht; [|done]. cbn. intros [= <- <-].
      apply IH' in Ht as ->; [done|cbn; lia].
    + case_bool_decide; [|done]. destruct t as [|h1 [|h2 [|h3 [|h4 t]]]]; try done.
      destruct (_ && is_hex h4); [|done].
      destruct (scan_string t) as [[raw' r']|] eqn:Ht; [|done]. cbn. intros [= <- <-].
      apply IH' in Ht as ->; [done|cbn; lia].
  - destruct (byte_in 0 31 c); [done|].
    destruct (scan_string t) as [[raw' r']|] eqn:Ht; [|done]. cbn. intros [= <- <-].
    apply IH' in Ht as ->; [done|cbn; lia].
Qed.

Lemma span_digits_split s u r : span_digits s = (u, r) → s = u +:+ r.
Proof.
  revert u r. induction s as [|c s IH]; intros u r; cbn; [by intros [= <- <-]|].
  destruct (is_digit c); [|by intros [= <- <-]]. destruct (span_digits s) as [u' r'] eqn:E.
  intros [= <- <-]. by rewrite (IH _ _ eq_refl).
Qed.

Lemma scan_digits1_split s u r : scan_digits1 s = Some (u, r) → s = u +:+ r.
Proof.
  unfold scan_digits1. destruct (span_digits s) as [[|c u'] r'] eqn:E; [done|]. intros [= <- <-].
  by apply span_digits_split.
Qed.

Lemma eat_split c s t : eat c s = Some t → s = String c t.
Proof. destruct s as [|d s]; [done|]. cbn. case_bool_decide; [|done]. intros [= ->]. by subst. Qed.

Lemma scan_sign_split signs s u r : scan_sign signs s = (u, r) → s = u +:+ r.
Proof. destruct s as [|c s]; cbn; [by intros [= <- <-]|]. case_bool_decide; by intros [= <- <-]. Qed.

Lemma scan_int_split s u r : scan_int s = Some (u, r) → s = u +:+ r ∧ u ≠ "".
Proof.
  destruct s as [|c t]; [done|]. cbn [scan_int]. case_bool_decide; [subst; by intros [= <- <-]|].
  destruct (is_digit c) eqn:Hc; [|done]. intros [= Hs]. split; [by apply span_digits_split|].
  rewrite Hc in Hs. destruct (span_digits t). by injection Hs as <- _.
Qed.

Lemma scan_frac_split s u r : scan_frac s = Some (u, r) → s = u +:+ r.
Proof.
  unfold scan_frac. destruct (eat "." s) as [t|] eqn:Ht; [|by intros [= <- <-]].
  destruct (scan_digits1 t) as [[u' r']|] eqn:E; [|done]. intros [= <- <-].
  by rewrite (eat_split _ _ _ Ht), (scan_digits1_split _ _ _ E).
Qed.

Lemma scan_exp_split s u r : scan_exp s = Some (u, r) → s = u +:+ r.
Proof.
  destruct s as [|e t]; cbn [scan_exp]; [by intros [= <- <-]|]. case_bool_decide; [|by intros [= <- <-]].
  destruct (scan_sign _ t) as [sign t1] eqn:Hs. destruct (scan_digits1 t1) as [[u' r']|] eqn:E; [|done].
  intros [= <- <-]. rewrite (scan_sign_split _ _ _ _ Hs), (scan_digits1_split _ _ _ E).
  by rewrite str_app_cons, str_app_assoc.
Qed.

Lemma scan_number_split s lit r : scan_number s = Some (lit, r) → s = lit +:+ r ∧ lit ≠ "".
Proof.
  unfold scan_number. destruct (scan_sign _ s) as [sign s1] eqn:Hs.
  destruct (scan_int s1) as [[int s2]|] eqn:Hi; [|done]. cbn [mbind option_bind].
  destruct (scan_frac s2) as [[frac s3]|] eqn:Hf; [|done]. cbn [mbind option_bind].
  destruct (scan_exp s3) as [[exp s4]|] eqn:He; [|done]. cbn [mbind option_bind]. intros [= <- <-].
  apply scan_sign_split in Hs as ->. apply scan_int_split in Hi as [-> Hne].
  apply scan_frac_split in Hf as ->. apply scan_exp_split in He as ->. rewrite !str_app_assoc.
  split; [done|]. by destruct sign, int.
Qed.

Lemma scan_literal_length s j r : scan_literal s = Some (j, r) → String.length r < String.length s.
Proof.
  unfold scan_literal.
  assert (∀ p t, CutPrefix s p = Some t → p ≠ "" → String.length t < String.length s) as Hcut.
  { intros p t ->%CutPrefix_Some Hp. rewrite str_length_app. destruct p; [done|cbn; lia]. }
  destruct (CutPrefix s "null") eqn:Hn; [intros [= <- <-]; by eapply Hcut|].
  destruct (CutPrefix s "true") eqn:Ht; [intros [= <- <-]; by eapply Hcut|].
  destruct (CutPrefix s "false") eqn:Hf; [intros [= <- <-]; by eapply Hcut|].
  destruct (scan_number s) as [[lit t]|] eqn:E; [|done]. intros [= <- <-].
  apply scan_number_split in E as [-> Hne]. rewrite str_length_app. destruct lit; [done|cbn; lia].
Qed.

Lemma eat_length c s t : eat c (skip_ws s) = Some t → String.length t < String.length s.
Proof. intros Ht%eat_split. pose proof (skip_ws_length s) as Hl. rewrite Ht in Hl. cbn in Hl. lia. Qed.

Lemma scan_string_length s raw r : scan_string s = Some (raw, r) → String.length r < String.length s.
Proof. intros ->%scan_string_split. rewrite str_length_app. cbn. lia. Qed.

(** Inverting one step of the scanner, with what it has read. *)
Ltac scan_step H :=
  match type of H with
  | (?o ≫= _) = Some _ =>
      let E := fresh "E" in
      destruct o as [[? ?]|] eqn:E; [cbn [mbind option_bind] in H|discriminate H]
  | (?o ≫= _) = Some _ =>
      let E := fresh "E" in
      destruct o as [?|] eqn:E; [cbn [mbind option_bind] in H|discriminate H]
  | match eat ?c ?s with Some _ => _ | None => _ end = Some _ =>
      let E := fresh "E" in destruct (eat c s) eqn:E
  end.

Ltac scan_lengths :=
  repeat match goal with
  | E : eat _ (skip_ws _) = Some _ |- _ => apply eat_length in E
  | E : scan_string _ = Some _ |- _ => apply scan_string_length in E
  end.

Lemma scan_length fuel :
  (∀ depth s j r, scan_value fuel depth s = Some (j, r) → String.length r < String.length s) ∧
  (∀ depth s l r, scan_members fuel depth s = Some (l, r) → String.length r < String.length s) ∧
  (∀ depth s l r, scan_elements fuel depth s = Some (l, r) → String.length r < String.length s).
Proof.
  induction fuel as [|fuel (IHv & IHm & IHe)]; [done|]. split_and!; intros depth s j r H.
  - cbn [scan_value] in H. pose proof (skip_ws_length s) as Hs. destruct (skip_ws s) as [|c t]; [done|]. cbn in Hs.
    case_bool_decide; [scan_step H; simplify_eq; scan_lengths; lia|].
    case_bool_decide; [destruct depth; [done|]; scan_step H; [|scan_step H; apply IHm in E0]; simplify_eq; scan_lengths; lia|].
    case_bool_decide; [destruct depth; [done|]; scan_step H; [|scan_step H; apply IHe in E0]; simplify_eq; scan_lengths; lia|].
    apply scan_literal_length in H. cbn in H. lia.
  - cbn [scan_members] in H. scan_step H. scan_step H. scan_step H. scan_step H. apply IHv in E2.
    scan_step H; scan_step H; [apply IHm in E4|]; simplify_eq; scan_lengths; lia.
  - cbn [scan_elements] in H. scan_step H. apply IHv in E.
    scan_step H; scan_step H; [apply IHe in E1|]; simplify_eq; scan_lengths; lia.
Qed.

(** With twice the length of the text and more, fuel makes no difference. *)
Lemma scan_fuel f g :
  (∀ depth s, 2 * String.length s < f → 2 * String.length s < g → scan_value f depth s = scan_value g depth s) ∧
  (∀ depth s, 2 * String.length s < f → 2 * String.length s < g → scan_members f depth s = scan_members g depth s) ∧
  (∀ depth s, 2 * String.length s + 1 < f → 2 * String.length s + 1 < g →
     scan_elements f depth s = scan_elements g depth s).
Proof.
  revert g. induction f as [|f IH]; intros g; [split_and!; intros; lia|]. destruct g as [|g]; [split_and!; intros; lia|].
  destruct (IH g) as (IHv & IHm & IHe). clear IH. split_and!; intros depth s Hf Hg.
  - cbn [scan_value]. pose proof (skip_ws_length s) as Hs. destruct (skip_ws s) as [|c t]; [done|]. cbn in Hs.
    case_bool_decide; [done|].
    case_bool_decide; [destruct depth as [|depth]; [done|]; destruct (eat _ _); [done|]; by rewrite IHm by lia|].
    case_bool_decide; [destruct depth as [|depth]; [done|]; destruct (eat _ _); [done|]; by rewrite IHe by lia|].
    done.
  - cbn [scan_members]. destruct (eat _ (skip_ws s)) as [t|] eqn:E1; [|done]. cbn [mbind option_bind].
    destruct (scan_string t) as [[key t1]|] eqn:E2; [|done]. cbn [mbind option_bind].
    destruct (eat _ (skip_ws t1)) as [t2|] eqn:E3; [|done]. cbn [mbind option_bind]. scan_lengths.
    rewrite (IHv depth t2) by lia. destruct (scan_value g depth t2) as [[v t3]|] eqn:E4; [|done].
    cbn [mbind option_bind]. apply (proj1 (scan_length g)) in E4.
    destruct (eat "," (skip_ws t3)) as [t4|] eqn:E5; [|done]. scan_lengths. by rewrite (IHm depth t4) by lia.
  - cbn [scan_elements]. rewrite (IHv depth s) by lia. destruct (scan_value g depth s) as [[v t3]|] eqn:E4; [|done].
    cbn [mbind option_bind]. apply (proj1 (scan_length g)) in E4.
    destruct (eat "," (skip_ws t3)) as [t4|] eqn:E5; [|done]. scan_lengths. by rewrite (IHe depth t4) by lia.
Qed.

(** *** The scanner reads what the encoder writes *)

Lemma json_ind' (P : json → Prop) :
  P JNull → (∀ b, P (JBool b)) → (∀ lit, P (JNumber lit)) → (∀ raw, P (JString raw)) →
  (∀ l, Forall P l → P (JArray l)) → (∀ l, Forall (λ kv, P kv.2) l → P (JObject l)) → ∀ j, P j.
Proof.
  intros Hn Hb Hu Hs Ha Ho. fix IH 1. intros [| | | |l|l]; [done|done|done|done| |].
  - apply Ha. induction l as [|j l IHl]; constructor; [apply IH|exact IHl].
  - apply Ho. induction l as [|[k j] l IHl]; constructor; [apply IH|exact IHl].
Qed.

(** Written by the encoder: strings as [escape] leaves them, numbers as the
    scanner takes them, nesting within [depth]. *)
Definition raw_ok (raw : string) : Prop := ∀ r, scan_string (raw +:+ String quote_char r) = Some (raw, r).

(** What can follow a value. *)
Definition delimited (r : string) : Prop :=
  match r with "" => True | String c _ => c ∈ [","%char; "]"%char; "}"%char] end.

Definition number_ok (lit : string) : Prop :=
  ∃ c t, lit = String c t ∧ (is_digit c = true ∨ c = "-"%char) ∧
    ∀ r, delimited r → scan_number (lit +:+ r) = Some (lit, r).

Inductive written : nat → json → Prop :=
  | written_null d : written d JNull
  | written_bool d b : written d (JBool b)
  | written_number d lit : number_ok lit → written d (JNumber lit)
  | written_string d raw : raw_ok raw → written d (JString raw)
  | written_array d l : Forall (written d) l → written (S d) (JArray l)
  | written_object d l : Forall (λ kv, raw_ok kv.1 ∧ written d kv.2) l → written (S d) (JObject l).

(** A byte a value can start with. *)
Definition head_ok (c : ascii) : bool := negb (is_ws c) && bool_decide (c ∉ ["]"%char; "}"%char; ","%char; ":"%char]).

Lemma written_head d j : written d j → ∃ c t, encode j = String c t ∧ head_ok c = true.
Proof.
  destruct 1 as [d|d b|d lit (c & t & -> & Hc & _)|d raw|d l|d l]; cbn; [by eauto|destruct b; by eauto| |by eauto..].
  exists c, t. split; [done|]. destruct Hc as [Hc| ->]; [|done]. by destruct c as [[] [] [] [] [] [] [] []].
Qed.

Lemma skip_ws_head c t : head_ok c = true → skip_ws (String c t) = String c t.
Proof. unfold head_ok. intros [Hc _]%andb_true_iff. cbn. by destruct (is_ws c). Qed.

Lemma eat_head c d t : head_ok c = true → d ∈ ["]"%char; "}"%char; ","%char; ":"%char] → eat d (skip_ws (String c t)) = None.
Proof.
  intros Hc Hd. rewrite skip_ws_head by done. unfold head_ok in Hc.
  apply andb_true_iff in Hc as [_ Hc%bool_decide_eq_true]. cbn. rewrite bool_decide_false; [done|]. by intros ->.
Qed.

Lemma eat_next c t : is_ws c = false → eat c (skip_ws (String c t)) = Some t.
Proof. intros Hc. cbn. rewrite Hc. cbn. by rewrite bool_decide_true. Qed.

Lemma scan_literal_number lit r :
  number_ok lit → delimited r → ∀ fuel d, scan_value (S fuel) d (lit +:+ r) = Some (JNumber lit, r).
Proof.
  intros (c & t & -> & Hc & Hn) Hr fuel d. specialize (Hn r Hr). rewrite str_app_cons in *. cbn [scan_value].
  assert (is_ws c = false ∧ c ≠ quote_char ∧ c ≠ "{"%char ∧ c ≠ "["%char ∧ c ≠ "n"%char ∧ c ≠ "t"%char ∧ c ≠ "f"%char)
    as (Hw & ? & ? & ? & ? & ? & ?).
  { destruct Hc as [Hc| ->]; [|done]. split_and!; [|by intros ->..]. by destruct c as [[] [] [] [] [] [] [] []]. }
  cbn [skip_ws]. rewrite Hw, !bool_decide_false by done. unfold scan_literal. cbn [CutPrefix].
  rewrite !bool_decide_false by congruence. by rewrite Hn.
Qed.

Lemma join_cons s l : l ≠ [] → join (s :: l) = s +:+ String "," (join l).
Proof. by destruct l. Qed.

Section scanned.
(** The values of one level less are scanned. *)
Context (d : nat) (ok : json → Prop).
Hypothesis scanned : ∀ j, ok j → ∀ fuel r, delimited r → 2 * String.length (encode j +:+ r) < fuel →
  scan_value fuel d (encode j +:+ r) = Some (j, r).

Lemma scan_elements_join l r fuel :
  Forall ok l → l ≠ [] → 2 * String.length (join (encode <$> l) +:+ String "]" r) + 1 < fuel →
  scan_elements fuel d (join (encode <$> l) +:+ String "]" r) = Some (l, r).
Proof.
  intros Hl. revert fuel. induction Hl as [|j l Hj Hl IH]; [done|]. intros [|fuel] _ Hf; [lia|].
  cbn [scan_elements]. destruct (decide (l = [])) as [->|Hne].
  - cbn [fmap list_fmap join] in *. rewrite scanned; [|done|cbn; set_solver|lia]. by cbn [mbind option_bind].
  - cbn [fmap list_fmap] in *. rewrite join_cons in * by (by destruct l). rewrite !str_app_assoc, !str_app_cons in *.
    rewrite scanned; [|done|cbn; set_solver|lia]. cbn [mbind option_bind]. rewrite eat_next by done.
    rewrite str_length_app in Hf. cbn [String.length] in Hf. rewrite IH; [done|done|lia].
Qed.

Lemma scan_members_join l r fuel :
  Forall (λ kv, raw_ok kv.1 ∧ ok kv.2) l → l ≠ [] →
  2 * String.length (join ((λ kv, quoted_raw kv.1 +:+ String ":" (encode kv.2)) <$> l) +:+ String "}" r) < fuel →
  scan_members fuel d (join ((λ kv, quoted_raw kv.1 +:+ String ":" (encode kv.2)) <$> l) +:+ String "}" r) = Some (l, r).
Proof.
  intros Hl. revert fuel. induction Hl as [|[k j] l [Hk Hj] Hl IH]; [done|]. intros [|fuel] _ Hf; [lia|].
  cbn [scan_members fst snd] in *.
  assert (∀ t, quoted_raw k +:+ String ":" (encode j) +:+ t = String quote_char (k +:+ String quote_char (String ":" (encode j +:+ t)))) as Hq.
  { intros t. unfold quoted_raw. rewrite !str_app_cons, !str_app_assoc. done. }
  destruct (decide (l = [])) as [->|Hne]; cbn [fmap list_fmap fst snd] in *.
  - cbn [join] in *. rewrite str_app_assoc, Hq in *. rewrite eat_next by done. cbn [mbind option_bind].
    rewrite Hk. cbn [mbind option_bind]. rewrite eat_next by done. cbn [mbind option_bind].
    rewrite scanned; [|done|cbn; set_solver|]; [by cbn [mbind option_bind]|].
    cbn [String.length] in Hf. rewrite str_length_app in Hf. cbn [String.length] in Hf. lia.
  - rewrite join_cons in * by (by destruct l). rewrite !str_app_assoc, Hq in *. rewrite eat_next by done.
    cbn [mbind option_bind]. rewrite Hk. cbn [mbind option_bind]. rewrite eat_next by done. cbn [mbind option_bind].
    cbn [String.length] in Hf. rewrite str_length_app in Hf. cbn [String.length] in Hf.
    rewrite str_app_cons in *. rewrite scanned; [|done|cbn; set_solver|lia].
    cbn [mbind option_bind]. rewrite eat_next by done. rewrite str_length_app in Hf. cbn [String.length] in Hf.
    rewrite IH; [done|done|lia].
Qed.

End scanned.

(** A value that is written is scanned. *)
Definition scans (d : nat) (j : json) : Prop :=
  ∀ fuel r, delimited r → 2 * String.length (encode j +:+ r) < fuel → scan_value fuel d (encode j +:+ r) = Some (j, r).

Lemma join_first x l : x ≠ "" → ∃ c t t', x = String c t ∧ join (x :: l) = String c t'.
Proof.
  destruct x as [|c x]; [done|]. intros _. destruct (decide (l = [])) as [->|Hne]; [by exists c, x, x|].
  rewrite join_cons by done. exists c, x. by eexists.
Qed.

Lemma scan_array d l :
  Forall (λ j, written d j ∧ scans d j) l → scans (S d) (JArray l).
Proof.
  intros Hl [|fuel] r Hr Hf; [lia|]. cbn [encode] in *. rewrite str_app_cons, str_app_assoc in *.
  cbn [scan_value]. rewrite skip_ws_head, !bool_decide_false by done. rewrite (bool_decide_true ("["%char = "["%char)) by done.
  rewrite (str_app_cons "]"), str_app_nil_l in *.
  destruct l as [|j l]; [done|].
  assert (∃ c t, join (encode <$> j :: l) = String c t ∧ head_ok c = true) as (c & t & Hj & Hc).
  { inversion Hl as [|? ? [Hj _] _]; subst. destruct (written_head _ _ Hj) as (c & t & Hc & Hh).
    destruct (join_first (encode j) (encode <$> l)) as (c' & t1 & t2 & Hx & Hx'); [by rewrite Hc|].
    exists c', t2. split; [done|]. congruence. }
  assert (eat "]" (skip_ws (join (encode <$> j :: l) +:+ String "]" r)) = None) as He
    by (rewrite Hj, str_app_cons; apply eat_head; [done|set_solver]).
  rewrite He. cbn [String.length] in Hf.
  rewrite (scan_elements_join d (λ j, written d j ∧ scans d j)); [done|by intros j' [_ H']|done|done|lia].
Qed.

Lemma scan_object d l :
  Forall (λ kv, raw_ok kv.1 ∧ written d kv.2 ∧ scans d kv.2) l → scans (S d) (JObject l).
Proof.
  intros Hl [|fuel] r Hr Hf; [lia|]. cbn [encode] in *. rewrite str_app_cons, str_app_assoc in *.
  cbn [scan_value]. rewrite skip_ws_head, bool_decide_false by done. rewrite (bool_decide_true ("{"%char = "{"%char)) by done.
  rewrite (str_app_cons "}"), str_app_nil_l in *.
  destruct l as [|[k j] l]; [done|].
  set (x := join _) in *.
  assert (∃ t, x = String quote_char t) as [t Hx].
  { subst x. cbn [fmap list_fmap fst snd]. unfold quoted_raw at 1. rewrite str_app_cons.
    edestruct join_first as (c & t1 & t2 & Hx & Hx'); [|rewrite Hx'; injection Hx as <- _; by exists t2]. done. }
  assert (eat "}" (skip_ws (x +:+ String "}" r)) = None) as He by (by rewrite Hx).
  rewrite He. cbn [String.length] in Hf. subst x.
  rewrite (scan_members_join d (λ j, written d j ∧ scans d j)); [done|by intros j' [_ H']|done|done|lia].
Qed.

Lemma scan_encode d j : written d j → scans d j.
Proof.
  revert d. induction j as [|b|lit|raw|l IH|l IH] using json_ind'; intros d Hw.
  - intros [|fuel] r Hr Hf; [lia|done].
  - intros [|fuel] r Hr Hf; [lia|]. by destruct b.
  - inversion Hw; subst. intros [|fuel] r Hr Hf; [lia|]. by apply scan_literal_number.
  - inversion Hw as [| | |? ? Hraw| |]; subst. intros [|fuel] r Hr Hf; [lia|]. cbn [encode]. unfold quoted_raw.
    rewrite str_app_cons, str_app_assoc, str_app_cons, str_app_nil_l. cbn [scan_value].
    rewrite skip_ws_head, bool_decide_true by done. by rewrite Hraw.
  - inversion Hw as [| | | |d' ? Hl|]; subst. apply scan_array. rewrite Forall_forall in *.
    intros j Hin. split; [by apply Hl|]. by apply IH, Hl.
  - inversion Hw as [| | | | |d' ? Hl]; subst. apply scan_object. rewrite Forall_forall in *.
    intros kv Hin. destruct (Hl _ Hin) as [Hk Hv]. split; [done|]. split; [done|]. by apply IH.
Qed.

Lemma parse_encode j : written maxNestingDepth j → parse (encode j) = Some j.
Proof.
  intros Hj. unfold parse, parse_first. pose proof (scan_encode _ _ Hj (S (2 * String.length (encode j))) "" I) as Hs.
  rewrite str_app_nil_r in Hs. rewrite Hs by lia. done.
Qed.

(** *** What the encoders write *)

Lemma written_mono d d' j : written d j → d ≤ d' → written d' j.
Proof.
  revert d d'. induction j as [|b|lit|raw|l IH|l IH] using json_ind'; intros d d' Hw Hle;
    inversion Hw as [| | | |d0 ? Hl|d0 ? Hl]; subst; try (by constructor);
    (destruct d' as [|d']; [lia|]); constructor; rewrite Forall_forall in *.
  - intros j Hin. eapply IH; [done|by apply Hl|lia].
  - intros kv Hin. destruct (Hl _ Hin) as [Hk Hv]. split; [done|]. eapply IH; [done|exact Hv|lia].
Qed.

Lemma raw_ok_escape s : valid_utf8 s = true → raw_ok (escape s).
Proof. intros Hs r. by apply scan_escape. Qed.

(** Bytes that are written as they are. *)
Definition plain (c : ascii) : bool :=
  byte_in 32 127 c && negb (bool_decide (c = quote_char)) && negb (bool_decide (c = backslash)).

Lemma raw_ok_plain s : str_forall plain s = true → raw_ok s.
Proof.
  intros Hs r. induction s as [|c s IH]; [done|]. cbn [str_forall] in Hs. apply andb_true_iff in Hs as [Hc Hs].
  unfold plain in Hc. rewrite !andb_true_iff, !negb_true_iff, !bool_decide_eq_false in Hc. destruct Hc as [[Hc Hq] Hb].
  rewrite str_app_cons. cbn [scan_string]. rewrite !bool_decide_false by done.
  assert (byte_in 0 31 c = false) as ->.
  { unfold byte_in in *. rewrite andb_true_iff, !N.leb_le in Hc. apply andb_false_iff. rewrite !N.leb_gt. lia. }
  by rewrite (IH Hs).
Qed.

Lemma ascii_utf8 s : str_forall (byte_in 0 127) s = true → valid_utf8 s = true.
Proof.
  induction s as [|c s IH]; [done|]. intros [Hc Hs]%andb_true_iff. cbn [valid_utf8].
  rewrite rune_len_ascii by done. by apply IH.
Qed.

(** A decimal numeral is scanned to its end. *)
Definition no_leading_zero (u : string) : Prop := u = "0" ∨ ∃ c t, u = String c t ∧ c ≠ "0"%char.

Lemma delimited_plain r : delimited r →
  match r with String c _ => is_digit c = false | "" => True end ∧
  scan_frac r = Some ("", r) ∧ scan_exp r = Some ("", r).
Proof.
  destruct r as [|c r]; [done|]. intros Hc. cbn in Hc.
  repeat (apply elem_of_cons in Hc as [->|Hc]; [done|]). by apply elem_of_nil in Hc.
Qed.

Lemma scan_number_digits u r :
  str_forall is_digit u = true → no_leading_zero u → delimited r → scan_int (u +:+ r) = Some (u, r).
Proof.
  intros Hd Hz Hr. destruct (delimited_plain r Hr) as (Hr' & _).
  destruct Hz as [->|(c & t & -> & Hc)]; [done|].
  rewrite str_app_cons. cbn [scan_int]. rewrite bool_decide_false by done.
  pose proof Hd as [Hdc _]%andb_true_iff. rewrite Hdc, <-str_app_cons. by rewrite span_digits_app.
Qed.

Lemma number_ok_digits u :
  str_forall is_digit u = true → no_leading_zero u → number_ok u ∧ number_ok (String "-" u).
Proof.
  intros Hd Hz.
  assert (∃ c t, u = String c t ∧ is_digit c = true) as (c & t & Hu & Hc).
  { destruct Hz as [->|(c & t & -> & _)]; [by eexists _, _|]. apply andb_true_iff in Hd as [Hc _]. by exists c, t. }
  assert (∀ r, delimited r → ∀ sign s, scan_sign ["-"%char] s = (sign, u +:+ r) → scan_number s = Some (sign +:+ u, r)) as Hs.
  { intros r Hr sign s Hsign. unfold scan_number. rewrite Hsign, scan_number_digits by done. cbn [mbind option_bind].
    destruct (delimited_plain r Hr) as (_ & Hf & He). rewrite Hf. cbn [mbind option_bind]. rewrite He. cbn [mbind option_bind].
    by rewrite !str_app_nil_l, str_app_nil_r. }
  split.
  - exists c, t. split; [done|]. split; [by left|]. intros r Hr. apply (Hs r Hr ""). subst u. rewrite str_app_cons.
    cbn [scan_sign]. rewrite bool_decide_false; [done|]. intros ->%list_elem_of_singleton. done.
  - exists "-"%char, u. split; [done|]. split; [by right|]. intros r Hr. by apply (Hs r Hr "-").
Qed.

Lemma pretty_N_go_head n s :
  (0 < n)%N → ∃ c t, pretty_N_go n s = String c t ∧ c ≠ "0"%char.
Proof.
  revert s. induction (N.lt_wf_0 n) as [n _ IH]; intros s Hn. rewrite pretty_N_go_step by done.
  destruct (decide (n < 10)%N) as [Hlt|Hge].
  - rewrite N.div_small, N.mod_small, pretty_N_go_0 by done. eexists _, _. split; [done|]. intros Hc.
    destruct (pretty_N_char_digit n Hlt) as [_ Hv]. rewrite Hc in Hv. cbn in Hv. lia.
  - apply IH; [apply N.div_lt; lia|]. apply N.div_str_pos. lia.
Qed.

Lemma pretty_N_no_leading_zero (n : N) : no_leading_zero (pretty n).
Proof.
  unfold pretty, pretty_N. case_decide; [by left|]. right. apply pretty_N_go_head. lia.
Qed.

Lemma number_ok_fmt_d z : number_ok (fmt_d z).
Proof.
  unfold fmt_d. destruct z as [|p|p].
  - by apply (number_ok_digits "0"); [|left].
  - apply (number_ok_digits (pretty (N.pos p))); [apply pretty_N_digits|apply pretty_N_no_leading_zero].
  - apply (number_ok_digits (pretty (N.pos p))); [apply pretty_N_digits|apply pretty_N_no_leading_zero].
Qed.
