(* ===== verification/JsonDec.v ===== *)
(** * JsonDec: decoding and encoding of Go values

    What json.Marshal and json.Unmarshal do on the types this program keeps as
    JSON: strings, integers, identifiers, times, pointers, slices, structs and
    maps of strings. A decoder takes the value it decodes into, since null
    leaves it alone and a key may come twice. The texts of the package's errors
    are not kept: a decoder that fails is [None]. *)
From stdpp Require Import sorting.
From S2P Require Import Prelude Go GoStrings Uuid TimeText Json.
Open Scope Z_scope.

(** ** Decoders *)

Definition Dec (A : Type) : Type := A → json → option A.

Definition dec_string : Dec string := λ cur j,
  match j with JNull => Some cur | JString raw => Some (unquote raw) | _ => None end.

(** [strconv.ParseInt] to base ten and 64 bits. *)
Definition parse_int64 (lit : string) : option Z :=
  let '(neg, u) := match lit with String "-" u => (true, u) | _ => (false, lit) end in
  let z := if neg then - Z.of_N (undec 0 u) else Z.of_N (undec 0 u) in
  if negb (bool_decide (u = "")) && str_forall is_digit u && bool_decide (int64_range z) then Some z else None.

Definition dec_int : Dec Z := λ cur j,
  match j with JNull => Some cur | JNumber lit => parse_int64 lit | _ => None end.

(** [UUID.UnmarshalText] *)
Definition dec_uuid `{UuidLib} : Dec uuid := λ cur j,
  match j with
  | JNull => Some cur
  | JString raw => match uuid_Parse (unquote raw) with Ok id => Some id | Err _ => None end
  | _ => None
  end.

(** [Time.UnmarshalJSON], which reads the text as it is written. *)
Definition dec_time : Dec time := λ cur j,
  match j with JNull => Some cur | JString raw => parseRFC3339 raw | _ => None end.

(** The zero of uuid.UUID. *)
Definition zero_id : uuid := UUID (replicate 16 Byte.x00) eq_refl.

(** A pointer: null clears it, a value goes where it points, or to a new zero. *)
Definition dec_ptr {A} (zero : A) (d : Dec A) : Dec (option A) := λ cur j,
  match j with JNull => Some None | _ => a ← d (default zero cur) j; Some (Some a) end.

(** A slice with the elements of its array, which a longer list finds again when
    the same key comes once more. *)
Definition slice (A : Type) : Type := list A * nat.
Definition elems {A} (s : slice A) : list A := take s.2 s.1.

Fixpoint dec_elems {A} (zero : A) (d : Dec A) (backing : list A) (l : list json) : option (list A) :=
  match l, backing with
  | [], _ => Some backing
  | j :: l, [] => a ← d zero j; as_ ← dec_elems zero d [] l; Some (a :: as_)
  | j :: l, x :: backing => a ← d x j; as_ ← dec_elems zero d backing l; Some (a :: as_)
  end.

Definition dec_slice {A} (zero : A) (d : Dec A) : Dec (slice A) := λ cur j,
  match j with
  | JNull | JArray [] => Some ([], O)
  | JArray l => as_ ← dec_elems zero d cur.1 l; Some (as_, length l)
  | _ => None
  end.

(** *** Structs *)

Definition upper (c : ascii) : ascii :=
  let n := N_of_ascii c in if ((97 <=? n) && (n <=? 122))%N then ascii_of_N (n - 32) else c.

(** [foldName], for field names in ASCII: the two other runes that fold to a
    letter are the Kelvin sign and the long s. *)
Fixpoint foldName (s : string) : string :=
  match s with
  | EmptyString => ""
  | String a t =>
      let plain := String (upper a) (foldName t) in
      match t with
      | String b t =>
          if byte_in 197 197 a && byte_in 191 191 b then String "S" (foldName t)
          else
            match t with
            | String c t =>
                if byte_in 226 226 a && byte_in 132 132 b && byte_in 170 170 c then String "K" (foldName t)
                else plain
            | EmptyString => plain
            end
      | EmptyString => plain
      end
  end.

(** The fields of a struct, by name, and how each is decoded. *)
Definition fields (R : Type) : Type := list (string * Dec R).

Definition in_field {R A} (get : R → A) (set : A → R → R) (d : Dec A) : Dec R := λ cur j,
  a ← d (get cur) j; Some (set a cur).

Fixpoint field {R} (fs : fields R) (key : string) : option (Dec R) :=
  match fs with
  | [] => None
  | (name, d) :: fs => if bool_decide (foldName key = foldName name) then Some d else field fs key
  end.

(** The members in their order; a key that is no field is skipped. *)
Fixpoint dec_members {R} (fs : fields R) (cur : R) (l : list (string * json)) : option R :=
  match l with
  | [] => Some cur
  | (key, j) :: l =>
      match field fs (unquote key) with
      | Some d => cur ← d cur j; dec_members fs cur l
      | None => dec_members fs cur l
      end
  end.

Definition dec_struct {R} (fs : fields R) : Dec R := λ cur j,
  match j with JNull => Some cur | JObject l => dec_members fs cur l | _ => None end.

(** ** Values of no particular type

    An [interface{}] takes every value but a number that no float64 is near. *)

(** A literal's digits as one number, and the power of ten they are to be
    multiplied by. *)
Definition decimal (lit : string) : N * Z :=
  let u := match lit with String "-" u => u | _ => lit end in
  let '(int, u) := span_digits u in
  let '(frac, u) := match u with String "." u => span_digits u | _ => ("", u) end in
  let e := match u with
    | String _ (String "-" u) => - Z.of_N (undec 0 u)
    | String _ (String "+" u) | String _ u => Z.of_N (undec 0 u)
    | EmptyString => 0
    end in
  (undec 0 (int +:+ frac), e - Z.of_nat (String.length frac)).

(** [strconv.ParseFloat] rounds to infinity from here on. *)
Definition float_bound : N := 2 ^ 1024 - 2 ^ 970.

Definition float_overflows (lit : string) : bool :=
  let '(m, e) := decimal lit in
  let digits := Z.of_nat (String.length (pretty m)) in
  if (m =? 0)%N then false
  else if 400 <? digits + e then true
  else if digits + e <? 0 then false
  else if 0 <=? e then (float_bound <=? m * 10 ^ Z.to_N e)%N
  else (float_bound * 10 ^ Z.to_N (- e) <=? m)%N.

Fixpoint any_ok (j : json) : bool :=
  match j with
  | JNumber lit => negb (float_overflows lit)
  | JArray l => forallb any_ok l
  | JObject l => forallb (λ kv, any_ok kv.2) l
  | _ => true
  end.

(** ** Encoders *)

Definition enc_string (s : string) : json := JString (escape s).
Definition enc_int (z : Z) : json := JNumber (fmt_d z).
Definition enc_uuid `{UuidLib} (id : uuid) : json := JString (escape (uuid_String id)).
Definition enc_time (t : time) : option json := JString <$> appendStrictRFC3339 t.
Definition enc_ptr {A} (e : A → option json) (a : option A) : option json :=
  match a with Some a => e a | None => Some JNull end.

(** A map of strings, its keys in order. *)
Definition key_le (x y : string * string) : Prop := Is_true (String.leb x.1 y.1).
#[export] Instance key_le_dec : RelDecision key_le.
Proof. intros x y. unfold key_le. apply _. Defined.
Definition enc_map (m : gmap string string) : json :=
  JObject ((λ kv, (escape kv.1, enc_string kv.2)) <$> merge_sort key_le (map_to_list m)).

(** json.Marshal of such a map, which does not fail. *)
Definition json_Marshal_map (m : gmap string string) : result string := Ok (encode (enc_map m)).

Definition opt_forall {A} (p : A → bool) (o : option A) : bool := if o is Some a then p a else true.

(** ** Round trip *)

Section roundtrip.
Context `{!UuidLib} `{!UuidLibSpec}.

(** A decoder undoes an encoding, whatever it decodes into. *)
Definition undoes {A} (d : Dec A) (j : json) (a : A) : Prop := ∀ cur, d cur j = Some a.

Lemma parse_int64_fmt_d z : int64_range z → parse_int64 (fmt_d z) = Some z.
Proof.
  intros Hz.
  assert (∀ neg (n : N), let z := if neg : bool then - Z.of_N n else Z.of_N n in int64_range z →
    (let z := if neg then - Z.of_N (undec 0 (pretty n)) else Z.of_N (undec 0 (pretty n)) in
     if negb (bool_decide (pretty n = "")) && str_forall is_digit (pretty n) && bool_decide (int64_range z)
     then Some z else None) = Some z) as Hn.
  { intros neg n z' Hr. cbv zeta. rewrite undec_pretty_N, pretty_N_digits, bool_decide_false; cycle 1.
    { by destruct (pretty_N_no_leading_zero n) as [-> |(c & t & -> & _)]. }
    subst z'. by rewrite bool_decide_true. }
  unfold parse_int64, fmt_d. destruct z as [|p|p]; [done| |exact (Hn true (N.pos p) Hz)].
  specialize (Hn false (N.pos p) Hz). change (pretty (Z.pos p)) with (pretty (N.pos p)).
  pose proof (pretty_N_digits (N.pos p)) as Hd. destruct (pretty (N.pos p)) as [|c u]; [done|].
  apply andb_true_iff in Hd as [Hd _]. revert Hn.
  destruct c as [[] [] [] [] [] [] [] []]; try done; discriminate Hd.
Qed.

Lemma undoes_string s : valid_utf8 s = true → undoes dec_string (enc_string s) s.
Proof. intros Hs cur. unfold dec_string, enc_string. by rewrite unquote_escape. Qed.

Lemma undoes_int z : int64_range z → undoes dec_int (enc_int z) z.
Proof. intros Hz cur. by apply parse_int64_fmt_d. Qed.

Lemma uuid_String_utf8 id : valid_utf8 (uuid_String id) = true.
Proof.
  apply ascii_utf8. eapply str_forall_impl; [|apply uuid_String_chars].
  intros c. by destruct c as [[] [] [] [] [] [] [] []].
Qed.

Lemma undoes_uuid id : undoes dec_uuid (enc_uuid id) id.
Proof.
  intros cur. unfold dec_uuid, enc_uuid. rewrite unquote_escape by apply uuid_String_utf8.
  by rewrite uuid_Parse_String.
Qed.

Lemma undoes_time t :
  printable t = true → ∃ j, enc_time t = Some j ∧ undoes dec_time j t ∧ j ≠ JNull ∧ written 0 j.
Proof.
  intros (s & Hs & Hp & Hc)%time_text. unfold enc_time. rewrite Hs. eexists. split; [done|].
  split; [intros cur; exact Hp|]. split; [done|]. constructor. apply raw_ok_plain.
  eapply str_forall_impl; [|exact Hc]. intros c. by destruct c as [[] [] [] [] [] [] [] []].
Qed.

Lemma undoes_ptr {A} zero (d : Dec A) (e : A → option json) (p : A → bool) o :
  (∀ a, p a = true → ∃ j, e a = Some j ∧ undoes d j a ∧ j ≠ JNull ∧ written 0 j) →
  opt_forall p o = true →
  ∃ j, enc_ptr e o = Some j ∧ undoes (dec_ptr zero d) j o ∧ written 0 j.
Proof.
  intros He Ho. destruct o as [a|]; cbn [enc_ptr opt_forall] in *.
  - destruct (He a Ho) as (j & -> & Hd & Hn & Hw). exists j. split; [done|]. split; [|done].
    intros cur. unfold dec_ptr. rewrite Hd. by destruct j.
  - exists JNull. split; [done|]. split; [done|constructor].
Qed.

Lemma written_enc_string s : valid_utf8 s = true → written 0 (enc_string s).
Proof. intros Hs. constructor. by apply raw_ok_escape. Qed.
Lemma written_enc_uuid id : written 0 (enc_uuid id).
Proof. constructor. apply raw_ok_escape, uuid_String_utf8. Qed.

Lemma undoes_uuid_ptr o :
  ∃ j, enc_ptr (λ id, Some (enc_uuid id)) o = Some j ∧ undoes (dec_ptr zero_id dec_uuid) j o ∧ written 0 j.
Proof.
  apply (undoes_ptr zero_id dec_uuid _ (λ _, true)); [|by destruct o].
  intros id _. eexists. split; [done|]. split; [apply undoes_uuid|]. split; [done|apply written_enc_uuid].
Qed.

Lemma undoes_string_ptr o :
  opt_forall valid_utf8 o = true →
  ∃ j, enc_ptr (λ s, Some (enc_string s)) o = Some j ∧ undoes (dec_ptr "" dec_string) j o ∧ written 0 j.
Proof.
  apply undoes_ptr. intros s Hs. eexists. split; [done|]. split; [by apply undoes_string|].
  split; [done|by apply written_enc_string].
Qed.

(** One member of a struct. *)
Lemma dec_members_field {R A} (fs : fields R) key (get : R → A) set (d : Dec A) j a cur l :
  field fs (unquote key) = Some (in_field get set d) → d (get cur) j = Some a →
  dec_members fs cur ((key, j) :: l) = dec_members fs (set a cur) l.
Proof. intros Hf Hd. cbn [dec_members]. rewrite Hf. unfold in_field. by rewrite Hd. Qed.

End roundtrip.
