(* ===== verification/Base64.v ===== *)
(** * Base64: encoding/base64, RawURLEncoding

    The URL alphabet without padding, as JWTs use it: encoding, the decoder that
    is not strict about trailing bits and skips line ends, and that it reads
    what the encoder writes. *)
From S2P Require Import Prelude Go GoStrings.
Open Scope N_scope.

(** ** Sextets *)

Definition b64_char (n : N) : ascii :=
  ascii_of_N (if n <? 26 then 65 + n else if n <? 52 then 71 + n else if n <? 62 then n - 4
              else if n =? 62 then 45 else 95).

Definition b64_val (c : ascii) : option N :=
  let n := N_of_ascii c in
  if (65 <=? n) && (n <=? 90) then Some (n - 65)
  else if (97 <=? n) && (n <=? 122) then Some (n - 71)
  else if (48 <=? n) && (n <=? 57) then Some (n + 4)
  else if n =? 45 then Some 62 else if n =? 95 then Some 63 else None.

(** ** Encoding and decoding *)

Fixpoint EncodeToString (s : string) : string :=
  match s with
  | EmptyString => ""
  | String a t =>
      let a := N_of_ascii a in
      match t with
      | EmptyString => String (b64_char (a / 4)) (String (b64_char (a mod 4 * 16)) "")
      | String b t =>
          let b := N_of_ascii b in
          match t with
          | EmptyString =>
              String (b64_char (a / 4)) (String (b64_char (a mod 4 * 16 + b / 16)) (String (b64_char (b mod 16 * 4)) ""))
          | String c t =>
              let c := N_of_ascii c in
              String (b64_char (a / 4)) (String (b64_char (a mod 4 * 16 + b / 16))
                (String (b64_char (b mod 16 * 4 + c / 64)) (String (b64_char (c mod 64)) (EncodeToString t))))
          end
      end
  end.

Definition is_eol (c : ascii) : bool := (N_of_ascii c =? 10) || (N_of_ascii c =? 13).
Fixpoint skip_eol (s : string) : string :=
  match s with EmptyString => "" | String c s => if is_eol c then skip_eol s else String c (skip_eol s) end.

(** Quanta of four characters, the last one of two or three. *)
Fixpoint decode_quanta (s : string) : option string :=
  match s with
  | EmptyString => Some ""
  | String w t =>
      w ← b64_val w;
      match t with
      | EmptyString => None
      | String x t =>
          x ← b64_val x;
          let a := ascii_of_N (w * 4 + x / 16) in
          match t with
          | EmptyString => Some (String a "")
          | String y t =>
              y ← b64_val y;
              let b := ascii_of_N (x mod 16 * 16 + y / 4) in
              match t with
              | EmptyString => Some (String a (String b ""))
              | String z t =>
                  z ← b64_val z;
                  r ← decode_quanta t;
                  Some (String a (String b (String (ascii_of_N (y mod 4 * 64 + z)) r)))
              end
          end
      end
  end.

Definition DecodeString (s : string) : option string := decode_quanta (skip_eol s).

(** ** Round trip *)

Lemma b64_val_char n : n < 64 → b64_val (b64_char n) = Some n ∧ is_eol (b64_char n) = false ∧ b64_char n ≠ "."%char.
Proof.
  intros Hn.
  assert (Forall (λ n, b64_val (b64_char n) = Some n ∧ is_eol (b64_char n) = false ∧ b64_char n ≠ "."%char)
    (N.of_nat <$> seq 0 64)) as HF by (repeat (constructor; [by split_and!|]); constructor).
  rewrite Forall_forall in HF. apply HF, list_elem_of_fmap. exists (N.to_nat n). split; [lia|]. apply elem_of_seq. lia.
Qed.

Lemma byte_bound c : N_of_ascii c < 256.
Proof. by destruct c as [[] [] [] [] [] [] [] []]. Qed.

(** Three bytes at a time. *)
Lemma string_ind3 (P : string → Prop) :
  P "" → (∀ a, P (String a "")) → (∀ a b, P (String a (String b ""))) →
  (∀ a b c s, P s → P (String a (String b (String c s)))) → ∀ s, P s.
Proof.
  intros H0 H1 H2 H3. fix IH 1. intros [|a [|b [|c s]]]; [done|done|done|]. apply H3, IH.
Qed.

Lemma sextets a b c :
  a < 256 → b < 256 → c < 256 →
  a / 4 < 64 ∧ a mod 4 * 16 + b / 16 < 64 ∧ b mod 16 * 4 + c / 64 < 64 ∧ c mod 64 < 64 ∧
  a / 4 * 4 + (a mod 4 * 16 + b / 16) / 16 = a ∧
  (a mod 4 * 16 + b / 16) mod 16 * 16 + (b mod 16 * 4 + c / 64) / 4 = b ∧
  (b mod 16 * 4 + c / 64) mod 4 * 64 + c mod 64 = c.
Proof.
  intros Ha Hb Hc.
  assert (b / 16 < 16) by (apply N.Div0.div_lt_upper_bound; lia). assert (c / 64 < 4) by (apply N.Div0.div_lt_upper_bound; lia).
  pose proof (N.div_mod a 4). pose proof (N.mod_lt a 4). pose proof (N.div_mod b 16). pose proof (N.mod_lt b 16).
  pose proof (N.div_mod c 64). pose proof (N.mod_lt c 64).
  rewrite !N.div_add_l, !(N.div_small (_ / _)), !N.add_0_r by lia.
  rewrite (N.add_comm (_ * 16)), (N.add_comm (_ * 4)), !N.Div0.mod_add, !(N.mod_small (_ / _)) by lia.
  split_and!; try lia. apply N.Div0.div_lt_upper_bound. lia.
Qed.

(** A character of the alphabet, read and skipped. *)
Lemma b64_read n s : n < 64 →
  skip_eol (String (b64_char n) s) = String (b64_char n) (skip_eol s) ∧ b64_val (b64_char n) = Some n.
Proof. intros (Hv & He & _)%b64_val_char. cbn [skip_eol]. by rewrite He. Qed.

Ltac b64_reads :=
  repeat match goal with
  | |- context [skip_eol (String (b64_char ?n) ?s)] => rewrite (proj1 (b64_read n s ltac:(lia)))
  end;
  cbn [skip_eol decode_quanta];
  repeat (match goal with
  | |- context [b64_val (b64_char ?n)] => rewrite (proj2 (b64_read n "" ltac:(lia)))
  end; cbn [mbind option_bind]).

Lemma DecodeString_EncodeToString s : DecodeString (EncodeToString s) = Some s.
Proof.
  unfold DecodeString. induction s as [|a|a b|a b c s IH] using string_ind3; [done|..].
  - destruct (sextets (N_of_ascii a) 0 0) as (H1 & H2 & _ & _ & Ha & _); [apply byte_bound|lia..|].
    cbn [EncodeToString]. rewrite N.add_0_r in H2, Ha. b64_reads. by rewrite Ha, ascii_N_embedding.
  - destruct (sextets (N_of_ascii a) (N_of_ascii b) 0) as (H1 & H2 & H3 & _ & Ha & Hb & _); [apply byte_bound..|lia|].
    cbn [EncodeToString]. rewrite N.add_0_r in H3, Hb. b64_reads. by rewrite Ha, Hb, !ascii_N_embedding.
  - destruct (sextets (N_of_ascii a) (N_of_ascii b) (N_of_ascii c)) as (H1 & H2 & H3 & H4 & Ha & Hb & Hc); [apply byte_bound..|].
    cbn [EncodeToString]. b64_reads. rewrite IH. cbn [mbind option_bind]. by rewrite Ha, Hb, Hc, !ascii_N_embedding.
Qed.

(** Its text has no point. *)
Lemma EncodeToString_dotless s : IndexByte (EncodeToString s) "." = None.
Proof.
  assert (∀ n s, n < 64 → IndexByte s "." = None → IndexByte (String (b64_char n) s) "." = None) as Hc.
  { intros n t (_ & _ & Hn)%b64_val_char Ht. cbn. by rewrite bool_decide_false, Ht. }
  induction s as [|a|a b|a b c s IH] using string_ind3; [done|..].
  - destruct (sextets (N_of_ascii a) 0 0) as (H1 & H2 & _); [apply byte_bound|lia..|].
    cbn [EncodeToString]. rewrite N.add_0_r in H2. by repeat (apply Hc; [done|]).
  - destruct (sextets (N_of_ascii a) (N_of_ascii b) 0) as (H1 & H2 & H3 & _); [apply byte_bound..|lia|].
    cbn [EncodeToString]. rewrite N.add_0_r in H3. by repeat (apply Hc; [done|]).
  - destruct (sextets (N_of_ascii a) (N_of_ascii b) (N_of_ascii c)) as (H1 & H2 & H3 & H4 & _); [apply byte_bound..|].
    cbn [EncodeToString]. by repeat (apply Hc; [done|]).
Qed.

Example base64_text : EncodeToString "Hello, world" = "SGVsbG8sIHdvcmxk".
Proof. reflexivity. Qed.
