(* ===== verification/Domain.v ===== *)
(** * Domain: the data of internal/domain

    The records of internal/domain as they are: a Go string type stays a string
    (any string is a value of [TaskStatus], the constants are the intended
    ones), a pointer field is an [option], [time.Time] is [Go.time]. *)
From S2P Require Import Prelude Go Uuid.

(** ** task.go *)

Abbreviation TaskStatus := string (only parsing).
Definition StatusTodo : TaskStatus := "todo".
Definition StatusInProgress : TaskStatus := "in_progress".
Definition StatusDone : TaskStatus := "done".

Abbreviation TaskPriority := string (only parsing).
Definition PriorityLow : TaskPriority := "low".
Definition PriorityMedium : TaskPriority := "medium".
Definition PriorityHigh : TaskPriority := "high".

Record Task : Type := MkTask {
  Task_ID : uuid;
  Task_TeamID : uuid;
  Task_CreatedBy : uuid;
  Task_AssigneeID : option uuid;
  Task_Title : string;
  Task_Description : option string;
  Task_Status : TaskStatus;
  Task_Priority : TaskPriority;
  Task_DueDate : option time;
  Task_CreatedAt : time;
  Task_UpdatedAt : time
}.

Record CreateTaskInput : Type := MkCreateTaskInput {
  CTI_TeamID : uuid;
  CTI_Title : string;
  CTI_Description : option string;
  CTI_AssigneeID : option uuid;
  CTI_DueDate : option time;
  CTI_Priority : TaskPriority
}.

(** [None] means "no change". *)
Record UpdateTaskInput : Type := MkUpdateTaskInput {
  UTI_Title : option string;
  UTI_Description : option string;
  UTI_Status : option TaskStatus;
  UTI_AssigneeID : option uuid;
  UTI_DueDate : option time;
  UTI_Priority : option TaskPriority
}.

Record TaskFilter : Type := MkTaskFilter {
  TF_TeamID : option uuid;
  TF_Status : option TaskStatus;
  TF_AssigneeID : option uuid;
  TF_Page : Z;
  TF_Limit : Z
}.

Record TaskHistory : Type := MkTaskHistory {
  TH_ID : Z;
  TH_TaskID : uuid;
  TH_ChangedBy : uuid;
  TH_Field : string;
  TH_OldValue : option string;
  TH_NewValue : option string;
  TH_ChangedAt : time
}.

(** ** team.go *)

Abbreviation Role := string (only parsing).
Definition RoleOwner : Role := "owner".
Definition RoleAdmin : Role := "admin".
Definition RoleMember : Role := "member".

Record Team : Type := MkTeam {
  Team_ID : uuid;
  Team_Name : string;
  Team_CreatedBy : uuid;
  Team_CreatedAt : time
}.

(** ** user.go: [User_Password] is the bcrypt hash *)
Record User : Type := MkUser {
  User_ID : uuid;
  User_Email : string;
  User_Name : string;
  User_Password : string;
  User_CreatedAt : time
}.

(** ** comment.go *)
Record Comment : Type := MkComment {
  Comment_ID : Z;
  Comment_TaskID : uuid;
  Comment_UserID : uuid;
  Comment_Body : string;
  Comment_CreatedAt : time
}.

(** ** analytics.go *)
Record TeamSummary : Type := MkTeamSummary {
  TS_TeamID : uuid;
  TS_Name : string;
  TS_MemberCount : Z;
  TS_DoneLast7Days : Z
}.

Record TopContributor : Type := MkTopContributor {
  TC_TeamID : uuid;
  TC_UserID : uuid;
  TC_TaskCount : Z;
  TC_RankInTeam : Z
}.

Record OrphanTask : Type := MkOrphanTask {
  OT_ID : uuid;
  OT_Title : string;
  OT_TeamID : uuid;
  OT_AssigneeID : uuid
}.

(** ** Decidable equality *)
#[global] Instance Task_eq_dec : EqDecision Task.
Proof. solve_decision. Defined.
#[global] Instance TaskFilter_eq_dec : EqDecision TaskFilter.
Proof. solve_decision. Defined.
#[global] Instance TaskHistory_eq_dec : EqDecision TaskHistory.
Proof. solve_decision. Defined.
#[global] Instance Team_eq_dec : EqDecision Team.
Proof. solve_decision. Defined.
#[global] Instance User_eq_dec : EqDecision User.
Proof. solve_decision. Defined.
#[global] Instance Comment_eq_dec : EqDecision Comment.
Proof. solve_decision. Defined.

(** ** Assigning one field of a task ([task.Title = x]) *)
Definition set_Title (x : string) (t : Task) : Task :=
  MkTask (Task_ID t) (Task_TeamID t) (Task_CreatedBy t) (Task_AssigneeID t) x
    (Task_Description t) (Task_Status t) (Task_Priority t) (Task_DueDate t)
    (Task_CreatedAt t) (Task_UpdatedAt t).
Definition set_Description (x : option string) (t : Task) : Task :=
  MkTask (Task_ID t) (Task_TeamID t) (Task_CreatedBy t) (Task_AssigneeID t) (Task_Title t)
    x (Task_Status t) (Task_Priority t) (Task_DueDate t)
    (Task_CreatedAt t) (Task_UpdatedAt t).
Definition set_Status (x : TaskStatus) (t : Task) : Task :=
  MkTask (Task_ID t) (Task_TeamID t) (Task_CreatedBy t) (Task_AssigneeID t) (Task_Title t)
    (Task_Description t) x (Task_Priority t) (Task_DueDate t)
    (Task_CreatedAt t) (Task_UpdatedAt t).
Definition set_Priority (x : TaskPriority) (t : Task) : Task :=
  MkTask (Task_ID t) (Task_TeamID t) (Task_CreatedBy t) (Task_AssigneeID t) (Task_Title t)
    (Task_Description t) (Task_Status t) x (Task_DueDate t)
    (Task_CreatedAt t) (Task_UpdatedAt t).
Definition set_AssigneeID (x : option uuid) (t : Task) : Task :=
  MkTask (Task_ID t) (Task_TeamID t) (Task_CreatedBy t) x (Task_Title t)
    (Task_Description t) (Task_Status t) (Task_Priority t) (Task_DueDate t)
    (Task_CreatedAt t) (Task_UpdatedAt t).
Definition set_DueDate (x : option time) (t : Task) : Task :=
  MkTask (Task_ID t) (Task_TeamID t) (Task_CreatedBy t) (Task_AssigneeID t) (Task_Title t)
    (Task_Description t) (Task_Status t) (Task_Priority t) x
    (Task_CreatedAt t) (Task_UpdatedAt t).
Definition set_UpdatedAt (x : time) (t : Task) : Task :=
  MkTask (Task_ID t) (Task_TeamID t) (Task_CreatedBy t) (Task_AssigneeID t) (Task_Title t)
    (Task_Description t) (Task_Status t) (Task_Priority t) (Task_DueDate t)
    (Task_CreatedAt t) x.
Definition set_ChangedAt (x : time) (h : TaskHistory) : TaskHistory :=
  MkTaskHistory (TH_ID h) (TH_TaskID h) (TH_ChangedBy h) (TH_Field h)
    (TH_OldValue h) (TH_NewValue h) x.
