(* ===== verification/Ports.v ===== *)
(** * Ports: the interfaces between services and storage, and their contracts

    Each Go interface a service declares is a record of operations over an
    arbitrary world [W]. A [Backend] says what can be observed of a world: the
    [board] (users, teams, memberships, tasks, history, comments) and the
    entries of the task-list cache. The contract of an interface is a class of
    laws that relates each operation to the board; the services' theorems are
    proved from these classes, and the MySQL and Redis models are instances. *)
From S2P Require Import Prelude Go Uuid Domain.

(** ** Interfaces *)

(** A cache payload, [[]byte]. *)
Abbreviation bytes := string (only parsing).

Record TaskSaver (W : Type) := MkTaskSaver {
  SaveTask : Task → comp W unit
}.
Record TaskGetter (W : Type) := MkTaskGetter {
  GetTaskByID : uuid → comp W Task;
  ListTasks : TaskFilter → comp W (list Task * Z)
}.
Record TaskUpdater (W : Type) := MkTaskUpdater {
  UpdateTaskWithHistory : Task → list TaskHistory → comp W unit
}.
Record HistoryStore (W : Type) := MkHistoryStore {
  ListHistory : uuid → comp W (list TaskHistory)
}.
Record MemberChecker (W : Type) := MkMemberChecker {
  GetMemberRole : uuid → uuid → comp W Role
}.
Record Cache (W : Type) := MkCache {
  Cache_Get : string → comp W bytes;
  Cache_Set : string → bytes → Z → comp W unit;
  Cache_Invalidate : string → comp W unit
}.
Record TeamSaver (W : Type) := MkTeamSaver {
  CreateTeamWithOwner : Team → uuid → comp W unit;
  SaveMember : uuid → uuid → Role → comp W unit
}.
Record TeamGetter (W : Type) := MkTeamGetter {
  GetTeamsByUser : uuid → comp W (list Team);
  GetTeamByID : uuid → comp W Team;
  TeamGetter_GetMemberRole : uuid → uuid → comp W Role
}.
Record UserByID (W : Type) := MkUserByID {
  GetByID : uuid → comp W User
}.
Record Notifier (W : Type) := MkNotifier {
  SendInvite : string → string → comp W unit
}.
Record UserSaver (W : Type) := MkUserSaver {
  SaveUser : User → comp W unit
}.
Record UserByEmail (W : Type) := MkUserByEmail {
  GetByEmail : string → comp W User
}.
Record CommentSaver (W : Type) := MkCommentSaver {
  SaveComment : Comment → comp W Comment
}.
Record CommentLister (W : Type) := MkCommentLister {
  ListComments : uuid → comp W (list Comment)
}.
(** What every service takes from the runtime: [uuid.NewV7] and [time.Now]. *)
Record Runtime (W : Type) := MkRuntime {
  NewV7 : comp W uuid;
  Now : comp W time
}.

Arguments SaveTask {W} _ _.
Arguments GetTaskByID {W} _ _.
Arguments ListTasks {W} _ _.
Arguments UpdateTaskWithHistory {W} _ _ _.
Arguments ListHistory {W} _ _.
Arguments GetMemberRole {W} _ _ _.
Arguments Cache_Get {W} _ _.
Arguments Cache_Set {W} _ _ _ _.
Arguments Cache_Invalidate {W} _ _.
Arguments CreateTeamWithOwner {W} _ _ _.
Arguments SaveMember {W} _ _ _ _.
Arguments GetTeamsByUser {W} _ _.
Arguments GetTeamByID {W} _ _.
Arguments TeamGetter_GetMemberRole {W} _ _ _.
Arguments GetByID {W} _ _.
Arguments SendInvite {W} _ _ _.
Arguments SaveUser {W} _ _.
Arguments GetByEmail {W} _ _.
Arguments SaveComment {W} _ _.
Arguments ListComments {W} _ _.
Arguments NewV7 {W} _.
Arguments Now {W} _.

(** ** The observable state *)

Record board : Type := Board {
  b_users : gmap uuid User;
  b_teams : gmap uuid Team;
  b_members : gmap (uuid * uuid) Role;
  b_tasks : gmap uuid Task;
  b_history : list TaskHistory;
  b_comments : list Comment
}.

Definition with_users (f : gmap uuid User → gmap uuid User) (b : board) : board :=
  Board (f (b_users b)) (b_teams b) (b_members b) (b_tasks b) (b_history b) (b_comments b).
Definition with_teams (f : gmap uuid Team → gmap uuid Team) (b : board) : board :=
  Board (b_users b) (f (b_teams b)) (b_members b) (b_tasks b) (b_history b) (b_comments b).
Definition with_members (f : gmap (uuid * uuid) Role → gmap (uuid * uuid) Role) (b : board) : board :=
  Board (b_users b) (b_teams b) (f (b_members b)) (b_tasks b) (b_history b) (b_comments b).
Definition with_tasks (f : gmap uuid Task → gmap uuid Task) (b : board) : board :=
  Board (b_users b) (b_teams b) (b_members b) (f (b_tasks b)) (b_history b) (b_comments b).
Definition with_history (f : list TaskHistory → list TaskHistory) (b : board) : board :=
  Board (b_users b) (b_teams b) (b_members b) (b_tasks b) (f (b_history b)) (b_comments b).
Definition with_comments (f : list Comment → list Comment) (b : board) : board :=
  Board (b_users b) (b_teams b) (b_members b) (b_tasks b) (b_history b) (f (b_comments b)).

(** [W] can be observed as a board and a cache. [healthy] worlds have no
    pending driver failure. [norm_task] and [norm_history] are what the columns
    keep of a value, [row_ok] that the columns accept it; [norm_fields] and
    [fields_ok] are the same for the columns an update assigns, and [user_ok],
    [team_ok] and [comment_ok] are the other tables' [row_ok]. [list_answers] are the
    admissible answers to a list query: storage may put equal rows in any order. *)
Class Backend (W : Type) := {
  board_of : W → board;
  cache_of : W → gmap string bytes;
  healthy : W → Prop;
  norm_task : Task → Task;
  row_ok : Task → Prop;
  norm_fields : Task → Task;
  fields_ok : Task → Prop;
  history_ok : TaskHistory → Prop;
  norm_history : Z → TaskHistory → TaskHistory;
  user_ok : User → Prop;
  team_ok : Team → Prop;
  comment_ok : Comment → Prop;
  list_answers : board → TaskFilter → list Task * Z → Prop;
  same_email : string → string → Prop
}.

(** An error that comes from storage carries none of the authorisation
    sentinels: those are the services' own decisions. *)
Definition from_storage (e : error) : Prop :=
  root_cause e ≠ ErrForbidden ∧ root_cause e ≠ ErrUnauthorized.

(** An error of a write: it does not say "not found" either. *)
Definition from_write (e : error) : Prop := from_storage e ∧ root_cause e ≠ ErrNotFound.

Section contracts.
Context {W : Type} `{!Backend W}.

(** The board is kept; cache entries may expire. *)
Record quiet (w w' : W) : Prop := Quiet {
  quiet_board : board_of w' = board_of w;
  quiet_cache : cache_of w' ⊆ cache_of w;
  quiet_healthy : healthy w → healthy w'
}.

#[global] Instance quiet_preorder : PreOrder quiet.
Proof.
  split.
  - by intros w.
  - intros w1 w2 w3 [Hb Hc Hh] [Hb' Hc' Hh']. split; [congruence| |by auto].
    by etrans.
Qed.

(** A read answers from the board, or fails without touching it; a failure
    that says "not found" is the truth; a healthy world answers. *)
Definition reads {A} (m : comp W A) (answer : board → result A) : Prop :=
  ∀ w w' r, m w = (w', r) →
    quiet w w' ∧
    (∀ a, r = Ok a → answer (board_of w) = Ok a) ∧
    (∀ e, r = Err e → from_storage e ∧
       (errors_Is e ErrNotFound = true → answer (board_of w) = Err ErrNotFound)) ∧
    (healthy w → r = answer (board_of w)).

(** The same for a read that has several admissible answers. *)
Definition reads_some {A} (m : comp W A) (answers : board → result A → Prop) : Prop :=
  ∀ w w' r, m w = (w', r) →
    quiet w w' ∧
    (∀ a, r = Ok a → answers (board_of w) (Ok a)) ∧
    (∀ e, r = Err e → from_storage e ∧
       (errors_Is e ErrNotFound = true → answers (board_of w) (Err ErrNotFound))) ∧
    (healthy w → answers (board_of w) r).

(** There always is an answer. *)
Definition answered {A} (P : board → A → Prop) (b : board) (r : result A) : Prop :=
  ∃ a, r = Ok a ∧ P b a.

(** A write performs its step, or fails having performed it completely or not
    at all; a healthy world performs every possible step, and keeps the board
    when it fails. *)
Definition writes {A} (m : comp W A) (step : board → A → board → Prop) : Prop :=
  ∀ w w' r, m w = (w', r) →
    cache_of w' ⊆ cache_of w ∧
    (∀ a, r = Ok a → step (board_of w) a (board_of w')) ∧
    (∀ e, r = Err e → from_write e ∧
       (board_of w' = board_of w ∨ ∃ a, step (board_of w) a (board_of w'))) ∧
    (healthy w → healthy w' ∧
       ((∃ a b', step (board_of w) a b') → ∃ a, r = Ok a) ∧
       (∀ e, r = Err e → board_of w' = board_of w)).

(** ** The abstract operations on the board *)

Definition or_not_found {A} (o : option A) : result A :=
  match o with Some a => Ok a | None => Err ErrNotFound end.

Definition member_role (tm u : uuid) (b : board) : result Role :=
  or_not_found (b_members b !! (tm, u)).

Definition refs_ok (b : board) (t : Task) : Prop :=
  is_Some (b_teams b !! Task_TeamID t) ∧
  is_Some (b_users b !! Task_CreatedBy t) ∧
  (∀ a, Task_AssigneeID t = Some a → is_Some (b_users b !! a)).

Definition save_task (t : Task) (b : board) (_ : unit) (b' : board) : Prop :=
  b_tasks b !! Task_ID t = None ∧ refs_ok b t ∧ row_ok t ∧
  b' = with_tasks (<[Task_ID t := norm_task t]>) b.

(** The columns UPDATE assigns, on top of the stored row. *)
Definition update_columns (old t : Task) : Task :=
  MkTask (Task_ID old) (Task_TeamID old) (Task_CreatedBy old)
    (Task_AssigneeID t) (Task_Title t) (Task_Description t) (Task_Status t)
    (Task_Priority t) (Task_DueDate t) (Task_CreatedAt old) (Task_UpdatedAt t).

(** [hs] numbered by an increasing sequence of fresh ids. *)
Definition numbered (b : board) (hs hs' : list TaskHistory) : Prop :=
  ∃ ids : list Z, length ids = length hs ∧
    hs' = zip_with norm_history ids hs ∧
    StronglySorted Z.lt ids ∧
    ∀ h i, h ∈ b_history b → i ∈ ids → TH_ID h < i.

Definition update_task (t : Task) (hs : list TaskHistory) (b : board) (_ : unit) (b' : board) : Prop :=
  (match b_tasks b !! Task_ID t with
   | Some old =>
       fields_ok (update_columns old t) ∧ (∀ a, Task_AssigneeID t = Some a → is_Some (b_users b !! a)) ∧
       b_tasks b' = <[Task_ID t := norm_fields (update_columns old t)]> (b_tasks b)
   | None => b_tasks b' = b_tasks b
   end) ∧
  Forall (λ h, history_ok h ∧ is_Some (b_tasks b !! TH_TaskID h) ∧
               is_Some (b_users b !! TH_ChangedBy h)) hs ∧
  (∃ hs', numbered b hs hs' ∧ b_history b' = b_history b ++ hs') ∧
  b' = with_history (λ _, b_history b') (with_tasks (λ _, b_tasks b') b).

Definition create_team (t : Team) (owner : uuid) (b : board) (_ : unit) (b' : board) : Prop :=
  team_ok t ∧ b_teams b !! Team_ID t = None ∧ b_members b !! (Team_ID t, owner) = None ∧
  is_Some (b_users b !! Team_CreatedBy t) ∧ is_Some (b_users b !! owner) ∧
  ∃ t', Team_ID t' = Team_ID t ∧ Team_CreatedBy t' = Team_CreatedBy t ∧
        Team_Name t' = Team_Name t ∧
  b' = with_members (<[(Team_ID t, owner) := RoleOwner]>)
         (with_teams (<[Team_ID t := t']>) b).

Definition save_member (tm u : uuid) (role : Role) (b : board) (_ : unit) (b' : board) : Prop :=
  is_Some (b_teams b !! tm) ∧ is_Some (b_users b !! u) ∧
  b' = with_members (<[(tm, u) := role]>) b.

Definition save_user (u : User) (b : board) (_ : unit) (b' : board) : Prop :=
  user_ok u ∧ b_users b !! User_ID u = None ∧
  (∀ i v, b_users b !! i = Some v → ¬ same_email (User_Email v) (User_Email u)) ∧
  ∃ u', User_ID u' = User_ID u ∧ User_Email u' = User_Email u ∧
        User_Name u' = User_Name u ∧ User_Password u' = User_Password u ∧
  b' = with_users (<[User_ID u := u']>) b.

Definition save_comment (c : Comment) (b : board) (c' : Comment) (b' : board) : Prop :=
  comment_ok c ∧
  is_Some (b_tasks b !! Comment_TaskID c) ∧ is_Some (b_users b !! Comment_UserID c) ∧
  ∃ id now,
    c' = MkComment id (Comment_TaskID c) (Comment_UserID c) (Comment_Body c) (Comment_CreatedAt c) ∧
    b' = with_comments (λ l, l ++
      [MkComment id (Comment_TaskID c) (Comment_UserID c) (Comment_Body c) now]) b.

(** ** Contracts *)

(** Rows are found under their own id, what the columns keep of a task includes
    its references, and a list query sees only the tasks of its team. *)
Class BackendSpec : Prop := {
  same_email_refl e : same_email e e;
  board_keyed w id t : b_tasks (board_of w) !! id = Some t → Task_ID t = id;
  norm_task_refs t : Task_ID (norm_task t) = Task_ID t ∧ Task_TeamID (norm_task t) = Task_TeamID t ∧
    Task_CreatedBy (norm_task t) = Task_CreatedBy t ∧
    Task_AssigneeID (norm_task t) = Task_AssigneeID t;
  norm_fields_refs t : Task_ID (norm_fields t) = Task_ID t ∧
    Task_TeamID (norm_fields t) = Task_TeamID t ∧
    Task_CreatedBy (norm_fields t) = Task_CreatedBy t ∧
    Task_AssigneeID (norm_fields t) = Task_AssigneeID t;
  norm_history_refs i h : TH_TaskID (norm_history i h) = TH_TaskID h ∧
    TH_ChangedBy (norm_history i h) = TH_ChangedBy h;
  list_answer_local b b' f tm : TF_TeamID f = Some tm →
    filter (λ kt : uuid * Task, Task_TeamID kt.2 = tm) (b_tasks b) =
      filter (λ kt : uuid * Task, Task_TeamID kt.2 = tm) (b_tasks b') →
    ∀ res, list_answers b f res ↔ list_answers b' f res
}.

(** The page and limit of a query whose row offset fits an [int]. *)
Definition page_ok (f : TaskFilter) : Prop :=
  1 ≤ TF_Page f ∧ 1 ≤ TF_Limit f ≤ 100 ∧ int64_range ((TF_Page f - 1) * TF_Limit f).

Class MemberCheckerSpec (mc : MemberChecker W) : Prop :=
  GetMemberRole_reads tm u : reads (GetMemberRole mc tm u) (member_role tm u).

Class TaskSaverSpec (s : TaskSaver W) : Prop :=
  SaveTask_writes t : writes (SaveTask s t) (save_task t).

(** A row of the board that a query may show: one of its team, if it names one. *)
Definition row_of (f : TaskFilter) (t : Task) (b : board) : Prop :=
  (∃ id, b_tasks b !! id = Some t) ∧ ∀ tm, TF_TeamID f = Some tm → Task_TeamID t = tm.

Class TaskGetterSpec (s : TaskGetter W) : Prop := {
  GetTaskByID_reads id : reads (GetTaskByID s id) (λ b, or_not_found (b_tasks b !! id));
  ListTasks_reads f : page_ok f → reads_some (ListTasks s f) (answered (λ b, list_answers b f));
  ListTasks_quiet f w w' r : ListTasks s f w = (w', r) →
    quiet w w' ∧ ∀ e, r = Err e → from_storage e;
  ListTasks_rows f w w' res t : ListTasks s f w = (w', Ok res) → t ∈ res.1 → row_of f t (board_of w)
}.

Class TaskUpdaterSpec (s : TaskUpdater W) : Prop :=
  UpdateTaskWithHistory_writes t hs : writes (UpdateTaskWithHistory s t hs) (update_task t hs).

(** The entries of one task, oldest first, whatever the order among equals. *)
Definition history_of (id : uuid) (b : board) (l : list TaskHistory) : Prop :=
  l ≡ₚ filter (λ h, TH_TaskID h = id) (b_history b) ∧
  StronglySorted (λ h h', t_ns (TH_ChangedAt h) ≤ t_ns (TH_ChangedAt h')) l.

Class HistoryStoreSpec (s : HistoryStore W) : Prop :=
  ListHistory_reads id : reads_some (ListHistory s id) (answered (history_of id)).

Class RuntimeSpec (r : Runtime W) : Prop := {
  NewV7_quiet w w' x : NewV7 r w = (w', x) → quiet w w' ∧ (∀ e, x = Err e → from_storage e);
  Now_quiet w w' x : Now r w = (w', x) → quiet w w' ∧ ∃ t, x = Ok t
}.

(** A pattern [p ++ "*"] with a literal prefix removes every key under [p]. *)
Definition glob_literal (p : string) : bool :=
  str_forall (λ c, negb (bool_decide (c ∈ ["*"; "?"; "["; "]"; "\"]%char))) p.

Class CacheSpec (c : Cache W) : Prop := {
  Cache_Get_spec k w w' r : Cache_Get c k w = (w', r) →
    quiet w w' ∧ (∀ d, r = Ok d → cache_of w !! k = Some d);
  Cache_Set_spec k d ttl w w' r : Cache_Set c k d ttl w = (w', r) →
    board_of w' = board_of w ∧ (healthy w → healthy w') ∧
    (cache_of w' ⊆ cache_of w ∨ cache_of w' ⊆ <[k := d]> (cache_of w));
  Cache_Invalidate_spec pat w w' r : Cache_Invalidate c pat w = (w', r) →
    quiet w w' ∧ (healthy w → r = Ok tt) ∧
    (∀ p, pat = p +:+ "*" → glob_literal p = true → r = Ok tt →
     ∀ k s, k = p +:+ s → cache_of w' !! k = None)
}.

Class TeamSaverSpec (s : TeamSaver W) : Prop := {
  CreateTeamWithOwner_writes t o : writes (CreateTeamWithOwner s t o) (create_team t o);
  SaveMember_writes tm u r : r ∈ [RoleOwner; RoleAdmin; RoleMember] →
    writes (SaveMember s tm u r) (save_member tm u r)
}.

(** The teams of a user, in any order. *)
Definition teams_of (u : uuid) (b : board) (l : list Team) : Prop :=
  l ≡ₚ omap (λ kt : uuid * Team, if decide (is_Some (b_members b !! (kt.1, u)))
                                 then Some kt.2 else None) (map_to_list (b_teams b)).

Class TeamGetterSpec (s : TeamGetter W) : Prop := {
  GetTeamByID_reads id : reads (GetTeamByID s id) (λ b, or_not_found (b_teams b !! id));
  TeamGetter_GetMemberRole_reads tm u :
    reads (TeamGetter_GetMemberRole s tm u) (member_role tm u);
  GetTeamsByUser_reads u : reads_some (GetTeamsByUser s u) (answered (teams_of u))
}.

Class UserByIDSpec (s : UserByID W) : Prop :=
  GetByID_reads id : reads (GetByID s id) (λ b, or_not_found (b_users b !! id)).

(** The answer for an email is a user with that email, and no such user exists
    when the answer is "not found". *)
Definition user_by_email (email : string) (b : board) (r : result User) : Prop :=
  match r with
  | Ok u => b_users b !! User_ID u = Some u ∧ same_email (User_Email u) email
  | Err e => e = ErrNotFound ∧ ∀ i v, b_users b !! i = Some v → ¬ same_email (User_Email v) email
  end.

Class UserByEmailSpec (s : UserByEmail W) : Prop :=
  GetByEmail_reads email : reads_some (GetByEmail s email) (user_by_email email).

Class UserSaverSpec (s : UserSaver W) : Prop := {
  SaveUser_writes u : writes (SaveUser s u) (save_user u);
  SaveUser_conflict u w w' e : SaveUser s u w = (w', Err e) →
    errors_Is e ErrConflict = true → board_of w' = board_of w
}.

Class NotifierSpec (s : Notifier W) : Prop :=
  SendInvite_quiet to name w w' r : SendInvite s to name w = (w', r) → quiet w w'.

Class CommentSaverSpec (s : CommentSaver W) : Prop :=
  SaveComment_writes c : writes (SaveComment s c) (save_comment c).

Definition comments_of (id : uuid) (b : board) (l : list Comment) : Prop :=
  l ≡ₚ filter (λ c, Comment_TaskID c = id) (b_comments b) ∧
  StronglySorted (λ c c', t_ns (Comment_CreatedAt c) ≤ t_ns (Comment_CreatedAt c')) l.

Class CommentListerSpec (s : CommentLister W) : Prop :=
  ListComments_reads id : reads_some (ListComments s id) (answered (comments_of id)).

(** ** Using the contracts *)

Lemma wrap_storage what e : from_storage e → from_storage (wrap what e).
Proof. done. Qed.

Lemma from_storage_not_forbidden e : from_storage e → errors_Is e ErrForbidden = false.
Proof. intros [Hf _]. rewrite errors_Is_root by done. by apply bool_decide_false. Qed.

Lemma from_write_wrap what e :
  from_write e → errors_Is (wrap what e) ErrForbidden = false ∧ errors_Is (wrap what e) ErrNotFound = false.
Proof. intros [[Hf _] Hn]. rewrite !errors_Is_root by done. by split; apply bool_decide_false. Qed.

Lemma wrap_not_forbidden what e :
  from_storage e → errors_Is (wrap what e) ErrForbidden = false.
Proof. intros He. by apply from_storage_not_forbidden, wrap_storage. Qed.

(** A lookup: found, truly absent, or a failure of an unhealthy world. *)
Lemma reads_found {A} (m : comp W A) f w w' r :
  reads m (λ b, or_not_found (f b)) → m w = (w', r) →
  quiet w w' ∧
  match r with
  | Ok a => f (board_of w) = Some a
  | Err e => from_storage e ∧
      ((errors_Is e ErrNotFound = true ∧ f (board_of w) = None) ∨
       (errors_Is e ErrNotFound = false ∧ ¬ healthy w))
  end.
Proof.
  intros Hm Hr. destruct (Hm _ _ _ Hr) as (Hq & Hok & Herr & Hh). split; [done|].
  unfold or_not_found in *. destruct r as [a|e].
  - specialize (Hok _ eq_refl). by destruct (f _); simplify_eq.
  - destruct (Herr _ eq_refl) as [Hst Hnf]. split; [done|].
    destruct (errors_Is e ErrNotFound) eqn:En; [left|right]; (split; [done|]).
    + specialize (Hnf eq_refl). by destruct (f _).
    + intros Hw. specialize (Hh Hw). destruct (f _); simplify_eq.
Qed.

(** A query that always has an answer: the answer, or a failure of an unhealthy
    world that is none of the sentinels. *)
Lemma reads_answered {A} (m : comp W A) P w w' r :
  reads_some m (answered P) → m w = (w', r) →
  quiet w w' ∧
  match r with
  | Ok a => P (board_of w) a
  | Err e => from_storage e ∧ errors_Is e ErrNotFound = false ∧ ¬ healthy w
  end.
Proof.
  intros Hm Hr. destruct (Hm _ _ _ Hr) as (Hq & Hok & Herr & Hh). split; [done|].
  destruct r as [a|e].
  - by destruct (Hok _ eq_refl) as (a' & [= <-] & Ha).
  - destruct (Herr _ eq_refl) as [Hst Hnf]. split; [done|]. split.
    + destruct (errors_Is e ErrNotFound); [|done]. by destruct (Hnf eq_refl) as (? & ? & _).
    + intros Hw. by destruct (Hh Hw) as (? & ? & _).
Qed.

(** A membership check: "not found" becomes the given error, any other error is
    wrapped with the operation and what it was doing. *)
Definition check_member (mc : MemberChecker W) (forbidden : error) (what : string)
    (teamID userID : uuid) : comp W unit :=
  on_err (λ err, if errors_Is err ErrNotFound then forbidden else wrap what err)
    (GetMemberRole mc teamID userID) ;; mret tt.

Definition is_member (b : board) (tm u : uuid) : Prop := is_Some (b_members b !! (tm, u)).

Lemma is_member_role b tm u : is_member b tm u ↔ ∃ r, member_role tm u b = Ok r.
Proof.
  unfold is_member, member_role, or_not_found.
  destruct (b_members b !! (tm, u)); split; intros [? ?]; naive_solver.
Qed.

(** What a membership check establishes: in a healthy world it decides
    membership. *)
Lemma check_member_spec mc `{!MemberCheckerSpec mc} forb what tm u w w' r :
  check_member mc forb what tm u w = (w', r) →
  quiet w w' ∧
  (r = Ok tt → is_member (board_of w) tm u) ∧
  (∀ e, r = Err e →
     (e = forb ∧ ¬ is_member (board_of w) tm u) ∨
     (¬ healthy w ∧ ∃ e', e = wrap what e' ∧ from_write e')).
Proof.
  unfold check_member. intros Hr.
  run Hr as w1 role E; [run_ret Hr|].
  - destruct (GetMemberRole_reads tm u _ _ _ E) as (Hq & Hok & _ & _).
    split_and!; [done| |done]. intros _. apply is_member_role. eauto.
  - destruct (GetMemberRole_reads tm u _ _ _ E) as (Hq & _ & Herr & Hh).
    destruct (Herr _ eq_refl) as [Hst Hnf]. split_and!; [done|done|].
    intros ? [= <-]. rewrite is_member_role.
    destruct (errors_Is role ErrNotFound) eqn:En.
    + left. split; [done|]. rewrite (Hnf eq_refl). naive_solver.
    + right. rewrite errors_Is_root, bool_decide_eq_false in En by done.
      split; [|by exists role]. intros Hw. specialize (Hh Hw). revert Hh En.
      unfold member_role, or_not_found. destruct (b_members _ !! _); [done|].
      by intros [= ->].
Qed.

End contracts.

Arguments BackendSpec W {_} : assert.
