(* ===== verification/TaskService.v ===== *)
(** * TaskService: internal/service/task/task.go

    The task lifecycle: creation, listing through the cache, update with its
    audit trail, and history. The definitions follow the source function by
    function; log lines are left out. The theorems are proved from the
    contracts of Ports.v, for every backend. *)
From S2P Require Import Prelude Go Uuid Domain Ports.

(** ** Cached lists and their JSON encoding

    [cachedList] is what List stores. What the code relies on is that a list
    which encoding/json could encode decodes to itself, for the lists that
    [json_faithful] describes (text in UTF-8, years of four digits); CacheJson.v
    has the encoding and shows that it does. *)
Record cachedList : Type := MkCachedList {
  CL_Tasks : list Task;
  CL_Total : Z
}.

Class CacheCodec := {
  json_Marshal : cachedList → result bytes;
  json_Unmarshal : bytes → result cachedList;
  json_faithful : cachedList → Prop
}.

Class CacheCodecSpec `{CacheCodec} : Prop :=
  json_roundtrip l d : json_faithful l → json_Marshal l = Ok d → json_Unmarshal d = Ok l.

(** ** Helpers *)

Definition strPtrEqual (a b : option string) : bool :=
  match a, b with
  | Some x, Some y => bool_decide (x = y)
  | None, None => true
  | _, _ => false
  end.

Definition uuidPtrEqual (a b : option uuid) : bool :=
  match a, b with
  | Some x, Some y => bool_decide (x = y)
  | None, None => true
  | _, _ => false
  end.

Definition timePtrEqual (a b : option time) : bool :=
  match a, b with
  | Some x, Some y => time_Equal x y
  | None, None => true
  | _, _ => false
  end.

Definition formatDate (t : option time) : string :=
  match t with
  | None => ""
  | Some t => Format_date (time_UTC t)
  end.

Definition cacheKeyAll : string := "all".

Section service.
Context {W : Type} `{!UuidLib} `{!CacheCodec}.

Definition cacheKey (f : TaskFilter) : string :=
  let teamID := match TF_TeamID f with Some t => uuid_String t | None => cacheKeyAll end in
  let status := match TF_Status f with Some s => s | None => cacheKeyAll end in
  let assignee := match TF_AssigneeID f with Some a => uuid_String a | None => cacheKeyAll end in
  "tasks:" +:+ teamID +:+ ":" +:+ status +:+ ":" +:+ assignee +:+
  ":p" +:+ fmt_d (TF_Page f) +:+ ":l" +:+ fmt_d (TF_Limit f).

Definition cachePattern (teamID : uuid) : string :=
  "tasks:" +:+ uuid_String teamID +:+ ":*".

(** *** The audit trail of an update

    [buildHistoryEntries] mutates the task it is given and returns the entries;
    here it returns both. One [if] of the source is one step on that pair. *)
Definition entry (taskID callerID : uuid) (field : string) (old new : option string) : TaskHistory :=
  MkTaskHistory 0 taskID callerID field old new zero_time.

Section audit.
Variables (input : UpdateTaskInput) (mk : string → option string → option string → TaskHistory).

Definition change_title (st : Task * list TaskHistory) : Task * list TaskHistory :=
  match UTI_Title input with
  | Some title =>
      if bool_decide (title ≠ Task_Title st.1) then
        (set_Title title st.1, st.2 ++ [mk "title" (Some (Task_Title st.1)) (Some title)])
      else st
  | None => st
  end.

Definition change_description (st : Task * list TaskHistory) : Task * list TaskHistory :=
  match UTI_Description input with
  | Some description =>
      if negb (strPtrEqual (Task_Description st.1) (Some description)) then
        (set_Description (Some description) st.1,
         st.2 ++ [mk "description" (Task_Description st.1) (Some description)])
      else st
  | None => st
  end.

Definition change_status (st : Task * list TaskHistory) : Task * list TaskHistory :=
  match UTI_Status input with
  | Some status =>
      if bool_decide (status ≠ Task_Status st.1) then
        (set_Status status st.1, st.2 ++ [mk "status" (Some (Task_Status st.1)) (Some status)])
      else st
  | None => st
  end.

Definition change_priority (st : Task * list TaskHistory) : Task * list TaskHistory :=
  match UTI_Priority input with
  | Some priority =>
      if bool_decide (priority ≠ Task_Priority st.1) then
        (set_Priority priority st.1,
         st.2 ++ [mk "priority" (Some (Task_Priority st.1)) (Some priority)])
      else st
  | None => st
  end.

Definition change_assignee (st : Task * list TaskHistory) : Task * list TaskHistory :=
  match UTI_AssigneeID input with
  | Some assignee =>
      if negb (uuidPtrEqual (Task_AssigneeID st.1) (Some assignee)) then
        let old := match Task_AssigneeID st.1 with Some a => uuid_String a | None => "" end in
        (set_AssigneeID (Some assignee) st.1,
         st.2 ++ [mk "assignee_id" (Some old) (Some (uuid_String assignee))])
      else st
  | None => st
  end.

Definition change_due_date (st : Task * list TaskHistory) : Task * list TaskHistory :=
  match UTI_DueDate input with
  | Some due =>
      if negb (timePtrEqual (Task_DueDate st.1) (Some due)) then
        (set_DueDate (Some due) st.1,
         st.2 ++ [mk "due_date" (Some (formatDate (Task_DueDate st.1)))
                    (Some (formatDate (Some due)))])
      else st
  | None => st
  end.

End audit.

Definition buildHistoryEntries (task : Task) (input : UpdateTaskInput) (taskID callerID : uuid)
    : Task * list TaskHistory :=
  let mk := entry taskID callerID in
  let st := change_title input mk (task, []) in
  let st := change_description input mk st in
  let st := change_status input mk st in
  let st := change_priority input mk st in
  let st := change_assignee input mk st in
  change_due_date input mk st.

(** ** The service *)

(** The fields of the source, and [runtime]: the clock and the random source that
    the code calls directly. *)
Record Service : Type := MkService {
  taskSaver : TaskSaver W;
  taskGetter : TaskGetter W;
  taskUpdater : TaskUpdater W;
  history : HistoryStore W;
  members : MemberChecker W;
  cache : Cache W;
  ttl : Z;
  runtime : Runtime W
}.

Definition New (taskSaver : TaskSaver W) (taskGetter : TaskGetter W) (taskUpdater : TaskUpdater W)
    (history : HistoryStore W) (members : MemberChecker W) (cache : Cache W) (ttl : Z) (runtime : Runtime W)
    : Service :=
  MkService taskSaver taskGetter taskUpdater history members cache ttl runtime.

Definition ErrAssignee : error := Errorf "" ErrForbidden ": assignee is not a team member".

Definition Create (s : Service) (creatorID : uuid) (input : CreateTaskInput) : comp W Task :=
  let op := "task.Service.Create" in
  check_member (members s) ErrForbidden (op +:+ ": get member role") (CTI_TeamID input) creatorID ;;
  (match CTI_AssigneeID input with
   | Some assignee =>
       check_member (members s) ErrAssignee (op +:+ ": check assignee membership")
         (CTI_TeamID input) assignee
   | None => mret tt
   end) ;;
  let priority := if bool_decide (CTI_Priority input ≠ "") then CTI_Priority input
                  else PriorityMedium in
  id ← on_err (wrap (op +:+ ": generate task id")) (NewV7 (runtime s));
  now ← Now (runtime s);
  let now := time_UTC now in
  let task := MkTask id (CTI_TeamID input) creatorID (CTI_AssigneeID input) (CTI_Title input)
                (CTI_Description input) StatusTodo priority (CTI_DueDate input) now now in
  on_err (wrap (op +:+ ": save task")) (SaveTask (taskSaver s) task) ;;
  ignore_err (Cache_Invalidate (cache s) (cachePattern (CTI_TeamID input))) ;;
  mret task.

(** The page and limit clamping of List. *)
Definition normalize (f : TaskFilter) : TaskFilter :=
  let page := if TF_Page f <=? 0 then 1 else TF_Page f in
  let limit := if TF_Limit f <=? 0 then 20 else TF_Limit f in
  let limit := if 100 <? limit then 100 else limit in
  MkTaskFilter (TF_TeamID f) (TF_Status f) (TF_AssigneeID f) page limit.

(** The query of storage and the population of the cache, on a miss. *)
Definition list_from_storage (s : Service) (key : string) (f : TaskFilter)
    : comp W (list Task * Z) :=
  res ← on_err (wrap "task.Service.List: list tasks") (ListTasks (taskGetter s) f);
  (match json_Marshal (MkCachedList res.1 res.2) with
   | Ok data => ignore_err (Cache_Set (cache s) key data (ttl s))
   | Err _ => mret tt
   end) ;;
  mret res.

Definition List (s : Service) (callerID : uuid) (filter : TaskFilter) : comp W (list Task * Z) :=
  let op := "task.Service.List" in
  match TF_TeamID filter with
  | None => throw ErrForbidden
  | Some teamID =>
      check_member (members s) ErrForbidden (op +:+ ": get member role") teamID callerID ;;
      let f := normalize filter in
      let key := cacheKey f in
      hit ← attempt (Cache_Get (cache s) key);
      match hit with
      | Ok data =>
          match json_Unmarshal data with
          | Ok cached => mret (CL_Tasks cached, CL_Total cached)
          | Err _ => list_from_storage s key f
          end
      | Err _ => list_from_storage s key f
      end
  end.

Definition Update (s : Service) (callerID taskID : uuid) (input : UpdateTaskInput) : comp W Task :=
  let op := "task.Service.Update" in
  task ← on_err (wrap (op +:+ ": get task")) (GetTaskByID (taskGetter s) taskID);
  check_member (members s) ErrForbidden (op +:+ ": get member role") (Task_TeamID task) callerID ;;
  (match UTI_AssigneeID input with
   | Some assignee =>
       if negb (uuidPtrEqual (Task_AssigneeID task) (Some assignee)) then
         check_member (members s) ErrAssignee (op +:+ ": check assignee membership")
           (Task_TeamID task) assignee
       else mret tt
   | None => mret tt
   end) ;;
  let '(task, entries) := buildHistoryEntries task input taskID callerID in
  now ← Now (runtime s);
  let task := set_UpdatedAt (time_UTC now) task in
  let entries := set_ChangedAt (time_UTC now) <$> entries in
  on_err (wrap (op +:+ ": update task")) (UpdateTaskWithHistory (taskUpdater s) task entries) ;;
  ignore_err (Cache_Invalidate (cache s) (cachePattern (Task_TeamID task))) ;;
  mret task.

Definition History (s : Service) (callerID taskID : uuid) : comp W (list TaskHistory) :=
  let op := "task.Service.History" in
  task ← on_err (wrap (op +:+ ": get task")) (GetTaskByID (taskGetter s) taskID);
  check_member (members s) ErrForbidden (op +:+ ": get member role") (Task_TeamID task) callerID ;;
  on_err (wrap (op +:+ ": list history")) (ListHistory (history s) taskID).

End service.

Arguments Service W : clear implicits.

(** ** The audit trail: what an update records *)

(** The six fields an update may change, the name an entry gives them, their
    value in a task, and the text an entry shows for that value. *)
Inductive field : Type :=
  FTitle | FDescription | FStatus | FPriority | FAssignee | FDueDate.

Definition field_name (f : field) : string :=
  match f with
  | FTitle => "title" | FDescription => "description" | FStatus => "status"
  | FPriority => "priority" | FAssignee => "assignee_id" | FDueDate => "due_date"
  end.

Definition field_eq (f : field) (t t' : Task) : Prop :=
  match f with
  | FTitle => Task_Title t = Task_Title t'
  | FDescription => Task_Description t = Task_Description t'
  | FStatus => Task_Status t = Task_Status t'
  | FPriority => Task_Priority t = Task_Priority t'
  | FAssignee => Task_AssigneeID t = Task_AssigneeID t'
  | FDueDate => Task_DueDate t = Task_DueDate t'
  end.

(** What an update never touches. *)
Definition identity_eq (t t' : Task) : Prop :=
  Task_ID t = Task_ID t' ∧ Task_TeamID t = Task_TeamID t' ∧
  Task_CreatedBy t = Task_CreatedBy t' ∧ Task_CreatedAt t = Task_CreatedAt t' ∧
  Task_UpdatedAt t = Task_UpdatedAt t'.

#[global] Instance field_eq_dec : EqDecision field.
Proof. solve_decision. Defined.

#[global] Instance field_name_inj : Inj (=) (=) field_name.
Proof. by intros [] []. Qed.

Section audit_proofs.
Context `{!UuidLib}.

Definition rendered (f : field) (t : Task) : option string :=
  match f with
  | FTitle => Some (Task_Title t)
  | FDescription => Task_Description t
  | FStatus => Some (Task_Status t)
  | FPriority => Some (Task_Priority t)
  | FAssignee => Some (match Task_AssigneeID t with Some a => uuid_String a | None => "" end)
  | FDueDate => Some (formatDate (Task_DueDate t))
  end.

(** One block of the source either does nothing or changes its own field and
    appends the entry of that change. *)
Definition changes (f : field) (mk : string → option string → option string → TaskHistory)
    (step : Task * list TaskHistory → Task * list TaskHistory) : Prop :=
  ∀ t es, step (t, es) = (t, es) ∨
  ∃ t', step (t, es) = (t', es ++ [mk (field_name f) (rendered f t) (rendered f t')]) ∧
        ¬ field_eq f t t' ∧ (∀ g, g ≠ f → field_eq g t t') ∧ identity_eq t t'.

Lemma uuidPtrEqual_spec a b : uuidPtrEqual a b = bool_decide (a = b).
Proof. destruct a, b; simpl; try done. apply bool_decide_ext. naive_solver. Qed.

Lemma strPtrEqual_spec a b : strPtrEqual a b = bool_decide (a = b).
Proof. destruct a, b; simpl; try done. apply bool_decide_ext. naive_solver. Qed.

Lemma timePtrEqual_refl a : timePtrEqual a a = true.
Proof. destruct a as [t|]; [|done]. simpl. unfold time_Equal. by rewrite bool_decide_true. Qed.

Ltac solve_changes t' :=
  right; exists t'; split; [reflexivity|]; split_and!;
    [simpl; congruence|intros []; done|done..].

Lemma change_title_changes input mk : changes FTitle mk (change_title input mk).
Proof.
  intros t es. unfold change_title. destruct (UTI_Title input) as [x|]; [|by left].
  simpl. case_bool_decide; [solve_changes (set_Title x t)|by left].
Qed.

Lemma change_description_changes input mk :
  changes FDescription mk (change_description input mk).
Proof.
  intros t es. unfold change_description.
  destruct (UTI_Description input) as [x|]; [|by left]. cbn [fst snd].
  rewrite strPtrEqual_spec. case_bool_decide; [by left|].
  cbn [negb]. solve_changes (set_Description (Some x) t).
Qed.

Lemma change_status_changes input mk : changes FStatus mk (change_status input mk).
Proof.
  intros t es. unfold change_status. destruct (UTI_Status input) as [x|]; [|by left].
  simpl. case_bool_decide; [solve_changes (set_Status x t)|by left].
Qed.

Lemma change_priority_changes input mk : changes FPriority mk (change_priority input mk).
Proof.
  intros t es. unfold change_priority. destruct (UTI_Priority input) as [x|]; [|by left].
  simpl. case_bool_decide; [solve_changes (set_Priority x t)|by left].
Qed.

Lemma change_assignee_changes input mk : changes FAssignee mk (change_assignee input mk).
Proof.
  intros t es. unfold change_assignee. destruct (UTI_AssigneeID input) as [x|]; [|by left].
  cbn [fst snd]. rewrite uuidPtrEqual_spec. case_bool_decide; [by left|].
  cbn [negb]. solve_changes (set_AssigneeID (Some x) t).
Qed.

Lemma change_due_date_changes input mk : changes FDueDate mk (change_due_date input mk).
Proof.
  intros t es. unfold change_due_date. destruct (UTI_DueDate input) as [x|]; [|by left].
  cbn [fst snd]. destruct (timePtrEqual (Task_DueDate t) (Some x)) eqn:E; [by left|].
  cbn [negb]. right. exists (set_DueDate (Some x) t). split; [reflexivity|]. split_and!; [|intros []; done|done].
  simpl. intros Heq. rewrite Heq, timePtrEqual_refl in E. done.
Qed.

(** The state after some blocks: [es] are exactly the changes from [t0] to [t],
    over the fields [fs] handled so far. *)
Definition audited (mk : string → option string → option string → TaskHistory)
    (t0 : Task) (fs : list field) (st : Task * list TaskHistory) : Prop :=
  ∃ changed : list field,
    st.2 = (λ f, mk (field_name f) (rendered f t0) (rendered f st.1)) <$> changed ∧
    NoDup changed ∧ (∀ f, f ∈ changed → f ∈ fs ∧ ¬ field_eq f t0 st.1) ∧
    (∀ f, f ∉ changed → field_eq f t0 st.1) ∧ identity_eq t0 st.1.

Lemma rendered_eq f t t' : field_eq f t t' → rendered f t = rendered f t'.
Proof. destruct f; simpl; by intros ->. Qed.

Lemma field_eq_refl f t : field_eq f t t.
Proof. by destruct f. Qed.

Lemma field_eq_trans f t1 t2 t3 : field_eq f t1 t2 → field_eq f t2 t3 → field_eq f t1 t3.
Proof. destruct f; simpl; congruence. Qed.

Lemma field_eq_sym f t1 t2 : field_eq f t1 t2 → field_eq f t2 t1.
Proof. destruct f; simpl; congruence. Qed.

Lemma audited_nil mk t : audited mk t [] (t, []).
Proof.
  exists []. split_and!; [done|constructor|set_solver|intros; apply field_eq_refl|done].
Qed.

Lemma audited_step mk t0 fs f step st :
  changes f mk step → f ∉ fs → audited mk t0 fs st → audited mk t0 (fs ++ [f]) (step st).
Proof.
  intros Hch Hf (changed & Hes & Hnd & Hin & Hout & Hid). destruct st as [t es]; simpl in *.
  destruct (Hch t es) as [->|(t' & -> & Hne & Hoth & Hid')].
  - exists changed. split_and!; [done..| |done|done].
    intros g Hg. destruct (Hin g Hg). set_solver.
  - assert (Hfc : f ∉ changed) by (intros Hc; by destruct (Hin f Hc)).
    exists (changed ++ [f]). simpl. split_and!.
    + rewrite fmap_app, Hes. f_equal; simpl.
      * apply list_fmap_ext. intros i g Hg.
        rewrite (rendered_eq g t t'); [done|]. apply Hoth. intros ->.
        apply Hfc. by eapply list_elem_of_lookup_2.
      * by rewrite (rendered_eq f t0 t) by auto.
    + apply NoDup_app. split_and!; [done|set_solver|apply NoDup_singleton].
    + intros g [Hg|Hg]%elem_of_app.
      * destruct (Hin g Hg) as [Hgf Hd]. split; [set_solver|]. intros Heq. apply Hd.
        eapply field_eq_trans; [done|]. apply field_eq_sym, Hoth. intros ->. done.
      * apply list_elem_of_singleton in Hg as ->. split; [set_solver|]. intros Heq. apply Hne.
        eapply field_eq_trans; [|done]. apply field_eq_sym; auto.
    + intros g Hg. eapply field_eq_trans; [apply Hout; set_solver|]. apply Hoth. set_solver.
    + unfold identity_eq in *. destruct_and!. split_and!; congruence.
Qed.

Lemma buildHistoryEntries_audited task input taskID callerID :
  audited (entry taskID callerID) task [FTitle; FDescription; FStatus; FPriority; FAssignee; FDueDate]
    (buildHistoryEntries task input taskID callerID).
Proof.
  unfold buildHistoryEntries.
  apply (audited_step _ _ [FTitle; FDescription; FStatus; FPriority; FAssignee]);
    [apply change_due_date_changes|set_solver|].
  apply (audited_step _ _ [FTitle; FDescription; FStatus; FPriority]);
    [apply change_assignee_changes|set_solver|].
  apply (audited_step _ _ [FTitle; FDescription; FStatus]);
    [apply change_priority_changes|set_solver|].
  apply (audited_step _ _ [FTitle; FDescription]); [apply change_status_changes|set_solver|].
  apply (audited_step _ _ [FTitle]); [apply change_description_changes|set_solver|].
  apply (audited_step _ _ []); [apply change_title_changes|set_solver|].
  apply audited_nil.
Qed.

End audit_proofs.

(** ** Cache keys *)

Definition not_colon (c : ascii) : bool := negb (bool_decide (c = ":"%char)).

Lemma digit_not_colon c : is_digit c = true → not_colon c = true.
Proof.
  unfold not_colon. case_bool_decide; [subst; done|done].
Qed.

Lemma uuid_char_not_colon c : is_uuid_char c = true → not_colon c = true.
Proof.
  unfold not_colon. case_bool_decide; [subst; done|done].
Qed.

Lemma fmt_d_not_colon z : str_forall not_colon (fmt_d z) = true.
Proof.
  unfold fmt_d, pretty, pretty_Z. destruct z as [|p|p]; [done| |].
  - eapply str_forall_impl, pretty_N_digits. apply digit_not_colon.
  - rewrite str_forall_app. simpl. eapply str_forall_impl, pretty_N_digits.
    apply digit_not_colon.
Qed.

Section cache_keys.
Context `{!UuidLib} `{!UuidLibSpec}.

Lemma uuid_String_not_colon a : str_forall not_colon (uuid_String a) = true.
Proof. eapply str_forall_impl, uuid_String_chars. apply uuid_char_not_colon. Qed.

Lemma uuid_String_not_all a : uuid_String a ≠ cacheKeyAll.
Proof. intros Hk. pose proof (uuid_String_chars a) as Hc. by rewrite Hk in Hc. Qed.

Definition opt_id_key (o : option uuid) : string :=
  match o with Some a => uuid_String a | None => cacheKeyAll end.

Lemma opt_id_key_not_colon o : str_forall not_colon (opt_id_key o) = true.
Proof. destruct o; [apply uuid_String_not_colon|done]. Qed.

Lemma opt_id_key_inj o o' : opt_id_key o = opt_id_key o' → o = o'.
Proof.
  destruct o as [a|], o' as [b|]; simpl; [| | |done].
  - intros Hk. f_equal. by apply uuid_String_inj.
  - intros Hk. by apply uuid_String_not_all in Hk.
  - intros Hk. by apply symmetry, uuid_String_not_all in Hk.
Qed.

(** The key as a list of fields joined by colons, from the right. *)
Lemma cacheKey_shape f :
  cacheKey f =
    ((("tasks" +:+ String ":" (opt_id_key (TF_TeamID f) +:+ String ":"
      (match TF_Status f with Some s => s | None => cacheKeyAll end))) +:+
      String ":" (opt_id_key (TF_AssigneeID f))) +:+
      String ":" ("p" +:+ fmt_d (TF_Page f))) +:+
      String ":" ("l" +:+ fmt_d (TF_Limit f)).
Proof.
  unfold cacheKey. fold (opt_id_key (TF_TeamID f)). fold (opt_id_key (TF_AssigneeID f)).
  by autorewrite with str_norm.
Qed.

(** A status other than the word the key uses for "no status". *)
Definition proper_status (f : TaskFilter) : Prop := TF_Status f ≠ Some cacheKeyAll.

Lemma cacheKey_inj_proper f g :
  proper_status f → proper_status g → cacheKey f = cacheKey g → f = g.
Proof.
  intros Hf Hg. rewrite !cacheKey_shape. intros Hk.
  apply (str_sep_inj_r not_colon) in Hk as [Hk Hl];
    [|done|by rewrite str_forall_app, fmt_d_not_colon..].
  apply (str_sep_inj_r not_colon) in Hk as [Hk Hp];
    [|done|by rewrite str_forall_app, fmt_d_not_colon..].
  apply (str_sep_inj_r not_colon) in Hk as [Hk Ha]; [|done|apply opt_id_key_not_colon..].
  apply (inj (String.app "tasks")) in Hk. injection Hk as Hk.
  apply (str_sep_inj_l not_colon) in Hk as [Ht Hs]; [|done|apply opt_id_key_not_colon..].
  apply opt_id_key_inj in Ha, Ht.
  apply (inj (String.app "p")), (inj pretty) in Hp.
  apply (inj (String.app "l")), (inj pretty) in Hl.
  unfold proper_status in *. destruct f as [t s a p l], g as [t' s' a' p' l']; simpl in *.
  subst. f_equal. destruct s, s'; congruence.
Qed.

(** The keys of a team are the strings its pattern's prefix begins. *)
Definition teamPrefix (tm : uuid) : string := "tasks:" +:+ uuid_String tm +:+ ":".

Lemma cachePattern_prefix tm : cachePattern tm = teamPrefix tm +:+ "*".
Proof. unfold cachePattern, teamPrefix. by autorewrite with str_norm. Qed.

Lemma uuid_char_literal c :
  is_uuid_char c = true →
  negb (bool_decide (c ∈ ["*"; "?"; "["; "]"; "\"]%char)) = true.
Proof.
  intros Hc. rewrite negb_true_iff, bool_decide_eq_false. intros Hin.
  rewrite !elem_of_cons, elem_of_nil in Hin. by destruct_or! Hin; subst.
Qed.

Lemma teamPrefix_literal tm : glob_literal (teamPrefix tm) = true.
Proof.
  unfold glob_literal, teamPrefix. rewrite !str_forall_app.
  rewrite (str_forall_impl is_uuid_char _ _ uuid_char_literal (uuid_String_chars tm)). done.
Qed.

Lemma cacheKey_team tm f :
  (∃ s, cacheKey f = teamPrefix tm +:+ s) ↔ TF_TeamID f = Some tm.
Proof.
  rewrite cacheKey_shape. unfold teamPrefix. autorewrite with str_norm. split.
  - intros [s Hk]. autorewrite with str_norm in Hk. simplify_eq. rename Hk into Hk'.
    apply (str_sep_inj_l not_colon) in Hk' as [Ht _];
      [|done|apply opt_id_key_not_colon|apply uuid_String_not_colon].
    by apply (opt_id_key_inj _ (Some tm)).
  - intros ->. simpl opt_id_key. eexists. by autorewrite with str_norm.
Qed.

End cache_keys.

(** ** The service against the contracts *)

Section service_proofs.
Context {W : Type} `{!UuidLib} `{!UuidLibSpec} `{!CacheCodec} `{!CacheCodecSpec} `{!Backend W}.

(** The collaborators of a service all keep their contracts. *)
Class ServiceSpec (s : Service W) : Prop := {
  #[global] spec_saver :: TaskSaverSpec (taskSaver s);
  #[global] spec_getter :: TaskGetterSpec (taskGetter s);
  #[global] spec_updater :: TaskUpdaterSpec (taskUpdater s);
  #[global] spec_history :: HistoryStoreSpec (history s);
  #[global] spec_members :: MemberCheckerSpec (members s);
  #[global] spec_cache :: CacheSpec (cache s);
  #[global] spec_runtime :: RuntimeSpec (runtime s)
}.

(** *** Cache coherence *)

(** The entry under the key of a proper, normalised query is the encoding of
    what storage can answer now. *)
Definition canonical (f : TaskFilter) : Prop :=
  is_Some (TF_TeamID f) ∧ proper_status f ∧ page_ok f.

Definition listing (b : board) (f : TaskFilter) (l : cachedList) : Prop :=
  list_answers b f (CL_Tasks l, CL_Total l).

Definition coherent (w : W) : Prop :=
  ∀ f d, canonical f → cache_of w !! cacheKey f = Some d →
    ∃ l, listing (board_of w) f l ∧ json_Marshal l = Ok d.

Lemma coherent_quiet w w' : quiet w w' → coherent w → coherent w'.
Proof.
  intros [Hb Hc _] Hco f d Hf Hk. rewrite Hb. eapply Hco; [done|].
  by eapply lookup_weaken.
Qed.

Lemma normalize_bounds f : 1 ≤ TF_Page (normalize f) ∧ 1 ≤ TF_Limit (normalize f) ≤ 100.
Proof.
  unfold normalize. cbn [TF_Page TF_Limit].
  destruct (Z.leb_spec (TF_Page f) 0), (Z.leb_spec (TF_Limit f) 0);
    (destruct (Z.ltb_spec 100 (TF_Limit f)); simpl; lia) || (simpl; lia).
Qed.

Lemma normalize_id f : 1 ≤ TF_Page f → 1 ≤ TF_Limit f ≤ 100 → normalize f = f.
Proof.
  intros Hp Hl. unfold normalize. destruct f as [t st a p l]; simpl in *.
  destruct (Z.leb_spec p 0), (Z.leb_spec l 0), (Z.ltb_spec 100 l); try lia. done.
Qed.

(** *** Create *)

Definition authorised (b : board) (tm creator : uuid) (assignee : option uuid) : Prop :=
  is_member b tm creator ∧ ∀ a, assignee = Some a → is_member b tm a.

(** The task Create builds. *)
Definition created_task (id creator : uuid) (input : CreateTaskInput) (now : time) : Task :=
  MkTask id (CTI_TeamID input) creator (CTI_AssigneeID input) (CTI_Title input)
    (CTI_Description input) StatusTodo
    (if bool_decide (CTI_Priority input ≠ "") then CTI_Priority input else PriorityMedium)
    (CTI_DueDate input) (time_UTC now) (time_UTC now).

(** No key of the team is left in the cache. *)
Definition flushed (w : W) (tm : uuid) : Prop :=
  ∀ k s, k = teamPrefix tm +:+ s → cache_of w !! k = None.

Lemma invalidate_team c `{!CacheSpec c} tm w w' r :
  Cache_Invalidate c (cachePattern tm) w = (w', r) →
  quiet w w' ∧ (healthy w → flushed w' tm).
Proof.
  intros Hr. destruct (Cache_Invalidate_spec _ _ _ _ Hr) as (Hq & Hh & Hdel).
  split; [done|]. intros Hw k s Hk.
  eapply Hdel; [apply cachePattern_prefix|apply teamPrefix_literal|auto|done].
Qed.

(** The assignee check of Create and Update. *)
Lemma assignee_check_spec mc `{!MemberCheckerSpec mc} (go : uuid → bool) what tm o w w' r :
  (match o with
   | Some a => if go a then check_member mc ErrAssignee what tm a else mret tt
   | None => mret tt
   end) w = (w', r) →
  quiet w w' ∧
  (r = Ok tt → ∀ a, o = Some a → go a = true → is_member (board_of w) tm a) ∧
  (∀ e, r = Err e → ∃ a, o = Some a ∧ go a = true ∧
     ((e = ErrAssignee ∧ ¬ is_member (board_of w) tm a) ∨
      (¬ healthy w ∧ ∃ e', e = wrap what e' ∧ from_write e'))).
Proof.
  destruct o as [a|]; [destruct (go a) eqn:Hgo|]; intros Hr.
  all: cbv iota in Hr.
  - apply check_member_spec in Hr as (Hq & Hok & Herr); [|done].
    split_and!; [done|naive_solver|]. intros e ->. exists a. by destruct (Herr e eq_refl); auto.
  - run_ret Hr. split_and!; [done| |done]. intros _ ? [= <-]. by rewrite Hgo.
  - run_ret Hr. by split_and!.
Qed.

(** What a run of Create is: refused before any write, or an authorised save
    followed by the invalidation. *)
Lemma Create_run s `{!ServiceSpec s} creator input w w' r :
  Create s creator input w = (w', r) →
  let tm := CTI_TeamID input in
  let auth := authorised (board_of w) tm creator (CTI_AssigneeID input) in
  (∃ e, r = Err e ∧ quiet w w' ∧
     ((errors_Is e ErrForbidden = true ∧ ¬ auth) ∨
      (errors_Is e ErrForbidden = false ∧ (healthy w → auth)))) ∨
  (auth ∧ ∃ id now w1 w2 r1, quiet w w1 ∧
     SaveTask (taskSaver s) (created_task id creator input now) w1 = (w2, r1) ∧
     match r1 with
     | Ok _ => r = Ok (created_task id creator input now) ∧ quiet w2 w' ∧
               (healthy w2 → flushed w' tm)
     | Err e => r = Err (wrap "task.Service.Create: save task" e) ∧ w' = w2
     end).
Proof.
  intros Hr tm auth. unfold Create in Hr. run Hr as w1 u1 E; cycle 1.
  { left. apply check_member_spec in E as (Hq & _ & Herr); [|apply _].
    eexists. split; [reflexivity|]. split; [done|].
    destruct (Herr _ eq_refl) as [[-> Hn]|(Hw & e' & -> & Hst)]; [left|right].
    - split; [done|]. by intros [].
    - split; [by apply from_write_wrap|done]. }
  apply check_member_spec in E as (Hq & Hcr & _); [|apply _].
  destruct u1. specialize (Hcr eq_refl). run Hr as w2 u2 E; cycle 1.
  { left. apply (assignee_check_spec _ (λ _, true)) in E as (Hq' & _ & Herr).
    destruct (Herr _ eq_refl) as (a & Ha & _ & Hcase). rewrite (quiet_board _ _ Hq) in *.
    eexists. split; [reflexivity|]. split; [by etrans|].
    destruct Hcase as [[-> Hn]|(Hw & e' & -> & Hst)]; [left|right].
    - split; [done|]. intros [_ Hall]. by eapply Hn, Hall.
    - split; [by apply from_write_wrap|]. intros Hw'. by destruct Hw, Hq; auto. }
  apply (assignee_check_spec _ (λ _, true)) in E as (Hq' & Has & _).
  destruct u2. specialize (Has eq_refl). rewrite (quiet_board _ _ Hq) in Has.
  assert (auth) as Hauth by (split; auto).
  assert (quiet w w2) as Hq1 by (by etrans). clear Hq Hq' Hcr Has.
  run Hr as w3 id E; destruct (NewV7_quiet _ _ _ E) as [Hq2 Hst]; cycle 1.
  { left. eexists. split; [reflexivity|]. split; [by etrans|right].
    split; [by apply wrap_not_forbidden, Hst|done]. }
  right. split; [done|].
  run Hr as w4 now En; destruct (Now_quiet _ _ _ En) as [Hq3 [t Ht]]; simplify_eq.
  assert (quiet w w4) as Hq4 by (by do 2 etrans).
  exists id, t, w4. run Hr as w5 u5 Es.
  - run Hr as w6 r6 Ei; run_ret Hr.
    destruct (invalidate_team _ _ _ _ _ Ei) as [Hq5 Hfl].
    do 2 eexists. split; [done|]. split; [exact Es|]. done.
  - do 2 eexists. split; [done|]. split; [exact Es|]. done.
Qed.

(** *** Update *)

Definition update_authorised (b : board) (task : Task) (caller : uuid) (input : UpdateTaskInput)
    : Prop :=
  is_member b (Task_TeamID task) caller ∧
  ∀ a, UTI_AssigneeID input = Some a → Task_AssigneeID task ≠ Some a →
    is_member b (Task_TeamID task) a.

(** The row and the entries Update writes at time [now]. *)
Definition updated_task (task : Task) (input : UpdateTaskInput) (taskID caller : uuid) (now : time) : Task :=
  set_UpdatedAt (time_UTC now) (buildHistoryEntries task input taskID caller).1.
Definition updated_entries (task : Task) (input : UpdateTaskInput) (taskID caller : uuid) (now : time)
    : list TaskHistory :=
  set_ChangedAt (time_UTC now) <$> (buildHistoryEntries task input taskID caller).2.

Lemma updated_task_identity task input taskID caller now :
  Task_ID (updated_task task input taskID caller now) = Task_ID task ∧
  Task_TeamID (updated_task task input taskID caller now) = Task_TeamID task.
Proof.
  destruct (buildHistoryEntries_audited task input taskID caller)
    as (_ & _ & _ & _ & _ & Hid & Htm & _). by rewrite Hid, Htm.
Qed.

Lemma Update_run s `{!ServiceSpec s} caller taskID input w w' r :
  Update s caller taskID input w = (w', r) →
  (∃ e, r = Err e ∧ quiet w w' ∧
     ((errors_Is e ErrNotFound = true ∧ b_tasks (board_of w) !! taskID = None) ∨
      (errors_Is e ErrForbidden = true ∧ ∃ task, b_tasks (board_of w) !! taskID = Some task ∧
         ¬ update_authorised (board_of w) task caller input) ∨
      (¬ healthy w ∧ errors_Is e ErrForbidden = false ∧ errors_Is e ErrNotFound = false))) ∨
  (∃ task now w1 w2 r1, b_tasks (board_of w) !! taskID = Some task ∧
     update_authorised (board_of w) task caller input ∧ quiet w w1 ∧
     UpdateTaskWithHistory (taskUpdater s) (updated_task task input taskID caller now)
       (updated_entries task input taskID caller now) w1 = (w2, r1) ∧
     match r1 with
     | Ok _ => r = Ok (updated_task task input taskID caller now) ∧ quiet w2 w' ∧
               (healthy w2 → flushed w' (Task_TeamID task))
     | Err e => r = Err (wrap "task.Service.Update: update task" e) ∧ w' = w2
     end).
Proof.
  intros Hr. unfold Update in Hr. run Hr as w1 task E.
  all: destruct (reads_found _ _ _ _ _ (GetTaskByID_reads taskID) E) as [Hq Ht].
  2: { left. eexists. split; [reflexivity|]. split; [done|]. destruct Ht as [Hst Ht].
       rewrite !wrap_Is by done. destruct Ht as [?|[? ?]]; [by left|right; right].
       by rewrite from_storage_not_forbidden. }
  assert (Hb := quiet_board _ _ Hq).
  run Hr as w2 u1 E1; cycle 1.
  { left. apply check_member_spec in E1 as (Hq' & _ & Herr); [|apply _].
    eexists. split; [reflexivity|]. split; [by etrans|]. rewrite Hb in *.
    destruct (Herr _ eq_refl) as [[-> Hn]|(Hw & e' & -> & Hst)]; right; [left|right].
    - split; [done|]. exists task. split; [done|]. by intros [].
    - split; [|by apply from_write_wrap]. intros Hw'. by destruct Hw, Hq; auto. }
  apply check_member_spec in E1 as (Hq1 & Hm & _); [|apply _]. destruct u1.
  specialize (Hm eq_refl). rewrite Hb in Hm.
  assert (Hb2 : board_of w2 = board_of w) by (by rewrite (quiet_board _ _ Hq1)).
  run Hr as w3 u2 E2; cycle 1.
  { left. apply (assignee_check_spec _ (λ a, negb (uuidPtrEqual (Task_AssigneeID task) (Some a)))) in E2 as (Hq' & _ & Herr).
    destruct (Herr _ eq_refl) as (a & Ha & Hgo & Hcase).
    eexists. split; [reflexivity|]. split; [by do 2 etrans|]. rewrite Hb2 in *.
    rewrite negb_true_iff, uuidPtrEqual_spec, bool_decide_eq_false in Hgo.
    destruct Hcase as [[-> Hn]|(Hw & e' & -> & Hst)]; right; [left|right].
    - split; [done|]. exists task. split; [done|]. intros [_ Hall]. by eapply Hn, Hall.
    - split; [|by apply from_write_wrap]. intros Hw'. destruct Hw, Hq, Hq1; auto. }
  apply (assignee_check_spec _ (λ a, negb (uuidPtrEqual (Task_AssigneeID task) (Some a)))) in E2
    as (Hq2 & Has & _).
  destruct u2. specialize (Has eq_refl). rewrite Hb2 in Has.
  assert (update_authorised (board_of w) task caller input) as Hauth.
  { split; [done|]. intros a Ha Hne. eapply Has; [done|].
    rewrite uuidPtrEqual_spec. by rewrite bool_decide_false. }
  right.
  pose proof (updated_task_identity task input taskID caller) as Hid.
  unfold updated_task, updated_entries in *.
  destruct (buildHistoryEntries task input taskID caller) as [task' entries] eqn:Hbe; simpl in Hid.
  run Hr as w4 now En; destruct (Now_quiet _ _ _ En) as [Hq3 [n Hn]]; simplify_eq.
  exists task, n, w4. rewrite Hbe, <-(proj2 (Hid n)). cbn [fst snd].
  assert (quiet w w4) as Hq4 by (by do 3 etrans).
  run Hr as w5 u5 Es.
  - run Hr as w6 r6 Ei; run_ret Hr.
    destruct (invalidate_team _ _ _ _ _ Ei) as [Hq5 Hfl].
    do 2 eexists. do 3 (split; [done|]). split; [exact Es|]. done.
  - do 2 eexists. do 3 (split; [done|]). split; [exact Es|]. done.
Qed.

(** *** List *)

(** Storage's part of a listing: the answer, and perhaps its cache entry. *)
Definition fetched (f : TaskFilter) (w w' : W) (res : list Task * Z) : Prop :=
  (page_ok f → list_answers (board_of w) f res) ∧
  board_of w' = board_of w ∧ (healthy w → healthy w') ∧
  (cache_of w' ⊆ cache_of w ∨
   ∃ d, json_Marshal (MkCachedList res.1 res.2) = Ok d ∧
        cache_of w' ⊆ <[cacheKey f := d]> (cache_of w)).

Lemma list_from_storage_run s `{!ServiceSpec s} f w w' r :
  list_from_storage s (cacheKey f) f w = (w', r) →
  (∃ e, r = Err e ∧ quiet w w' ∧ errors_Is e ErrForbidden = false ∧ (page_ok f → ¬ healthy w)) ∨
  (∃ res, r = Ok res ∧ fetched f w w' res).
Proof.
  intros Hr. unfold list_from_storage in Hr.
  run Hr as w1 res E; destruct (ListTasks_quiet _ _ _ _ E) as [Hq Hst].
  - right. assert (page_ok f → list_answers (board_of w) f res) as Hans.
    { intros Hp. apply (reads_answered _ _ _ _ _ (ListTasks_reads f Hp) E). }
    exists res. destruct (json_Marshal _) as [d|e] eqn:Hd; cbv iota in Hr.
    + run Hr as w2 r2 Es; run_ret Hr.
      destruct (Cache_Set_spec _ _ _ _ _ _ Es) as (Hb & Hh & Hc).
      split; [done|]. split; [done|]. split; [by rewrite Hb, (quiet_board _ _ Hq)|].
      split; [intros Hw; apply Hh; by destruct Hq; auto|].
      pose proof (quiet_cache _ _ Hq). destruct Hc as [Hc|Hc]; [left; by etrans|right].
      exists d. split; [done|]. etrans; [done|]. by apply insert_mono.
    + apply ret_inv in Hr as [-> ->]. split; [done|]. split; [done|].
      destruct Hq. by split_and!; auto.
  - left. eexists. split; [reflexivity|]. split; [done|].
    split; [by apply wrap_not_forbidden, Hst|]. intros Hp Hw.
    by apply (reads_answered _ _ _ _ _ (ListTasks_reads f Hp) E).
Qed.

Lemma List_run s `{!ServiceSpec s} caller filter w w' r :
  List s caller filter w = (w', r) →
  let f := normalize filter in
  (∃ e, r = Err e ∧ quiet w w' ∧
     ((errors_Is e ErrForbidden = true ∧
       ∀ tm, TF_TeamID filter = Some tm → ¬ is_member (board_of w) tm caller) ∨
      (errors_Is e ErrForbidden = false ∧ (page_ok f → ¬ healthy w) ∧
       (healthy w → ∃ tm, TF_TeamID filter = Some tm ∧ is_member (board_of w) tm caller)))) ∨
  (∃ tm res, TF_TeamID filter = Some tm ∧ is_member (board_of w) tm caller ∧ r = Ok res ∧
     ((∃ d l, cache_of w !! cacheKey f = Some d ∧ json_Unmarshal d = Ok l ∧
        res = (CL_Tasks l, CL_Total l) ∧ quiet w w') ∨
      fetched f w w' res)).
Proof.
  intros Hr f. unfold List in Hr. fold f in Hr. destruct (TF_TeamID filter) as [tm|]; cycle 1.
  { run_ret Hr. left. eexists. split; [reflexivity|]. split; [done|]. by left. }
  run Hr as w1 u1 E; cycle 1.
  { left. apply check_member_spec in E as (Hq & _ & Herr); [|apply _].
    eexists. split; [reflexivity|]. split; [done|].
    destruct (Herr _ eq_refl) as [[-> Hn]|(Hw & e' & -> & Hst)]; [left|right].
    - split; [done|]. by intros ? [= <-].
    - split; [by apply from_write_wrap|done]. }
  apply check_member_spec in E as (Hq & Hm & _); [|apply _]. destruct u1. specialize (Hm eq_refl).
  run Hr as w2 hit E. destruct (Cache_Get_spec _ _ _ _ E) as [Hq1 Hhit].
  assert (quiet w w2) as Hq2 by (by etrans).
  assert (list_from_storage s (cacheKey f) f w2 = (w', r) ∨
    ∃ d l, cache_of w !! cacheKey f = Some d ∧ json_Unmarshal d = Ok l ∧
           r = Ok (CL_Tasks l, CL_Total l) ∧ w' = w2) as [Hr'|(d & l & Hd & Hl & -> & ->)].
  { destruct hit as [d|e]; [|by left]. destruct (json_Unmarshal d) as [l|e] eqn:El; [|by left].
    run_ret Hr. right. exists d, l. split; [|done].
    eapply lookup_weaken; [by apply Hhit|apply (quiet_cache _ _ Hq)]. }
  - apply list_from_storage_run in Hr' as [(e & -> & Hq' & Hf & Hp)|(res & -> & Hfe)]; [left|right|done].
    + exists e. split; [done|]. split; [by etrans|]. right. split; [done|].
      split; [|by exists tm]. intros Hpo Hw. apply (Hp Hpo), (quiet_healthy _ _ Hq2 Hw).
    + exists tm, res. do 3 (split; [done|]). right. destruct Hfe as (Ha & Hb & Hh & Hc).
      rewrite (quiet_board _ _ Hq2) in *. do 2 (split; [done|]).
      split; [intros Hw; by apply Hh, (quiet_healthy _ _ Hq2)|].
      pose proof (quiet_cache _ _ Hq2). destruct Hc as [Hc|(d & Hd & Hc)]; [left|right].
      * by etrans.
      * exists d. split; [done|]. etrans; [done|]. by apply insert_mono.
  - right. do 2 eexists. do 3 (split; [done|]). left. by exists d, l.
Qed.

(** *** History *)

Lemma History_run s `{!ServiceSpec s} caller taskID w w' r :
  History s caller taskID w = (w', r) →
  quiet w w' ∧
  match r with
  | Ok l => ∃ task, b_tasks (board_of w) !! taskID = Some task ∧
      is_member (board_of w) (Task_TeamID task) caller ∧ history_of taskID (board_of w) l
  | Err e =>
      (errors_Is e ErrNotFound = true ∧ b_tasks (board_of w) !! taskID = None) ∨
      (errors_Is e ErrForbidden = true ∧ ∃ task, b_tasks (board_of w) !! taskID = Some task ∧
         ¬ is_member (board_of w) (Task_TeamID task) caller) ∨
      (¬ healthy w ∧ errors_Is e ErrForbidden = false ∧ errors_Is e ErrNotFound = false)
  end.
Proof.
  intros Hr. unfold History in Hr. run Hr as w1 task E.
  all: destruct (reads_found _ _ _ _ _ (GetTaskByID_reads taskID) E) as [Hq Ht].
  2: { split; [done|]. destruct Ht as [Hst Ht].
       rewrite !wrap_Is by done. destruct Ht as [?|[? ?]]; [by left|right; right].
       by rewrite from_storage_not_forbidden. }
  assert (Hb := quiet_board _ _ Hq). assert (Hh := quiet_healthy _ _ Hq).
  run Hr as w2 u1 E1; apply check_member_spec in E1 as (Hq1 & Hm & Herr); [|apply _| |apply _].
  2: { split; [by etrans|]. rewrite Hb in *.
       destruct (Herr _ eq_refl) as [[-> Hn]|(Hw & e' & -> & Hst)]; right; [left|right].
       - split; [done|]. by exists task.
       - split; [naive_solver|by apply from_write_wrap]. }
  destruct u1. specialize (Hm eq_refl). clear Herr. rewrite Hb in Hm.
  assert (Hb1 := quiet_board _ _ Hq1). assert (Hh1 := quiet_healthy _ _ Hq1).
  run_last Hr as l E2; apply (reads_answered _ _ _ _ _ (ListHistory_reads taskID)) in E2 as [Hq2 Hl];
    (split; [by do 2 etrans|]).
  - rewrite Hb1, Hb in Hl. by exists task.
  - right; right. destruct Hl as (Hst & Hnf & Hw). split; [auto|].
    by rewrite wrap_not_forbidden, wrap_Is.
Qed.

(** *** Coherence is preserved *)

Definition team_tasks (tm : uuid) (b : board) : gmap uuid Task :=
  filter (λ kt : uuid * Task, Task_TeamID kt.2 = tm) (b_tasks b).

(** Only tasks of team [tm] differ. *)
Definition same_but_team (tm : uuid) (b b' : board) : Prop :=
  ∀ tm', tm' ≠ tm → team_tasks tm' b = team_tasks tm' b'.

Lemma same_but_team_insert tm b id t f :
  Task_TeamID t = tm →
  (∀ t0, b_tasks b !! id = Some t0 → Task_TeamID t0 = tm) →
  b_tasks (f (with_tasks (<[id := t]>) b)) = <[id := t]> (b_tasks b) →
  same_but_team tm b (f (with_tasks (<[id := t]>) b)).
Proof.
  intros Ht Hold Hf tm' Hne. unfold team_tasks. rewrite Hf. symmetry.
  destruct (b_tasks b !! id) as [t0|] eqn:E.
  - rewrite map_filter_insert_False by (simpl; congruence).
    apply map_filter_delete_not. intros t1 Ht1. simpl. rewrite (Hold t1); congruence.
  - apply map_filter_insert_not'; [simpl; congruence|]. intros ? ?; congruence.
Qed.

Lemma coherent_flush `{!BackendSpec W} w w' tm :
  same_but_team tm (board_of w) (board_of w') → cache_of w' ⊆ cache_of w → flushed w' tm →
  coherent w → coherent w'.
Proof.
  intros Hs Hc Hfl Hco f d Hf Hk. destruct (Hf) as ([tm' Htm] & _).
  destruct (decide (tm' = tm)) as [->|Hne].
  - apply cacheKey_team in Htm as [x Hx]. by rewrite (Hfl _ _ Hx) in Hk.
  - destruct (Hco f d) as (l & Hl & Hd); [done|by eapply lookup_weaken|]. exists l. split; [|done].
    apply (list_answer_local (board_of w) (board_of w') f tm'); [done|by apply Hs|done].
Qed.

Lemma coherent_cache w w' :
  board_of w' = board_of w → cache_of w' ⊆ cache_of w → coherent w → coherent w'.
Proof.
  intros Hb Hc Hco f d Hf Hk. rewrite Hb. apply Hco; [done|]. by eapply lookup_weaken.
Qed.

End service_proofs.
