(* ===== verification/TaskTheorems.v ===== *)
(** * TaskTheorems: what the task service guarantees

    The properties of internal/service/task/task.go, for every world whose
    storage and cache keep the contracts of Ports.v. *)
From S2P Require Import Prelude Go Uuid Domain Ports TaskService.

Section audit.
Context `{!UuidLib} `{!UuidLibSpec}.

Lemma audit_trail task input taskID caller :
  let r := buildHistoryEntries task input taskID caller in
  ∃ changed : list field,
    r.2 = (λ f, MkTaskHistory 0 taskID caller (field_name f) (rendered f task) (rendered f r.1) zero_time)
          <$> changed ∧
    NoDup changed ∧ (∀ f, f ∈ changed ↔ ¬ field_eq f task r.1) ∧ identity_eq task r.1.
Proof.
  destruct (buildHistoryEntries_audited task input taskID caller)
    as (changed & He & Hnd & Hin & Hout & Hid). exists changed.
  split; [exact He|]. split; [done|]. split; [|done].
  intros f. split; [by intros Hf; apply Hin|]. intros Hne.
  destruct (decide (f ∈ changed)) as [|Hf]; [done|]. by apply Hout in Hf.
Qed.

(** C13: the audit trail of an update is exact. There is one entry per field
    whose value the update changed, and none for another field; each entry
    names its field, the task and the caller, and shows the value before and
    after; ids, team, creator and creation time are never changed. *)
Theorem audit_trail_exact task input taskID caller :
  let '(task', entries) := buildHistoryEntries task input taskID caller in
  (∃ changed : list field, NoDup changed ∧ (∀ f, f ∈ changed ↔ ¬ field_eq f task task') ∧
     entries = (λ f, MkTaskHistory 0 taskID caller (field_name f)
                       (rendered f task) (rendered f task') zero_time) <$> changed) ∧
  identity_eq task task'.
Proof.
  destruct (audit_trail task input taskID caller) as (changed & He & Hnd & Hch & Hid).
  destruct (buildHistoryEntries task input taskID caller) as [task' entries]. split; [by exists changed|done].
Qed.

(** The value an update leaves in a field: the given one, else the old one. *)
Definition merged {A} (new : option A) (old : A) : A := default old new.

Lemma change_steps_merge input mk st :
  (change_title input mk st).1 = set_Title (merged (UTI_Title input) (Task_Title st.1)) st.1 ∧
  (change_description input mk st).1 =
    set_Description (from_option Some (Task_Description st.1) (UTI_Description input)) st.1 ∧
  (change_status input mk st).1 = set_Status (merged (UTI_Status input) (Task_Status st.1)) st.1 ∧
  (change_priority input mk st).1 =
    set_Priority (merged (UTI_Priority input) (Task_Priority st.1)) st.1 ∧
  (change_assignee input mk st).1 =
    set_AssigneeID (from_option Some (Task_AssigneeID st.1) (UTI_AssigneeID input)) st.1.
Proof.
  destruct st as [[] es].
  unfold change_title, change_description, change_status, change_priority, change_assignee.
  split_and!; case_match; try done; cbn -[bool_decide decide];
    rewrite ?strPtrEqual_spec, ?uuidPtrEqual_spec; case_bool_decide; simpl;
    try match goal with H : ¬ (_ ≠ _) |- _ => apply dec_stable in H end;
    unfold set_Title, set_Description, set_Status, set_Priority, set_AssigneeID; simpl; congruence.
Qed.

Lemma buildHistoryEntries_merge task input taskID caller :
  (buildHistoryEntries task input taskID caller).1 =
  MkTask (Task_ID task) (Task_TeamID task) (Task_CreatedBy task)
    (from_option Some (Task_AssigneeID task) (UTI_AssigneeID input))
    (merged (UTI_Title input) (Task_Title task))
    (from_option Some (Task_Description task) (UTI_Description input))
    (merged (UTI_Status input) (Task_Status task))
    (merged (UTI_Priority input) (Task_Priority task))
    (match UTI_DueDate input with
     | Some due => if timePtrEqual (Task_DueDate task) (Some due) then Task_DueDate task else Some due
     | None => Task_DueDate task
     end)
    (Task_CreatedAt task) (Task_UpdatedAt task).
Proof.
  unfold buildHistoryEntries. set (mk := entry taskID caller). unfold change_due_date.
  pose proof (change_steps_merge input mk) as Hm.
  assert (Hdue : ∀ st : Task * list TaskHistory, (match UTI_DueDate input with
      | Some due => if negb (timePtrEqual (Task_DueDate st.1) (Some due)) then
          (set_DueDate (Some due) st.1, st.2 ++ [mk "due_date" (Some (formatDate (Task_DueDate st.1)))
             (Some (formatDate (Some due)))]) else st
      | None => st end).1 =
    set_DueDate (match UTI_DueDate input with
      | Some due => if timePtrEqual (Task_DueDate st.1) (Some due) then Task_DueDate st.1 else Some due
      | None => Task_DueDate st.1 end) st.1).
  { intros [t es]. destruct (UTI_DueDate input) as [due|]; [|by destruct t].
    cbn [fst snd]. destruct (timePtrEqual _ _); by destruct t. }
  rewrite Hdue. destruct (Hm (change_priority input mk (change_status input mk
    (change_description input mk (change_title input mk (task, [])))))) as (_ & _ & _ & _ & ->).
  destruct (Hm (change_status input mk (change_description input mk
    (change_title input mk (task, []))))) as (_ & _ & _ & -> & _).
  destruct (Hm (change_description input mk (change_title input mk (task, []))))
    as (_ & _ & -> & _ & _).
  destruct (Hm (change_title input mk (task, []))) as (_ & -> & _ & _ & _).
  destruct (Hm (task, [])) as (-> & _ & _ & _ & _). done.
Qed.

(** The task an update at [now] makes of [old], field by field: the given value
    or else the old one; a due date at the same instant keeps its old
    representation. *)
Definition merged_task (old : Task) (input : UpdateTaskInput) (now : time) : Task :=
  MkTask (Task_ID old) (Task_TeamID old) (Task_CreatedBy old)
    (match UTI_AssigneeID input with Some a => Some a | None => Task_AssigneeID old end)
    (default (Task_Title old) (UTI_Title input))
    (match UTI_Description input with Some s => Some s | None => Task_Description old end)
    (default (Task_Status old) (UTI_Status input))
    (default (Task_Priority old) (UTI_Priority input))
    (match UTI_DueDate input with
     | Some due => if bool_decide (t_ns <$> Task_DueDate old = Some (t_ns due)) then Task_DueDate old
                   else Some due
     | None => Task_DueDate old
     end)
    (Task_CreatedAt old) (time_UTC now).

Lemma updated_task_merged old input taskID caller now :
  updated_task old input taskID caller now = merged_task old input now.
Proof.
  unfold updated_task. rewrite buildHistoryEntries_merge. unfold set_UpdatedAt, merged_task. cbn -[timePtrEqual].
  f_equal. destruct (UTI_DueDate input) as [due|]; [|done]. destruct (Task_DueDate old) as [d|]; [|done].
  unfold timePtrEqual, time_Equal. cbn [fmap option_fmap option_map].
  destruct (decide (t_ns d = t_ns due)).
  - rewrite !bool_decide_true by congruence. done.
  - rewrite !bool_decide_false by congruence. done.
Qed.

(** The history entry of a field that differs between two tasks. *)
Definition change_entry (old new : Task) (taskID caller : uuid) (now : time) (f : field) : TaskHistory :=
  MkTaskHistory 0 taskID caller (field_name f) (rendered f old) (rendered f new) (time_UTC now).

Lemma updated_entries_changes old input taskID caller now :
  ∃ changed, NoDup changed ∧
    (∀ f, f ∈ changed ↔ ¬ field_eq f old (merged_task old input now)) ∧
    updated_entries old input taskID caller now =
      change_entry old (merged_task old input now) taskID caller now <$> changed.
Proof.
  rewrite <-(updated_task_merged old input taskID caller now).
  destruct (audit_trail old input taskID caller) as (changed & He & Hnd & Hch & _). exists changed.
  unfold updated_entries, updated_task. split; [done|]. split.
  - intros f. rewrite Hch. by destruct f.
  - rewrite He, <-list_fmap_compose. apply list_fmap_ext. intros i f _. cbn. unfold change_entry. by destruct f.
Qed.

(** the effect of an update on the task. A field the input leaves out keeps
    its value, so an assignee, a description or a due date can be replaced but
    never removed; a given value replaces the old one, except that a due date
    at the same instant as the old one keeps the old representation. *)
Theorem update_merges task input taskID caller :
  (buildHistoryEntries task input taskID caller).1 =
  MkTask (Task_ID task) (Task_TeamID task) (Task_CreatedBy task)
    (from_option Some (Task_AssigneeID task) (UTI_AssigneeID input))
    (merged (UTI_Title input) (Task_Title task))
    (from_option Some (Task_Description task) (UTI_Description input))
    (merged (UTI_Status input) (Task_Status task))
    (merged (UTI_Priority input) (Task_Priority task))
    (match UTI_DueDate input with
     | Some due => if timePtrEqual (Task_DueDate task) (Some due) then Task_DueDate task else Some due
     | None => Task_DueDate task
     end)
    (Task_CreatedAt task) (Task_UpdatedAt task).
Proof. apply buildHistoryEntries_merge. Qed.

(** applying the same update again changes nothing and records nothing. *)
Theorem update_idempotent task input taskID caller :
  let task' := (buildHistoryEntries task input taskID caller).1 in
  buildHistoryEntries task' input taskID caller = (task', []).
Proof.
  intros task'.
  destruct (buildHistoryEntries_audited task' input taskID caller)
    as (changed & He & _ & Hin & _ & _).
  pose proof (buildHistoryEntries_merge task' input taskID caller) as Hm.
  destruct (buildHistoryEntries task' input taskID caller) as [task'' entries]; simpl in *.
  assert (task'' = task') as ->.
  { rewrite Hm. subst task'. rewrite buildHistoryEntries_merge. cbn -[timePtrEqual].
    f_equal; try by repeat case_match.
    all: try match goal with |- context [from_option _ _ ?o] => by destruct o end.
    all: try match goal with |- context [merged ?o] => by destruct o end.
    destruct (UTI_DueDate input) as [due|]; [|done].
    destruct (timePtrEqual (Task_DueDate task) (Some due)) eqn:E; [by rewrite E|].
    by rewrite timePtrEqual_refl. }
  assert (changed = []) as ->; [|by rewrite He].
  destruct changed as [|f changed]; [done|]. destruct (Hin f) as [_ Hne]; [left|].
  by destruct Hne, f.
Qed.

(** changing a due date is recorded as two dates, which differ exactly when
    the two instants fall on different UTC days: a change of the time of day
    alone is recorded, with the same text on both sides. *)
Theorem due_date_entry input mk task es old due :
  Task_DueDate task = Some old → UTI_DueDate input = Some due → t_ns old ≠ t_ns due →
  ∃ x y, change_due_date input mk (task, es) =
           (set_DueDate (Some due) task, es ++ [mk "due_date" (Some x) (Some y)]) ∧
         (x = y ↔ t_ns old `div` ns_per_day = t_ns due `div` ns_per_day).
Proof.
  intros Hold Hdue Hne. exists (formatDate (Some old)), (formatDate (Some due)).
  unfold change_due_date. rewrite Hdue. cbn [fst snd]. rewrite Hold. simpl timePtrEqual.
  unfold time_Equal. rewrite bool_decide_false by done. split; [done|].
  unfold formatDate. rewrite Format_date_inj. unfold day_of. simpl. by rewrite !Z.add_0_r.
Qed.

End audit.

Section keys.
Context `{!UuidLib} `{!UuidLibSpec}.

(** distinct queries have distinct cache keys, as long as no status is the
    word "all". *)
Theorem cacheKey_injective f g :
  TF_Status f ≠ Some "all" → TF_Status g ≠ Some "all" → cacheKey f = cacheKey g → f = g.
Proof. exact (cacheKey_inj_proper f g). Qed.

(** the invalidation pattern of a team is a literal prefix followed by "*",
    and the keys under that prefix are exactly those of the team's queries. *)
Theorem cachePattern_exact tm :
  cachePattern tm = teamPrefix tm +:+ "*" ∧ glob_literal (teamPrefix tm) = true ∧
  ∀ f, (∃ s, cacheKey f = teamPrefix tm +:+ s) ↔ TF_TeamID f = Some tm.
Proof.
  split; [apply cachePattern_prefix|]. split; [apply teamPrefix_literal|apply cacheKey_team].
Qed.

(** a query that asks for status "all" shares its key with the query that
    asks for no status, so each is answered with the other's cached list. *)
Theorem cacheKey_all_collides tm a p l :
  cacheKey (MkTaskFilter tm (Some "all") a p l) = cacheKey (MkTaskFilter tm None a p l).
Proof. done. Qed.

End keys.

Section service.
Context {W : Type} `{!UuidLib} `{!UuidLibSpec} `{!CacheCodec} `{!CacheCodecSpec} `{!Backend W}
  `{!BackendSpec W} (s : Service W) `{!ServiceSpec s}.

(** page and limit are clamped: the page is at least 1 and the limit in
    1..100, values already in range are kept, the defaults are 1 and 20, a
    limit above 100 becomes 100, and the rest of the query is untouched. *)
Theorem normalize_clamps f :
  let g := normalize f in
  1 ≤ TF_Page g ∧ 1 ≤ TF_Limit g ≤ 100 ∧
  (1 ≤ TF_Page f → TF_Page g = TF_Page f) ∧ (TF_Page f ≤ 0 → TF_Page g = 1) ∧
  (1 ≤ TF_Limit f ≤ 100 → TF_Limit g = TF_Limit f) ∧ (TF_Limit f ≤ 0 → TF_Limit g = 20) ∧
  (100 < TF_Limit f → TF_Limit g = 100) ∧
  TF_TeamID g = TF_TeamID f ∧ TF_Status g = TF_Status f ∧ TF_AssigneeID g = TF_AssigneeID f.
Proof.
  intros g. destruct (normalize_bounds f) as [? ?]. do 2 (split; [done|]).
  subst g. unfold normalize. cbn [TF_Page TF_Limit TF_TeamID TF_Status TF_AssigneeID].
  destruct (Z.leb_spec (TF_Page f) 0), (Z.leb_spec (TF_Limit f) 0); split_and!; try done;
    try lia; destruct (Z.ltb_spec 100 (TF_Limit f)); simpl; lia.
Qed.

(** C16: a task that Create returns was authorised (its creator, and its
    assignee if it has one, are members of its team), is built from the input
    with status "todo" and a default priority, was stored under a fresh id
    whatever happened to the cache, and left no cached list of its team in a
    healthy world. *)
Theorem Create_correct creator input w w' t :
  Create s creator input w = (w', Ok t) →
  authorised (board_of w) (CTI_TeamID input) creator (CTI_AssigneeID input) ∧
  (∃ id now, t = created_task id creator input now) ∧
  b_tasks (board_of w) !! Task_ID t = None ∧
  board_of w' = with_tasks (<[Task_ID t := norm_task t]>) (board_of w) ∧
  (healthy w → flushed w' (CTI_TeamID input)).
Proof.
  intros [(e & ? & _)|(Hauth & id & now & w1 & w2 & r1 & Hq & Hs & Hr)]%Create_run; [done| |done].
  destruct (SaveTask_writes _ _ _ _ Hs) as (Hc & Hok & _ & Hh).
  destruct r1 as [u|e]; destruct Hr as [Ht Hr]; [simplify_eq|done].
  destruct Hr as [Hq2 Hfl]. destruct (Hok _ eq_refl) as (Hfresh & _ & _ & Hb).
  rewrite (quiet_board _ _ Hq) in *. split; [done|]. split; [by eauto|]. split; [done|].
  split; [by rewrite (quiet_board _ _ Hq2)|].
  intros Hw. apply Hfl. apply Hh, (quiet_healthy _ _ Hq Hw).
Qed.

(** when Create fails, the board is unchanged, or it holds exactly the
    task of an authorised request whose acknowledgement was lost; in a healthy
    world the board is unchanged, and the error says "forbidden" exactly when
    the creator or the assignee is not a member. *)
Theorem Create_fails_safe creator input w w' e :
  Create s creator input w = (w', Err e) →
  let auth := authorised (board_of w) (CTI_TeamID input) creator (CTI_AssigneeID input) in
  (board_of w' = board_of w ∨ (auth ∧ ∃ id now,
     save_task (created_task id creator input now) (board_of w) tt (board_of w'))) ∧
  (healthy w → board_of w' = board_of w ∧ (errors_Is e ErrForbidden = true ↔ ¬ auth)).
Proof.
  intros Hr auth. apply Create_run in Hr
    as [(? & [= <-] & Hq & Hcase)|(Hauth & id & now & w1 & w2 & r1 & Hq & Hs & Hr)]; [| |done].
  - rewrite (quiet_board _ _ Hq). split; [by left|]. intros Hw. split; [done|].
    destruct Hcase as [[-> Hn]|[-> Ha]]; [done|]. split; [done|]. intros Hn. by destruct Hn, Ha.
  - destruct (SaveTask_writes _ _ _ _ Hs) as (Hc & _ & Herr & Hh).
    destruct r1 as [u|e']; destruct Hr as [Ht Hr]; simplify_eq.
    destruct (Herr _ eq_refl) as [Hst Hb]. rewrite (quiet_board _ _ Hq) in *. split.
    + destruct Hb as [Hb|[[] Hb]]; [by left|right]. split; [done|]. by eauto.
    + intros Hw. destruct (Hh (quiet_healthy _ _ Hq Hw)) as (_ & _ & Hke).
      split; [by eapply Hke|]. rewrite (proj1 (from_write_wrap _ _ Hst)). split; [done|].
      by intros Hn.
Qed.

(** C12: an update that returns a task was authorised (the caller, and a new
    assignee, are members of the team). The task is the old one with the given
    values in their fields, at the precision of the columns it is the task's new
    row, and for each field that differs, and no other, one numbered history
    entry with its old and new value is appended, in the same step; nothing else
    on the board changed. In a healthy world no cached list of the team is left;
    a failing invalidation is ignored. *)
Theorem Update_correct caller taskID input w w' t :
  Update s caller taskID input w = (w', Ok t) →
  ∃ old now changed hs,
    b_tasks (board_of w) !! taskID = Some old ∧
    update_authorised (board_of w) old caller input ∧
    t = merged_task old input now ∧
    NoDup changed ∧ (∀ f, f ∈ changed ↔ ¬ field_eq f old t) ∧
    numbered (board_of w) (change_entry old t taskID caller now <$> changed) hs ∧
    board_of w' = with_history (λ l, l ++ hs)
      (with_tasks (<[taskID := norm_fields t]>) (board_of w)) ∧
    (healthy w → flushed w' (Task_TeamID old)).
Proof.
  intros [(e & ? & _)|(old & now & w1 & w2 & r1 & Hold & Hauth & Hq & Hs & Hr)]%Update_run;
    [done| |done].
  destruct (UpdateTaskWithHistory_writes _ _ _ _ _ Hs) as (Hc & Hok & _ & Hh).
  destruct r1 as [u|e]; destruct Hr as [Ht Hr]; [simplify_eq|done]. destruct Hr as [Hq2 Hfl].
  destruct (Hok _ eq_refl) as (Htask & _ & (hs & Hnum & Hhist) & Hb).
  rewrite (quiet_board _ _ Hq) in *.
  destruct (updated_entries_changes old input taskID caller now) as (changed & Hnd & Hch & He).
  pose proof (updated_task_merged old input taskID caller now) as Htm.
  rewrite <-Htm in Hch, He. exists old, now, changed, hs. rewrite <-He.
  assert (Hid : Task_ID (updated_task old input taskID caller now) = taskID).
  { rewrite (proj1 (updated_task_identity _ _ _ _ _)). by eapply board_keyed. }
  rewrite Hid, Hold in Htask. destruct Htask as (_ & _ & Htask).
  do 6 (split; [done|]). split.
  - rewrite (quiet_board _ _ Hq2), Hb, Hhist, Htask. unfold with_history, with_tasks. simpl.
    do 3 f_equal. destruct (buildHistoryEntries_audited old input taskID caller)
      as (_ & _ & _ & _ & _ & Hi). unfold identity_eq in Hi. unfold updated_task.
    destruct (buildHistoryEntries old input taskID caller).1, old; simpl in *.
    destruct_and!. by subst.
  - intros Hw. apply Hfl. apply Hh, (quiet_healthy _ _ Hq Hw).
Qed.

(** C31: when Update fails, the board is unchanged, or it holds the whole
    update of an authorised request, row and history together; in a healthy
    world it is unchanged; an error that says "forbidden" or "not found" is the
    truth. *)
Theorem Update_fails_safe caller taskID input w w' e :
  Update s caller taskID input w = (w', Err e) →
  (board_of w' = board_of w ∨
   ∃ old now, b_tasks (board_of w) !! taskID = Some old ∧
     update_authorised (board_of w) old caller input ∧
     update_task (updated_task old input taskID caller now)
       (updated_entries old input taskID caller now) (board_of w) tt (board_of w')) ∧
  (healthy w → board_of w' = board_of w) ∧
  (errors_Is e ErrForbidden = true → ∃ old, b_tasks (board_of w) !! taskID = Some old ∧
     ¬ update_authorised (board_of w) old caller input) ∧
  (errors_Is e ErrNotFound = true → b_tasks (board_of w) !! taskID = None).
Proof.
  intros [(? & [= <-] & Hq & Hcase)|(old & now & w1 & w2 & r1 & Hold & Hauth & Hq & Hs & Hr)]
    %Update_run; [| |done].
  - rewrite (quiet_board _ _ Hq). split; [by left|]. split; [done|].
    split; intros Hf.
    + destruct Hcase as [[Hnf _]|[[_ Hn]|(_ & Hn & _)]]; [|done|congruence].
      by pose proof (errors_Is_unique _ ErrForbidden ErrNotFound eq_refl eq_refl Hf Hnf).
    + destruct Hcase as [[_ Hn]|[[Hn _]|(_ & _ & Hn)]]; [done| |congruence].
      by pose proof (errors_Is_unique _ ErrForbidden ErrNotFound eq_refl eq_refl Hn Hf).
  - destruct (UpdateTaskWithHistory_writes _ _ _ _ _ Hs) as (Hc & _ & Herr & Hh).
    destruct r1 as [u|e']; destruct Hr as [Ht Hr]; simplify_eq.
    destruct (Herr _ eq_refl) as [Hst Hb]. rewrite (quiet_board _ _ Hq) in *. split_and!.
    + destruct Hb as [Hb|[[] Hb]]; [by left|right]. by exists old, now.
    + intros Hw. eapply Hh; [by apply (quiet_healthy _ _ Hq)|done].
    + by rewrite (proj1 (from_write_wrap _ _ Hst)).
    + by rewrite (proj2 (from_write_wrap _ _ Hst)).
Qed.

(** List answers a member, and only a member, with the page of tasks that
    storage holds at that moment, whether the answer comes from storage or from
    a coherent cache. *)
Theorem List_correct caller filter w w' res :
  proper_status filter → page_ok (normalize filter) → coherent w →
  (∀ l, listing (board_of w) (normalize filter) l → json_faithful l) →
  List s caller filter w = (w', Ok res) →
  (∃ tm, TF_TeamID filter = Some tm ∧ is_member (board_of w) tm caller) ∧
  list_answers (board_of w) (normalize filter) res ∧ board_of w' = board_of w.
Proof.
  intros Hs Hp Hco Hj [(? & ? & _)|(tm & ? & Htm & Hm & [= <-] & Hcase)]%List_run; [done| |done].
  split; [by eauto|].
  destruct Hcase as [(d & l & Hd & Hl & -> & Hq)|(Ha & Hb & _)]; [|by auto].
  split; [|apply Hq]. apply Hco in Hd as (l0 & Hl0 & Hd); [|by split_and!].
  pose proof (json_roundtrip _ _ (Hj _ Hl0) Hd) as Hrt. rewrite Hl in Hrt.
  by injection Hrt as ->.
Qed.

(** a refused listing reads nothing but the membership: the board is
    unchanged, and in a healthy world the error is "forbidden" exactly when the
    query names no team or the caller is not a member. *)
Theorem List_refused caller filter w w' e :
  page_ok (normalize filter) → List s caller filter w = (w', Err e) →
  board_of w' = board_of w ∧
  (healthy w → errors_Is e ErrForbidden = true ∧
     ∀ tm, TF_TeamID filter = Some tm → ¬ is_member (board_of w) tm caller).
Proof.
  intros Hp [(? & [= <-] & Hq & Hcase)|(? & ? & ? & ? & ? & _)]%List_run; [|done|done].
  split; [apply Hq|]. intros Hw. destruct Hcase as [?|(_ & Hn & _)]; [done|]. by destruct (Hn Hp).
Qed.

(** History gives a member, and only a member, all the entries of the
    task, oldest first, and changes nothing. *)
Theorem History_correct caller taskID w w' r :
  History s caller taskID w = (w', r) →
  board_of w' = board_of w ∧
  (∀ l, r = Ok l → history_of taskID (board_of w) l ∧ ∃ task,
     b_tasks (board_of w) !! taskID = Some task ∧
     is_member (board_of w) (Task_TeamID task) caller) ∧
  (∀ e, r = Err e → healthy w →
     (errors_Is e ErrNotFound = true ∧ b_tasks (board_of w) !! taskID = None) ∨
     (errors_Is e ErrForbidden = true ∧ ∃ task, b_tasks (board_of w) !! taskID = Some task ∧
        ¬ is_member (board_of w) (Task_TeamID task) caller)).
Proof.
  intros [Hq Hr]%History_run; [|done]. split; [apply Hq|]. split.
  - intros l ->. destruct Hr as (task & ? & ? & ?). eauto.
  - intros e -> Hw. destruct Hr as [?|[?|[? _]]]; [by left|by right|done].
Qed.

(** *** The cache stays coherent *)

Lemma coherent_Create creator input w w' r :
  healthy w → coherent w → Create s creator input w = (w', r) → coherent w'.
Proof.
  intros Hw Hco [(e & _ & Hq & _)|(Hauth & id & now & w1 & w2 & r1 & Hq & Hs & Hr)]%Create_run;
    [by eapply coherent_quiet| |done].
  assert (coherent w1) as Hco1 by by eapply coherent_quiet.
  destruct (SaveTask_writes _ _ _ _ Hs) as (Hc & Hok & _ & Hh).
  destruct (Hh (quiet_healthy _ _ Hq Hw)) as (Hw2 & _ & Hke).
  destruct r1 as [u|e]; destruct Hr as [-> Hr]; [|subst; by eapply (coherent_cache w1), Hco1; eauto].
  destruct Hr as [Hq2 Hfl]. destruct (Hok _ eq_refl) as (Hfresh & _ & _ & Hb).
  eapply (coherent_flush w1); [|by etrans; [apply Hq2|]|by apply Hfl|done].
  rewrite (quiet_board _ _ Hq2), Hb. apply (same_but_team_insert _ _ _ _ (λ b, b)); [|by rewrite Hfresh|done].
  by rewrite (proj1 (proj2 (norm_task_refs _))).
Qed.

Lemma coherent_Update caller taskID input w w' r :
  healthy w → coherent w → Update s caller taskID input w = (w', r) → coherent w'.
Proof.
  intros Hw Hco [(e & _ & Hq & _)|(old & now & w1 & w2 & r1 & Hold & Hauth & Hq & Hs & Hr)]
    %Update_run; [by eapply coherent_quiet| |done].
  assert (coherent w1) as Hco1 by by eapply coherent_quiet.
  destruct (UpdateTaskWithHistory_writes _ _ _ _ _ Hs) as (Hc & Hok & _ & Hh).
  destruct (Hh (quiet_healthy _ _ Hq Hw)) as (Hw2 & _ & Hke).
  destruct r1 as [u|e]; destruct Hr as [-> Hr]; [|subst; by eapply (coherent_cache w1), Hco1; eauto].
  destruct Hr as [Hq2 Hfl]. destruct (Hok _ eq_refl) as (Htask & _ & _ & Hb).
  eapply (coherent_flush w1); [|by etrans; [apply Hq2|]|by apply Hfl|done].
  assert (Hid : Task_ID (updated_task old input taskID caller now) = taskID).
  { rewrite (proj1 (updated_task_identity _ _ _ _ _)). by eapply board_keyed. }
  rewrite Hid, (quiet_board _ _ Hq), Hold in Htask. destruct Htask as (_ & _ & Htask).
  rewrite (quiet_board _ _ Hq2), Hb, (quiet_board _ _ Hq), Htask.
  apply (same_but_team_insert _ _ _ _ (with_history (λ _, b_history (board_of w2))));
    [|by rewrite Hold; intros ? [= <-]|done].
  by rewrite (proj1 (proj2 (norm_fields_refs _))).
Qed.

Lemma coherent_List caller filter w w' r :
  proper_status filter → coherent w → List s caller filter w = (w', r) → coherent w'.
Proof.
  intros Hs Hco [(e & _ & Hq & _)|(tm & res & Htm & _ & -> & Hcase)]%List_run;
    [by eapply coherent_quiet| |done].
  destruct Hcase as [(d & l & _ & _ & _ & Hq)|(Ha & Hb & _ & Hc)]; [by eapply coherent_quiet|].
  destruct Hc as [Hc|(d & Hd & Hc)]; [by eapply coherent_cache|].
  intros f d' Hf Hk. pose proof (lookup_weaken _ _ _ _ Hk Hc) as Hk'. rewrite Hb.
  destruct (decide (f = normalize filter)) as [->|Hne].
  - rewrite lookup_insert_eq in Hk'. injection Hk' as <-.
    exists (MkCachedList res.1 res.2). split; [|done]. unfold listing. cbn.
    rewrite <-surjective_pairing. apply Ha, Hf.
  - rewrite lookup_insert_ne in Hk'; [by apply Hco|].
    intros Heq. apply Hne. symmetry. apply cacheKey_inj_proper; [done|apply Hf|done].
Qed.

End service.
