(* ===== verification/TeamService.v ===== *)
(** * TeamService: internal/service/team/team.go

    Teams, their creation with an owner, and invitations: who may invite, what
    an invitation writes, and that the notification never decides its outcome.
    Log lines are left out. *)
From S2P Require Import Prelude Go Uuid Domain Ports.

Module TeamSvc.

Section service.
Context {W : Type}.

(** The fields of the source, and [runtime]: the clock and the random source that
    the code calls directly. *)
Record Service : Type := MkService {
  teamSaver : TeamSaver W;
  teamGetter : TeamGetter W;
  users : UserByID W;
  notifier : Notifier W;
  runtime : Runtime W
}.

Definition New (teamSaver : TeamSaver W) (teamGetter : TeamGetter W) (users : UserByID W) (notifier : Notifier W)
    (runtime : Runtime W)
    : Service :=
  MkService teamSaver teamGetter users notifier runtime.

Definition Create (s : Service) (ownerID : uuid) (name : string) : comp W Team :=
  let op := "team.Service.Create" in
  id ← on_err (wrap (op +:+ ": generate team id")) (NewV7 (runtime s));
  now ← Now (runtime s);
  let team := MkTeam id name ownerID (time_UTC now) in
  on_err (wrap (op +:+ ": create team with owner"))
    (CreateTeamWithOwner (teamSaver s) team ownerID) ;;
  mret team.

Definition ListForUser (s : Service) (userID : uuid) : comp W (list Team) :=
  let op := "team.Service.ListForUser" in
  on_err (wrap (op +:+ ": get teams by user")) (GetTeamsByUser (teamGetter s) userID).

Definition Invite (s : Service) (callerID teamID targetUserID : uuid) : comp W unit :=
  let op := "team.Service.Invite" in
  team ← on_err (wrap (op +:+ ": get team")) (GetTeamByID (teamGetter s) teamID);
  role ← on_err (λ err, if errors_Is err ErrNotFound then ErrForbidden
                        else wrap (op +:+ ": get member role") err)
           (TeamGetter_GetMemberRole (teamGetter s) teamID callerID);
  if bool_decide (role = RoleMember) then throw ErrForbidden
  else
    target ← on_err (wrap (op +:+ ": get target user")) (GetByID (users s) targetUserID);
    on_err (wrap (op +:+ ": save member"))
      (SaveMember (teamSaver s) teamID targetUserID RoleMember) ;;
    ignore_err (SendInvite (notifier s) (User_Email target) (Team_Name team)).

End service.
Arguments Service W : clear implicits.

Section proofs.
Context {W : Type} `{!Backend W}.

Class ServiceSpec (s : Service W) : Prop := {
  #[global] spec_saver :: TeamSaverSpec (teamSaver s);
  #[global] spec_getter :: TeamGetterSpec (teamGetter s);
  #[global] spec_users :: UserByIDSpec (users s);
  #[global] spec_notifier :: NotifierSpec (notifier s);
  #[global] spec_runtime :: RuntimeSpec (runtime s)
}.

Context (s : Service W) `{!ServiceSpec s}.

(** The role that lets [u] invite. *)
Definition may_invite (b : board) (tm u : uuid) : Prop :=
  ∃ r, b_members b !! (tm, u) = Some r ∧ r ≠ RoleMember.

Lemma RoleMember_valid : RoleMember ∈ [RoleOwner; RoleAdmin; RoleMember].
Proof. by do 2 right; left. Qed.

Lemma CreateTeam_run owner name w w' r :
  Create s owner name w = (w', r) →
  (∃ e, r = Err e ∧ quiet w w' ∧ errors_Is e ErrForbidden = false) ∨
  (∃ id now w1 r1, quiet w w1 ∧ let t := MkTeam id name owner (time_UTC now) in
     CreateTeamWithOwner (teamSaver s) t owner w1 = (w', r1) ∧
     r = match r1 with
         | Ok _ => Ok t
         | Err e => Err (wrap "team.Service.Create: create team with owner" e)
         end).
Proof.
  intros Hr. unfold Create in Hr.
  run Hr as w1 id E; destruct (NewV7_quiet _ _ _ E) as [Hq Hst].
  - run Hr as w2 now En; destruct (Now_quiet _ _ _ En) as [Hq1 [t Ht]]; simplify_eq.
    right. exists id, t, w2.
    run Hr as w3 u Es; [run_ret Hr|]; eexists; (split; [by etrans|]); split; done.
  - left. eexists. split; [reflexivity|]. split; [done|].
    rewrite wrap_Is, errors_Is_root by done. by apply bool_decide_false, Hst.
Qed.

Lemma Invite_run caller tm target w w' r :
  Invite s caller tm target w = (w', r) →
  (∃ e, r = Err e ∧ quiet w w' ∧
     ((errors_Is e ErrForbidden = true ∧ is_Some (b_teams (board_of w) !! tm) ∧
       ¬ may_invite (board_of w) tm caller) ∨
      (errors_Is e ErrNotFound = true ∧ (b_teams (board_of w) !! tm = None ∨
         (may_invite (board_of w) tm caller ∧ b_users (board_of w) !! target = None))) ∨
      (¬ healthy w ∧ errors_Is e ErrForbidden = false ∧ errors_Is e ErrNotFound = false))) ∨
  (is_Some (b_teams (board_of w) !! tm) ∧ may_invite (board_of w) tm caller ∧
   is_Some (b_users (board_of w) !! target) ∧ ∃ w1 w2 r1, quiet w w1 ∧ SaveMember (teamSaver s) tm target RoleMember w1 = (w2, r1) ∧
     match r1 with
     | Ok _ => r = Ok tt ∧ quiet w2 w'
     | Err e => r = Err (wrap "team.Service.Invite: save member" e) ∧ w' = w2
     end).
Proof.
  intros Hr. unfold Invite in Hr. run Hr as w1 team E;
    destruct (reads_found _ _ _ _ _ (GetTeamByID_reads _) E) as [Hq Hteam]; cycle 1.
  { left. eexists. split; [reflexivity|]. split; [done|]. destruct Hteam as [Hst Hcase].
    rewrite wrap_not_forbidden, wrap_Is by done. right. naive_solver. }
  assert (Hb := quiet_board _ _ Hq). assert (Hh := quiet_healthy _ _ Hq).
  run Hr as w2 role E1;
    destruct (reads_found _ _ _ _ _ (TeamGetter_GetMemberRole_reads _ _) E1) as [Hq1 Hrole];
    rewrite Hb in Hrole; cycle 1.
  { left. eexists. split; [reflexivity|]. split; [by etrans|]. destruct Hrole as [Hst [[-> Hn]|[En Hn]]].
    - left. split; [done|]. split; [by eauto|]. intros (? & ? & _). congruence.
    - right; right. rewrite En, wrap_not_forbidden, wrap_Is by done. auto. }
  assert (quiet w w2) as Hq2 by by etrans.
  case_bool_decide as Hm.
  { run_ret Hr. left. eexists. split; [reflexivity|]. split; [done|]. left.
    split; [done|]. split; [by eauto|]. intros (? & ? & ?). congruence. }
  assert (may_invite (board_of w) tm caller) as Hmay by by exists role.
  clear Hq Hq1 E1 Hh Hb. assert (Hb := quiet_board _ _ Hq2). assert (Hh := quiet_healthy _ _ Hq2).
  run Hr as w3 user E2; destruct (reads_found _ _ _ _ _ (GetByID_reads _) E2) as [Hq3 Huser];
    rewrite Hb in Huser; cycle 1.
  { left. eexists. split; [reflexivity|]. split; [by etrans|]. destruct Huser as [Hst Hcase].
    rewrite wrap_not_forbidden, wrap_Is by done. right. naive_solver. }
  right. split; [by eexists|]. split; [done|]. split; [by eauto|]. exists w3.
  run Hr as w4 u Es.
  - run_last Hr as r1 En. do 2 eexists. split; [by etrans|]. split; [exact Es|].
    split; [done|]. by eapply SendInvite_quiet.
  - do 2 eexists. split; [by etrans|]. by split; [exact Es|].
Qed.

(** creating a team that succeeds stored the team and, in the same step,
    its creator as owner; nothing else changed. *)
Theorem CreateTeam_correct owner name w w' t :
  Create s owner name w = (w', Ok t) →
  Team_Name t = name ∧ Team_CreatedBy t = owner ∧ b_teams (board_of w) !! Team_ID t = None ∧
  ∃ t', Team_ID t' = Team_ID t ∧ Team_Name t' = name ∧ Team_CreatedBy t' = owner ∧
  board_of w' = with_members (<[(Team_ID t, owner) := RoleOwner]>)
    (with_teams (<[Team_ID t := t']>) (board_of w)).
Proof.
  intros [(e & ? & _)|(id & now & w1 & r1 & Hq & Hs & Hr)]%CreateTeam_run; [done|].
  destruct r1 as [u|e]; [injection Hr as ->|done].
  destruct (CreateTeamWithOwner_writes _ _ _ _ _ Hs) as (_ & Hok & _ & _).
  destruct (Hok _ eq_refl) as (_ & Hfresh & _ & _ & _ & t' & Hid & Hby & Hname & Hb).
  rewrite (quiet_board _ _ Hq) in *. do 3 (split; [done|]). by exists t'.
Qed.

(** C22: an invitation that succeeds was made by a caller whose role is not
    "member", of an existing user, and stored the target as "member", whatever
    became of the notification. *)
Theorem Invite_correct caller tm target w w' :
  Invite s caller tm target w = (w', Ok tt) →
  may_invite (board_of w) tm caller ∧ is_Some (b_users (board_of w) !! target) ∧
  board_of w' = with_members (<[(tm, target) := RoleMember]>) (board_of w).
Proof.
  intros [(e & ? & _)|(_ & Hmay & Hu & w1 & w2 & r1 & Hq & Hs & Hr)]%Invite_run; [done|].
  do 2 (split; [done|]). destruct r1 as [u|e]; destruct Hr as [? Hr]; [|done].
  destruct (SaveMember_writes _ _ _ RoleMember_valid _ _ _ Hs) as (_ & Hok & _ & _).
  destruct (Hok _ eq_refl) as (_ & _ & Hb).
  by rewrite (quiet_board _ _ Hr), Hb, (quiet_board _ _ Hq).
Qed.

(** an invitation that fails leaves the board as it was, or with exactly
    the requested membership, made by a caller who may invite; "forbidden" is
    said only to a caller who may not, and in a healthy world always to such a
    caller when the team exists. *)
Theorem Invite_fails_safe caller tm target w w' e :
  Invite s caller tm target w = (w', Err e) →
  (board_of w' = board_of w ∨ (may_invite (board_of w) tm caller ∧
     board_of w' = with_members (<[(tm, target) := RoleMember]>) (board_of w))) ∧
  (errors_Is e ErrForbidden = true → ¬ may_invite (board_of w) tm caller) ∧
  (errors_Is e ErrNotFound = true →
     b_teams (board_of w) !! tm = None ∨ b_users (board_of w) !! target = None) ∧
  (healthy w → is_Some (b_teams (board_of w) !! tm) → ¬ may_invite (board_of w) tm caller →
   errors_Is e ErrForbidden = true).
Proof.
  intros [(? & [= <-] & Hq & Hcase)|(_ & Hmay & Hu & w1 & w2 & r1 & Hq & Hs & Hr)]%Invite_run.
  - split; [by left; apply Hq|]. split_and!.
    + intros Hf. destruct Hcase as [(_ & _ & ?)|[[Hn _]|(_ & Hn & _)]]; [done| |congruence].
      by pose proof (errors_Is_unique _ ErrForbidden ErrNotFound eq_refl eq_refl Hf Hn).
    + intros Hf. destruct Hcase as [(Hn & _ & _)|[[_ [?|[_ ?]]]|(_ & _ & Hn)]]; [|by left|by right|congruence].
      by pose proof (errors_Is_unique _ ErrForbidden ErrNotFound eq_refl eq_refl Hn Hf).
    + intros Hw [? Ht] Hno. destruct Hcase as [[? _]|[[_ [?|[? _]]]|[? _]]]; congruence || done.
  - destruct r1 as [u|e']; destruct Hr as [Ht Hr]; simplify_eq.
    destruct (SaveMember_writes _ _ _ RoleMember_valid _ _ _ Hs) as (_ & _ & Herr & _).
    destruct (Herr _ eq_refl) as [Hst Hb]. rewrite (quiet_board _ _ Hq) in Hb. split_and!.
    + destruct Hb as [Hb|(? & _ & _ & Hb)]; [by left|by right].
    + by rewrite (proj1 (from_write_wrap _ _ Hst)).
    + by rewrite (proj2 (from_write_wrap _ _ Hst)).
    + done.
Qed.

(** inviting a user who is already in the team replaces the user's role
    with "member". An owner who invites itself is demoted: afterwards its own
    invitations are refused, and if it was the only one with another role than
    "member", nobody can invite any more. *)
Theorem Invite_demotes caller tm w w' :
  Invite s caller tm caller w = (w', Ok tt) →
  ¬ may_invite (board_of w') tm caller ∧
  ((∀ u, may_invite (board_of w) tm u → u = caller) → ∀ u, ¬ may_invite (board_of w') tm u).
Proof.
  intros [(e & ? & _)|(_ & Hmay & Hu & w1 & w2 & r1 & Hq & Hs & Hr)]%Invite_run; [done|].
  destruct r1 as [u|e]; destruct Hr as [? Hr]; [|done].
  destruct (SaveMember_writes _ _ _ RoleMember_valid _ _ _ Hs) as (_ & Hok & _ & _).
  destruct (Hok _ eq_refl) as (_ & _ & Hb).
  rewrite (quiet_board _ _ Hr), Hb, (quiet_board _ _ Hq). unfold may_invite. simpl. split.
  - rewrite lookup_insert_eq. naive_solver.
  - intros Hall v (r & Hv & Hne). destruct (decide (v = caller)) as [->|Hvc].
    + rewrite lookup_insert_eq in Hv. naive_solver.
    + rewrite lookup_insert_ne in Hv by congruence. apply Hvc, Hall. by exists r.
Qed.

Lemma ListForUser_quiet u w w' r :
  ListForUser s u w = (w', r) → quiet w w'.
Proof.
  intros Hr. unfold ListForUser in Hr.
  run_last Hr as x E; by destruct (GetTeamsByUser_reads _ _ _ _ E).
Qed.

(** ListForUser answers exactly the teams the user is a member of, each
    once, and changes nothing. *)
Theorem ListForUser_correct u w w' r :
  ListForUser s u w = (w', r) →
  board_of w' = board_of w ∧ (healthy w → ∃ l, r = Ok l) ∧
  ∀ l, r = Ok l → l ≡ₚ omap (λ kt : uuid * Team,
    if decide (is_Some (b_members (board_of w) !! (kt.1, u))) then Some kt.2 else None)
    (map_to_list (b_teams (board_of w))).
Proof.
  intros Hr. unfold ListForUser in Hr.
  run_last Hr as x E; apply (reads_answered _ _ _ _ _ (GetTeamsByUser_reads u)) in E as [Hq Hx];
    (split; [apply Hq|]).
  - split; [by eauto|]. by intros ? [= <-].
  - split; [|done]. intros Hw. by apply Hx in Hw.
Qed.

End proofs.
End TeamSvc.
