(* ===== verification/CacheJson.v ===== *)
(** * CacheJson: encoding/json on the lists of the cache

    [cachedList] and [domain.Task] as json.Marshal writes them and
    json.Unmarshal reads them, and that a list that survives JSON comes back as
    it was: the law of the codec that List relies on. *)
From S2P Require Import Prelude Go GoStrings Uuid Domain Ports TimeText Json JsonDec TaskService.
Open Scope Z_scope.

(** ** Tasks and cached lists *)

Section codec.
Context `{!UuidLib}.

Definition zero_task : Task := MkTask zero_id zero_id zero_id None "" None "" "" None zero_time zero_time.

Definition set_ID (x : uuid) (t : Task) : Task :=
  MkTask x (Task_TeamID t) (Task_CreatedBy t) (Task_AssigneeID t) (Task_Title t) (Task_Description t)
    (Task_Status t) (Task_Priority t) (Task_DueDate t) (Task_CreatedAt t) (Task_UpdatedAt t).
Definition set_TeamID (x : uuid) (t : Task) : Task :=
  MkTask (Task_ID t) x (Task_CreatedBy t) (Task_AssigneeID t) (Task_Title t) (Task_Description t)
    (Task_Status t) (Task_Priority t) (Task_DueDate t) (Task_CreatedAt t) (Task_UpdatedAt t).
Definition set_CreatedBy (x : uuid) (t : Task) : Task :=
  MkTask (Task_ID t) (Task_TeamID t) x (Task_AssigneeID t) (Task_Title t) (Task_Description t)
    (Task_Status t) (Task_Priority t) (Task_DueDate t) (Task_CreatedAt t) (Task_UpdatedAt t).
Definition set_CreatedAt (x : time) (t : Task) : Task :=
  MkTask (Task_ID t) (Task_TeamID t) (Task_CreatedBy t) (Task_AssigneeID t) (Task_Title t) (Task_Description t)
    (Task_Status t) (Task_Priority t) (Task_DueDate t) x (Task_UpdatedAt t).

Definition task_fields : fields Task := [
  ("ID", in_field Task_ID set_ID dec_uuid);
  ("TeamID", in_field Task_TeamID set_TeamID dec_uuid);
  ("CreatedBy", in_field Task_CreatedBy set_CreatedBy dec_uuid);
  ("AssigneeID", in_field Task_AssigneeID set_AssigneeID (dec_ptr zero_id dec_uuid));
  ("Title", in_field Task_Title set_Title dec_string);
  ("Description", in_field Task_Description set_Description (dec_ptr "" dec_string));
  ("Status", in_field Task_Status set_Status dec_string);
  ("Priority", in_field Task_Priority set_Priority dec_string);
  ("DueDate", in_field Task_DueDate set_DueDate (dec_ptr zero_time dec_time));
  ("CreatedAt", in_field Task_CreatedAt set_CreatedAt dec_time);
  ("UpdatedAt", in_field Task_UpdatedAt set_UpdatedAt dec_time) ].
Definition dec_task : Dec Task := dec_struct task_fields.

(** A cachedList that is being decoded. *)
Definition partial : Type := slice Task * Z.
Definition partial_fields : fields partial := [
  ("tasks", in_field fst (λ x p, (x, p.2)) (dec_slice zero_task dec_task));
  ("total", in_field snd (λ x p, (p.1, x)) dec_int) ].

Definition enc_task (t : Task) : option json :=
  due ← enc_ptr enc_time (Task_DueDate t);
  created ← enc_time (Task_CreatedAt t);
  updated ← enc_time (Task_UpdatedAt t);
  assignee ← enc_ptr (λ id, Some (enc_uuid id)) (Task_AssigneeID t);
  description ← enc_ptr (λ s, Some (enc_string s)) (Task_Description t);
  Some (JObject [
    ("ID", enc_uuid (Task_ID t));
    ("TeamID", enc_uuid (Task_TeamID t));
    ("CreatedBy", enc_uuid (Task_CreatedBy t));
    ("AssigneeID", assignee);
    ("Title", enc_string (Task_Title t));
    ("Description", description);
    ("Status", enc_string (Task_Status t));
    ("Priority", enc_string (Task_Priority t));
    ("DueDate", due);
    ("CreatedAt", created);
    ("UpdatedAt", updated) ]).

Definition enc_cachedList (l : cachedList) : option json :=
  tasks ← mapM enc_task (CL_Tasks l);
  Some (JObject [("tasks", JArray tasks); ("total", enc_int (CL_Total l))]).

(** json.Marshal and json.Unmarshal at [cachedList]. Their errors are dropped by
    List, so they have no text here. *)
Definition Marshal_cachedList (l : cachedList) : result bytes :=
  match enc_cachedList l with
  | Some j => Ok (encode j)
  | None => Err (OtherError "json: Marshal")
  end.

Definition Unmarshal_cachedList (d : bytes) : result cachedList :=
  match parse d ≫= dec_struct partial_fields (([], O), 0) with
  | Some (tasks, total) => Ok (MkCachedList (elems tasks) total)
  | None => Err (OtherError "json: Unmarshal")
  end.

(** ** The lists that survive *)

Definition task_faithful (t : Task) : bool :=
  valid_utf8 (Task_Title t) && opt_forall valid_utf8 (Task_Description t) &&
  valid_utf8 (Task_Status t) && valid_utf8 (Task_Priority t) &&
  opt_forall printable (Task_DueDate t) && printable (Task_CreatedAt t) && printable (Task_UpdatedAt t).

Definition faithful (l : cachedList) : bool :=
  forallb task_faithful (CL_Tasks l) && bool_decide (int64_range (CL_Total l)).

Definition json_codec : CacheCodec := {|
  json_Marshal := Marshal_cachedList; json_Unmarshal := Unmarshal_cachedList; json_faithful l := faithful l = true
|}.

End codec.

(** ** Round trip *)

Section roundtrip.
Context `{!UuidLib} `{!UuidLibSpec}.

Lemma enc_task_undone t :
  task_faithful t = true → ∃ j, enc_task t = Some j ∧ undoes dec_task j t ∧ written 1 j.
Proof.
  unfold task_faithful. rewrite !andb_true_iff. intros ((((((Hti & Hde) & Hst) & Hpr) & Hdu) & Hca) & Hua).
  destruct (undoes_ptr zero_time dec_time enc_time printable _ undoes_time Hdu) as (jdu & Edu & Ddu & Wdu).
  destruct (undoes_time _ Hca) as (jca & Eca & Dca & _ & Wca). destruct (undoes_time _ Hua) as (jua & Eua & Dua & _ & Wua).
  destruct (undoes_uuid_ptr (Task_AssigneeID t)) as (jas & Eas & Das & Was).
  destruct (undoes_string_ptr _ Hde) as (jde & Ede & Dde & Wde).
  unfold enc_task. rewrite Edu, Eca, Eua, Eas, Ede. cbn [mbind option_bind]. eexists. split; [done|]. split.
  - intros cur. unfold dec_task, dec_struct.
    repeat (erewrite dec_members_field; [|reflexivity|
      first [apply undoes_uuid | by apply undoes_string | match goal with H : undoes _ _ _ |- _ => apply H end]]).
    by destruct t, cur.
  - constructor.
    repeat (constructor; [split; [by apply raw_ok_plain|]; (eapply written_mono; [|apply (Nat.le_0_l 0)]);
      first [apply written_enc_uuid | by apply written_enc_string | assumption]|]).
    constructor.
Qed.

Lemma enc_tasks_undone l :
  forallb task_faithful l = true →
  ∃ js, mapM enc_task l = Some js ∧ length js = length l ∧ Forall (written 1) js ∧
    ∀ backing, dec_elems zero_task dec_task backing js = Some (l ++ drop (length l) backing).
Proof.
  induction l as [|t l IH]; cbn [forallb].
  - intros _. exists []. split_and!; [done..|]. intros backing. by destruct backing.
  - intros [Ht Hl]%andb_true_iff. destruct (enc_task_undone t Ht) as (j & Ej & Dj & Wj).
    destruct (IH Hl) as (js & Ejs & Hlen & Wjs & Djs). exists (j :: js).
    cbn [mapM]. rewrite Ej. cbn [mbind option_bind]. rewrite Ejs. cbn [mbind option_bind mret option_ret].
    split; [done|]. split; [cbn; by rewrite Hlen|]. split; [by constructor|].
    intros [|x backing]; cbn [dec_elems]; rewrite Dj; cbn [mbind option_bind]; rewrite Djs; cbn [mbind option_bind]; [|done].
    by rewrite drop_nil.
Qed.

Lemma dec_slice_undone l js cur :
  length js = length l → dec_elems zero_task dec_task cur.1 js = Some (l ++ drop (length l) cur.1) →
  ∃ sl, dec_slice zero_task dec_task cur (JArray js) = Some sl ∧ elems sl = l.
Proof.
  intros Hlen Hd. unfold dec_slice. destruct js as [|j js].
  - destruct l; [|done]. by exists ([], O).
  - rewrite Hd. cbn [mbind option_bind]. eexists. split; [done|]. unfold elems. cbn [fst snd].
    by rewrite Hlen, take_app_length.
Qed.

(** A faithful list is encoded, and what it is encoded to decodes to it. *)
Lemma codec_roundtrip l :
  faithful l = true → ∃ d, Marshal_cachedList l = Ok d ∧ Unmarshal_cachedList d = Ok l.
Proof.
  unfold faithful. intros [Hl Hn%bool_decide_eq_true]%andb_true_iff.
  destruct (enc_tasks_undone _ Hl) as (js & Ejs & Hlen & Wjs & Djs).
  unfold Marshal_cachedList, enc_cachedList. rewrite Ejs. cbn [mbind option_bind]. eexists. split; [done|].
  unfold Unmarshal_cachedList. rewrite parse_encode.
  2: { apply (written_mono 3); [|by apply Nat.leb_le].
       constructor. constructor; [split; [by apply raw_ok_plain|by constructor]|].
       constructor; [split; [by apply raw_ok_plain|]|constructor]. constructor. apply number_ok_fmt_d. }
  cbn [mbind option_bind dec_struct].
  destruct (dec_slice_undone (CL_Tasks l) js ([], O) Hlen (Djs [])) as (sl & Hsl & Hel).
  erewrite dec_members_field; [|reflexivity|exact Hsl].
  erewrite dec_members_field; [|reflexivity|by apply undoes_int]. cbn [dec_members fst snd]. rewrite Hel. by destruct l.
Qed.

Lemma json_codec_spec : @CacheCodecSpec json_codec.
Proof.
  intros l d Hl Hd. cbn in *. destruct (codec_roundtrip l Hl) as (d' & Hm & Hu). congruence.
Qed.

(** The instants of a task. *)
Definition times_of (t : Task) : list time :=
  option_list (Task_DueDate t) ++ [Task_CreatedAt t; Task_UpdatedAt t].

Lemma enc_task_None t : enc_task t = None ↔ Exists (λ x, appendStrictRFC3339 x = None) (times_of t).
Proof.
  assert (∀ x, enc_time x = None ↔ appendStrictRFC3339 x = None) as Ht.
  { intros x. unfold enc_time. apply fmap_None. }
  unfold times_of. rewrite Exists_app, !Exists_cons, Exists_nil, <-!Ht.
  trans (enc_ptr enc_time (Task_DueDate t) = None ∨ enc_time (Task_CreatedAt t) = None ∨ enc_time (Task_UpdatedAt t) = None).
  - unfold enc_task. destruct (enc_ptr enc_time _); cbn [mbind option_bind]; [|by split; auto].
    destruct (enc_time (Task_CreatedAt t)); cbn [mbind option_bind]; [|by split; auto].
    destruct (enc_time (Task_UpdatedAt t)); cbn [mbind option_bind]; [|by split; auto].
    destruct (Task_AssigneeID t), (Task_Description t); cbn; (split; [done|]); by intros [? | [? | ?]].
  - destruct (Task_DueDate t) as [due|]; cbn [enc_ptr option_list].
    + change (option_list (Some due)) with [due]. rewrite Exists_cons, Exists_nil, <-(Ht due). tauto.
    + change (option_list None) with (@nil time). rewrite Exists_nil. split; [intros [?|?]; [done|tauto]|tauto].
Qed.

(** C15: what List stores in the cache it reads back: a list of tasks in UTF-8
    with printable times is encoded by json.Marshal - under the names of the
    fields, with the escapes of encoding/json and the times of RFC 3339 to the
    nanosecond - to bytes that json.Unmarshal decodes to the same list. It is
    not encoded at all exactly when one of its times has no text. *)
Theorem cachedList_roundtrip l :
  (faithful l = true → ∃ d, Marshal_cachedList l = Ok d ∧ Unmarshal_cachedList d = Ok l) ∧
  ((∃ e, Marshal_cachedList l = Err e) ↔
    Exists (λ t, Exists (λ x, appendStrictRFC3339 x = None) (times_of t)) (CL_Tasks l)).
Proof.
  split; [apply codec_roundtrip|]. unfold Marshal_cachedList, enc_cachedList.
  trans (mapM enc_task (CL_Tasks l) = None).
  - destruct (mapM enc_task (CL_Tasks l)); cbn [mbind option_bind]; split; [by intros [? ?]|done|done|by eexists].
  - rewrite mapM_None. apply Exists_proper; [intros t; apply enc_task_None|done].
Qed.

End roundtrip.
