(* ===== verification/AuthService.v ===== *)
(** * AuthService: internal/service/auth/auth.go

    Registration and login. bcrypt and the JWT library are parameters: classes
    with their operations and the documented behaviour the code relies on. *)
From S2P Require Import Prelude Go Uuid Domain Ports.

(** ** golang.org/x/crypto/bcrypt

    Hashing draws a salt, so it is a computation; comparing is pure. *)
Record Bcrypt (W : Type) := MkBcrypt {
  GenerateFromPassword : string → Z → comp W string;
  CompareHashAndPassword : string → string → option error
}.
Arguments GenerateFromPassword {W} _ _ _.
Arguments CompareHashAndPassword {W} _ _ _.

Definition DefaultCost : Z := 10.

(** ** github.com/golang-jwt/jwt *)
Record MapClaims : Type := MkMapClaims { claim_sub : string; claim_exp : Z }.

(** The family of a token's algorithm, as [t.Method.( *jwt.SigningMethodHMAC)]
    tests it. *)
Inductive SigningMethod : Type := SigningMethodHMAC | SigningMethodOther.

(** A parsed token: [tok.Valid] and [tok.Claims.GetSubject()]. *)
Record Token : Type := MkToken { tok_Valid : bool; GetSubject : result string }.

(** [SignedString] signs HS256 claims with a secret; [jwt_Parse] asks the key
    function for the key of the token's method and checks the claims at a time
    given in seconds. *)
Class JwtLib := {
  SignedString : MapClaims → string → result string;
  jwt_Parse : Z → string → (SigningMethod → result string) → result Token
}.

(** A token signed with HS256 and parsed with the same key before it expires is
    valid and carries its subject. *)
Class JwtLibSpec `{JwtLib} : Prop :=
  jwt_roundtrip claims secret raw now key :
    SignedString claims secret = Ok raw → key SigningMethodHMAC = Ok secret →
    now < claim_exp claims →
    jwt_Parse now raw key = Ok (MkToken true (Ok (claim_sub claims))).

(** [t.Add(d)] and [t.Unix()] *)
Definition time_Add (t : time) (d : Z) : time := Time (t_ns t + d) (t_off t).
Definition time_Unix (t : time) : Z := t_ns t `div` 1000000000.

Module AuthSvc.

Section service.
Context {W : Type} `{!UuidLib} `{!JwtLib}.

(** The fields of the source, and x/crypto/bcrypt and the [runtime], which the
    code calls directly. *)
Record Service : Type := MkService {
  userSaver : UserSaver W;
  userGetter : UserByEmail W;
  secret : string;
  expiry : Z;
  bcrypt : Bcrypt W;
  runtime : Runtime W
}.

Definition New (userSaver : UserSaver W) (userGetter : UserByEmail W) (secret : string) (expiry : Z)
    (bcrypt : Bcrypt W) (runtime : Runtime W) : Service :=
  MkService userSaver userGetter secret expiry bcrypt runtime.

Definition ErrRegistered : error := Errorf "" ErrConflict ": email already registered".

Definition Register (s : Service) (email name password : string) : comp W unit :=
  let op := "auth.Service.Register" in
  found ← attempt (GetByEmail (userGetter s) email);
  match found with
  | Ok _ => throw ErrRegistered
  | Err err =>
      if negb (errors_Is err ErrNotFound) then throw (wrap (op +:+ ": get by email") err)
      else
        hash ← on_err (wrap (op +:+ ": hash password"))
                 (GenerateFromPassword (bcrypt s) password DefaultCost);
        id ← on_err (wrap (op +:+ ": generate user id")) (NewV7 (runtime s));
        now ← Now (runtime s);
        on_err (wrap (op +:+ ": save user"))
          (SaveUser (userSaver s) (MkUser id email name hash (time_UTC now)))
  end.

Definition Login (s : Service) (email password : string) : comp W string :=
  let op := "auth.Service.Login" in
  user ← on_err (λ err, if errors_Is err ErrNotFound then ErrUnauthorized
                        else wrap (op +:+ ": get by email") err)
           (GetByEmail (userGetter s) email);
  match CompareHashAndPassword (bcrypt s) (User_Password user) password with
  | Some _ => throw ErrUnauthorized
  | None =>
      now ← Now (runtime s);
      let claims := MkMapClaims (uuid_String (User_ID user)) (time_Unix (time_Add now (expiry s))) in
      match SignedString claims (secret s) with
      | Ok signed => mret signed
      | Err err => throw (wrap (op +:+ ": sign token") err)
      end
  end.

End service.
Arguments Service W : clear implicits.

Section proofs.
Context {W : Type} `{!UuidLib} `{!JwtLib} `{!Backend W}.

(** A hash accepts the password it was made from; hashing touches no storage. *)
Class BcryptSpec (b : Bcrypt W) : Prop := {
  Generate_quiet p c w w' r : GenerateFromPassword b p c w = (w', r) →
    quiet w w' ∧ (∀ e, r = Err e → from_storage e ∧ errors_Is e ErrConflict = false);
  Generate_accepts p c w w' h : GenerateFromPassword b p c w = (w', Ok h) →
    CompareHashAndPassword b h p = None
}.

Class ServiceSpec (s : Service W) : Prop := {
  #[global] spec_saver :: UserSaverSpec (userSaver s);
  #[global] spec_getter :: UserByEmailSpec (userGetter s);
  #[global] spec_bcrypt :: BcryptSpec (bcrypt s);
  #[global] spec_runtime :: RuntimeSpec (runtime s)
}.

Context `{!BackendSpec W} (s : Service W) `{!ServiceSpec s}.

(** Some user has that email. *)
Definition registered (b : board) (email : string) : Prop :=
  ∃ i v, b_users b !! i = Some v ∧ same_email (User_Email v) email.

(** A lookup by email: a registered user, truly nobody, or an unhealthy world. *)
Lemma GetByEmail_found email w w' r :
  GetByEmail (userGetter s) email w = (w', r) →
  quiet w w' ∧
  match r with
  | Ok u => b_users (board_of w) !! User_ID u = Some u ∧ same_email (User_Email u) email
  | Err e => from_storage e ∧
      ((errors_Is e ErrNotFound = true ∧ ¬ registered (board_of w) email) ∨
       (errors_Is e ErrNotFound = false ∧ ¬ healthy w))
  end.
Proof.
  intros Hr. destruct (GetByEmail_reads _ _ _ _ Hr) as (Hq & Hok & Herr & Hh). split; [done|].
  destruct r as [u|e].
  - by apply Hok.
  - destruct (Herr _ eq_refl) as [Hst Hnf]. split; [done|].
    destruct (errors_Is e ErrNotFound) eqn:En; [left|right]; (split; [done|]).
    + destruct (Hnf eq_refl) as [_ Hno]. intros (i & v & Hv & Hs). by eapply Hno.
    + intros Hw. by destruct (Hh Hw) as [-> _].
Qed.

(** What a run of Register is: refused before any write, or a save of a user
    with an unregistered email. *)
Lemma Register_run email name password w w' r :
  Register s email name password w = (w', r) →
  (∃ e, r = Err e ∧ quiet w w' ∧
     (registered (board_of w) email → healthy w → e = ErrRegistered) ∧
     (e = ErrRegistered → registered (board_of w) email)) ∨
  (¬ registered (board_of w) email ∧ ∃ id hash now w1 r1, quiet w w1 ∧
     CompareHashAndPassword (bcrypt s) hash password = None ∧
     SaveUser (userSaver s) (MkUser id email name hash (time_UTC now)) w1 = (w', r1) ∧
     r = match r1 with
         | Ok u => Ok u
         | Err e => Err (wrap "auth.Service.Register: save user" e)
         end).
Proof.
  intros Hr. unfold Register in Hr. run Hr as w1 found E.
  destruct (GetByEmail_found _ _ _ _ E) as [Hq Hf]. destruct found as [u|e].
  { run_ret Hr. left. eexists. split; [reflexivity|]. split; [done|]. split; [done|].
    intros _. by exists (User_ID u), u. }
  destruct Hf as [Hst [[En Hno]|[En Hw]]]; rewrite En in Hr; cbn [negb] in Hr; cycle 1.
  { run_ret Hr. left. eexists. split; [reflexivity|]. by split. }
  run Hr as w2 hash Eh; destruct (Generate_quiet _ _ _ _ _ Eh) as [Hq1 _]; cycle 1.
  { left. eexists. split; [reflexivity|]. split; [by etrans|]. by split. }
  pose proof (Generate_accepts _ _ _ _ _ Eh) as Hacc.
  run Hr as w3 id Ei; destruct (NewV7_quiet _ _ _ Ei) as [Hq2 _]; cycle 1.
  { left. eexists. split; [reflexivity|]. split; [by do 2 etrans|]. by split. }
  run Hr as w4 now En'; destruct (Now_quiet _ _ _ En') as [Hq3 [t Ht]]; simplify_eq.
  right. split; [done|]. exists id, hash, t, w4.
  run_last Hr as x Es; eexists; (split; [by do 3 etrans|]); done.
Qed.

(** C21: a registration that succeeds is of an email nobody had, and stored one
    user with that email and name and a hash that accepts the password. *)
Theorem Register_correct email name password w w' :
  Register s email name password w = (w', Ok tt) →
  ¬ registered (board_of w) email ∧ ∃ u, b_users (board_of w) !! User_ID u = None ∧
    User_Email u = email ∧ User_Name u = name ∧
    CompareHashAndPassword (bcrypt s) (User_Password u) password = None ∧
    board_of w' = with_users (<[User_ID u := u]>) (board_of w).
Proof.
  intros [(e & ? & _)|(Hno & id & hash & now & w1 & r1 & Hq & Hacc & Hs & Hr)]%Register_run;
    [done|]. destruct r1 as [u|e]; [|done]. split; [done|].
  destruct (SaveUser_writes _ _ _ _ Hs) as (_ & Hok & _ & _).
  destruct (Hok _ eq_refl) as (_ & Hfresh & _ & u' & Hid & Hem & Hnm & Hpw & Hb).
  rewrite (quiet_board _ _ Hq) in *. exists u'. rewrite Hid, Hem, Hnm, Hpw. by rewrite <-Hid in *.
Qed.

(** registering an email that is taken changes nothing, and in a healthy
    world says "conflict"; a registration that loses the race for the email at
    the unique index says "conflict" too and leaves the board unchanged. *)
Theorem Register_conflict email name password w w' e :
  Register s email name password w = (w', Err e) →
  (registered (board_of w) email → board_of w' = board_of w) ∧
  (registered (board_of w) email → healthy w → errors_Is e ErrConflict = true) ∧
  (healthy w → board_of w' = board_of w) ∧
  (∀ e', e = wrap "auth.Service.Register: save user" e' → errors_Is e ErrConflict = true →
     board_of w' = board_of w).
Proof.
  intros [(? & [= <-] & Hq & Hreg & _)|(Hno & id & hash & now & w1 & r1 & Hq & Hacc & Hs & Hr)]
    %Register_run.
  - rewrite (quiet_board _ _ Hq). split_and!; try done. intros Hr Hw. by rewrite (Hreg Hr Hw).
  - destruct r1 as [u|e']; [done|injection Hr as ->]. do 2 (split; [done|]). split.
    + intros Hw. rewrite <-(quiet_board _ _ Hq).
      destruct (SaveUser_writes _ _ _ _ Hs) as (_ & _ & _ & Hh).
      by eapply (Hh (quiet_healthy _ _ Hq Hw)).
    + intros _ _. rewrite wrap_Is by done. intros Hc. rewrite <-(quiet_board _ _ Hq).
      by eapply SaveUser_conflict.
Qed.

(** Login only reads. *)
Lemma Login_quiet email password w w' r :
  Login s email password w = (w', r) → quiet w w'.
Proof.
  intros Hr. unfold Login in Hr.
  run Hr as w1 u E; destruct (GetByEmail_found _ _ _ _ E) as [Hq _]; [|done].
  destruct (CompareHashAndPassword _ _ _); [by run_ret Hr|].
  run Hr as w2 now En; destruct (Now_quiet _ _ _ En) as [Hq1 [t Ht]]; simplify_eq.
  destruct (SignedString _ _); cbv iota in Hr; run_ret Hr; by etrans.
Qed.

(** What a successful login establishes. *)
Lemma Login_token email password w w' token :
  Login s email password w = (w', Ok token) →
  quiet w w' ∧ ∃ w1 u now,
    GetByEmail (userGetter s) email w = (w1, Ok u) ∧ Now (runtime s) w1 = (w', Ok now) ∧
    b_users (board_of w) !! User_ID u = Some u ∧ same_email (User_Email u) email ∧
    CompareHashAndPassword (bcrypt s) (User_Password u) password = None ∧
    SignedString (MkMapClaims (uuid_String (User_ID u)) (time_Unix (time_Add now (expiry s))))
      (secret s) = Ok token.
Proof.
  intros Hr. unfold Login in Hr. run Hr as w1 u E.
  destruct (GetByEmail_found _ _ _ _ E) as [Hq [Hu He]].
  destruct (CompareHashAndPassword _ _ _) eqn:Hc; [run_ret Hr|].
  run Hr as w2 now En; destruct (Now_quiet _ _ _ En) as [Hq1 [t Ht]]; simplify_eq.
  destruct (SignedString _ _) as [tok|] eqn:Hs; cbv iota in Hr; run_ret Hr.
  split; [by etrans|by exists w1, u, t].
Qed.

(** C20: a token is only ever issued for a registered user whose stored hash
    accepts the password; it names that user and expires [expiry] after the
    reading of the clock that this login took, to the second, and is signed with
    the secret; issuing it changes nothing. *)
Theorem Login_sound email password w w' token :
  Login s email password w = (w', Ok token) →
  board_of w' = board_of w ∧ ∃ w1 u now,
    GetByEmail (userGetter s) email w = (w1, Ok u) ∧ Now (runtime s) w1 = (w', Ok now) ∧
    b_users (board_of w) !! User_ID u = Some u ∧ same_email (User_Email u) email ∧
    CompareHashAndPassword (bcrypt s) (User_Password u) password = None ∧
    SignedString (MkMapClaims (uuid_String (User_ID u)) (time_Unix (time_Add now (expiry s))))
      (secret s) = Ok token.
Proof. intros Hr. destruct (Login_token _ _ _ _ _ Hr) as [Hq Hu]. by split; [apply Hq|]. Qed.

(** in a healthy world a login fails with the bare "unauthorized" when the
    email is unknown, and with the very same error when the password is
    refused, so the answer does not tell the two apart. *)
Theorem Login_uniform email password w :
  healthy w →
  (∀ u, b_users (board_of w) !! User_ID u = Some u → same_email (User_Email u) email →
     CompareHashAndPassword (bcrypt s) (User_Password u) password ≠ None) →
  (Login s email password w).2 = Err ErrUnauthorized.
Proof.
  intros Hw Hall. destruct (Login s email password w) as [w' r] eqn:Hr. simpl.
  unfold Login in Hr. run Hr as w1 u E; destruct (GetByEmail_found _ _ _ _ E) as [Hq Hu].
  - destruct Hu as [Hu He]. specialize (Hall u Hu He).
    destruct (CompareHashAndPassword _ _ _) eqn:Hc; [by run_ret Hr|done].
  - by destruct Hu as [_ [[-> _]|[_ ?]]].
Qed.

(** whoever registers can log in: with the same email and password, in a
    healthy world that still holds the board the registration left, Login gets
    as far as signing a token for the new user. *)
Theorem Register_Login email name password w w1 w2 :
  Register s email name password w = (w1, Ok tt) →
  board_of w2 = board_of w1 → healthy w2 →
  ∃ u now, b_users (board_of w1) !! User_ID u = Some u ∧ User_Email u = email ∧
    (Login s email password w2).2 =
      match SignedString (MkMapClaims (uuid_String (User_ID u))
                            (time_Unix (time_Add now (expiry s)))) (secret s) with
      | Ok token => Ok token
      | Err err => Err (wrap "auth.Service.Login: sign token" err)
      end.
Proof.
  intros [(e & ? & _)|(Hno & id & hash & now & w0 & r1 & Hq & Hacc & Hs & Hr)]%Register_run;
    [done|]. destruct r1 as [[]|e]; [|done]. intros Hb2 Hw2.
  destruct (SaveUser_writes _ _ _ _ Hs) as (_ & Hok & _ & _).
  destruct (Hok _ eq_refl) as (_ & _ & _ & u' & Hid & Hem & Hnm & Hpw & Hb). simpl in *. subst.
  rewrite (quiet_board _ _ Hq) in Hb.
  destruct (Login s (User_Email u') password w2) as [w3 r] eqn:Hl. simpl. unfold Login in Hl.
  assert (Hin : b_users (board_of w1) !! User_ID u' = Some u').
  { rewrite Hb. simpl. by rewrite lookup_insert_eq. }
  run Hl as w4 u E; destruct (GetByEmail_found _ _ _ _ E) as [Hq' Hu]; rewrite Hb2 in Hu; cycle 1.
  { destruct Hu as [_ [[_ Hn]|[_ ?]]]; [|done]. destruct Hn. exists (User_ID u'), u'.
    split; [done|]. apply same_email_refl. }
  destruct Hu as [Hu He]. assert (u = u') as ->.
  { destruct (decide (User_ID u = User_ID u')) as [Hi|Hi].
    - rewrite Hi, Hin in Hu. by injection Hu.
    - destruct Hno. exists (User_ID u), u. split; [|done].
      rewrite Hb in Hu. simpl in Hu. by rewrite lookup_insert_ne in Hu. }
  rewrite Hacc in Hl.
  run Hl as w5 t En; destruct (Now_quiet _ _ _ En) as [_ [t' Ht]]; simplify_eq.
  exists u', t'. split; [done|]. split; [done|].
  destruct (SignedString _ _); cbv iota in Hl; by run_ret Hl.
Qed.

End proofs.
End AuthSvc.
