(* ===== verification/CommentService.v ===== *)
(** * CommentService: internal/service/comment/comment.go

    Adding and listing the comments of a task, for members of its team. *)
From S2P Require Import Prelude Go Uuid Domain Ports.

Module CommentSvc.

Section service.
Context {W : Type}.

Record Service : Type := MkService {
  saver : CommentSaver W;
  lister : CommentLister W;
  tasks : TaskGetter W;
  members : MemberChecker W
}.

Definition New (saver : CommentSaver W) (lister : CommentLister W) (tasks : TaskGetter W)
    (members : MemberChecker W) : Service :=
  MkService saver lister tasks members.

Definition Add (s : Service) (callerID taskID : uuid) (body : string) : comp W Comment :=
  let op := "comment.Service.Add" in
  task ← on_err (wrap (op +:+ ": get task")) (GetTaskByID (tasks s) taskID);
  check_member (members s) ErrForbidden (op +:+ ": get member role") (Task_TeamID task) callerID ;;
  on_err (wrap (op +:+ ": save comment"))
    (SaveComment (saver s) (MkComment 0 taskID callerID body zero_time)).

Definition List (s : Service) (callerID taskID : uuid) : comp W (list Comment) :=
  let op := "comment.Service.List" in
  task ← on_err (wrap (op +:+ ": get task")) (GetTaskByID (tasks s) taskID);
  check_member (members s) ErrForbidden (op +:+ ": get member role") (Task_TeamID task) callerID ;;
  on_err (wrap (op +:+ ": list comments")) (ListComments (lister s) taskID).

End service.
Arguments Service W : clear implicits.

Section proofs.
Context {W : Type} `{!Backend W}.

Class ServiceSpec (s : Service W) : Prop := {
  #[global] spec_saver :: CommentSaverSpec (saver s);
  #[global] spec_lister :: CommentListerSpec (lister s);
  #[global] spec_tasks :: TaskGetterSpec (tasks s);
  #[global] spec_members :: MemberCheckerSpec (members s)
}.

Context (s : Service W) `{!ServiceSpec s}.

(** The caller is a member of the team of an existing task. *)
Definition may_comment (b : board) (caller taskID : uuid) : Prop :=
  ∃ task, b_tasks b !! taskID = Some task ∧ is_member b (Task_TeamID task) caller.

(** Why a caller is turned away. *)
Definition turned_away (b : board) (caller taskID : uuid) (e : error) : Prop :=
  (errors_Is e ErrNotFound = true ∧ b_tasks b !! taskID = None) ∨
  (errors_Is e ErrForbidden = true ∧ is_Some (b_tasks b !! taskID) ∧ ¬ may_comment b caller taskID).

(** Both operations begin with the same two calls. *)
Lemma guard_run {A} op caller taskID (k : comp W A) w w' r :
  (task ← on_err (wrap (op +:+ ": get task")) (GetTaskByID (tasks s) taskID);
   check_member (members s) ErrForbidden (op +:+ ": get member role") (Task_TeamID task) caller ;;
   k) w = (w', r) →
  (∃ e, r = Err e ∧ quiet w w' ∧
     (turned_away (board_of w) caller taskID e ∨
      (¬ healthy w ∧ errors_Is e ErrForbidden = false ∧ errors_Is e ErrNotFound = false))) ∨
  (may_comment (board_of w) caller taskID ∧ ∃ w1, quiet w w1 ∧ k w1 = (w', r)).
Proof.
  intros Hr. run Hr as w1 task E;
    destruct (reads_found _ _ _ _ _ (GetTaskByID_reads _) E) as [Hq Htask]; cycle 1.
  { left. eexists. split; [reflexivity|]. split; [done|]. destruct Htask as [Hst Hcase].
    unfold turned_away. rewrite wrap_not_forbidden, wrap_Is by done. naive_solver. }
  run Hr as w2 u E1; apply check_member_spec in E1 as (Hq1 & Hm & Herr); [|apply _| |apply _];
    rewrite (quiet_board _ _ Hq) in *.
  - right. destruct u. split; [exists task; auto|]. exists w2. split; [by etrans|done].
  - left. eexists. split; [reflexivity|]. split; [by etrans|].
    destruct (Herr _ eq_refl) as [[-> Hn]|(Hw & e' & -> & Hst)]; [left; right|right].
    + split; [done|]. split; [by eauto|]. intros (t' & ? & ?). naive_solver.
    + split; [|by apply from_write_wrap]. intros ?. by apply Hw, (quiet_healthy _ _ Hq).
Qed.

(** a comment that Add returns was written by a member of the team of an
    existing task, and stored once with a fresh text for that task and author;
    nothing else changed. The returned value carries the generated id but a
    zero creation time, which the stored comment does not have. *)
Theorem Add_correct caller taskID body w w' c :
  Add s caller taskID body w = (w', Ok c) →
  may_comment (board_of w) caller taskID ∧ Comment_CreatedAt c = zero_time ∧
  Comment_Body c = body ∧ Comment_UserID c = caller ∧ Comment_TaskID c = taskID ∧
  ∃ now, board_of w' = with_comments (λ l, l ++
    [MkComment (Comment_ID c) taskID caller body now]) (board_of w).
Proof.
  intros [(e & ? & _)|(Hmay & w1 & Hq & Hr)]%guard_run; [done|]. split; [done|].
  run_last Hr as x E. destruct (SaveComment_writes _ _ _ _ E) as (_ & Hok & _ & _).
  destruct (Hok _ eq_refl) as (_ & _ & _ & id & now & -> & Hb).
  do 4 (split; [done|]). exists now. by rewrite Hb, (quiet_board _ _ Hq).
Qed.

(** a comment that Add does not return was refused with nothing written,
    or written whole by a member whose acknowledgement was lost; in a healthy
    world nothing is written and, unless storage refuses the row, the reason is
    a missing task or a caller outside its team. *)
Theorem Add_fails_safe caller taskID body w w' e :
  Add s caller taskID body w = (w', Err e) →
  (board_of w' = board_of w ∨
   (may_comment (board_of w) caller taskID ∧ ∃ c,
      save_comment (MkComment 0 taskID caller body zero_time) (board_of w) c (board_of w'))) ∧
  (healthy w → board_of w' = board_of w ∧
     (¬ may_comment (board_of w) caller taskID → turned_away (board_of w) caller taskID e)).
Proof.
  intros [(? & [= <-] & Hq & Hcase)|(Hmay & w1 & Hq & Hr)]%guard_run.
  - rewrite (quiet_board _ _ Hq). split; [by left|]. intros Hw. split; [done|].
    intros _. by destruct Hcase as [?|[? _]].
  - run_last Hr as x E. destruct (SaveComment_writes _ _ _ _ E) as (_ & _ & Herr & Hh).
    destruct (Herr _ eq_refl) as [_ Hb]. rewrite (quiet_board _ _ Hq) in *. split.
    + destruct Hb as [Hb|Hb]; auto.
    + intros Hw. split; [|done]. eapply Hh; [by apply (quiet_healthy _ _ Hq)|done].
Qed.

Lemma List_quiet caller taskID w w' r :
  List s caller taskID w = (w', r) → quiet w w'.
Proof.
  intros [(e & _ & Hq & _)|(_ & w1 & Hq & Hr)]%guard_run; [done|].
  run_last Hr as x E; destruct (ListComments_reads _ _ _ _ E); by etrans.
Qed.

(** List gives a member, and only a member, all the comments of the task,
    oldest first, and changes nothing. *)
Theorem ListComments_correct caller taskID w w' r :
  List s caller taskID w = (w', r) →
  board_of w' = board_of w ∧
  (∀ l, r = Ok l → may_comment (board_of w) caller taskID ∧ comments_of taskID (board_of w) l) ∧
  (∀ e, r = Err e → healthy w → turned_away (board_of w) caller taskID e).
Proof.
  intros [(e & -> & Hq & Hcase)|(Hmay & w1 & Hq & Hr)]%guard_run.
  - split; [by apply quiet_board|]. split; [done|]. intros ? [= <-] Hw.
    by destruct Hcase as [?|[? _]].
  - run_last Hr as x E; apply (reads_answered _ _ _ _ _ (ListComments_reads taskID)) in E as [Hq1 Hx];
      (split; [by rewrite (quiet_board _ _ Hq1), (quiet_board _ _ Hq)|]).
    + rewrite (quiet_board _ _ Hq) in Hx. split; [|done]. by intros ? [= <-].
    + split; [done|]. intros ? _ Hw. by apply (quiet_healthy _ _ Hq), Hx in Hw.
Qed.

End proofs.
End CommentSvc.
