(* ===== verification/AnalyticsService.v ===== *)
(** * AnalyticsService: internal/service/analytics/analytics.go

    The three read-only queries, passed through to storage. *)
From S2P Require Import Prelude Go Uuid Domain Ports.

Module AnalyticsSvc.

Section service.
Context {W : Type}.

Record TeamSummaryReader := MkTeamSummaryReader {
  read_TeamSummaries : comp W (list TeamSummary)
}.
Record TopContributorReader := MkTopContributorReader {
  read_TopContributors : comp W (list TopContributor)
}.
Record OrphanTaskReader := MkOrphanTaskReader {
  read_OrphanTasks : comp W (list OrphanTask)
}.

Record Service : Type := MkService {
  summaries : TeamSummaryReader;
  contributors : TopContributorReader;
  orphans : OrphanTaskReader
}.

Definition New (summaries : TeamSummaryReader) (contributors : TopContributorReader) (orphans : OrphanTaskReader)
    : Service :=
  MkService summaries contributors orphans.

Definition TeamSummaries (s : Service) : comp W (list TeamSummary) :=
  on_err (wrap "analytics: team summaries") (read_TeamSummaries (summaries s)).

Definition TopContributors (s : Service) : comp W (list TopContributor) :=
  on_err (wrap "analytics: top contributors") (read_TopContributors (contributors s)).

Definition OrphanTasks (s : Service) : comp W (list OrphanTask) :=
  on_err (wrap "analytics: orphan tasks") (read_OrphanTasks (orphans s)).

End service.
Arguments TeamSummaryReader W : clear implicits.
Arguments TopContributorReader W : clear implicits.
Arguments OrphanTaskReader W : clear implicits.
Arguments Service W : clear implicits.

Section proofs.
Context {W : Type} `{!Backend W}.

(** The readers only read. *)
Class ServiceSpec (s : Service W) : Prop := {
  read_TeamSummaries_quiet w w' r :
    read_TeamSummaries (summaries s) w = (w', r) → quiet w w';
  read_TopContributors_quiet w w' r :
    read_TopContributors (contributors s) w = (w', r) → quiet w w';
  read_OrphanTasks_quiet w w' r : read_OrphanTasks (orphans s) w = (w', r) → quiet w w'
}.

Lemma on_err_quiet {A} h (m : comp W A) w :
  (∀ w' r, m w = (w', r) → quiet w w') → quiet w (on_err h m w).1.
Proof. unfold on_err. destruct (m w) as [w' [a|e]]; cbn; eauto. Qed.

(** So do the three operations. *)
Lemma TeamSummaries_quiet s `{!ServiceSpec s} w : quiet w (TeamSummaries s w).1.
Proof. apply on_err_quiet. intros ? ?. apply read_TeamSummaries_quiet. Qed.
Lemma TopContributors_quiet s `{!ServiceSpec s} w : quiet w (TopContributors s w).1.
Proof. apply on_err_quiet. intros ? ?. apply read_TopContributors_quiet. Qed.
Lemma OrphanTasks_quiet s `{!ServiceSpec s} w : quiet w (OrphanTasks s w).1.
Proof. apply on_err_quiet. intros ? ?. apply read_OrphanTasks_quiet. Qed.

End proofs.
End AnalyticsSvc.
