(* ===== verification/MySQLEngine.v ===== *)
(** * MySQLEngine: the database the storage layer talks to

    The tables of migrations/*.up.sql, the columns' conversions, statements and
    transactions with driver failures. What the server does that the migrations
    do not say (collation, character limits, date rounding, the order of rows
    that ORDER BY leaves open) is the class [MySQLEngine]. *)
From S2P Require Import Prelude Go Uuid Domain.

(** ** The server's own behaviour *)

(** [collate] is a string's collation weight: two strings are equal for the
    server when their weights are. [varchar n s] says that a VARCHAR(n) stores
    [s] as it is: a longer string is rejected in strict mode, and one that is
    longer by trailing spaces only, which the server would cut off with a note,
    counts as rejected too. [enum_of] is the member of an ENUM that a string is
    stored as. [current_timestamp3] is a reading of the server's clock as
    CURRENT_TIMESTAMP(3) gives it. [order_by plan] is the order in which a
    statement returns rows with the given sort keys: ascending, ties in an
    order of that statement, which the next one need not repeat. *)
Class MySQLEngine := {
  collate : string → string;
  varchar : nat → string → bool;
  text : string → bool;
  enum_of : list string → string → option string;
  datetime3 : time → option time;
  date_of : time → option time;
  current_timestamp3 : time → time;
  order_by : N → ∀ {K} `{Countable K}, gmap K Z → list K
}.

Definition keys_le {K} `{Countable K} (m : gmap K Z) (i j : K) : Prop :=
  ∀ x y, m !! i = Some x → m !! j = Some y → x ≤ y.

Class MySQLEngineSpec `{MySQLEngine} : Prop := {
  enum_of_member vs v : v ∈ vs → enum_of vs v = Some v;
  enum_of_sound vs s v : enum_of vs s = Some v → v ∈ vs;
  current_timestamp3_stored t : ∃ t0, datetime3 t0 = Some (current_timestamp3 t);
  order_by_perm plan {K} `{Countable K} (m : gmap K Z) : order_by plan m ≡ₚ (map_to_list m).*1;
  order_by_sorted plan {K} `{Countable K} (m : gmap K Z) :
    StronglySorted (keys_le m) (order_by plan m)
}.

(** ** Tables

    A BINARY(16) value is a [uuid]: sixteen bytes. A primary key is the key of
    a finite map; AUTO_INCREMENT tables are logs in order of insertion. *)

Record users_rec : Type := UsersRec {
  u_email : string; u_name : string; u_password : string; u_created_at : time
}.
Record teams_rec : Type := TeamsRec {
  m_name : string; m_created_by : uuid; m_created_at : time
}.
Record tasks_rec : Type := TasksRec {
  k_team_id : uuid;
  k_created_by : uuid;
  k_assignee_id : option uuid;
  k_title : string;
  k_description : option string;
  k_status : string;
  k_priority : string;
  k_due_date : option time;
  k_created_at : time;
  k_updated_at : time
}.
Record history_rec : Type := HistoryRec {
  h_task_id : uuid;
  h_changed_by : uuid;
  h_field : string;
  h_old_value : option string;
  h_new_value : option string;
  h_changed_at : time
}.
Record comments_rec : Type := CommentsRec {
  c_task_id : uuid; c_user_id : uuid; c_body : string; c_created_at : time
}.

Record tables : Type := Tables {
  users : gmap uuid users_rec;
  teams : gmap uuid teams_rec;
  team_members : gmap (uuid * uuid) string;
  tasks : gmap uuid tasks_rec;
  task_history : list (Z * history_rec);
  task_comments : list (Z * comments_rec)
}.

Definition set_users f (t : tables) : tables :=
  Tables (f (users t)) (teams t) (team_members t) (tasks t) (task_history t) (task_comments t).
Definition set_teams f (t : tables) : tables :=
  Tables (users t) (f (teams t)) (team_members t) (tasks t) (task_history t) (task_comments t).
Definition set_team_members f (t : tables) : tables :=
  Tables (users t) (teams t) (f (team_members t)) (tasks t) (task_history t) (task_comments t).
Definition set_tasks f (t : tables) : tables :=
  Tables (users t) (teams t) (team_members t) (f (tasks t)) (task_history t) (task_comments t).
Definition set_task_history f (t : tables) : tables :=
  Tables (users t) (teams t) (team_members t) (tasks t) (f (task_history t)) (task_comments t).
Definition set_task_comments f (t : tables) : tables :=
  Tables (users t) (teams t) (team_members t) (tasks t) (task_history t) (f (task_comments t)).

(** The database: its tables, its AUTO_INCREMENT counters (which a rollback
    does not turn back), its clock, the faults of the round trips to come, and
    the number of its statements, each of which has a plan of its own. *)
Record db : Type := Db {
  d_tables : tables;
  d_history_seq : Z;
  d_comments_seq : Z;
  d_now : time;
  d_faults : list fault;
  d_plan : N
}.

Definition set_tables t (d : db) : db :=
  Db t (d_history_seq d) (d_comments_seq d) (d_now d) (d_faults d) (d_plan d).
Definition set_history_seq n (d : db) : db :=
  Db (d_tables d) n (d_comments_seq d) (d_now d) (d_faults d) (d_plan d).
Definition set_comments_seq n (d : db) : db :=
  Db (d_tables d) (d_history_seq d) n (d_now d) (d_faults d) (d_plan d).
Definition set_faults l (d : db) : db :=
  Db (d_tables d) (d_history_seq d) (d_comments_seq d) (d_now d) l (d_plan d).

(** ** Errors and conversions of the server *)

Definition ER_DUP_ENTRY : Z := 1062.
Definition WARN_DATA_TRUNCATED : Z := 1265.
Definition ER_TRUNCATED_WRONG_VALUE : Z := 1292.
Definition ER_PARSE_ERROR : Z := 1064.
Definition ER_DATA_TOO_LONG : Z := 1406.
Definition ER_NO_REFERENCED_ROW : Z := 1452.

Definition sql_error (n : Z) : error := MySQLError n "".

Definition require (b : bool) (n : Z) : result unit := if b then Ok tt else Err (sql_error n).

Definition convert {A} (o : option A) (n : Z) : result A :=
  match o with Some a => Ok a | None => Err (sql_error n) end.

Definition convert_opt {A} (f : A → option A) (o : option A) (n : Z) : result (option A) :=
  match o with Some a => x ← convert (f a) n; Ok (Some x) | None => Ok None end.

(** ** Round trips *)

Definition next_plan (d : db) : db :=
  Db (d_tables d) (d_history_seq d) (d_comments_seq d) (d_now d) (d_faults d) (N.succ (d_plan d)).

Definition next_fault (d : db) : fault * db :=
  match d_faults d with
  | [] => (NoFault, next_plan d)
  | f :: fs => (f, set_faults fs (next_plan d))
  end.

(** One statement. It changes the database or fails as a whole. *)
Definition statement {A} (f : db → result (db * A)) : comp db A := λ d,
  let '(flt, d) := next_fault d in
  match flt with
  | FailBefore msg => (d, Err (OtherError msg))
  | NoFault => match f d with Ok (d', a) => (d', Ok a) | Err e => (d, Err e) end
  | FailAfter msg =>
      match f d with Ok (d', _) => (d', Err (OtherError msg)) | Err _ => (d, Err (OtherError msg)) end
  end.

(** A query. *)
Definition query {A} (f : db → result A) : comp db A :=
  statement (λ d, a ← f d; Ok (d, a)).

(** [tx, err := BeginTxx(...); defer tx.Rollback(); ...; tx.Commit()]: [begin]
    and [commit] wrap the errors of the two ends. Nobody else sees the tables
    before the commit; without one they are the old ones again. *)
Definition transaction {A} (begin commit : error → error) (body : comp db A) : comp db A := λ d,
  match on_err begin (statement (λ d, Ok (d, tt))) d with
  | (d1, Err e) => (d1, Err e)
  | (d1, Ok _) =>
      match body d1 with
      | (d2, Err e) => (set_tables (d_tables d1) d2, Err e)
      | (d2, Ok a) =>
          let '(flt, d3) := next_fault d2 in
          match flt with
          | NoFault => (d3, Ok a)
          | FailBefore msg => (set_tables (d_tables d1) d3, Err (commit (OtherError msg)))
          | FailAfter msg => (d3, Err (commit (OtherError msg)))
          end
      end
  end.
