(* ===== verification/MySQLStorage.v ===== *)
(** * MySQLStorage: internal/storage/mysql

    The storages of users, teams, tasks and comments: their SQL statements as
    functions on the tables, the scan of rows into domain values, and the
    methods that compose them. *)
From Stdlib Require Import Strings.Byte.
From S2P Require Import Prelude Go Uuid Domain MySQLEngine.

(** ** helpers.go *)

Definition uuidToBytes (id : uuid) : list byte := id_bytes id.

Definition bytesToUUID (b : list byte) : result uuid :=
  match uuid_of_bytes b with
  | Some id => Ok id
  | None => Err (OtherError ("expected 16 bytes, got " +:+ pretty (length b)))
  end.

Definition bytesToUUIDPtr (b : list byte) : result (option uuid) :=
  if bool_decide (length b = 0%nat) then Ok None
  else id ← bytesToUUID b; Ok (Some id).

Definition isDuplicateEntry (err : error) : bool :=
  match errors_As_MySQL err with Some n => bool_decide (n = ER_DUP_ENTRY) | None => false end.

(** An error of a called conversion, wrapped. *)
Definition parse_err {A} (what : string) (r : result A) : result A :=
  match r with Ok a => Ok a | Err e => Err (wrap what e) end.

(** ** Rows *)

Record taskRow : Type := TaskRow {
  ID : list byte;
  TeamID : list byte;
  CreatedBy : list byte;
  AssigneeID : list byte;
  Title : string;
  Description : option string;
  Status : string;
  Priority : string;
  DueDate : option time;
  CreatedAt : time;
  UpdatedAt : time
}.

Record historyRow : Type := HistoryRow {
  hr_ID : Z;
  hr_TaskID : list byte;
  hr_ChangedBy : list byte;
  hr_Field : string;
  hr_OldValue : option string;
  hr_NewValue : option string;
  hr_ChangedAt : time
}.

Record teamRow : Type := TeamRow {
  tr_ID : list byte; tr_Name : string; tr_CreatedBy : list byte; tr_CreatedAt : time
}.

Record userRow : Type := UserRow {
  ur_ID : list byte; ur_Email : string; ur_Name : string; ur_Password : string; ur_CreatedAt : time
}.

Record commentRow : Type := CommentRow {
  cr_ID : Z; cr_TaskID : list byte; cr_UserID : list byte; cr_Body : string; cr_CreatedAt : time
}.

Definition toTask (r : taskRow) : result Task :=
  id ← parse_err "mysql: parse task id" (bytesToUUID (ID r));
  teamID ← parse_err "mysql: parse task team_id" (bytesToUUID (TeamID r));
  createdBy ← parse_err "mysql: parse task created_by" (bytesToUUID (CreatedBy r));
  assigneeID ← parse_err "mysql: parse task assignee_id" (bytesToUUIDPtr (AssigneeID r));
  Ok (MkTask id teamID createdBy assigneeID (Title r) (Description r) (Status r) (Priority r)
        (DueDate r) (CreatedAt r) (UpdatedAt r)).

Definition toHistory (r : historyRow) : result TaskHistory :=
  taskID ← parse_err "mysql: parse history task_id" (bytesToUUID (hr_TaskID r));
  changedBy ← parse_err "mysql: parse history changed_by" (bytesToUUID (hr_ChangedBy r));
  Ok (MkTaskHistory (hr_ID r) taskID changedBy (hr_Field r) (hr_OldValue r) (hr_NewValue r)
        (hr_ChangedAt r)).

Definition toTeam (r : teamRow) : result Team :=
  id ← parse_err "mysql: parse team id" (bytesToUUID (tr_ID r));
  createdBy ← parse_err "mysql: parse team created_by" (bytesToUUID (tr_CreatedBy r));
  Ok (MkTeam id (tr_Name r) createdBy (tr_CreatedAt r)).

Definition toUser (r : userRow) : result User :=
  id ← parse_err "mysql: parse user id" (bytesToUUID (ur_ID r));
  Ok (MkUser id (ur_Email r) (ur_Name r) (ur_Password r) (ur_CreatedAt r)).

Definition toComment (r : commentRow) : result Comment :=
  taskID ← parse_err "mysql: parse comment task_id" (bytesToUUID (cr_TaskID r));
  userID ← parse_err "mysql: parse comment user_id" (bytesToUUID (cr_UserID r));
  Ok (MkComment (cr_ID r) taskID userID (cr_Body r) (cr_CreatedAt r)).

(** What the driver scans out of a stored record. A NULL is an empty slice. *)
Definition scan_task (id : uuid) (r : tasks_rec) : taskRow :=
  TaskRow (uuidToBytes id) (uuidToBytes (k_team_id r)) (uuidToBytes (k_created_by r))
    (match k_assignee_id r with Some a => uuidToBytes a | None => [] end)
    (k_title r) (k_description r) (k_status r) (k_priority r) (k_due_date r)
    (k_created_at r) (k_updated_at r).
Definition scan_history (ir : Z * history_rec) : historyRow :=
  HistoryRow ir.1 (uuidToBytes (h_task_id ir.2)) (uuidToBytes (h_changed_by ir.2))
    (h_field ir.2) (h_old_value ir.2) (h_new_value ir.2) (h_changed_at ir.2).
Definition scan_team (id : uuid) (r : teams_rec) : teamRow :=
  TeamRow (uuidToBytes id) (m_name r) (uuidToBytes (m_created_by r)) (m_created_at r).
Definition scan_user (id : uuid) (r : users_rec) : userRow :=
  UserRow (uuidToBytes id) (u_email r) (u_name r) (u_password r) (u_created_at r).
Definition scan_comment (ir : Z * comments_rec) : commentRow :=
  CommentRow ir.1 (uuidToBytes (c_task_id ir.2)) (uuidToBytes (c_user_id ir.2))
    (c_body ir.2) (c_created_at ir.2).

(** ** sqlx *)

(** [GetContext]: the first row, or [sql.ErrNoRows]. *)
Definition GetContext {A} (f : db → result (list A)) : comp db A :=
  rows ← query f; lift_result (match rows with [] => Err ErrNoRows | r :: _ => Ok r end).

Definition SelectContext {A} (f : db → result (list A)) : comp db (list A) := query f.

(** [if errors.Is(err, sql.ErrNoRows) { return ErrNotFound }], else wrapped. *)
Definition no_rows (what : string) (err : error) : error :=
  if errors_Is err ErrNoRows then ErrNotFound else wrap what err.

Section storage.
Context `{!MySQLEngine}.

(** Rows without a stated order. *)
Definition scan (plan : N) {K A} `{Countable K} (m : gmap K A) : list (K * A) :=
  omap (λ k, (k,.) <$> m !! k) (order_by plan ((λ _, 0) <$> m)).

(** Rows of a log in ascending order of a sort key. *)
Definition sort_log (plan : N) {A} (key : A → Z) (l : list A) : list A :=
  omap (l !!.) (order_by plan (map_seq (M := gmap nat Z) 0 (key <$> l))).

(** ** user.go *)

Definition insert_user (id : uuid) (email name password : string) (created_at : time) (d : db)
    : result (db * unit) :=
  let t := d_tables d in
  require (varchar 255 email && varchar 255 name && varchar 255 password) ER_DATA_TOO_LONG ;;
  created ← convert (datetime3 created_at) ER_TRUNCATED_WRONG_VALUE;
  require (bool_decide (users t !! id = None)) ER_DUP_ENTRY ;;
  require (bool_decide (map_Forall (λ _ r, collate (u_email r) ≠ collate email) (users t)))
    ER_DUP_ENTRY ;;
  Ok (set_tables (set_users (<[id := UsersRec email name password created]>) t) d, tt).

Definition SaveUser (u : User) : comp db unit :=
  on_err (λ err, if isDuplicateEntry err then ErrConflict else wrap "mysql: save user" err)
    (statement (insert_user (User_ID u) (User_Email u) (User_Name u) (User_Password u)
                  (User_CreatedAt u))).

Definition select_user_by_email (email : string) (d : db) : result (list userRow) :=
  Ok ((λ kr, scan_user kr.1 kr.2) <$>
    scan (d_plan d) (filter (λ kr : uuid * users_rec, collate (u_email kr.2) = collate email)
            (users (d_tables d)))).

Definition GetByEmail (email : string) : comp db User :=
  row ← on_err (no_rows "mysql: get user by email") (GetContext (select_user_by_email email));
  lift_result (toUser row).

Definition select_user_by_id (id : uuid) (d : db) : result (list userRow) :=
  Ok (match users (d_tables d) !! id with Some r => [scan_user id r] | None => [] end).

Definition GetByID (id : uuid) : comp db User :=
  row ← on_err (no_rows "mysql: get user by id") (GetContext (select_user_by_id id));
  lift_result (toUser row).

(** ** team.go *)

Definition RoleValues : list string := ["owner"; "admin"; "member"].

Definition insert_team (id : uuid) (name : string) (created_by : uuid) (created_at : time) (d : db)
    : result (db * unit) :=
  let t := d_tables d in
  require (varchar 255 name) ER_DATA_TOO_LONG ;;
  created ← convert (datetime3 created_at) ER_TRUNCATED_WRONG_VALUE;
  require (bool_decide (teams t !! id = None)) ER_DUP_ENTRY ;;
  require (bool_decide (is_Some (users t !! created_by))) ER_NO_REFERENCED_ROW ;;
  Ok (set_tables (set_teams (<[id := TeamsRec name created_by created]>) t) d, tt).

Definition insert_member (team_id user_id : uuid) (role : string) (d : db) : result (db * unit) :=
  let t := d_tables d in
  role ← convert (enum_of RoleValues role) WARN_DATA_TRUNCATED;
  require (bool_decide (team_members t !! (team_id, user_id) = None)) ER_DUP_ENTRY ;;
  require (bool_decide (is_Some (teams t !! team_id))) ER_NO_REFERENCED_ROW ;;
  require (bool_decide (is_Some (users t !! user_id))) ER_NO_REFERENCED_ROW ;;
  Ok (set_tables (set_team_members (<[(team_id, user_id) := role]>) t) d, tt).

(** INSERT ... ON DUPLICATE KEY UPDATE role = VALUES(role) *)
Definition upsert_member (team_id user_id : uuid) (role : string) (d : db) : result (db * unit) :=
  let t := d_tables d in
  role ← convert (enum_of RoleValues role) WARN_DATA_TRUNCATED;
  require (bool_decide (is_Some (teams t !! team_id))) ER_NO_REFERENCED_ROW ;;
  require (bool_decide (is_Some (users t !! user_id))) ER_NO_REFERENCED_ROW ;;
  Ok (set_tables (set_team_members (<[(team_id, user_id) := role]>) t) d, tt).

Definition CreateTeamWithOwner (team : Team) (ownerID : uuid) : comp db unit :=
  transaction (wrap "mysql: begin tx") (wrap "mysql: commit") (
    on_err (wrap "mysql: insert team")
      (statement (insert_team (Team_ID team) (Team_Name team) (Team_CreatedBy team)
                    (Team_CreatedAt team))) ;;
    on_err (wrap "mysql: insert owner member")
      (statement (insert_member (Team_ID team) ownerID RoleOwner))).

Definition select_teams_of (userID : uuid) (d : db) : result (list teamRow) :=
  Ok ((λ kr, scan_team kr.1 kr.2) <$>
    base.filter (λ kr : uuid * teams_rec, is_Some (team_members (d_tables d) !! (kr.1, userID)))
      (scan (d_plan d) (teams (d_tables d)))).

Definition GetTeamsByUser (userID : uuid) : comp db (list Team) :=
  rows ← on_err (wrap "mysql: get teams by user") (SelectContext (select_teams_of userID));
  lift_result (result_mapM toTeam rows).

Definition select_team (id : uuid) (d : db) : result (list teamRow) :=
  Ok (match teams (d_tables d) !! id with Some r => [scan_team id r] | None => [] end).

Definition GetTeamByID (id : uuid) : comp db Team :=
  row ← on_err (no_rows "mysql: get team by id") (GetContext (select_team id));
  lift_result (toTeam row).

Definition SaveMember (teamID userID : uuid) (role : Role) : comp db unit :=
  on_err (wrap "mysql: save member") (statement (upsert_member teamID userID role)).

Definition select_role (teamID userID : uuid) (d : db) : result (list string) :=
  Ok (match team_members (d_tables d) !! (teamID, userID) with Some r => [r] | None => [] end).

Definition GetMemberRole (teamID userID : uuid) : comp db Role :=
  on_err (no_rows "mysql: get member role") (GetContext (select_role teamID userID)).

(** ** task.go *)

Definition StatusValues : list string := ["todo"; "in_progress"; "done"].
Definition PriorityValues : list string := ["low"; "medium"; "high"].

Definition text_opt (o : option string) : bool :=
  match o with Some s => text s | None => true end.

(** The arguments of a task's statements, in the shape of the table. *)
Definition task_args (t : Task) : tasks_rec :=
  TasksRec (Task_TeamID t) (Task_CreatedBy t) (Task_AssigneeID t) (Task_Title t)
    (Task_Description t) (Task_Status t) (Task_Priority t) (Task_DueDate t)
    (Task_CreatedAt t) (Task_UpdatedAt t).

(** The columns an UPDATE assigns, as the server stores them. *)
Definition convert_fields (r : tasks_rec) : result tasks_rec :=
  require (varchar 500 (k_title r) && text_opt (k_description r)) ER_DATA_TOO_LONG ;;
  status ← convert (enum_of StatusValues (k_status r)) WARN_DATA_TRUNCATED;
  priority ← convert (enum_of PriorityValues (k_priority r)) WARN_DATA_TRUNCATED;
  due ← convert_opt date_of (k_due_date r) ER_TRUNCATED_WRONG_VALUE;
  updated ← convert (datetime3 (k_updated_at r)) ER_TRUNCATED_WRONG_VALUE;
  Ok (TasksRec (k_team_id r) (k_created_by r) (k_assignee_id r) (k_title r) (k_description r)
        status priority due (k_created_at r) updated).

Definition convert_task (r : tasks_rec) : result tasks_rec :=
  r ← convert_fields r;
  created ← convert (datetime3 (k_created_at r)) ER_TRUNCATED_WRONG_VALUE;
  Ok (TasksRec (k_team_id r) (k_created_by r) (k_assignee_id r) (k_title r) (k_description r)
        (k_status r) (k_priority r) (k_due_date r) created (k_updated_at r)).

Definition references_user (t : tables) (o : option uuid) : bool :=
  match o with Some a => bool_decide (is_Some (users t !! a)) | None => true end.

Definition insert_task (id : uuid) (r : tasks_rec) (d : db) : result (db * unit) :=
  let t := d_tables d in
  r ← convert_task r;
  require (bool_decide (tasks t !! id = None)) ER_DUP_ENTRY ;;
  require (bool_decide (is_Some (teams t !! k_team_id r))) ER_NO_REFERENCED_ROW ;;
  require (bool_decide (is_Some (users t !! k_created_by r))) ER_NO_REFERENCED_ROW ;;
  require (references_user t (k_assignee_id r)) ER_NO_REFERENCED_ROW ;;
  Ok (set_tables (set_tasks (<[id := r]>) t) d, tt).

Definition SaveTask (task : Task) : comp db unit :=
  on_err (wrap "mysql: save task") (statement (insert_task (Task_ID task) (task_args task))).

Definition select_task (id : uuid) (d : db) : result (list taskRow) :=
  Ok (match tasks (d_tables d) !! id with Some r => [scan_task id r] | None => [] end).

Definition GetTaskByID (id : uuid) : comp db Task :=
  row ← on_err (no_rows "mysql: get task by id") (GetContext (select_task id));
  lift_result (toTask row).

(** One condition of the WHERE clause, with its argument. *)
Inductive cond : Type :=
  | team_id_is (b : list byte)
  | status_is (s : string)
  | assignee_id_is (b : list byte).

Definition buildTaskFilter (f : TaskFilter) : list cond :=
  match TF_TeamID f with Some t => [team_id_is (uuidToBytes t)] | None => [] end ++
  match TF_Status f with Some s => [status_is s] | None => [] end ++
  match TF_AssigneeID f with Some a => [assignee_id_is (uuidToBytes a)] | None => [] end.

(** A comparison with NULL is not true. *)
Definition holds (r : tasks_rec) (c : cond) : bool :=
  match c with
  | team_id_is b => bool_decide (uuidToBytes (k_team_id r) = b)
  | status_is s => bool_decide (collate (k_status r) = collate s)
  | assignee_id_is b =>
      match k_assignee_id r with Some a => bool_decide (uuidToBytes a = b) | None => false end
  end.

Definition where_ (conds : list cond) (t : tables) : gmap uuid tasks_rec :=
  filter (λ kr : uuid * tasks_rec, forallb (holds kr.2) conds = true) (tasks t).

Definition count_tasks (conds : list cond) (d : db) : result (list Z) :=
  Ok [Z.of_nat (size (where_ conds (d_tables d)))].

(** ORDER BY created_at DESC LIMIT ? OFFSET ? *)
Definition select_tasks (conds : list cond) (limit offset : Z) (d : db) : result (list taskRow) :=
  let sel := where_ conds (d_tables d) in
  require ((0 <=? limit) && (0 <=? offset)) ER_PARSE_ERROR ;;
  let ids := order_by (d_plan d) ((λ r, - t_ns (k_created_at r)) <$> sel) in
  Ok (omap (λ id, scan_task id <$> sel !! id)
        (take (Z.to_nat limit) (drop (Z.to_nat offset) ids))).

Definition ListTasks (filter : TaskFilter) : comp db (list Task * Z) :=
  let conds := buildTaskFilter filter in
  total ← on_err (wrap "mysql: count tasks") (GetContext (count_tasks conds));
  let offset := int64_wrap (int64_wrap (TF_Page filter - 1) * TF_Limit filter) in
  rows ← on_err (wrap "mysql: list tasks") (SelectContext (select_tasks conds (TF_Limit filter) offset));
  tasks ← lift_result (result_mapM toTask rows);
  mret (tasks, total).

Definition update_task_row (id : uuid) (r : tasks_rec) (d : db) : result (db * unit) :=
  let t := d_tables d in
  match tasks t !! id with
  | None => Ok (d, tt)
  | Some old =>
      r ← convert_fields (TasksRec (k_team_id old) (k_created_by old) (k_assignee_id r)
            (k_title r) (k_description r) (k_status r) (k_priority r) (k_due_date r)
            (k_created_at old) (k_updated_at r));
      require (references_user t (k_assignee_id r)) ER_NO_REFERENCED_ROW ;;
      Ok (set_tables (set_tasks (<[id := r]>) t) d, tt)
  end.

(** The columns of a history entry, as the server stores them. *)
Definition convert_history (h : TaskHistory) : result history_rec :=
  require (varchar 100 (TH_Field h) && text_opt (TH_OldValue h) && text_opt (TH_NewValue h))
    ER_DATA_TOO_LONG ;;
  changed ← convert (datetime3 (TH_ChangedAt h)) ER_TRUNCATED_WRONG_VALUE;
  Ok (HistoryRec (TH_TaskID h) (TH_ChangedBy h) (TH_Field h) (TH_OldValue h) (TH_NewValue h) changed).

(** The next AUTO_INCREMENT value: never one at or below a stored id. *)
Definition next_id (seq : Z) (ids : list Z) : Z := Z.max seq (1 + foldr Z.max 0 ids).

Definition insert_history (h : TaskHistory) (d : db) : result (db * unit) :=
  let t := d_tables d in
  r ← convert_history h;
  require (bool_decide (is_Some (tasks t !! h_task_id r))) ER_NO_REFERENCED_ROW ;;
  require (bool_decide (is_Some (users t !! h_changed_by r))) ER_NO_REFERENCED_ROW ;;
  let id := next_id (d_history_seq d) (task_history t).*1 in
  Ok (set_history_seq (id + 1) (set_tables (set_task_history (λ l, l ++ [(id, r)]) t) d), tt).

(** [for _, h := range entries { if _, err = tx.ExecContext(...); err != nil { return } }] *)
Fixpoint insert_entries (entries : list TaskHistory) : comp db unit :=
  match entries with
  | [] => mret tt
  | h :: entries =>
      on_err (wrap "mysql: save history") (statement (insert_history h)) ;;
      insert_entries entries
  end.

Definition UpdateTaskWithHistory (task : Task) (entries : list TaskHistory) : comp db unit :=
  transaction (wrap "mysql: begin tx") (wrap "mysql: commit") (
    on_err (wrap "mysql: update task")
      (statement (update_task_row (Task_ID task) (task_args task))) ;;
    insert_entries entries).

Definition SaveHistory (h : TaskHistory) : comp db unit :=
  on_err (wrap "mysql: save history") (statement (insert_history h)).

(** WHERE task_id = ? ORDER BY changed_at ASC *)
Definition select_history (taskID : uuid) (d : db) : result (list historyRow) :=
  Ok (scan_history <$> sort_log (d_plan d) (λ ir, t_ns (h_changed_at ir.2))
        (base.filter (λ ir, h_task_id ir.2 = taskID) (task_history (d_tables d)))).

Definition ListHistory (taskID : uuid) : comp db (list TaskHistory) :=
  rows ← on_err (wrap "mysql: list history") (SelectContext (select_history taskID));
  lift_result (result_mapM toHistory rows).

(** ** comment.go *)

(** created_at takes its default, CURRENT_TIMESTAMP(3). *)
Definition insert_comment (task_id user_id : uuid) (body : string) (d : db) : result (db * Z) :=
  let t := d_tables d in
  require (text body) ER_DATA_TOO_LONG ;;
  require (bool_decide (is_Some (tasks t !! task_id))) ER_NO_REFERENCED_ROW ;;
  require (bool_decide (is_Some (users t !! user_id))) ER_NO_REFERENCED_ROW ;;
  let id := next_id (d_comments_seq d) (task_comments t).*1 in
  let r := CommentsRec task_id user_id body (current_timestamp3 (d_now d)) in
  Ok (set_comments_seq (id + 1) (set_tables (set_task_comments (λ l, l ++ [(id, r)]) t) d), id).

(** [LastInsertId] reads the id from the statement's answer. *)
Definition SaveComment (c : Comment) : comp db Comment :=
  id ← on_err (wrap "mysql: save comment")
         (statement (insert_comment (Comment_TaskID c) (Comment_UserID c) (Comment_Body c)));
  mret (MkComment id (Comment_TaskID c) (Comment_UserID c) (Comment_Body c) (Comment_CreatedAt c)).

(** WHERE task_id = ? ORDER BY created_at ASC *)
Definition select_comments (taskID : uuid) (d : db) : result (list commentRow) :=
  Ok (scan_comment <$> sort_log (d_plan d) (λ ir, t_ns (c_created_at ir.2))
        (base.filter (λ ir, c_task_id ir.2 = taskID) (task_comments (d_tables d)))).

Definition ListComments (taskID : uuid) : comp db (list Comment) :=
  rows ← on_err (wrap "mysql: list comments") (SelectContext (select_comments taskID));
  lift_result (result_mapM toComment rows).

End storage.
