(* ===== verification/MySQLSpec.v ===== *)
(** * MySQLSpec: the storages implement the contracts

    A database is observed as a board by reading its tables the way the row
    conversions do; each method of MySQLStorage.v then refines its abstract
    operation of Ports.v, for every server behaviour and every pattern of
    driver failures. *)
From S2P Require Import Prelude Go Uuid Domain Ports MySQLEngine MySQLStorage.

(** ** Reading the tables *)

Definition user_of (id : uuid) (r : users_rec) : User :=
  MkUser id (u_email r) (u_name r) (u_password r) (u_created_at r).
Definition team_of (id : uuid) (r : teams_rec) : Team :=
  MkTeam id (m_name r) (m_created_by r) (m_created_at r).
Definition task_of (id : uuid) (r : tasks_rec) : Task :=
  MkTask id (k_team_id r) (k_created_by r) (k_assignee_id r) (k_title r) (k_description r)
    (k_status r) (k_priority r) (k_due_date r) (k_created_at r) (k_updated_at r).
Definition history_of_row (ir : Z * history_rec) : TaskHistory :=
  MkTaskHistory ir.1 (h_task_id ir.2) (h_changed_by ir.2) (h_field ir.2) (h_old_value ir.2)
    (h_new_value ir.2) (h_changed_at ir.2).
Definition comment_of_row (ir : Z * comments_rec) : Comment :=
  MkComment ir.1 (c_task_id ir.2) (c_user_id ir.2) (c_body ir.2) (c_created_at ir.2).

Lemma bytesToUUID_id id : bytesToUUID (uuidToBytes id) = Ok id.
Proof. unfold bytesToUUID, uuidToBytes. by rewrite uuid_of_id_bytes. Qed.

Lemma bytesToUUIDPtr_opt o :
  bytesToUUIDPtr (match o with Some a => uuidToBytes a | None => [] end) = Ok o.
Proof.
  destruct o as [a|]; [|done]. unfold bytesToUUIDPtr. rewrite bool_decide_false.
  - by rewrite bytesToUUID_id.
  - unfold uuidToBytes. by rewrite id_bytes_length.
Qed.

Lemma toUser_scan id r : toUser (scan_user id r) = Ok (user_of id r).
Proof. unfold toUser, scan_user. simpl. by rewrite bytesToUUID_id. Qed.

Lemma toTeam_scan id r : toTeam (scan_team id r) = Ok (team_of id r).
Proof. unfold toTeam, scan_team. simpl. by rewrite !bytesToUUID_id. Qed.

Lemma toTask_scan id r : toTask (scan_task id r) = Ok (task_of id r).
Proof.
  unfold toTask, scan_task. cbn [ID TeamID CreatedBy AssigneeID].
  rewrite !bytesToUUID_id, bytesToUUIDPtr_opt. done.
Qed.

Lemma toHistory_scan ir : toHistory (scan_history ir) = Ok (history_of_row ir).
Proof. unfold toHistory, scan_history. simpl. by rewrite !bytesToUUID_id. Qed.

Lemma toComment_scan ir : toComment (scan_comment ir) = Ok (comment_of_row ir).
Proof. unfold toComment, scan_comment. simpl. by rewrite !bytesToUUID_id. Qed.

(** Rows as values under their keys. *)
Definition keyed {A B} (f : uuid → A → B) (m : gmap uuid A) : gmap uuid B :=
  map_imap (λ id r, Some (f id r)) m.

Section keyed.
Context {A B : Type} (f : uuid → A → B).

Lemma lookup_keyed m i : keyed f m !! i = f i <$> m !! i.
Proof. unfold keyed. rewrite map_lookup_imap. by destruct (m !! i). Qed.

Lemma keyed_insert i x m : keyed f (<[i := x]> m) = <[i := f i x]> (keyed f m).
Proof. unfold keyed. by apply map_imap_insert_Some. Qed.

Lemma keyed_None m i : keyed f m !! i = None ↔ m !! i = None.
Proof. rewrite lookup_keyed. apply fmap_None. Qed.

Lemma keyed_is_Some m i : is_Some (keyed f m !! i) ↔ is_Some (m !! i).
Proof. rewrite lookup_keyed. apply fmap_is_Some. Qed.

Lemma keyed_filter (P : uuid * A → Prop) (Q : uuid * B → Prop)
    `{!∀ x, Decision (P x), !∀ x, Decision (Q x)} m :
  (∀ i x, P (i, x) ↔ Q (i, f i x)) → keyed f (filter P m) = filter Q (keyed f m).
Proof.
  intros HPQ. apply map_eq. intros i. apply option_eq. intros y.
  rewrite lookup_keyed, map_lookup_filter_Some, lookup_keyed, !fmap_Some.
  setoid_rewrite map_lookup_filter_Some. naive_solver.
Qed.

Lemma keyed_fmap {C} (g : B → C) (h : A → C) m :
  (∀ i x, g (f i x) = h x) → g <$> keyed f m = h <$> m.
Proof.
  intros Hgh. apply map_eq. intros i. rewrite !lookup_fmap, lookup_keyed.
  destruct (m !! i); simpl; by rewrite ?Hgh.
Qed.

Lemma keyed_size m : size (keyed f m) = size m.
Proof.
  rewrite <-!size_dom. f_equal. apply set_eq. intros i.
  by rewrite !elem_of_dom, keyed_is_Some.
Qed.

End keyed.

Definition board_of_tables (t : tables) : board :=
  Board (keyed user_of (users t)) (keyed team_of (teams t)) (team_members t)
    (keyed task_of (tasks t)) (history_of_row <$> task_history t)
    (comment_of_row <$> task_comments t).

(** ** The backend *)
Section backend.
Context `{!MySQLEngine}.

(** What ListTasks answers, on the board. *)
Definition task_matches (f : TaskFilter) (t : Task) : Prop :=
  (∀ tm, TF_TeamID f = Some tm → Task_TeamID t = tm) ∧
  (∀ s, TF_Status f = Some s → collate (Task_Status t) = collate s) ∧
  (∀ a, TF_AssigneeID f = Some a → Task_AssigneeID t = Some a).

Lemma task_matches_holds f id r :
  forallb (holds r) (buildTaskFilter f) = true ↔ task_matches f (task_of id r).
Proof.
  unfold task_matches, buildTaskFilter. rewrite !forallb_app, !andb_true_iff. simpl.
  assert (Hid : ∀ a b, uuidToBytes a = uuidToBytes b ↔ a = b).
  { split; [apply uuid_eq|by intros ->]. }
  destruct r as [tm cr asg ti de st pr du ca ua]; simpl.
  destruct (TF_TeamID f), (TF_Status f), (TF_AssigneeID f), asg; simpl;
    rewrite ?andb_true_r, ?bool_decide_eq_true, ?Hid;
    (split; intros; destruct_and?; split_and?; naive_solver).
Qed.

#[global] Instance task_matches_dec f t : Decision (task_matches f t).
Proof.
  refine (cast_if (decide (forallb (holds (task_args t)) (buildTaskFilter f) = true)));
    [|rename n into Hn];
    rewrite (task_matches_holds f (Task_ID t)) in *; by destruct t.
Defined.

Definition matching (f : TaskFilter) (b : board) : gmap uuid Task :=
  filter (λ kt : uuid * Task, task_matches f kt.2) (b_tasks b).

Definition page_of (plan : N) (f : TaskFilter) (b : board) : list Task * Z :=
  let sel := matching f b in
  let ids := order_by plan ((λ t, - t_ns (Task_CreatedAt t)) <$> sel) in
  (omap (λ id, sel !! id)
     (take (Z.to_nat (TF_Limit f)) (drop (Z.to_nat ((TF_Page f - 1) * TF_Limit f)) ids)),
   Z.of_nat (size sel)).

Definition db_norm_task (t : Task) : Task :=
  match convert_task (task_args t) with Ok r => task_of (Task_ID t) r | Err _ => t end.
Definition db_norm_fields (t : Task) : Task :=
  match convert_fields (task_args t) with Ok r => task_of (Task_ID t) r | Err _ => t end.
Definition db_norm_history (i : Z) (h : TaskHistory) : TaskHistory :=
  match convert_history h with Ok r => history_of_row (i, r) | Err _ => h end.

#[export] Instance db_backend : Backend db := {|
  board_of d := board_of_tables (d_tables d);
  cache_of _ := ∅;
  healthy d := d_faults d = [];
  norm_task := db_norm_task;
  row_ok t := ∃ r, convert_task (task_args t) = Ok r;
  norm_fields := db_norm_fields;
  fields_ok t := ∃ r, convert_fields (task_args t) = Ok r;
  history_ok h := ∃ r, convert_history h = Ok r;
  norm_history := db_norm_history;
  user_ok u := varchar 255 (User_Email u) && varchar 255 (User_Name u) &&
               varchar 255 (User_Password u) = true ∧ is_Some (datetime3 (User_CreatedAt u));
  team_ok t := varchar 255 (Team_Name t) = true ∧ is_Some (datetime3 (Team_CreatedAt t));
  comment_ok c := text (Comment_Body c) = true;
  list_answers b f res := ∃ plan, res = page_of plan f b;
  same_email a b := collate a = collate b
|}.

(** ** Round trips against the contracts *)

(** A failure that carries no sentinel at all. *)
Definition driver_error (e : error) : Prop :=
  from_storage e ∧ errors_Is e ErrNotFound = false ∧ errors_Is e ErrConflict = false ∧
  errors_Is e ErrNoRows = false.

Lemma driver_error_other msg : driver_error (OtherError msg).
Proof. done. Qed.

Lemma driver_error_sql n : driver_error (sql_error n).
Proof. done. Qed.

Lemma driver_error_wrap what e : driver_error e → driver_error (wrap what e).
Proof.
  intros (Hs & Hn & Hc & Hr). unfold driver_error. rewrite !wrap_Is by done. done.
Qed.

Lemma next_fault_spec d flt d' :
  next_fault d = (flt, d') →
  d_tables d' = d_tables d ∧ d_history_seq d' = d_history_seq d ∧
  d_comments_seq d' = d_comments_seq d ∧ d_now d' = d_now d ∧
  (healthy d → flt = NoFault ∧ healthy d').
Proof.
  unfold next_fault. simpl. destruct d as [t hs cs now fs p]; simpl.
  destruct fs as [|f fs]; intros [= <- <-]; simpl; by split_and!.
Qed.

(** Nothing happened to the tables. *)
Definition calm (d d' : db) : Prop := d_tables d' = d_tables d ∧ (healthy d → healthy d').

Lemma calm_quiet d d' : calm d d' → quiet d d'.
Proof. intros [Ht Hh]. split; [|done|done]. unfold board_of; simpl. by rewrite Ht. Qed.

Lemma calm_trans d1 d2 d3 : calm d1 d2 → calm d2 d3 → calm d1 d3.
Proof. unfold calm. intros [? ?] [? ?]. split; [congruence|auto]. Qed.

(** A query of the tables: their rows, or a driver failure. *)
Lemma query_run {A} (f : db → result A) g d d' r :
  (∀ d, f d = g (d_plan d) (d_tables d)) → query f d = (d', r) →
  calm d d' ∧ ∃ plan, (r = g plan (d_tables d) ∧ ∃ a, r = Ok a) ∨
    (∃ e, r = Err e ∧ ((¬ healthy d ∧ driver_error e) ∨ g plan (d_tables d) = Err e)).
Proof.
  intros Hfg. unfold query, statement.
  destruct (next_fault d) as [flt d1] eqn:E. apply next_fault_spec in E as (Ht & _ & _ & _ & Hh).
  rewrite Hfg, Ht. simpl.
  assert (calm d d1) as Hq by (split; [done|naive_solver]).
  assert (∀ msg, flt ≠ NoFault → ¬ healthy d ∧ driver_error (OtherError msg)) as Hbad.
  { intros msg Hne. split; [intros Hd; by apply Hne, Hh|apply driver_error_other]. }
  generalize (d_plan d1) as p. intros p Hr.
  destruct flt; [|simplify_eq; split; [done|]; exists 0%N; right; eauto..|];
    destruct (g _ (d_tables d)) as [a|e] eqn:Eg; simplify_eq/=; (split; [done|]; exists p).
  - left; eauto.
  - right; eauto.
  - right. eexists. split; [done|]. left. by apply Hbad.
  - right. eexists. split; [done|]. left. by apply Hbad.
Qed.

(** A method that answers from the board, or reports a driver failure. *)
Lemma reads_intro {A} (m : comp db A) (answer : board → result A) :
  (∀ d d' r, m d = (d', r) → calm d d' ∧
     (r = answer (board_of d) ∨ (¬ healthy d ∧ ∃ e, r = Err e ∧ driver_error e))) →
  (∀ b e, answer b = Err e → e = ErrNotFound) → reads m answer.
Proof.
  intros Hm He d d' r Hr. destruct (Hm _ _ _ Hr) as [Hq Hcase].
  split; [by apply calm_quiet|].
  destruct Hcase as [->|(Hd & e & -> & Hde)].
  - split; [done|]. split; [|done]. intros e Hans. apply He in Hans as Hnf.
    rewrite Hans, Hnf. by repeat split.
  - split; [done|]. split; [|done]. intros ? [= <-]. destruct Hde as (? & Hn & _).
    split; [done|]. by rewrite Hn.
Qed.

(** The same for a method with several admissible answers. *)
Lemma reads_some_intro {A} (m : comp db A) (answers : board → result A → Prop) :
  (∀ d d' r, m d = (d', r) → calm d d' ∧
     (answers (board_of d) r ∨ (¬ healthy d ∧ ∃ e, r = Err e ∧ driver_error e))) →
  (∀ b e, answers b (Err e) → e = ErrNotFound) → reads_some m answers.
Proof.
  intros Hm He d d' r Hr. destruct (Hm _ _ _ Hr) as [Hq Hcase].
  split; [by apply calm_quiet|]. destruct Hcase as [Ha|(Hd & e & -> & Hde)].
  - split; [by intros a <-|]. split; [|done]. intros e ->. by pose proof (He _ _ Ha) as ->.
  - split; [done|]. split; [|done]. intros ? [= <-]. destruct Hde as (? & Hn & _).
    split; [done|]. by rewrite Hn.
Qed.

(** [GetContext] of a row and its conversion. *)
Lemma get_run {A B} what (f : db → result (list A)) rows (to : A → result B) d d' r :
  (∀ d, f d = Ok (rows (d_plan d) (d_tables d))) →
  (row ← on_err (no_rows what) (GetContext f); lift_result (to row)) d = (d', r) →
  calm d d' ∧ ∃ plan,
  (r = match rows plan (d_tables d) with [] => Err ErrNotFound | row :: _ => to row end ∨
   (¬ healthy d ∧ ∃ e, r = Err e ∧ driver_error e)).
Proof.
  intros Hf Hr. unfold GetContext in Hr.
  assert (∀ d0 d1 x, (rs ← query f; lift_result (match rs with [] => Err ErrNoRows | r :: _ => Ok r end))
    d0 = (d1, x) → calm d0 d1 ∧ ∃ plan,
      (x = match rows plan (d_tables d0) with [] => Err ErrNoRows | row :: _ => Ok row end ∨
       (¬ healthy d0 ∧ ∃ e, x = Err e ∧ driver_error e))) as Hget.
  { clear Hr. intros d0 d1 x Hx. run Hx as d2 rs E;
      destruct (query_run f (λ p t, Ok (rows p t)) _ _ _ Hf E) as [Hq [p Hc]].
    - unfold lift_result in Hx. injection Hx as <- <-. split; [done|]. exists p. left.
      destruct Hc as [[[= <-] _]|(e & ? & _)]; done.
    - split; [done|]. exists p. right. destruct Hc as [[? _]|(e & [= <-] & [?|?])]; naive_solver. }
  run Hr as d1 row E; destruct (Hget _ _ _ E) as [Hq [p Hc]].
  - unfold lift_result in Hr. injection Hr as <- <-. split; [done|]. exists p. left.
    destruct Hc as [Hc|(_ & e & ? & _)]; [|done]. destruct (rows _ _); by simplify_eq.
  - split; [done|]. exists p. destruct Hc as [Hc|(Hd & e & [= <-] & Hde)].
    + left. destruct (rows _ _); by simplify_eq.
    + right. split; [done|]. eexists. split; [done|]. unfold no_rows.
      destruct Hde as (? & ? & ? & Hn). rewrite Hn. by apply driver_error_wrap.
Qed.

(** [SelectContext] of rows and their conversion. *)
Lemma select_run {A B} what (f : db → result (list A)) rows (to : A → result B) d d' r :
  (∀ d, f d = Ok (rows (d_plan d) (d_tables d))) →
  (rs ← on_err (wrap what) (SelectContext f); lift_result (result_mapM to rs)) d = (d', r) →
  calm d d' ∧ ∃ plan, (r = result_mapM to (rows plan (d_tables d)) ∨
                (¬ healthy d ∧ ∃ e, r = Err e ∧ driver_error e)).
Proof.
  intros Hf Hr. unfold SelectContext in Hr. run Hr as d1 rs E;
    destruct (query_run f (λ p t, Ok (rows p t)) _ _ _ Hf E) as [Hq [p Hc]].
  - unfold lift_result in Hr. injection Hr as <- <-. split; [done|]. exists p. left.
    by destruct Hc as [[[= <-] _]|(e & ? & _)].
  - split; [done|]. exists p. right. destruct Hc as [[? _]|(e & [= <-] & [[Hd Hde]|?])]; [naive_solver| |done].
    split; [done|]. eexists. split; [done|]. by apply driver_error_wrap.
Qed.

(** ** The reads *)

Lemma bind_lift_Ok {W A} (m : comp W A) w : (a ← m; lift_result (Ok a)) w = m w.
Proof. unfold mbind, comp_bind, lift_result. by destruct (m w) as [w' [a|e]]. Qed.

Definition MemberChecker_of : MemberChecker db := MkMemberChecker db GetMemberRole.
Definition TaskGetter_of : TaskGetter db := MkTaskGetter db GetTaskByID ListTasks.
Definition HistoryStore_of : HistoryStore db := MkHistoryStore db ListHistory.
Definition TeamGetter_of : TeamGetter db := MkTeamGetter db GetTeamsByUser GetTeamByID GetMemberRole.
Definition UserByID_of : UserByID db := MkUserByID db GetByID.
Definition UserByEmail_of : UserByEmail db := MkUserByEmail db GetByEmail.
Definition CommentLister_of : CommentLister db := MkCommentLister db ListComments.

Lemma or_not_found_Err {A} (o : option A) e : or_not_found o = Err e → e = ErrNotFound.
Proof. destruct o; by intros [= <-]. Qed.

Lemma GetMemberRole_db tm u : reads (GetMemberRole tm u) (member_role tm u).
Proof.
  apply reads_intro; [|intros b e; apply or_not_found_Err].
  intros d d' r Hr. unfold GetMemberRole in Hr. rewrite <-bind_lift_Ok in Hr.
  eapply (get_run _ _ (λ _ t, match team_members t !! (tm, u) with Some r => [r] | None => [] end) Ok)
    in Hr as [Hq [_ Hc]]; [|done]. split; [done|]. destruct Hc as [->|Hc]; [left|by right].
  unfold member_role, or_not_found. simpl. by destruct (team_members _ !! _).
Qed.

#[export] Instance MemberChecker_db : MemberCheckerSpec MemberChecker_of.
Proof. intros tm u. apply GetMemberRole_db. Qed.

Lemma GetTaskByID_db id : reads (GetTaskByID id) (λ b, or_not_found (b_tasks b !! id)).
Proof.
  apply reads_intro; [|intros b e; apply or_not_found_Err].
  intros d d' r Hr. unfold GetTaskByID in Hr.
  eapply (get_run _ _ (λ _ t, match tasks t !! id with Some r => [scan_task id r] | None => [] end) toTask)
    in Hr as [Hq [_ Hc]]; [|done]. split; [done|]. destruct Hc as [->|Hc]; [left|by right].
  simpl. rewrite lookup_keyed. destruct (tasks _ !! _); simpl; [apply toTask_scan|done].
Qed.

Lemma GetTeamByID_db id : reads (GetTeamByID id) (λ b, or_not_found (b_teams b !! id)).
Proof.
  apply reads_intro; [|intros b e; apply or_not_found_Err].
  intros d d' r Hr. unfold GetTeamByID in Hr.
  eapply (get_run _ _ (λ _ t, match teams t !! id with Some r => [scan_team id r] | None => [] end) toTeam)
    in Hr as [Hq [_ Hc]]; [|done]. split; [done|]. destruct Hc as [->|Hc]; [left|by right].
  simpl. rewrite lookup_keyed. destruct (teams _ !! _); simpl; [apply toTeam_scan|done].
Qed.

#[export] Instance UserByID_db : UserByIDSpec UserByID_of.
Proof.
  intros id. apply reads_intro; [|intros b e; apply or_not_found_Err].
  intros d d' r Hr. simpl in Hr. unfold GetByID in Hr.
  eapply (get_run _ _ (λ _ t, match users t !! id with Some r => [scan_user id r] | None => [] end) toUser)
    in Hr as [Hq [_ Hc]]; [|done]. split; [done|]. destruct Hc as [->|Hc]; [left|by right].
  simpl. rewrite lookup_keyed. destruct (users _ !! _); simpl; [apply toUser_scan|done].
Qed.

(** *** Scans and sorts *)

Lemma scan_keyed p {A B} (f : uuid → A → B) m :
  scan p (keyed f m) = (λ kr, (kr.1, f kr.1 kr.2)) <$> scan p m.
Proof.
  unfold scan. rewrite (keyed_fmap f _ (λ _, 0)) by done.
  induction (order_by _ _) as [|k l IH]; [done|]. simpl. rewrite lookup_keyed.
  destruct (m !! k); simpl; [f_equal|]; apply IH.
Qed.

Lemma omap_lookup_perm {K A B} `{Countable K} (m : gmap K A) (f : K → A → B) :
  omap (λ k, f k <$> m !! k) (map_to_list m).*1 = (λ kx, f kx.1 kx.2) <$> map_to_list m.
Proof.
  assert (Hl : ∀ l : list (K * A), (∀ kx, kx ∈ l → m !! kx.1 = Some kx.2) →
    omap (λ k, f k <$> m !! k) l.*1 = (λ kx, f kx.1 kx.2) <$> l).
  { induction l as [|[k x] l IH]; intros Hin; [done|]. simpl.
    assert (m !! k = Some x) as Hk by (apply (Hin (k, x)); left). rewrite Hk. simpl. f_equal. apply IH. intros kx Hkx. apply Hin. by right. }
  apply Hl. intros [k x] Hin. by apply elem_of_map_to_list.
Qed.

Lemma map_to_list_fst_fmap {K A C} `{Countable K} (m : gmap K A) (g : A → C) :
  (map_to_list (g <$> m)).*1 ≡ₚ (map_to_list m).*1.
Proof.
  rewrite map_to_list_fmap, <-list_fmap_compose. apply reflexive_eq.
  apply list_fmap_ext. by intros ? [].
Qed.

Lemma scan_perm `{!MySQLEngineSpec} p {A} (m : gmap uuid A) : scan p m ≡ₚ map_to_list m.
Proof.
  unfold scan. rewrite order_by_perm, map_to_list_fst_fmap, omap_lookup_perm.
  apply reflexive_eq. rewrite <-(list_fmap_id (map_to_list m)) at 2.
  apply list_fmap_ext. by intros ? [].
Qed.

Lemma sort_log_fmap p {A B} (f : A → B) key l :
  sort_log p key (f <$> l) = f <$> sort_log p (λ a, key (f a)) l.
Proof.
  unfold sort_log. rewrite <-list_fmap_compose. unfold compose.
  induction (order_by _ _) as [|i ids IH]; [done|]. simpl. rewrite list_lookup_fmap.
  destruct (l !! i); simpl; [f_equal|]; apply IH.
Qed.

Section sorted.
Context `{!MySQLEngineSpec}.

Lemma sort_log_perm p {A} (key : A → Z) l : sort_log p key l ≡ₚ l.
Proof.
  unfold sort_log. rewrite order_by_perm.
  assert ((map_to_list (map_seq (M := gmap nat Z) 0 (key <$> l))).*1 ≡ₚ seq 0 (length l)) as ->.
  { rewrite map_to_list_seq, fst_zip by (rewrite length_seq; lia). by rewrite length_fmap. }
  pose proof (omap_lookup_seq [] l) as Hl. simpl in Hl. by rewrite Hl.
Qed.

Lemma sort_log_sorted p {A} (key : A → Z) l :
  StronglySorted (λ a b, key a ≤ key b) (sort_log p key l).
Proof.
  unfold sort_log. eapply StronglySorted_omap, order_by_sorted.
  intros i j a b Hij Ha Hb. apply Hij; rewrite lookup_map_seq_0, list_lookup_fmap;
    by rewrite ?Ha, ?Hb.
Qed.

(** Reading a log through [f]: the filtered entries, sorted. *)
Lemma sort_log_read p {A B} (f : A → B) (key : A → Z) (key' : B → Z) (P : B → Prop)
    (Q : A → Prop) `{!∀ x, Decision (P x), !∀ x, Decision (Q x)} l :
  (∀ a, key' (f a) = key a) → (∀ a, P (f a) ↔ Q a) →
  f <$> sort_log p key (base.filter Q l) = sort_log p key' (base.filter P (f <$> l)).
Proof.
  intros Hk HPQ. assert (base.filter P (f <$> l) = f <$> base.filter Q l) as ->.
  { induction l as [|a l IH]; [done|]. cbn [fmap list_fmap]. rewrite !filter_cons.
    destruct (decide (P (f a))), (decide (Q a)); simpl; rewrite ?IH; naive_solver. }
  rewrite sort_log_fmap. f_equal. unfold sort_log. do 3 f_equal.
  apply list_fmap_ext. intros i a _. by rewrite Hk.
Qed.

#[export] Instance HistoryStore_db : HistoryStoreSpec HistoryStore_of.
Proof.
  intros id. apply reads_some_intro; [|by intros b e (? & ? & _)].
  intros d d' r Hr. simpl in Hr. unfold ListHistory in Hr.
  eapply (select_run _ _ (λ p t, scan_history <$> sort_log p (λ ir, t_ns (h_changed_at ir.2))
    (base.filter (λ ir, h_task_id ir.2 = id) (task_history t))) toHistory) in Hr as [Hq [p Hc]]; [|done].
  split; [done|]. destruct Hc as [->|Hc]; [left|by right].
  rewrite (result_mapM_Ok _ _ _ _ toHistory_scan). eexists. split; [done|].
  rewrite (sort_log_read p history_of_row (λ ir, t_ns (h_changed_at ir.2)) (λ h, t_ns (TH_ChangedAt h))
    (λ h, TH_TaskID h = id) (λ ir, h_task_id ir.2 = id)) by done.
  split; [apply sort_log_perm|apply (sort_log_sorted p (λ h, t_ns (TH_ChangedAt h)))].
Qed.

#[export] Instance CommentLister_db : CommentListerSpec CommentLister_of.
Proof.
  intros id. apply reads_some_intro; [|by intros b e (? & ? & _)].
  intros d d' r Hr. simpl in Hr. unfold ListComments in Hr.
  eapply (select_run _ _ (λ p t, scan_comment <$> sort_log p (λ ir, t_ns (c_created_at ir.2))
    (base.filter (λ ir, c_task_id ir.2 = id) (task_comments t))) toComment) in Hr as [Hq [p Hc]]; [|done].
  split; [done|]. destruct Hc as [->|Hc]; [left|by right].
  rewrite (result_mapM_Ok _ _ _ _ toComment_scan). eexists. split; [done|].
  rewrite (sort_log_read p comment_of_row (λ ir, t_ns (c_created_at ir.2)) (λ c, t_ns (Comment_CreatedAt c))
    (λ c, Comment_TaskID c = id) (λ ir, c_task_id ir.2 = id)) by done.
  split; [apply sort_log_perm|apply (sort_log_sorted p (λ c, t_ns (Comment_CreatedAt c)))].
Qed.

#[export] Instance TeamGetter_db : TeamGetterSpec TeamGetter_of.
Proof.
  split; [apply GetTeamByID_db|apply GetMemberRole_db|]. intros u.
  apply reads_some_intro; [|by intros b e (? & ? & _)].
  intros d d' r Hr. simpl in Hr. unfold GetTeamsByUser in Hr.
  eapply (select_run _ _ (λ p t, (λ kr, scan_team kr.1 kr.2) <$>
    base.filter (λ kr : uuid * teams_rec, is_Some (team_members t !! (kr.1, u))) (scan p (teams t)))
    toTeam) in Hr as [Hq [p Hc]]; [|done].
  split; [done|]. destruct Hc as [->|Hc]; [left|by right].
  rewrite (result_mapM_Ok _ _ (λ kr : uuid * teams_rec, team_of kr.1 kr.2)) by (intros; apply toTeam_scan).
  eexists. split; [done|]. unfold teams_of. rewrite <-(scan_perm p (b_teams (board_of d))).
  change (b_teams (board_of d)) with (keyed team_of (teams (d_tables d))). rewrite scan_keyed.
  cbn [b_members board_of db_backend board_of_tables]. apply reflexive_eq.
  induction (scan p (teams (d_tables d))) as [|kr l IH]; [done|]. cbn [fmap list_fmap].
  rewrite filter_cons. cbn [omap list_omap fst].
  destruct (decide (is_Some (team_members (d_tables d) !! (kr.1, u)))); simpl; [f_equal|]; apply IH.
Qed.

#[export] Instance UserByEmail_db : UserByEmailSpec UserByEmail_of.
Proof.
  intros email. apply reads_some_intro; [|by intros b e [? _]].
  intros d d' r Hr. simpl in Hr. unfold GetByEmail in Hr.
  eapply (get_run _ _ (λ p t, (λ kr, scan_user kr.1 kr.2) <$>
    scan p (filter (λ kr : uuid * users_rec, collate (u_email kr.2) = collate email) (users t)))
    toUser) in Hr as [Hq [p Hc]]; [|done]. split; [done|]. destruct Hc as [->|Hc]; [left|by right].
  set (sel := filter _ _). pose proof (scan_perm p sel) as Hperm.
  change (b_users (board_of d)) with (keyed user_of (users (d_tables d))).
  destruct (scan p sel) as [|[i v] l] eqn:Es; cbn [fmap list_fmap fst snd].
  - split; [done|]. intros i u Hi Heq. change (keyed user_of (users (d_tables d)) !! i = Some u) in Hi.
    rewrite lookup_keyed in Hi. apply fmap_Some in Hi as (v & Hv & ->).
    symmetry in Hperm. apply Permutation_nil_r, map_to_list_empty_iff in Hperm.
    by apply (map_filter_empty_not_lookup _ _ _ _ Hperm Heq Hv).
  - assert ((i, v) ∈ map_to_list sel) as Hin by (rewrite <-Hperm; left).
    apply elem_of_map_to_list, map_lookup_filter_Some in Hin as [Hi Hem].
    rewrite toUser_scan. split; [|exact Hem].
    change (keyed user_of (users (d_tables d)) !! i = Some (user_of i v)). by rewrite lookup_keyed, Hi.
Qed.

(** *** The list query *)

Lemma where_matching f d :
  matching f (board_of d) = keyed task_of (where_ (buildTaskFilter f) (d_tables d)).
Proof.
  unfold matching, where_. symmetry. apply keyed_filter. intros i x. simpl.
  apply task_matches_holds.
Qed.

Lemma page_rows p f d :
  (page_of p f (board_of d)).1 =
  omap (λ id, task_of id <$> where_ (buildTaskFilter f) (d_tables d) !! id)
    (take (Z.to_nat (TF_Limit f)) (drop (Z.to_nat ((TF_Page f - 1) * TF_Limit f))
      (order_by p ((λ r, - t_ns (k_created_at r)) <$> where_ (buildTaskFilter f) (d_tables d))))).
Proof.
  unfold page_of. rewrite where_matching. cbn [fst].
  rewrite (keyed_fmap task_of _ (λ r, - t_ns (k_created_at r))) by done.
  apply list_omap_ext, Forall_Forall2_diag, Forall_true. intros id. apply lookup_keyed.
Qed.

(** The offset the code computes, and the rows from there on. *)
Definition row_offset (f : TaskFilter) : Z := int64_wrap (int64_wrap (TF_Page f - 1) * TF_Limit f).

Lemma row_offset_ok f : page_ok f → row_offset f = (TF_Page f - 1) * TF_Limit f ∧ 0 ≤ row_offset f.
Proof.
  unfold page_ok, row_offset, int64_range. intros (Hp & Hl & Hr).
  rewrite (int64_wrap_id (TF_Page f - 1)) by (unfold int64_range; nia).
  rewrite int64_wrap_id by done. nia.
Qed.

Lemma omap_lookup_pair {A B} (g : uuid → A → B) (m : gmap uuid A) (ids : list uuid) :
  omap (λ id, g id <$> m !! id) ids = (λ kr, g kr.1 kr.2) <$> omap (λ id, (id,.) <$> m !! id) ids.
Proof.
  induction ids as [|id ids IH]; [done|]. simpl. destruct (m !! id); simpl; [f_equal|]; apply IH.
Qed.

Definition page_from (p : N) (f : TaskFilter) (offset : Z) (t : tables) : list Task :=
  omap (λ id, task_of id <$> where_ (buildTaskFilter f) t !! id)
    (take (Z.to_nat (TF_Limit f)) (drop (Z.to_nat offset)
      (order_by p ((λ r, - t_ns (k_created_at r)) <$> where_ (buildTaskFilter f) t)))).

(** A page of the board is made of the rows and the count of the tables. *)
Lemma page_of_count p f d :
  page_of p f (board_of d) =
    ((page_of p f (board_of d)).1, Z.of_nat (size (where_ (buildTaskFilter f) (d_tables d)))).
Proof. unfold page_of at 1. by rewrite where_matching, keyed_size, <-where_matching. Qed.

Lemma page_of_rows p f d :
  page_ok f →
  page_of p f (board_of d) =
    (page_from p f (row_offset f) (d_tables d), Z.of_nat (size (where_ (buildTaskFilter f) (d_tables d)))).
Proof.
  intros Hp. rewrite page_of_count, page_rows. unfold page_from. by rewrite (proj1 (row_offset_ok f Hp)).
Qed.

(** The rows from an offset on are rows of the team. *)
Lemma page_from_row p f offset d t :
  t ∈ page_from p f offset (d_tables d) → row_of f t (board_of d).
Proof.
  intros (id & _ & Ht)%list_elem_of_omap. apply fmap_Some in Ht as (r & Hr & ->).
  apply map_lookup_filter_Some in Hr as [Hr Hc]. cbn in Hc. apply (task_matches_holds _ id) in Hc.
  split; [|apply Hc]. exists id. change (keyed task_of (tasks (d_tables d)) !! id = Some (task_of id r)).
  by rewrite lookup_keyed, Hr.
Qed.

Lemma count_tasks_run what conds d d' r :
  on_err (wrap what) (GetContext (count_tasks conds)) d = (d', r) →
  calm d d' ∧ (r = Ok (Z.of_nat (size (where_ conds (d_tables d)))) ∨
                (¬ healthy d ∧ ∃ e, r = Err e ∧ driver_error e)).
Proof.
  intros Hr. run_last Hr as x E; unfold GetContext in E; run E as d1 rs E1;
    destruct (query_run (count_tasks conds) (λ _ t, Ok [Z.of_nat (size (where_ conds t))]) _ _ _
      (λ _, eq_refl) E1) as [Hq [_ Hc]].
  - unfold lift_result in E. destruct Hc as [[[= ->] _]|(e & ? & _)]; [|done].
    injection E as <- <-. eauto.
  - unfold lift_result in E. by destruct Hc as [[[= ->] _]|(e & ? & _)]; simplify_eq/=.
  - split; [done|]. destruct Hc as [[? _]|(e & [= <-] & [[Hd Hde]|?])]; [naive_solver| |done].
    right. split; [done|]. eexists. split; [done|]. by apply driver_error_wrap.
Qed.

(** The rows of a page, or an error: of the driver, or of the server on a
    negative limit or offset. *)
Lemma select_tasks_run f offset d d' r :
  on_err (wrap "mysql: list tasks")
    (SelectContext (select_tasks (buildTaskFilter f) (TF_Limit f) offset)) d = (d', r) →
  calm d d' ∧
  (if (0 <=? TF_Limit f) && (0 <=? offset) then
     (∃ p rows, r = Ok rows ∧ result_mapM toTask rows = Ok (page_from p f offset (d_tables d)))
   else r = Err (wrap "mysql: list tasks" (sql_error ER_PARSE_ERROR))) ∨
  (calm d d' ∧ ¬ healthy d ∧ ∃ e, r = Err e ∧ driver_error e).
Proof.
  set (g := λ p t, require ((0 <=? TF_Limit f) && (0 <=? offset)) ER_PARSE_ERROR ;;
    Ok (omap (λ id, scan_task id <$> where_ (buildTaskFilter f) t !! id)
        (take (Z.to_nat (TF_Limit f)) (drop (Z.to_nat offset)
          (order_by p ((λ r, - t_ns (k_created_at r)) <$> where_ (buildTaskFilter f) t)))))).
  intros Hr. unfold SelectContext in Hr.
  run_last Hr as x E; destruct (query_run _ g _ _ _ (λ _, eq_refl) E) as [Hq [p Hc]]; unfold g in Hc; clear E.
  - left. destruct Hc as [[Hc _]|(e & ? & _)]; [|done]. unfold require in Hc. split; [done|].
    destruct (_ && _); cbn in Hc; [|done]. injection Hc as ->. exists p. eexists. split; [done|].
    unfold page_from. rewrite (omap_lookup_pair task_of), (omap_lookup_pair scan_task).
    apply result_mapM_Ok. intros kr. apply toTask_scan.
  - destruct Hc as [[? (y & ?)]|(e & [= <-] & [[Hd Hde]|Hc])]; [done|right|left; split; [done|]].
    + split; [done|]. split; [done|]. eexists. split; [done|]. by apply driver_error_wrap.
    + unfold require in Hc. by destruct (_ && _); simplify_eq/=.
Qed.

(** A listing is the page at the computed offset and the count of all the
    matches, or an error: of the driver, or of the server on a negative
    offset. *)
Lemma ListTasks_run f d d' r :
  ListTasks f d = (d', r) →
  calm d d' ∧
  ((∃ p, r = (if (0 <=? TF_Limit f) && (0 <=? row_offset f) then
          Ok (page_from p f (row_offset f) (d_tables d),
              Z.of_nat (size (where_ (buildTaskFilter f) (d_tables d))))
        else Err (wrap "mysql: list tasks" (sql_error ER_PARSE_ERROR)))) ∨
   (¬ healthy d ∧ ∃ e, r = Err e ∧ driver_error e)).
Proof.
  intros Hr. unfold ListTasks in Hr. fold (row_offset f) in Hr.
  apply bind_inv in Hr as [(d1 & total & E & Hr)|(e & E & ->)];
    apply count_tasks_run in E as [Hq Hc]; cycle 1.
  { split; [done|]. right. naive_solver. }
  destruct Hc as [[= ->]|(_ & e & ? & _)]; [|done]. rewrite <-(proj1 Hq).
  assert (¬ healthy d1 → ¬ healthy d) as Hnh by (intros Hn ?; by apply Hn, Hq).
  apply bind_inv in Hr as [(d2 & rows & E & Hr)|(e & E & ->)];
    (apply select_tasks_run in E as [[Hq1 Hc]|(Hq1 & Hd & e' & He & Hde)];
     (apply (calm_trans _ _ _ Hq) in Hq1 as Hq2)); simplify_eq.
  - destruct (_ && _); [|done]. destruct Hc as (p & rows' & [= <-] & Hto). rewrite Hto in Hr.
    unfold lift_result in Hr. run Hr as d3 ts E2; simplify_eq. run_ret Hr.
    split; [done|]. left. exists p. by rewrite (proj1 Hq).
  - split; [done|]. left. exists 0%N. destruct (_ && _); [by destruct Hc as (? & ? & ? & _)|by simplify_eq].
  - split; [done|]. right. eauto.
Qed.

#[export] Instance TaskGetter_db : TaskGetterSpec TaskGetter_of.
Proof.
  split; [apply GetTaskByID_db| | |].
  - intros f Hp. apply reads_some_intro; [|by intros b e (? & ? & _)]. intros d d' r Hr. simpl in Hr.
    apply ListTasks_run in Hr as [Hq Hc]. split; [done|].
    destruct Hc as [[p ->]|Hc]; [left|by right]. destruct (row_offset_ok f Hp) as [_ Hnn].
    pose proof Hp as (_ & Hl & _).
    rewrite (proj2 (Z.leb_le _ _)), (proj2 (Z.leb_le 0 (row_offset f))) by lia. simpl.
    eexists. split; [done|]. exists p. symmetry. by apply (page_of_rows p f d).
  - intros f d d' r Hr. simpl in Hr. apply ListTasks_run in Hr as [Hq Hc].
    split; [by apply calm_quiet|]. intros e ->. destruct Hc as [[p Hc]|(_ & ? & [= <-] & Hd & _)]; [|done].
    destruct (_ && _); by simplify_eq.
  - intros f d d' res t Hr Hin. simpl in Hr. apply ListTasks_run in Hr as [_ [[p Hc]|(_ & ? & ? & _)]]; [|done].
    destruct (_ && _); simplify_eq/=. by eapply page_from_row.
Qed.

End sorted.

(** ** The writes *)

(** A statement took effect, and its answer may be lost, or it did nothing. *)
Lemma statement_run {A} (f : db → result (db * A)) d d' r :
  statement f d = (d', r) →
  ∃ d1, d_tables d1 = d_tables d ∧ (healthy d → healthy d1) ∧
    ((∃ a, f d1 = Ok (d', a) ∧ (r = Ok a ∨ (¬ healthy d ∧ ∃ msg, r = Err (OtherError msg)))) ∨
     (∃ e, r = Err e ∧ d' = d1 ∧ (f d1 = Err e ∨ (¬ healthy d ∧ ∃ msg, e = OtherError msg)))).
Proof.
  unfold statement. destruct (next_fault d) as [flt d1] eqn:E.
  apply next_fault_spec in E as (Ht & _ & _ & _ & Hh). intros Hr. exists d1.
  split; [done|]. split; [naive_solver|].
  assert (match flt with NoFault => True | _ => ¬ healthy d end) as Hbad.
  { destruct flt; [done|..]; intros Hd; by apply Hh in Hd as [? _]. }
  destruct flt as [|msg|msg]; [|simplify_eq; right; by eauto 10|];
    destruct (f d1) as [[d2 a]|e] eqn:Ef; simplify_eq; eauto 10.
Qed.

(** A statement performs [step] or refuses, and refuses only what [step]
    excludes. *)
Definition settles {A} (step : A → board → Prop) (d : db) (r : result (db * A)) : Prop :=
  match r with
  | Ok (d', a) => step a (board_of d') ∧ d_faults d' = d_faults d
  | Err e => (∃ n, e = sql_error n) ∧ ∀ a b', ¬ step a b'
  end.

Definition performs {A} (f : db → result (db * A)) (step : board → A → board → Prop) : Prop :=
  ∀ d, settles (step (board_of d)) d (f d).

(** The guards of a statement, one by one. *)
Lemma settles_require {A} (step : A → board → Prop) d b n k :
  (b = true → settles step d k) → (b = false → ∀ a b', ¬ step a b') →
  settles step d (require b n ;; k).
Proof. destruct b; simpl; [by auto|]. intros _ Hno. split; [by eexists|auto]. Qed.

Lemma settles_convert {A B} (step : A → board → Prop) d (o : option B) n k :
  (∀ x, o = Some x → settles step d (k x)) → (o = None → ∀ a b', ¬ step a b') →
  settles step d (convert o n ≫= k).
Proof. destruct o; simpl; [by auto|]. intros _ Hno. split; [by eexists|auto]. Qed.

Definition keeps_storage (h : error → error) : Prop := ∀ e, from_write e → from_write (h e).

Lemma statement_writes {A} h (f : db → result (db * A)) step :
  performs f step → keeps_storage h → writes (on_err h (statement f)) step.
Proof.
  intros Hf Hh d d' r Hr. split; [done|].
  assert (Hb : ∀ d1, d_tables d1 = d_tables d → board_of d1 = board_of d).
  { intros d1 Ht. unfold board_of; simpl. by rewrite Ht. }
  apply on_err_inv in Hr as [(a & Hr & ->)|(e & Hr & ->)];
    apply statement_run in Hr as (d1 & Ht & Hd1 & Hc); apply Hb in Ht;
    pose proof (Hf d1) as Hp; rewrite Ht in Hp.
  - destruct Hc as [(a' & Hfd & [[= <-]|[_ (? & ?)]])|(e & ? & _)]; [|done|done].
    rewrite Hfd in Hp. destruct Hp as [Hst Hfl]. split; [by intros ? [= <-]|]. split; [done|].
    intros Hw. split; [|split; [by eauto|done]]. unfold healthy; simpl. rewrite Hfl. by apply Hd1.
  - split; [done|]. destruct Hc as [(a' & Hfd & [?|[Hw (msg & [= ->])]])|(e' & [= <-] & -> & Hc)].
    + done.
    + rewrite Hfd in Hp. destruct Hp as [Hst Hfl]. split; [|done]. intros ? [= <-].
      split; [by apply Hh|]. eauto.
    + destruct Hc as [Hfd|[Hw (msg & ->)]].
      * rewrite Hfd in Hp. destruct Hp as [[n ->] Hno]. split.
        { intros ? [= <-]. split; [by apply Hh|by left]. }
        intros Hw. split; [auto|]. split; [|done]. intros (a & b' & Hst). by apply Hno in Hst.
      * split; [|done]. intros ? [= <-]. split; [by apply Hh|by left].
Qed.

(** [sql_guard H] passes the next guard of a statement; the second goal is to
    show that its failure [H] excludes the step. *)
Ltac sql_guard H :=
  first [apply settles_require; intros H | apply settles_convert; [intros ? H | intros H]];
  autorewrite with board in H; [|intros ? ? Hstep].

Lemma board_users d i : b_users (board_of d) !! i = user_of i <$> users (d_tables d) !! i.
Proof. apply lookup_keyed. Qed.
Lemma board_teams d i : b_teams (board_of d) !! i = team_of i <$> teams (d_tables d) !! i.
Proof. apply lookup_keyed. Qed.
Lemma board_tasks d i : b_tasks (board_of d) !! i = task_of i <$> tasks (d_tables d) !! i.
Proof. apply lookup_keyed. Qed.
Lemma board_members d k : b_members (board_of d) !! k = team_members (d_tables d) !! k.
Proof. done. Qed.

Create Rewrite HintDb board.
#[local] Hint Rewrite board_users board_teams board_tasks board_members @fmap_is_Some @fmap_None
  @bool_decide_eq_true @bool_decide_eq_false : board.

Section refinements.
Context `{!MySQLEngineSpec}.

Lemma upsert_member_performs tm u role :
  role ∈ RoleValues → performs (upsert_member tm u role) (save_member tm u role).
Proof.
  intros Hrole d. unfold upsert_member, save_member. cbv zeta.
  rewrite (enum_of_member _ _ Hrole), board_users, board_teams. cbn [convert mbind result_bind].
  sql_guard Ht; [|by destruct Hstep as [?%fmap_is_Some _]].
  sql_guard Hu; [|by destruct Hstep as (_ & ?%fmap_is_Some & _)].
  simpl. by rewrite !fmap_is_Some.
Qed.

Lemma insert_user_performs u :
  performs (insert_user (User_ID u) (User_Email u) (User_Name u) (User_Password u)
    (User_CreatedAt u)) (save_user u).
Proof.
  intros d. unfold insert_user, save_user. cbv zeta. rewrite board_users.
  cbn [user_ok db_backend].
  sql_guard Hv; [|by destruct Hstep as [[Hs _] _]; rewrite Hv in Hs].
  sql_guard Hc; [|by destruct Hstep as [[_ [? Hs]] _]; rewrite Hc in Hs].
  sql_guard Hi; [|by destruct Hstep as (_ & ?%fmap_None & _)].
  sql_guard He; cycle 1.
  { destruct Hstep as (_ & _ & Hno & _). apply He. intros i r Hr Heq.
    apply (Hno i (user_of i r)); [|done]. by rewrite board_users, Hr. }
  simpl. split; [|done]. split; [by rewrite Hc; eauto|]. split; [by apply fmap_None|]. split.
  - intros i v Hv' Hs. rewrite lookup_keyed in Hv'. apply fmap_Some in Hv' as (r & Hr & ->).
    by apply (He _ _ Hr).
  - exists (user_of (User_ID u) (UsersRec (User_Email u) (User_Name u) (User_Password u) x)). do 4 (split; [reflexivity|]).
    unfold with_users, board_of_tables. simpl. by rewrite keyed_insert.
Qed.

(** The comment is appended with the generated id. *)
Definition append_comment (c : Comment) (b : board) (id : Z) (b' : board) : Prop :=
  comment_ok c ∧ is_Some (b_tasks b !! Comment_TaskID c) ∧ is_Some (b_users b !! Comment_UserID c) ∧
  ∃ now, b' = with_comments (λ l, l ++
    [MkComment id (Comment_TaskID c) (Comment_UserID c) (Comment_Body c) now]) b.

Lemma insert_comment_performs c :
  performs (insert_comment (Comment_TaskID c) (Comment_UserID c) (Comment_Body c)) (append_comment c).
Proof.
  intros d. unfold insert_comment, append_comment. cbv zeta. rewrite board_users, board_tasks.
  cbn [comment_ok db_backend].
  sql_guard Hv; [|by destruct Hstep as [Hs _]; rewrite Hv in Hs].
  sql_guard Ht; [|by destruct Hstep as (_ & ?%fmap_is_Some & _)].
  sql_guard Hu; [|by destruct Hstep as (_ & _ & ?%fmap_is_Some & _)].
  simpl. rewrite !fmap_is_Some. split; [|done]. do 3 (split; [done|]). exists (current_timestamp3 (d_now d)).
  unfold with_comments, board_of_tables. simpl. by rewrite fmap_app.
Qed.

Lemma writes_map {A B} (m : comp db A) (g : A → B) step (step' : board → B → board → Prop) :
  (∀ b a b', step b a b' → step' b (g a) b') →
  (∀ b c b', step' b c b' → ∃ a b', step b a b') →
  writes m step → writes (a ← m; mret (g a)) step'.
Proof.
  intros Hto Hfrom Hm d d' r Hr.
  apply bind_inv in Hr as [(d1 & a & E & Hr)|(e & E & ->)];
    destruct (Hm _ _ _ E) as (Hc & Hok & Herr & Hh).
  - run_ret Hr. split; [done|]. split; [|split; [done|]].
    + intros ? [= <-]. by apply Hto, Hok.
    + intros Hw. destruct (Hh Hw) as (Hw' & _ & _). split; [done|]. split; [by eauto|done].
  - split; [done|]. split; [done|]. split.
    + intros ? [= <-]. destruct (Herr _ eq_refl) as [Hst Hb]. split; [done|].
      destruct Hb as [Hb|[a Hb]]; [by left|right]. eauto.
    + intros Hw. destruct (Hh Hw) as (Hw' & Hpos & Hke). split; [done|]. split.
      * intros (c & b' & Hs). apply Hfrom in Hs. by destruct (Hpos Hs).
      * intros ? [= <-]. by eapply Hke.
Qed.

Lemma keeps_wrap what : keeps_storage (wrap what).
Proof. by intros e. Qed.

Definition CommentSaver_of : CommentSaver db := MkCommentSaver db SaveComment.
Definition UserSaver_of : UserSaver db := MkUserSaver db SaveUser.
Definition TeamSaver_of : TeamSaver db := MkTeamSaver db CreateTeamWithOwner SaveMember.
Definition TaskSaver_of : TaskSaver db := MkTaskSaver db SaveTask.
Definition TaskUpdater_of : TaskUpdater db := MkTaskUpdater db UpdateTaskWithHistory.

#[export] Instance CommentSaver_db : CommentSaverSpec CommentSaver_of.
Proof.
  intros c. unfold CommentSaver_of. simpl. unfold SaveComment.
  eapply (writes_map _ (λ id, MkComment id (Comment_TaskID c) (Comment_UserID c)
    (Comment_Body c) (Comment_CreatedAt c)) (append_comment c)).
  - intros b id b' (Hc & Ht & Hu & now & Hb). do 3 (split; [done|]). by exists id, now.
  - intros b c' b' (Hc & Ht & Hu & id & now & _ & Hb). exists id, b'.
    do 3 (split; [done|]). by exists now.
  - apply statement_writes; [apply insert_comment_performs|apply keeps_wrap].
Qed.

#[export] Instance UserSaver_db : UserSaverSpec UserSaver_of.
Proof.
  split.
  - intros u. apply statement_writes; [apply insert_user_performs|].
    intros e He. by destruct (isDuplicateEntry e).
  - intros u d d' e Hr Hc. simpl in Hr. unfold SaveUser in Hr.
    apply on_err_inv in Hr as [(a & _ & ?)|(e' & Hr & [= ->])]; [done|].
    apply statement_run in Hr as (d1 & Ht & _ & [(a & _ & [?|[_ (msg & [= ->])]])|(e & [= <-] & -> & _)]);
      [done|done|]. unfold board_of; simpl. by rewrite Ht.
Qed.

(** *** Conversions of rows *)

(** A conversion fails only with errors of the server. *)
Definition sql_only {A} (r : result A) : Prop := ∀ e, r = Err e → ∃ n, e = sql_error n.

Lemma sql_only_Ok {A} (a : A) : sql_only (Ok a).
Proof. done. Qed.
Lemma sql_only_bind {A B} (r : result A) (f : A → result B) :
  sql_only r → (∀ a, sql_only (f a)) → sql_only (r ≫= f).
Proof. intros Hr Hf e [He|(a & _ & He)]%result_bind_Err; [by apply Hr|by eapply Hf]. Qed.
Lemma sql_only_require b n : sql_only (require b n).
Proof. destruct b; intros e; [done|]. intros [= <-]. by eexists. Qed.
Lemma sql_only_convert {A} (o : option A) n : sql_only (convert o n).
Proof. destruct o; intros e; [done|]. intros [= <-]. by eexists. Qed.
Lemma sql_only_convert_opt {A} (f : A → option A) o n : sql_only (convert_opt f o n).
Proof.
  destruct o; [|done]. apply sql_only_bind; [apply sql_only_convert|intros; apply sql_only_Ok].
Qed.

Create HintDb sql_only.
#[local] Hint Resolve sql_only_Ok sql_only_bind sql_only_require sql_only_convert sql_only_convert_opt
  : sql_only.

Lemma convert_fields_sql r : sql_only (convert_fields r).
Proof. unfold convert_fields. auto 10 with sql_only. Qed.
Lemma convert_task_sql r : sql_only (convert_task r).
Proof. unfold convert_task. auto using convert_fields_sql with sql_only. Qed.
Lemma convert_history_sql h : sql_only (convert_history h).
Proof. unfold convert_history. auto 10 with sql_only. Qed.

Lemma settles_bind {A B} (step : A → board → Prop) d (m : result B) k :
  sql_only m →
  (∀ r, m = Ok r → settles step d (k r)) → ((∀ r, m ≠ Ok r) → ∀ a b', ¬ step a b') →
  settles step d (m ≫= k).
Proof.
  intros Hm Hok Hno. destruct m as [r|e]; simpl; [by apply Hok|].
  split; [by apply Hm|]. by apply Hno.
Qed.

(** A conversion keeps the references and what it does not convert. *)
Lemma convert_fields_keeps r r' :
  convert_fields r = Ok r' →
  k_team_id r' = k_team_id r ∧ k_created_by r' = k_created_by r ∧
  k_assignee_id r' = k_assignee_id r ∧ k_created_at r' = k_created_at r.
Proof.
  unfold convert_fields. intros (? & _ & (? & _ & (? & _ & (? & _ & (? & _ & [= <-])
    %result_bind_Ok)%result_bind_Ok)%result_bind_Ok)%result_bind_Ok)%result_bind_Ok. done.
Qed.

Lemma convert_task_keeps r r' :
  convert_task r = Ok r' →
  k_team_id r' = k_team_id r ∧ k_created_by r' = k_created_by r ∧ k_assignee_id r' = k_assignee_id r.
Proof.
  unfold convert_task. intros (r1 & Hr1 & (? & _ & [= <-])%result_bind_Ok)%result_bind_Ok.
  apply convert_fields_keeps in Hr1. simpl. naive_solver.
Qed.

Lemma references_user_board d o :
  references_user (d_tables d) o = true ↔ ∀ a, o = Some a → is_Some (b_users (board_of d) !! a).
Proof.
  destruct o as [a|]; simpl; [|naive_solver]. rewrite bool_decide_eq_true. split.
  - intros Ha ? [= <-]. by apply keyed_is_Some.
  - intros Ha. by eapply keyed_is_Some, Ha.
Qed.

Lemma insert_task_performs t : performs (insert_task (Task_ID t) (task_args t)) (save_task t).
Proof.
  intros d. unfold insert_task, save_task, refs_ok. cbv zeta.
  rewrite board_users, board_teams, board_tasks. cbn [row_ok db_backend].
  apply settles_bind; [apply convert_task_sql| |].
  2: { intros Hno a b' (_ & _ & [r Hr] & _). by eapply Hno. }
  intros r Hr. destruct (convert_task_keeps _ _ Hr) as (Htm & Hcr & Has). rewrite Htm, Hcr, Has.
  sql_guard Hi; [|by destruct Hstep as (?%fmap_None & _)].
  sql_guard Ht; [|by destruct Hstep as (_ & (?%fmap_is_Some & _) & _)].
  sql_guard Hu; [|by destruct Hstep as (_ & (_ & ?%fmap_is_Some & _) & _)].
  sql_guard Ha.
  2: { destruct Hstep as (_ & (_ & _ & Hall) & _).
       apply references_user_board in Hall. simpl in Ha. by rewrite Hall in Ha. }
  simpl. rewrite fmap_None, !fmap_is_Some. split; [|done]. split; [done|]. split.
  - do 2 (split; [done|]). by apply references_user_board.
  - split; [by exists r|]. unfold with_tasks, board_of_tables, db_norm_task. simpl.
    by rewrite keyed_insert, Hr.
Qed.

#[export] Instance TaskSaver_db : TaskSaverSpec TaskSaver_of.
Proof. intros t. apply statement_writes; [apply insert_task_performs|apply keeps_wrap]. Qed.

(** *** Transactions *)

(** What a body does when it succeeds, and when it must. *)
Definition tx_body {A} (body : comp db A) (can : board → Prop)
    (step : board → A → board → Prop) : Prop :=
  ∀ d d' r, body d = (d', r) →
    (∀ a, r = Ok a → step (board_of d) a (board_of d')) ∧
    (∀ e, r = Err e → from_write e) ∧
    (healthy d → healthy d' ∧ (can (board_of d) → ∃ a, r = Ok a)).

Lemma tx_statement {A} h (f : db → result (db * A)) step :
  performs f step → keeps_storage h →
  tx_body (on_err h (statement f)) (λ b, ∃ a b', step b a b') step.
Proof.
  intros Hf Hh d d' r Hr.
  destruct (statement_writes h f step Hf Hh _ _ _ Hr) as (_ & Hok & Herr & Hw).
  split; [done|]. split; [intros e He; by apply Herr|]. intros Hd. by destruct (Hw Hd) as (? & ? & _).
Qed.

Lemma tx_ret {A} (a : A) : tx_body (mret a) (λ _, True) (λ b a' b', a' = a ∧ b' = b).
Proof. intros d d' r [-> ->]%ret_inv. split; [by intros ? [= <-]|]. split; [done|by eauto]. Qed.

Lemma tx_bind {A B} (m : comp db A) (k : A → comp db B) can1 step1 can2 step2 :
  tx_body m can1 step1 → (∀ a, tx_body (k a) (can2 a) (step2 a)) →
  tx_body (m ≫= k) (λ b, can1 b ∧ ∀ a b', step1 b a b' → can2 a b')
    (λ b c b'', ∃ a b', step1 b a b' ∧ step2 a b' c b'').
Proof.
  intros Hm Hk d d' r Hr.
  apply bind_inv in Hr as [(d1 & a & E & Hr)|(e & E & ->)]; destruct (Hm _ _ _ E) as (Hok & Herr & Hh).
  - destruct (Hk a _ _ _ Hr) as (Hok' & Herr' & Hh'). specialize (Hok _ eq_refl).
    split; [intros c ->; eauto|]. split; [done|]. intros Hd.
    destruct (Hh' (proj1 (Hh Hd))) as [Hd' Hcan]. split; [done|]. intros [_ Hc2]. by eapply Hcan, Hc2.
  - split; [done|]. split; [intros ? [= <-]; by apply Herr|]. intros Hd.
    destruct (Hh Hd) as [Hd' Hcan]. split; [done|]. by intros [[? ?]%Hcan _].
Qed.

Lemma tx_weaken {A} (body : comp db A) can step (can' : board → Prop) step' :
  tx_body body can step → (∀ b, can' b → can b) → (∀ b a b', step b a b' → step' b a b') →
  tx_body body can' step'.
Proof.
  intros Hb Hcan Hstep d d' r Hr. destruct (Hb _ _ _ Hr) as (Hok & Herr & Hh).
  split; [eauto|]. split; [done|]. intros Hd. destruct (Hh Hd). eauto.
Qed.

(** All or nothing: a transaction performs the step of its body, or leaves the
    tables as they were, whichever round trip fails. *)
Lemma transaction_writes {A} begin commit (body : comp db A) can step :
  keeps_storage begin → keeps_storage commit → tx_body body can step →
  (∀ b a b', step b a b' → can b) → writes (transaction begin commit body) step.
Proof.
  intros Hbg Hcm Hbody Hcan d d' r Hr. split; [done|].
  assert (Hb : ∀ d1 d2, d_tables d1 = d_tables d2 → board_of d1 = board_of d2).
  { intros d1 d2 Ht. unfold board_of; simpl. by rewrite Ht. }
  unfold transaction in Hr. destruct (on_err begin _ d) as [d1 [[]|e]] eqn:E0.
  - apply on_err_inv in E0 as [([] & E0 & _)|(? & _ & ?)]; [|done].
    apply statement_run in E0 as (d0 & Ht & Hd0 & [([] & [= <-] & _)|(? & ? & _)]); [|done].
    destruct (body d0) as [d2 [a|e]] eqn:E; destruct (Hbody _ _ _ E) as (Hok & Herr & Hh);
      rewrite (Hb _ _ Ht) in *.
    + specialize (Hok _ eq_refl). destruct (next_fault d2) as [flt d3] eqn:E3.
      apply next_fault_spec in E3 as (Ht3 & _ & _ & _ & Hh3). apply Hb in Ht3.
      destruct flt; injection Hr as <- <-.
      * rewrite Ht3. split; [by intros ? [= <-]|]. split; [done|]. intros Hw.
        split; [by apply Hh3, Hh, Hd0|]. split; [by eauto|done].
      * split; [done|]. split.
        { intros ? [= <-]. split; [by apply Hcm|]. left. by apply (Hb _ d). }
        intros Hw. by destruct (Hh3 (proj1 (Hh (Hd0 Hw)))).
      * rewrite Ht3. split; [done|]. split.
        { intros ? [= <-]. split; [by apply Hcm|]. eauto. }
        intros Hw. by destruct (Hh3 (proj1 (Hh (Hd0 Hw)))).
    + injection Hr as <- <-. split; [done|]. split.
      { intros ? [= <-]. split; [by apply Herr|]. left. by apply (Hb _ d). }
      intros Hw. destruct (Hh (Hd0 Hw)) as [Hd2 Hpos]. split; [done|]. split.
      * intros (a & b' & Hs). by destruct (Hpos (Hcan _ _ _ Hs)).
      * intros ? _. by apply (Hb _ d).
  - injection Hr as <- <-.
    apply on_err_inv in E0 as [(? & _ & ?)|(e' & E0 & [= ->])]; [done|].
    apply statement_run in E0 as (d0 & Ht & Hd0 & Hc).
    assert (d1 = d0 ∧ ¬ healthy d ∧ ∃ msg, e' = OtherError msg) as (-> & Hd & msg & ->).
    { destruct Hc as [([] & [= <-] & [?|(? & ? & [= ->])])|(? & [= <-] & -> & [?|(? & ? & ->)])];
        try done; eauto. }
    split; [done|]. split; [|done]. intros ? [= <-]. split; [by apply Hbg|]. left. by apply Hb.
Qed.

(** *** CreateTeamWithOwner *)

Definition put_team (t : Team) (b : board) (_ : unit) (b' : board) : Prop :=
  team_ok t ∧ b_teams b !! Team_ID t = None ∧ is_Some (b_users b !! Team_CreatedBy t) ∧
  ∃ t', Team_ID t' = Team_ID t ∧ Team_CreatedBy t' = Team_CreatedBy t ∧ Team_Name t' = Team_Name t ∧
    b' = with_teams (<[Team_ID t := t']>) b.

Definition put_member (tm u : uuid) (role : string) (b : board) (_ : unit) (b' : board) : Prop :=
  b_members b !! (tm, u) = None ∧ is_Some (b_teams b !! tm) ∧ is_Some (b_users b !! u) ∧
  b' = with_members (<[(tm, u) := role]>) b.

Lemma insert_team_performs t :
  performs (insert_team (Team_ID t) (Team_Name t) (Team_CreatedBy t) (Team_CreatedAt t)) (put_team t).
Proof.
  intros d. unfold insert_team, put_team. cbv zeta. rewrite board_teams, board_users.
  cbn [team_ok db_backend].
  sql_guard Hv; [|by destruct Hstep as [[Hs _] _]; rewrite Hv in Hs].
  sql_guard Hc; [|by destruct Hstep as [[_ [? Hs]] _]; rewrite Hc in Hs].
  sql_guard Hi; [|by destruct Hstep as (_ & ?%fmap_None & _)].
  sql_guard Hu; [|by destruct Hstep as (_ & _ & ?%fmap_is_Some & _)].
  simpl. rewrite fmap_None, fmap_is_Some. split; [|done]. split; [by rewrite Hc; eauto|].
  do 2 (split; [done|]). exists (team_of (Team_ID t) (TeamsRec (Team_Name t) (Team_CreatedBy t) x)).
  do 3 (split; [reflexivity|]). unfold with_teams, board_of_tables. simpl. by rewrite keyed_insert.
Qed.

Lemma insert_member_performs tm u role :
  role ∈ RoleValues → performs (insert_member tm u role) (put_member tm u role).
Proof.
  intros Hrole d. unfold insert_member, put_member. cbv zeta.
  rewrite (enum_of_member _ _ Hrole), board_users, board_teams, board_members.
  cbn [convert mbind result_bind].
  sql_guard Hm; [|by destruct Hstep as [? _]].
  sql_guard Ht; [|by destruct Hstep as (_ & ?%fmap_is_Some & _)].
  sql_guard Hu; [|by destruct Hstep as (_ & _ & ?%fmap_is_Some & _)].
  simpl. by rewrite !fmap_is_Some.
Qed.

Lemma RoleOwner_value : RoleOwner ∈ RoleValues.
Proof. left. Qed.

#[export] Instance TeamSaver_db : TeamSaverSpec TeamSaver_of.
Proof.
  split; [|intros tm u r Hr; apply statement_writes; [by apply upsert_member_performs|apply keeps_wrap]].
  intros t owner. unfold TeamSaver_of. simpl. unfold CreateTeamWithOwner.
  eapply transaction_writes; [apply keeps_wrap..| |].
  - eapply tx_weaken; [|intros b Hb; exact Hb|].
    + apply (tx_bind _ _ (λ b, ∃ a b', put_team t b a b') (put_team t)
        (λ _ b, ∃ a b', put_member (Team_ID t) owner RoleOwner b a b')
        (λ _, put_member (Team_ID t) owner RoleOwner));
        [apply tx_statement; [apply insert_team_performs|apply keeps_wrap]|].
      intros []. apply tx_statement; [apply insert_member_performs, RoleOwner_value|apply keeps_wrap].
    + intros b [] b'' ([] & b' & (Hok & Hfr & Hby & t' & Hid & Hcr & Hnm & ->) & Hm & _ & Hu & ->).
      simpl in *. split; [done|]. do 4 (split; [done|]). by exists t'.
  - intros b [] b' (Hok & Hfr & Hm & Hby & Hu & t' & Hid & Hcr & Hnm & ->). split.
    + exists tt. eexists. do 3 (split; [done|]). by exists t'.
    + intros [] b1 (_ & _ & _ & t1 & Hid1 & _ & _ & ->). exists tt. eexists.
      split; [done|]. split; [by eexists; apply lookup_insert_eq|]. by split.
Qed.

(** *** UpdateTaskWithHistory *)

Definition put_fields (t : Task) (b : board) (_ : unit) (b' : board) : Prop :=
  match b_tasks b !! Task_ID t with
  | Some old => fields_ok (update_columns old t) ∧
      (∀ a, Task_AssigneeID t = Some a → is_Some (b_users b !! a)) ∧
      b' = with_tasks (<[Task_ID t := norm_fields (update_columns old t)]>) b
  | None => b' = b
  end.

Definition entry_ok (b : board) (h : TaskHistory) : Prop :=
  history_ok h ∧ is_Some (b_tasks b !! TH_TaskID h) ∧ is_Some (b_users b !! TH_ChangedBy h).

Definition put_entry (h : TaskHistory) (b : board) (_ : unit) (b' : board) : Prop :=
  entry_ok b h ∧ ∃ i, (∀ h0, h0 ∈ b_history b → TH_ID h0 < i) ∧
    b' = with_history (λ l, l ++ [norm_history i h]) b.

Definition put_entries (hs : list TaskHistory) (b : board) (_ : unit) (b' : board) : Prop :=
  Forall (entry_ok b) hs ∧
  ∃ hs', numbered b hs hs' ∧ b' = with_history (λ l, l ++ hs') b.

Lemma update_task_row_performs t :
  performs (update_task_row (Task_ID t) (task_args t)) (put_fields t).
Proof.
  intros d. unfold update_task_row, put_fields. cbv zeta. rewrite board_tasks.
  destruct (tasks (d_tables d) !! Task_ID t) as [old|] eqn:Hold; [|done]. cbn [fmap option_fmap option_map].
  change (TasksRec _ _ _ _ _ _ _ _ _ _) with (task_args (update_columns (task_of (Task_ID t) old) t)).
  cbn [fields_ok db_backend]. set (u := update_columns _ t).
  apply settles_bind; [apply convert_fields_sql| |].
  2: { intros Hno a b' ([r Hr] & _). by eapply Hno. }
  intros r Hr. destruct (convert_fields_keeps _ _ Hr) as (Htm & Hcr & Has & Hca). rewrite Has.
  sql_guard Ha.
  2: { destruct Hstep as (_ & Hall & _). apply references_user_board in Hall.
       simpl in Ha. by rewrite Hall in Ha. }
  simpl. split; [|done]. split; [by exists r|]. split; [by apply references_user_board|].
  unfold with_tasks, board_of_tables. simpl. rewrite keyed_insert. do 2 f_equal.
  unfold db_norm_fields. by rewrite Hr.
Qed.

Lemma next_id_fresh seq ids i : i ∈ ids → i < next_id seq ids.
Proof.
  unfold next_id. induction ids as [|j ids IH]; [by intros ?%elem_of_nil|].
  intros [->|Hi]%elem_of_cons; simpl; [lia|]. specialize (IH Hi). lia.
Qed.

Lemma convert_history_keeps h r :
  convert_history h = Ok r → h_task_id r = TH_TaskID h ∧ h_changed_by r = TH_ChangedBy h.
Proof.
  unfold convert_history. by intros (? & _ & (? & _ & [= <-])%result_bind_Ok)%result_bind_Ok.
Qed.

Lemma insert_history_performs h : performs (insert_history h) (put_entry h).
Proof.
  intros d. unfold insert_history, put_entry, entry_ok. cbv zeta. rewrite board_tasks, board_users.
  cbn [history_ok db_backend].
  apply settles_bind; [apply convert_history_sql| |].
  2: { intros Hno a b' (([r Hr] & _) & _). by eapply Hno. }
  intros r Hr. destruct (convert_history_keeps _ _ Hr) as [Htk Hby].
  rewrite Htk, Hby.
  sql_guard Ht; [|by destruct Hstep as ((_ & ?%fmap_is_Some & _) & _)].
  sql_guard Hu; [|by destruct Hstep as ((_ & _ & ?%fmap_is_Some) & _)].
  simpl. rewrite !fmap_is_Some. split; [|done]. split; [by eauto|].
  eexists. split; [|unfold with_history, board_of_tables; simpl; rewrite fmap_app;
    do 2 f_equal; simpl; unfold db_norm_history; by rewrite Hr].
  intros h0 (ir & -> & Hin)%list_elem_of_fmap. simpl. apply next_id_fresh.
  by apply list_elem_of_fmap_2.
Qed.

Lemma norm_history_id i h : history_ok h → TH_ID (norm_history i h) = i.
Proof. intros [r Hr]. simpl. unfold db_norm_history. by rewrite Hr. Qed.

(** An entry and then the others are numbered in order. *)
Lemma numbered_cons b h hs i hs' :
  history_ok h → (∀ h0, h0 ∈ b_history b → TH_ID h0 < i) →
  numbered (with_history (λ l, l ++ [norm_history i h]) b) hs hs' →
  numbered b (h :: hs) (norm_history i h :: hs').
Proof.
  intros Hok Hi (ids & Hlen & -> & Hs & Hlt). exists (i :: ids).
  split; [by simpl; rewrite Hlen|]. split; [done|].
  assert (Hgt : ∀ j, j ∈ ids → i < j).
  { intros j Hj. rewrite <-(norm_history_id i h) by done. apply Hlt; [|done]. simpl.
    apply elem_of_app. right. by left. }
  split.
  - constructor; [done|]. by apply Forall_forall.
  - intros h0 j Hh [->|Hj]%elem_of_cons; [by apply Hi|]. specialize (Hi _ Hh).
    specialize (Hgt _ Hj). lia.
Qed.

Lemma insert_entries_body hs :
  tx_body (insert_entries hs) (λ b, Forall (entry_ok b) hs) (put_entries hs).
Proof.
  induction hs as [|h hs IH].
  { eapply tx_weaken; [apply tx_ret|done|]. intros b [] b' [_ ->]. split; [constructor|].
    exists []. split; [|unfold with_history; rewrite app_nil_r; by destruct b].
    exists []. split_and!; [done|done|constructor|]. by intros ? ? _ ?%elem_of_nil. }
  simpl. eapply tx_weaken.
  - apply (tx_bind _ _ (λ b, ∃ a b', put_entry h b a b') (put_entry h)
      (λ _ b, Forall (entry_ok b) hs) (λ _, put_entries hs)); [|by intros []].
    apply tx_statement; [apply insert_history_performs|apply keeps_wrap].
  - intros b [Hh Hhs]%Forall_cons. split.
    + exists tt. eexists. split; [done|]. exists (next_id 0 (TH_ID <$> b_history b)).
      split; [|done]. intros h0 Hh0. by apply next_id_fresh, list_elem_of_fmap_2.
    + intros [] b' (_ & i & _ & ->). done.
  - intros b [] b'' ([] & b' & (Hh & i & Hi & ->) & Hhs & hs' & Hn & ->). split; [by constructor|].
    exists (norm_history i h :: hs'). split; [apply numbered_cons; [apply Hh|done|done]|].
    unfold with_history. simpl. by rewrite <-(assoc_L (++)).
Qed.

#[export] Instance TaskUpdater_db : TaskUpdaterSpec TaskUpdater_of.
Proof.
  intros t hs. unfold TaskUpdater_of. simpl. unfold UpdateTaskWithHistory.
  assert (Hent : ∀ b b', put_fields t b tt b' → ∀ h, entry_ok b' h ↔ entry_ok b h).
  { intros b b' Hput h. unfold put_fields in Hput. unfold entry_ok.
    destruct (b_tasks b !! Task_ID t) as [old|] eqn:Hold; [|by rewrite Hput].
    destruct Hput as (_ & _ & ->). simpl. destruct (decide (TH_TaskID h = Task_ID t)) as [->|Hne].
    - rewrite lookup_insert_eq, Hold. split; intros (? & ? & ?); (split; [done|]); split; eauto.
    - by rewrite lookup_insert_ne. }
  eapply transaction_writes; [apply keeps_wrap..| |].
  - eapply tx_weaken; [|intros b Hb; exact Hb|].
    + apply (tx_bind _ _ (λ b, ∃ a b', put_fields t b a b') (put_fields t)
        (λ _ b, Forall (entry_ok b) hs) (λ _, put_entries hs)); [|intros []; apply insert_entries_body].
      apply tx_statement; [apply update_task_row_performs|apply keeps_wrap].
    + intros b [] b'' ([] & b' & Hput & Hhs & hs' & (ids & Hlen & Hz & Hs & Hlt) & ->).
      assert (Forall (entry_ok b) hs) as Hhs'
        by (eapply Forall_impl; [exact Hhs|]; intros h; by apply (Hent _ _ Hput)).
      unfold put_fields in Hput. unfold update_task.
      destruct (b_tasks b !! Task_ID t) as [old|]; [destruct Hput as (Hok & Ha & ->)|subst b'];
        simpl in *; (split; [done|]); (split; [done|]); (split; [|done]);
        exists hs'; split; [by exists ids|done|by exists ids|done].
  - intros b [] b' (Htask & Hhs & _ & Hb). split.
    + exists tt. unfold put_fields. destruct (b_tasks b !! Task_ID t); [|by eexists].
      eexists. destruct Htask as (? & ? & _). by split_and!.
    + intros [] b1 Hput. eapply Forall_impl; [exact Hhs|]. intros h Hh. by apply (Hent _ _ Hput).
Qed.

(** *** The backend *)

#[export] Instance db_backend_spec : BackendSpec db.
Proof.
  split.
  - done.
  - intros d id t Ht. rewrite board_tasks in Ht. by apply fmap_Some in Ht as (r & _ & ->).
  - intros t. simpl. unfold db_norm_task. destruct (convert_task _) eqn:E; [|done].
    apply convert_task_keeps in E as (? & ? & ?). simpl in *. by split_and!.
  - intros t. simpl. unfold db_norm_fields. destruct (convert_fields _) eqn:E; [|done].
    apply convert_fields_keeps in E as (? & ? & ? & _). simpl in *. by split_and!.
  - intros i h. simpl. unfold db_norm_history. destruct (convert_history _) eqn:E; [|done].
    by apply convert_history_keeps in E.
  - intros b b' f tm Htm Heq res. simpl. unfold page_of.
    assert (matching f b = matching f b') as ->; [|done].
    unfold matching. apply map_eq. intros id. apply option_eq. intros t.
    rewrite !map_lookup_filter_Some. simpl.
    assert (∀ b0 t, b_tasks b0 !! id = Some t ∧ task_matches f t ↔
      filter (λ kt : uuid * Task, Task_TeamID kt.2 = tm) (b_tasks b0) !! id = Some t ∧
      task_matches f t) as Hm.
    { intros b0 t0. rewrite map_lookup_filter_Some. simpl. split; [|naive_solver].
      intros [? Hmt]. split; [|done]. split; [done|]. by apply Hmt. }
    by rewrite !Hm, Heq.
Qed.

End refinements.

End backend.
