(* ===== verification/TaskCache.v ===== *)
(** * TaskCache: internal/storage/redis/taskcache.go

    The cache of task lists. Redis itself is a class: the SCAN command and glob
    patterns, with what the Redis documentation promises of them. Keys may
    expire before any command, and any command may fail. *)
From S2P Require Import Prelude Go Uuid Domain Ports.

Abbreviation store := (gmap string string).

(** ** The server's commands *)

Class RedisServer := {
  glob : string → string → bool;
  scan_cmd : store → Z → string → Z → list string * Z;
  scan_bound : nat → nat
}.

(** A client's iteration: the stores the successive SCANs of a pattern see and
    the keys they return, from a cursor on to the cursor 0. *)
Inductive iteration `{RedisServer} (pat : string) (count : Z) :
    Z → list store → list (list string) → Prop :=
  | iteration_last c s ks :
      scan_cmd s c pat count = (ks, 0) → iteration pat count c [s] [ks]
  | iteration_more c s ks c' ss kss :
      scan_cmd s c pat count = (ks, c') → c' ≠ 0 → iteration pat count c' ss kss →
      iteration pat count c (s :: ss) (ks :: kss).

(** An iteration that has not come back to the cursor 0 yet. *)
Inductive unfinished `{RedisServer} (pat : string) (count : Z) : Z → list store → Prop :=
  | unfinished_nil c : unfinished pat count c []
  | unfinished_cons c s ks c' ss :
      scan_cmd s c pat count = (ks, c') → c' ≠ 0 → unfinished pat count c' ss →
      unfinished pat count c (s :: ss).

(** The documented guarantees of SCAN: a full iteration returns every matching
    key that is present from its start to its end, and an iteration over a
    collection of bounded size ends. A pattern with a literal prefix before a
    final star matches the keys with that prefix. *)
Class RedisServerSpec `{RedisServer} : Prop := {
  scan_complete pat count ss kss k :
    iteration pat count 0 ss kss → glob pat k = true →
    Forall (λ s : store, is_Some (s !! k)) ss → ∃ ks, ks ∈ kss ∧ k ∈ ks;
  scan_terminates pat count n ss :
    unfinished pat count 0 ss → Forall (λ s : store, (size s ≤ n)%nat) ss →
    (length ss ≤ scan_bound n)%nat;
  glob_prefix p s : glob_literal p = true → glob (p +:+ "*") (p +:+ s) = true
}.

(** ** The client *)

(** What happens around the next command: the keys that expire before it, and
    the fate of its round trip. *)
Record event : Type := Event { ev_expired : gset string; ev_fault : fault }.

Record redis : Type := Redis { r_store : store; r_events : list event }.

(** [filter] without the keys that expire. *)
Definition expire (e : event) (s : store) : store :=
  filter (λ kd : string * string, kd.1 ∉ ev_expired e) s.

Definition next_event (r : redis) : fault * redis :=
  match r_events r with
  | [] => (NoFault, r)
  | e :: es => (ev_fault e, Redis (expire e (r_store r)) es)
  end.

Definition command {A} (f : store → store * A) : comp redis A := λ r,
  let '(flt, r) := next_event r in
  let '(s, a) := f (r_store r) in
  match flt with
  | NoFault => (Redis s (r_events r), Ok a)
  | FailBefore msg => (r, Err (OtherError msg))
  | FailAfter msg => (Redis s (r_events r), Err (OtherError msg))
  end.

Definition GET (key : string) : comp redis string :=
  found ← command (λ s, (s, s !! key));
  lift_result (match found with Some d => Ok d | None => Err RedisNil end).
Definition SET (key data : string) (ttl : Z) : comp redis unit :=
  command (λ s, (<[key := data]> s, tt)).
Definition DEL (keys : list string) : comp redis unit :=
  command (λ s, (filter (λ kd : string * string, kd.1 ∉ keys) s, tt)).
Definition SCAN `{RedisServer} (cursor : Z) (pattern : string) (count : Z)
    : comp redis (list string * Z) :=
  command (λ s, (s, scan_cmd s cursor pattern count)).

(** [%q] of a key without characters to escape. *)
Definition quoted (s : string) : string :=
  let q := String (Ascii.ascii_of_nat 34) "" in q +:+ s +:+ q.

(** [strings.HasSuffix] *)
Fixpoint HasSuffix (s suffix : string) : bool :=
  bool_decide (s = suffix) ||
  match s with EmptyString => false | String _ s => HasSuffix s suffix end.

(** ** TaskCache *)

Module TaskCache.

Definition Get (key : string) : comp redis bytes :=
  on_err (λ err, if errors_Is err RedisNil then ErrCacheMiss
                 else wrap ("redis: get " +:+ quoted key) err) (GET key).

Definition Set_ (key : string) (data : bytes) (ttl : Z) : comp redis unit :=
  on_err (wrap ("redis: set " +:+ quoted key)) (SET key data ttl).

(** The [for] loop of Invalidate; running out of fuel is not a result the code
    has, and [Invalidate] gives enough. *)
Fixpoint scan_loop `{RedisServer} (fuel : nat) (cursor : Z) (pattern : string) : comp redis unit :=
  match fuel with
  | O => throw (OtherError "scan_loop: out of fuel")
  | S fuel =>
      res ← on_err (wrap ("redis: scan " +:+ quoted pattern)) (SCAN cursor pattern 100);
      (if bool_decide (res.1 ≠ []) then on_err (wrap "redis: del keys") (DEL res.1) else mret tt) ;;
      if bool_decide (res.2 = 0) then mret tt else scan_loop fuel res.2 pattern
  end.

Definition Invalidate `{RedisServer} (pattern : string) : comp redis unit := λ r,
  if negb (HasSuffix pattern "*") then
    on_err (wrap ("redis: del " +:+ quoted pattern)) (DEL [pattern]) r
  else scan_loop (S (scan_bound (size (r_store r)))) 0 pattern r.

End TaskCache.

(** ** Its behaviour *)

Definition redis_healthy (r : redis) : Prop := Forall (λ e, ev_fault e = NoFault) (r_events r).

(** Entries only disappear. *)
Definition shrinks (r r' : redis) : Prop :=
  r_store r' ⊆ r_store r ∧ (redis_healthy r → redis_healthy r').

#[global] Instance shrinks_preorder : PreOrder shrinks.
Proof.
  split; [by intros r|]. intros r1 r2 r3 [Hs Hh] [Hs' Hh']. split; [by etrans|auto].
Qed.

Lemma command_run {A} (f : store → store * A) r r' x :
  command f r = (r', x) →
  ∃ s, s ⊆ r_store r ∧ (redis_healthy r → redis_healthy r') ∧
    ((x = Ok (f s).2 ∧ r_store r' = (f s).1) ∨
     (¬ redis_healthy r ∧ ∃ msg, x = Err (OtherError msg) ∧ (r_store r' = (f s).1 ∨ r_store r' = s))).
Proof.
  unfold command, next_event. destruct r as [s es]; simpl. intros Hr.
  exists (match es with [] => s | e :: _ => expire e s end).
  assert (Hexp : ∀ e, expire e s ⊆ s) by (intros e; apply map_filter_subseteq).
  destruct es as [|e es]; simpl in *.
  - split; [done|]. destruct (f s) as [s' a]. simplify_eq. split; [done|by left].
  - split; [apply Hexp|]. destruct (f (expire e s)) as [s' a].
    destruct (ev_fault e) eqn:Ef; simplify_eq/=; (split; [by intros ?%Forall_cons_1; naive_solver|]).
    + by left.
    + right. split; [intros [? _]%Forall_cons_1; simpl in *; congruence|]. eauto.
    + right. split; [intros [? _]%Forall_cons_1; simpl in *; congruence|]. eauto.
Qed.

(** A command that fails was not sent in a healthy world. *)
Lemma command_err {A} (f : store → store * A) r r' e :
  command f r = (r', Err e) → ¬ redis_healthy r.
Proof. intros Hr. by apply command_run in Hr as (s & _ & _ & [[? _]|[? _]]). Qed.

Lemma command_shrinks {A} (f : store → store * A) r r' x :
  (∀ s, (f s).1 ⊆ s) → command f r = (r', x) → shrinks r r'.
Proof.
  intros Hf Hr. apply command_run in Hr as (s & Hs & Hh & Hc). split; [|done].
  destruct Hc as [[_ ->]|[_ (? & _ & [->| ->])]]; [..|done]; (etrans; [apply Hf|done]).
Qed.

Lemma GET_run key r r' x :
  GET key r = (r', x) →
  shrinks r r' ∧ (∀ d, x = Ok d → r_store r !! key = Some d) ∧
  (∀ e, x = Err e → e = RedisNil ∨ ¬ redis_healthy r).
Proof.
  intros Hr. unfold GET in Hr. run Hr as r1 found E.
  - assert (shrinks r r1) as Hs by (by eapply command_shrinks; [|exact E]).
    apply command_run in E as (s & Hsub & _ & [[[= ->] _]|[_ (? & ? & _)]]); [|done].
    unfold lift_result in Hr. injection Hr as <- <-. split; [done|].
    destruct (s !! key) as [d|] eqn:Hd; split; try done; [|naive_solver].
    intros ? [= <-]. by eapply lookup_weaken.
  - split; [by eapply command_shrinks; [|exact E]|]. split; [done|].
    intros ? [= <-]. right. by eapply command_err.
Qed.

Lemma SET_run key d ttl r r' x :
  SET key d ttl r = (r', x) →
  (r_store r' ⊆ r_store r ∨ r_store r' ⊆ <[key := d]> (r_store r)) ∧
  (redis_healthy r → redis_healthy r').
Proof.
  intros Hr. apply command_run in Hr as (s & Hsub & Hh & Hc). split; [|done].
  assert (<[key := d]> s ⊆ <[key := d]> (r_store r)) as Hins by by apply insert_mono.
  destruct Hc as [[_ ->]|[_ (? & _ & [->| ->])]]; auto.
Qed.

Lemma DEL_run keys r r' x :
  DEL keys r = (r', x) →
  shrinks r r' ∧ (∀ k, x = Ok tt → k ∈ keys → r_store r' !! k = None) ∧
  (∀ e, x = Err e → ¬ redis_healthy r).
Proof.
  intros Hr. split; [eapply command_shrinks; [|exact Hr]; intros; apply map_filter_subseteq|].
  split; [|intros e ->; by eapply command_err].
  intros k -> Hk. apply command_run in Hr as (s & _ & _ & [[_ ->]|[_ (? & ? & _)]]); [|done].
  simpl. apply map_lookup_filter_None. right. simpl. auto.
Qed.

Lemma HasSuffix_app s suffix : HasSuffix (s +:+ suffix) suffix = true.
Proof.
  induction s as [|c s IH].
  - rewrite str_app_nil_l. destruct suffix; cbn [HasSuffix]; by rewrite bool_decide_true.
  - rewrite str_app_cons. cbn [HasSuffix]. by rewrite IH, orb_true_r.
Qed.

Section loop.
Context `{!RedisServer} `{!RedisServerSpec}.

(** The loop: a full iteration whose keys are all gone at the end, or a
    failure, or as many SCANs as there was fuel. *)
Lemma scan_loop_run fuel c pat r r' x :
  TaskCache.scan_loop fuel c pat r = (r', x) →
  shrinks r r' ∧
  (x = Ok tt → ∃ ss kss, iteration pat 100 c ss kss ∧
     Forall (λ s : store, r_store r' ⊆ s) ss ∧
     ∀ ks k, ks ∈ kss → k ∈ ks → r_store r' !! k = None) ∧
  (∀ e, x = Err e → ¬ redis_healthy r ∨
     ∃ ss, unfinished pat 100 c ss ∧ length ss = fuel ∧ Forall (λ s : store, s ⊆ r_store r) ss).
Proof.
  revert c r r' x. induction fuel as [|fuel IH]; intros c r r' x Hr.
  { simpl in Hr. run_ret Hr. split; [done|]. split; [done|]. intros _ _. right.
    exists []. split; [constructor|by split]. }
  cbn [TaskCache.scan_loop] in Hr. run Hr as r1 res E; cycle 1.
  { split; [by eapply command_shrinks; [|exact E]|]. split; [done|].
    intros ? _. left. by eapply command_err. }
  assert (shrinks r r1) as Hs1 by (by eapply command_shrinks; [|exact E]).
  apply command_run in E as (s & Hsub & _ & [[[= ->] Hst]|[_ (? & ? & _)]]); [|done].
  cbn [fst snd] in Hst, Hr. subst s. destruct (scan_cmd (r_store r1) c pat 100) as [ks c'] eqn:Escan. cbn [fst snd] in Hr.
  assert (∃ r2 y, (if bool_decide (ks ≠ []) then on_err (wrap "redis: del keys") (DEL ks) else mret tt)
    r1 = (r2, y) ∧ shrinks r1 r2 ∧ (∀ k, y = Ok tt → k ∈ ks → r_store r2 !! k = None) ∧
    (∀ e, y = Err e → ¬ redis_healthy r1)) as (r2 & y & Edel & Hs2 & Hgone & Herr).
  { clear Hr. case_bool_decide as Hks.
    - destruct (DEL ks r1) as [r2 y] eqn:Ed. destruct (DEL_run _ _ _ _ Ed) as (Hsh & Hg & He).
      exists r2, (match y with Ok u => Ok u | Err e => Err (wrap "redis: del keys" e) end).
      split; [by unfold on_err; rewrite Ed; destruct y|]. destruct y as [u|e].
      + split; [done|]. split; [|done]. intros k [= ->]. by apply Hg.
      + split; [done|]. split; [done|]. intros e' _. by eapply He.
    - exists r1, (Ok tt). split; [done|]. split; [done|]. split; [|done].
      subst ks. by intros k _ ?%elem_of_nil. }
  rewrite comp_bind_run, Edel in Hr. destruct y as [[]|e]; cycle 1.
  { simplify_eq. split; [by etrans|]. split; [done|]. intros _ _. left. intros Hh.
    by eapply Herr, Hs1. }
  cbv beta iota in Hr. destruct (bool_decide (c' = 0)) eqn:Hc0;
    [apply bool_decide_eq_true in Hc0 as ->|apply bool_decide_eq_false in Hc0]; cbv iota in Hr.
  - run_ret Hr. split; [by etrans|]. split; [|done]. intros _. exists [r_store r1], [ks]. split; [by constructor|].
    split.
    + apply Forall_singleton. apply Hs2.
    + intros ks' k ->%list_elem_of_singleton Hk. by apply Hgone.
  - destruct (IH _ _ _ _ Hr) as (Hs3 & Hok & He). split; [by do 2 etrans|]. split.
    + intros Hx. destruct (Hok Hx) as (ss & kss & Hit & Hall & Hg). exists (r_store r1 :: ss), (ks :: kss).
      split; [by econstructor|]. split.
      * constructor; [|done]. etrans; [apply Hs3|apply Hs2].
      * intros ks' k [->|Hks]%elem_of_cons Hk; [|by eapply Hg].
        eapply lookup_weaken_None; [by apply Hgone|apply Hs3].
    + intros e Hx. destruct (He e Hx) as [Hh|(ss & Hun & Hlen & Hall)]; [left|right].
      * intros Hr0. apply Hh, Hs2, Hs1, Hr0.
      * exists (r_store r1 :: ss). split; [by econstructor|]. split; [by simpl; rewrite Hlen|].
        constructor; [done|]. eapply Forall_impl; [exact Hall|]. intros s0 Hs0.
        etrans; [exact Hs0|]. etrans; [apply Hs2|apply Hs1].
Qed.

Lemma Invalidate_run pat r r' x :
  TaskCache.Invalidate pat r = (r', x) →
  shrinks r r' ∧ (redis_healthy r → x = Ok tt) ∧
  (x = Ok tt → if HasSuffix pat "*" then ∀ k, glob pat k = true → r_store r' !! k = None
               else r_store r' !! pat = None).
Proof.
  intros Hr. unfold TaskCache.Invalidate in Hr. destruct (HasSuffix pat "*"); cbn [negb] in Hr.
  - destruct (scan_loop_run _ _ _ _ _ _ Hr) as (Hs & Hok & He). split; [done|]. split.
    + intros Hh. destruct x as [[]|e]; [done|]. exfalso.
      destruct (He e eq_refl) as [?|(ss & Hun & Hlen & Hall)]; [done|].
      assert (length ss ≤ scan_bound (size (r_store r)))%nat; [|lia].
      eapply scan_terminates; [done|]. eapply Forall_impl; [exact Hall|]. intros s Hsub.
      rewrite <-!size_dom. by apply subseteq_size, subseteq_dom.
    + intros Hx k Hk. destruct (Hok Hx) as (ss & kss & Hit & Hall & Hg).
      destruct (r_store r' !! k) as [d|] eqn:Hd; [|done].
      destruct (scan_complete pat 100 ss kss k Hit Hk) as (ks & Hks & Hkin).
      { eapply Forall_impl; [exact Hall|]. intros s Hsub. exists d. by eapply lookup_weaken. }
      by rewrite (Hg _ _ Hks Hkin) in Hd.
  - apply on_err_inv in Hr as [([] & Hr & ->)|(e & Hr & ->)];
      destruct (DEL_run _ _ _ _ Hr) as (Hs & Hg & He); (split; [done|]).
    + split; [done|]. intros _. apply Hg; [done|]. by left.
    + split; [|done]. intros Hh. by destruct (He e eq_refl).
Qed.

End loop.
