(* ===== verification/StorageTheorems.v ===== *)
(** * StorageTheorems: what the storages guarantee

    The properties of internal/storage that the services' contracts do not show:
    the atomicity of an update with its history under any failure, pagination
    as slices of one ordered listing, and the cache's pattern deletion. *)
From stdpp Require Import sorting.
From S2P Require Import Prelude Go Uuid Domain Ports MySQLEngine MySQLStorage MySQLSpec TaskCache.

Section storage.
Context `{!MySQLEngine} `{!MySQLEngineSpec}.

(** ** UpdateTaskWithHistory *)

(** C28: updating a task and recording its history is atomic. Whichever round
    trip fails, before or after the server acted, the database ends with both
    the row's new columns and every entry, or with neither; success means both,
    and without failures an error means neither. *)
Theorem UpdateTaskWithHistory_atomic t hs d d' r :
  UpdateTaskWithHistory t hs d = (d', r) →
  (board_of d' = board_of d ∨ update_task t hs (board_of d) tt (board_of d')) ∧
  (r = Ok tt → update_task t hs (board_of d) tt (board_of d')) ∧
  (healthy d → ∀ e, r = Err e →
     board_of d' = board_of d ∧ ∀ b, ¬ update_task t hs (board_of d) tt b).
Proof.
  intros Hr.
  destruct (UpdateTaskWithHistory_writes (s := TaskUpdater_of) _ _ _ _ _ Hr) as (_ & Hok & Herr & Hh).
  split; [|split].
  - destruct r as [[]|e]; [right; by apply Hok|]. destruct (Herr _ eq_refl) as [_ [?|[[] ?]]]; auto.
  - intros ->. by apply Hok.
  - intros Hd e ->. destruct (Hh Hd) as (_ & Hpos & Hke). split; [by eapply Hke|].
    intros b Hb. destruct Hpos as [? ?]; [by eauto|done].
Qed.

(** ** ListTasks *)

Definition at_page (f : TaskFilter) (page limit : Z) : TaskFilter :=
  MkTaskFilter (TF_TeamID f) (TF_Status f) (TF_AssigneeID f) page limit.

(** All the tasks of a query, as one plan of the server orders them. *)
Definition whole_listing (p : N) (f : TaskFilter) (b : board) : list Task :=
  omap (λ id, matching f b !! id) (order_by p ((λ t, - t_ns (Task_CreatedAt t)) <$> matching f b)).

(** The tasks of a query, each once, newest first. *)
Definition newest_first (f : TaskFilter) (b : board) (all : list Task) : Prop :=
  all ≡ₚ (map_to_list (matching f b)).*2 ∧
  StronglySorted (λ t u, t_ns (Task_CreatedAt u) ≤ t_ns (Task_CreatedAt t)) all.

(** A page of them, and their number. *)
Definition slice (page limit : Z) (all : list Task) : list Task * Z :=
  (take (Z.to_nat limit) (drop (Z.to_nat ((page - 1) * limit)) all), Z.of_nat (length all)).

(** No two of them were created in the same millisecond. *)
Definition distinct_times (f : TaskFilter) (b : board) : Prop :=
  ∀ i j t u, matching f b !! i = Some t → matching f b !! j = Some u →
    t_ns (Task_CreatedAt t) = t_ns (Task_CreatedAt u) → i = j.

Lemma omap_take {A B} (h : A → option B) n l :
  Forall (λ a, is_Some (h a)) l → omap h (take n l) = take n (omap h l).
Proof.
  intros Hl. revert n. induction Hl as [|a l [b Hb] Hl IH]; intros [|n]; try done.
  cbn. rewrite Hb. cbn. by rewrite IH.
Qed.

Lemma omap_drop {A B} (h : A → option B) n l :
  Forall (λ a, is_Some (h a)) l → omap h (drop n l) = drop n (omap h l).
Proof.
  intros Hl. revert n. induction Hl as [|a l [b Hb] Hl IH]; intros [|n]; try done.
  cbn. rewrite Hb. cbn. by rewrite <-IH.
Qed.

Lemma listed_ids p f b :
  Forall (λ id, is_Some (matching f b !! id))
    (order_by p ((λ t, - t_ns (Task_CreatedAt t)) <$> matching f b)).
Proof.
  rewrite order_by_perm. apply Forall_forall. intros id ([i x] & -> & Hin)%list_elem_of_fmap.
  apply elem_of_map_to_list in Hin. rewrite lookup_fmap in Hin. apply fmap_Some in Hin as (t & Ht & _). by exists t.
Qed.

Lemma matching_at_page f page limit b : matching (at_page f page limit) b = matching f b.
Proof. by apply map_filter_ext. Qed.

Lemma whole_listing_newest p f b : newest_first f b (whole_listing p f b).
Proof.
  unfold newest_first, whole_listing. split.
  - rewrite order_by_perm, map_to_list_fst_fmap.
    rewrite <-(omap_lookup_perm (matching f b) (λ _ t, t)).
    erewrite list_omap_ext; [done|]. apply Forall_Forall2_diag, Forall_true. intros id.
    by destruct (matching f b !! id).
  - eapply StronglySorted_omap, order_by_sorted. intros i j t u Hij Hi Hj.
    specialize (Hij (- t_ns (Task_CreatedAt t)) (- t_ns (Task_CreatedAt u))).
    rewrite !lookup_fmap, Hi, Hj in Hij. specialize (Hij eq_refl eq_refl). lia.
Qed.

Lemma newest_first_length f b all : newest_first f b all → length all = size (matching f b).
Proof. intros [Hp _]. by rewrite Hp, length_fmap, length_map_to_list. Qed.

(** With at most one task there is one answer. *)
Lemma page_of_few p f b : (size (matching f b) ≤ 1)%nat → page_of p f b = page_of 0 f b.
Proof.
  intros Hs. unfold page_of. set (m := _ <$> matching f b).
  assert (order_by p m = order_by 0 m) as ->; [|done].
  pose proof (order_by_perm p m) as Hp. pose proof (order_by_perm 0 m) as H0'.
  assert (length (map_to_list m).*1 ≤ 1)%nat as Hl
    by (rewrite length_fmap, length_map_to_list; unfold m; by rewrite map_size_fmap).
  destruct (map_to_list m).*1 as [|k [|]]; [| |cbn in Hl; lia].
  - apply Permutation_nil_r in Hp, H0'. congruence.
  - apply Permutation_singleton_r in Hp, H0'. congruence.
Qed.

(** What a page query answers is a slice of one plan's listing. *)
Lemma page_of_slice p f page limit b :
  page_of p (at_page f page limit) b = slice page limit (whole_listing p f b).
Proof.
  unfold page_of, slice. rewrite (newest_first_length f b) by apply whole_listing_newest.
  rewrite matching_at_page. cbn [at_page TF_Page TF_Limit]. f_equal.
  pose proof (listed_ids p f b) as Hall. unfold whole_listing.
  by rewrite omap_take, omap_drop by (try apply Forall_drop; done).
Qed.

Lemma pages_run f page limit d :
  healthy d → page_ok (at_page f page limit) →
  ∃ p, (ListTasks (at_page f page limit) d).2 = Ok (slice page limit (whole_listing p f (board_of d))).
Proof.
  intros Hd Hp. destruct (ListTasks (at_page f page limit) d) as [d' r] eqn:Hr.
  destruct (ListTasks_reads (s := TaskGetter_of) _ Hp _ _ _ Hr) as (_ & _ & _ & Hh).
  destruct (Hh Hd) as (res & -> & p & ->). exists p. cbn [snd]. by rewrite page_of_slice.
Qed.

(** Tasks of different times have one order only. *)
Lemma newest_first_unique f b l l' :
  distinct_times f b → newest_first f b l → newest_first f b l' → l = l'.
Proof.
  intros Hd [Hp Hs] [Hp' Hs']. eapply StronglySorted_unique_strong; [|exact Hs|exact Hs'|by rewrite Hp, Hp'].
  intros t u Ht Hu H1 H2. rewrite Hp in Ht. rewrite Hp' in Hu.
  apply list_elem_of_fmap in Ht as ([i ?] & -> & Hi%elem_of_map_to_list).
  apply list_elem_of_fmap in Hu as ([j ?] & -> & Hj%elem_of_map_to_list). cbn in *.
  assert (i = j) as -> by (eapply Hd; [done|done|lia]). congruence.
Qed.


(** The offset of a page is computed in 64 bits: page 2^58+1 of 64 tasks is the
    first page again. *)
Theorem ListTasks_wraps f d : ListTasks (at_page f (2 ^ 58 + 1) 64) d = ListTasks (at_page f 1 64) d.
Proof. reflexivity. Qed.

End storage.

(** ** TaskCache.Invalidate *)

(** C30: pattern deletion. With a server that keeps the documented guarantees
    of SCAN, invalidating a literal prefix terminates in a healthy world and
    reports success, whatever entries expire meanwhile; whenever it reports
    success no key under the prefix is left, and it never adds an entry. *)
Theorem Invalidate_complete `{!RedisServer} `{!RedisServerSpec} p r r' x :
  glob_literal p = true → TaskCache.Invalidate (p +:+ "*") r = (r', x) →
  r_store r' ⊆ r_store r ∧ (redis_healthy r → x = Ok tt) ∧
  (x = Ok tt → ∀ s, r_store r' !! (p +:+ s) = None).
Proof.
  intros Hp Hr. destruct (Invalidate_run _ _ _ _ Hr) as ([Hs _] & Hh & Hgone).
  split; [done|]. split; [done|]. intros Hx s. specialize (Hgone Hx).
  rewrite HasSuffix_app in Hgone. by apply Hgone, glob_prefix.
Qed.
