(* ===== verification/System.v ===== *)
(** * System: the services together

    The state of the whole program changes only by the operations of the
    services and by the world around them. Each operation is a step of a small
    abstract machine on boards (the simulation), and the machine's invariant
    says who can appear where. *)
From S2P Require Import Prelude Go Uuid Domain Ports TaskService TaskTheorems.
From S2P Require Import TeamService AuthService CommentService.

Section machine.
Context {W : Type} `{!UuidLib} `{!Backend W}.

(** ** The abstract machine *)

(** What can happen to a board. *)
Inductive evolves (b b' : board) : Prop :=
  | ev_register u : save_user u b tt b' → evolves b b'
  | ev_create_team t owner :
      Team_CreatedBy t = owner → create_team t owner b tt b' → evolves b b'
  | ev_invite caller tm u :
      TeamSvc.may_invite b tm caller → save_member tm u RoleMember b tt b' → evolves b b'
  | ev_create_task t :
      authorised b (Task_TeamID t) (Task_CreatedBy t) (Task_AssigneeID t) →
      save_task t b tt b' → evolves b b'
  | ev_update_task caller taskID input now old :
      b_tasks b !! taskID = Some old → update_authorised b old caller input →
      update_task (updated_task old input taskID caller now)
        (updated_entries old input taskID caller now) b tt b' → evolves b b'
  | ev_comment caller taskID c c' :
      Comment_UserID c = caller → Comment_TaskID c = taskID →
      CommentSvc.may_comment b caller taskID → save_comment c b c' b' → evolves b b'.

(** ** Its invariant *)

(** Tasks are in existing teams, created by and assigned to members only; the
    history of a task and its comments were written by members of its team. *)
Record sound (b : board) : Prop := Sound {
  sound_keys id t : b_tasks b !! id = Some t → Task_ID t = id;
  sound_members tm u : is_member b tm u → is_Some (b_teams b !! tm) ∧ is_Some (b_users b !! u);
  sound_team id t : b_tasks b !! id = Some t → is_Some (b_teams b !! Task_TeamID t);
  sound_creator id t : b_tasks b !! id = Some t → is_member b (Task_TeamID t) (Task_CreatedBy t);
  sound_assignee id t a : b_tasks b !! id = Some t → Task_AssigneeID t = Some a →
    is_member b (Task_TeamID t) a;
  sound_history h : h ∈ b_history b →
    ∃ t, b_tasks b !! TH_TaskID h = Some t ∧ is_member b (Task_TeamID t) (TH_ChangedBy h);
  sound_comments c : c ∈ b_comments b →
    ∃ t, b_tasks b !! Comment_TaskID c = Some t ∧ is_member b (Task_TeamID t) (Comment_UserID c)
}.

Definition empty_board : board := Board ∅ ∅ ∅ ∅ [] [].

Lemma sound_empty : sound empty_board.
Proof.
  split; unfold is_member; simpl.
  - by intros ? ? ?%lookup_empty_Some.
  - by intros ? ? [? ?%lookup_empty_Some].
  - by intros ? ? ?%lookup_empty_Some.
  - by intros ? ? ?%lookup_empty_Some.
  - by intros ? ? ? ?%lookup_empty_Some.
  - by intros ? ?%elem_of_nil.
  - by intros ? ?%elem_of_nil.
Qed.

(** *** The invariant is kept *)

(** Users, teams and memberships are never lost, and a task keeps its team. *)
Record grows (b b' : board) : Prop := Grows {
  grows_users u : is_Some (b_users b !! u) → is_Some (b_users b' !! u);
  grows_teams tm : is_Some (b_teams b !! tm) → is_Some (b_teams b' !! tm);
  grows_members tm u : is_member b tm u → is_member b' tm u;
  grows_tasks id t : b_tasks b !! id = Some t →
    ∃ t', b_tasks b' !! id = Some t' ∧ Task_TeamID t' = Task_TeamID t
}.

Lemma insert_is_Some {K A} `{Countable K} (m : gmap K A) i x j :
  is_Some (m !! j) → is_Some (<[i := x]> m !! j).
Proof. rewrite lookup_insert_is_Some'. auto. Qed.

Hint Resolve insert_is_Some : core.

Context `{!BackendSpec W}.

(** What the writes of the services do to a board, with what must hold of it at
    the time of the write only: the task an update writes need not have been
    read from this board. *)
Inductive moves (b b' : board) : Prop :=
  | mv_register u : save_user u b tt b' → moves b b'
  | mv_create_team t owner : create_team t owner b tt b' → moves b b'
  | mv_member tm u r : save_member tm u r b tt b' → moves b b'
  | mv_create_task t :
      authorised b (Task_TeamID t) (Task_CreatedBy t) (Task_AssigneeID t) →
      save_task t b tt b' → moves b b'
  | mv_update_task t hs row caller :
      b_tasks b !! Task_ID t = Some row → is_member b (Task_TeamID row) caller →
      (∀ a, Task_AssigneeID t = Some a → is_member b (Task_TeamID row) a) →
      Forall (λ h, TH_TaskID h = Task_ID t ∧ TH_ChangedBy h = caller) hs →
      update_task t hs b tt b' → moves b b'
  | mv_comment c c' :
      CommentSvc.may_comment b (Comment_UserID c) (Comment_TaskID c) →
      save_comment c b c' b' → moves b b'.

Lemma moves_grows b b' : moves b b' → grows b b'.
Proof.
  destruct 1 as [u Hu|t o Ht|tm u r Hm|t _ Ht|t hs row c Hrow _ _ _ Ht|c c' _ Hc].
  - destruct Hu as (_ & _ & _ & u' & _ & _ & _ & _ & ->). split; simpl; eauto.
  - destruct Ht as (_ & _ & _ & _ & _ & t' & _ & _ & _ & ->). split; simpl; unfold is_member; simpl; eauto.
  - destruct Hm as (_ & _ & ->). split; simpl; unfold is_member; simpl; eauto.
  - destruct Ht as (Hfresh & _ & _ & ->). split; simpl; eauto. intros id t' Hid.
    exists t'. split; [|done]. rewrite lookup_insert_ne; [done|]. congruence.
  - destruct Ht as (Htask & _ & _ & Hb). rewrite Hrow in Htask. destruct Htask as (_ & _ & Htask).
    rewrite Hb. split; simpl; eauto. intros id' t' Hid'. rewrite Htask.
    destruct (decide (id' = Task_ID t)) as [->|Hne].
    + rewrite lookup_insert_eq. eexists. split; [done|].
      destruct (norm_fields_refs (update_columns row t)) as (_ & -> & _). simpl. congruence.
    + rewrite lookup_insert_ne by done. eauto.
  - destruct Hc as (_ & _ & _ & i & n & _ & ->). split; simpl; eauto.
Qed.

(** Soundness of a board that grew, given the new rows. *)
Lemma sound_grown b b' :
  sound b → grows b b' →
  (∀ tm u, is_member b' tm u → is_member b tm u ∨
     (is_Some (b_teams b' !! tm) ∧ is_Some (b_users b' !! u))) →
  (∀ id t, b_tasks b' !! id = Some t → b_tasks b !! id = Some t ∨
     (Task_ID t = id ∧ is_Some (b_teams b' !! Task_TeamID t) ∧
      is_member b' (Task_TeamID t) (Task_CreatedBy t) ∧
      ∀ a, Task_AssigneeID t = Some a → is_member b' (Task_TeamID t) a)) →
  (∀ h, h ∈ b_history b' → h ∈ b_history b ∨
     ∃ t, b_tasks b' !! TH_TaskID h = Some t ∧ is_member b' (Task_TeamID t) (TH_ChangedBy h)) →
  (∀ c, c ∈ b_comments b' → c ∈ b_comments b ∨
     ∃ t, b_tasks b' !! Comment_TaskID c = Some t ∧ is_member b' (Task_TeamID t) (Comment_UserID c)) →
  sound b'.
Proof.
  intros Hs Hg Hm Ht Hh Hc. split.
  - intros id t Hid. destruct (Ht _ _ Hid) as [?|(? & _)]; [by eapply sound_keys|done].
  - intros tm u Hmem. destruct (Hm _ _ Hmem) as [Hb|?]; [|done].
    destruct (sound_members _ Hs _ _ Hb). split; by apply Hg.
  - intros id t Hid. destruct (Ht _ _ Hid) as [?|(_ & ? & _)]; [|done].
    eapply grows_teams; [done|]. by eapply sound_team.
  - intros id t Hid. destruct (Ht _ _ Hid) as [?|(_ & _ & ? & _)]; [|done].
    eapply grows_members; [done|]. by eapply sound_creator.
  - intros id t a Hid Ha. destruct (Ht _ _ Hid) as [?|(_ & _ & _ & ?)]; [|by auto].
    eapply grows_members; [done|]. by eapply sound_assignee.
  - intros h Hin. destruct (Hh _ Hin) as [Hb|?]; [|done].
    destruct (sound_history _ Hs _ Hb) as (t & Hid & Hmem).
    destruct (grows_tasks _ _ Hg _ _ Hid) as (t' & Ht' & Htm). exists t'. rewrite Htm.
    split; [done|]. by eapply grows_members.
  - intros c Hin. destruct (Hc _ Hin) as [Hb|?]; [|done].
    destruct (sound_comments _ Hs _ Hb) as (t & Hid & Hmem).
    destruct (grows_tasks _ _ Hg _ _ Hid) as (t' & Ht' & Htm). exists t'. rewrite Htm.
    split; [done|]. by eapply grows_members.
Qed.

Lemma sound_moves b b' : sound b → moves b b' → sound b'.
Proof.
  intros Hs Hmv. pose proof (moves_grows _ _ Hmv) as Hg. revert Hmv Hg.
  destruct 1 as [u Hu|t o Ht|tm u r Hm|t Ha Ht|t hs row c Hrow Hc Has Hhs Ht|c c' Hmay Hc];
    intros Hg.
  - destruct Hu as (_ & _ & _ & u' & _ & _ & _ & _ & ->).
    eapply (sound_grown b); [done|done|..]; simpl; auto.
  - destruct Ht as (_ & _ & _ & _ & Hu & t' & _ & _ & _ & ->).
    eapply (sound_grown b); [done|done|..]; simpl; auto.
    intros tm u. unfold is_member. simpl. intros [r Hr].
    destruct (decide ((Team_ID t, o) = (tm, u))) as [[= <- <-]|Hne].
    + right. split; [|done]. rewrite lookup_insert_eq. by eexists.
    + left. rewrite lookup_insert_ne in Hr by done. by exists r.
  - destruct Hm as (Ht & Hu & ->). eapply (sound_grown b); [done|done|..]; simpl; auto.
    intros tm' u'. unfold is_member. simpl. intros [r' Hr].
    destruct (decide ((tm, u) = (tm', u'))) as [[= <- <-]|Hne]; [by right|left].
    rewrite lookup_insert_ne in Hr by done. by exists r'.
  - destruct Ht as (_ & (Ht & _ & _) & _ & ->). eapply (sound_grown b); [done|done|..]; simpl; auto.
    intros id t' Hid. destruct (decide (Task_ID t = id)) as [<-|Hne].
    + rewrite lookup_insert_eq in Hid. injection Hid as <-. right.
      destruct (norm_task_refs t) as (-> & -> & -> & ->). split; [done|]. split; [done|]. apply Ha.
    + rewrite lookup_insert_ne in Hid by done. by left.
  - destruct Ht as (Htask & _ & (hs' & (ids & _ & -> & _) & Hhist) & Hb).
    rewrite Hrow in Htask. destruct Htask as (_ & _ & Htask).
    assert (Hmem : ∀ tm u, is_member b' tm u → is_member b tm u) by (rewrite Hb; done).
    eapply (sound_grown b); [done|done|by auto| | |by rewrite Hb; auto].
    + intros id' t' Hid'. rewrite Htask in Hid'. destruct (decide (Task_ID t = id')) as [<-|Hne].
      * rewrite lookup_insert_eq in Hid'. injection Hid' as <-. right.
        destruct (norm_fields_refs (update_columns row t)) as (-> & -> & -> & ->). simpl.
        split; [by eapply sound_keys|]. split.
        { eapply grows_teams; [done|]. by eapply sound_team. }
        split; [eapply grows_members; [done|by eapply sound_creator]|].
        intros a Haa. eapply grows_members; [done|]. by apply Has.
      * rewrite lookup_insert_ne in Hid' by done. by left.
    + intros h. rewrite Hhist. intros [Hin|Hin]%elem_of_app; [by left|right].
      apply elem_of_lookup_zip_with in Hin as (i & n & h0 & -> & _ & Hh0).
      destruct (norm_history_refs n h0) as [-> ->].
      rewrite Forall_forall in Hhs. destruct (Hhs h0) as [-> ->]; [by eapply list_elem_of_lookup_2|].
      destruct (grows_tasks _ _ Hg _ _ Hrow) as (t' & Ht' & Htm). exists t'. rewrite Htm.
      split; [done|]. by eapply grows_members.
  - destruct Hc as (_ & _ & _ & i & n & _ & ->). eapply (sound_grown b); [done|done|..]; simpl; auto.
    intros c1 [Hin|Hin]%elem_of_app; [by left|right]. apply list_elem_of_singleton in Hin as ->. simpl.
    destruct Hmay as (t & Ht & Hm). by exists t.
Qed.

(** *** The machine's steps are such moves *)

Lemma updated_task_assignee old input taskID caller now :
  Task_AssigneeID (updated_task old input taskID caller now) =
  from_option Some (Task_AssigneeID old) (UTI_AssigneeID input).
Proof. unfold updated_task. simpl. by rewrite buildHistoryEntries_merge. Qed.

(** The entries of an update are the caller's and of the task. *)
Lemma updated_entries_refs old input taskID caller now :
  Forall (λ h, TH_TaskID h = taskID ∧ TH_ChangedBy h = caller)
    (updated_entries old input taskID caller now).
Proof.
  apply Forall_forall. unfold updated_entries. intros h (h1 & -> & Hh1)%list_elem_of_fmap. simpl.
  destruct (buildHistoryEntries_audited old input taskID caller) as (changed & He & _).
  rewrite He in Hh1. by apply list_elem_of_fmap in Hh1 as (f & -> & _).
Qed.

(** The assignee an authorised update writes is a member of the team, if the
    one it was read with is. *)
Lemma updated_assignee_member b old input taskID caller now a :
  (∀ a, Task_AssigneeID old = Some a → is_member b (Task_TeamID old) a) →
  update_authorised b old caller input →
  Task_AssigneeID (updated_task old input taskID caller now) = Some a →
  is_member b (Task_TeamID old) a.
Proof.
  rewrite updated_task_assignee. intros Hold [_ Hauth] Ha.
  destruct (UTI_AssigneeID input) as [a'|] eqn:Hin; simpl in Ha; [|by auto].
  injection Ha as ->. destruct (decide (Task_AssigneeID old = Some a)); auto.
Qed.

Lemma evolves_moves b b' : sound b → evolves b b' → moves b b'.
Proof.
  intros Hs. destruct 1 as [u Hu|t o _ Ht|c tm u _ Hm|t Ha Ht|c id input now old Hold Ha Ht|c id cm cm' <- <- Hmay Hc].
  - by eapply mv_register.
  - by eapply mv_create_team.
  - by eapply mv_member.
  - by eapply mv_create_task.
  - destruct (updated_task_identity old input id c now) as [Hid _].
    pose proof (sound_keys _ Hs _ _ Hold) as Hk.
    eapply (mv_update_task _ _ (updated_task old input id c now) _ old c); [by rewrite Hid, Hk|exact (proj1 Ha)| | |exact Ht].
    + intros a. apply updated_assignee_member; [|done]. intros a'. by eapply sound_assignee.
    + rewrite Hid, Hk. apply updated_entries_refs.
  - by eapply mv_comment.
Qed.

Lemma evolves_grows b b' : sound b → evolves b b' → grows b b'.
Proof. intros Hs He. by apply moves_grows, evolves_moves. Qed.

Lemma sound_evolves b b' : sound b → evolves b b' → sound b'.
Proof. intros Hs He. eapply sound_moves; [done|]. by apply evolves_moves. Qed.

(** ** The services are the machine *)

Context `{!UuidLibSpec} `{!CacheCodec} `{!JwtLib}.

Record App : Type := MkApp {
  authSvc : AuthSvc.Service W;
  teamSvc : TeamSvc.Service W;
  taskSvc : TaskService.Service W;
  commentSvc : CommentSvc.Service W
}.

Class AppSpec (a : App) : Prop := {
  #[global] auth_spec :: AuthSvc.ServiceSpec (authSvc a);
  #[global] team_spec :: TeamSvc.ServiceSpec (teamSvc a);
  #[global] task_spec :: TaskService.ServiceSpec (taskSvc a);
  #[global] comment_spec :: CommentSvc.ServiceSpec (commentSvc a)
}.

(** The requests the services can be asked to serve. *)
Inductive request : Type :=
  | ReqRegister (email name password : string)
  | ReqLogin (email password : string)
  | ReqCreateTeam (ownerID : uuid) (name : string)
  | ReqListTeams (userID : uuid)
  | ReqInvite (callerID teamID targetID : uuid)
  | ReqCreateTask (creatorID : uuid) (input : CreateTaskInput)
  | ReqListTasks (callerID : uuid) (filter : TaskFilter)
  | ReqUpdateTask (callerID taskID : uuid) (input : UpdateTaskInput)
  | ReqTaskHistory (callerID taskID : uuid)
  | ReqAddComment (callerID taskID : uuid) (body : string)
  | ReqListComments (callerID taskID : uuid).

(** The world a request leaves, whether it succeeds or fails. *)
Definition serve (a : App) (q : request) (w : W) : W :=
  match q with
  | ReqRegister email name password => (AuthSvc.Register (authSvc a) email name password w).1
  | ReqLogin email password => (AuthSvc.Login (authSvc a) email password w).1
  | ReqCreateTeam owner name => (TeamSvc.Create (teamSvc a) owner name w).1
  | ReqListTeams u => (TeamSvc.ListForUser (teamSvc a) u w).1
  | ReqInvite c tm u => (TeamSvc.Invite (teamSvc a) c tm u w).1
  | ReqCreateTask c input => (TaskService.Create (taskSvc a) c input w).1
  | ReqListTasks c f => (TaskService.List (taskSvc a) c f w).1
  | ReqUpdateTask c t input => (TaskService.Update (taskSvc a) c t input w).1
  | ReqTaskHistory c t => (TaskService.History (taskSvc a) c t w).1
  | ReqAddComment c t body => (CommentSvc.Add (commentSvc a) c t body w).1
  | ReqListComments c t => (CommentSvc.List (commentSvc a) c t w).1
  end.

(** The program runs: it serves a request, or time passes (entries expire,
    the driver loses or regains its connection), which touches no row. *)
Inductive runs (a : App) : W → W → Prop :=
  | runs_serve q w : runs a w (serve a q w)
  | runs_idle w w' : board_of w' = board_of w → cache_of w' ⊆ cache_of w → runs a w w'.

Lemma writes_board {A} (m : comp W A) step w1 w2 r :
  writes m step → m w1 = (w2, r) →
  board_of w2 = board_of w1 ∨ ∃ a, step (board_of w1) a (board_of w2).
Proof.
  intros Hm Hr. destruct (Hm _ _ _ Hr) as (_ & Hok & Herr & _). destruct r as [a|e]; [eauto|].
  by destruct (Herr _ eq_refl).
Qed.

Section simulation.
Context (a : App) `{!AppSpec a}.

(** Every request performs one step of the machine, or none. *)
Lemma serve_simulates q w :
  board_of (serve a q w) = board_of w ∨ evolves (board_of w) (board_of (serve a q w)).
Proof.
  destruct q as [em nm pw|em pw|o nm|u|c tm t|c i|c f|c t i|c t|c t bd|c t]; simpl.
  - destruct (AuthSvc.Register _ _ _ _ w) as [w' r] eqn:E; cbn [fst].
    apply AuthSvc.Register_run in E; try apply _.
    destruct E as [(e & _ & Hq & _)|(_ & id & h & n & w1 & r1 & Hq & _ & Hs & _)];
      [by left; apply Hq|]. rewrite <-(quiet_board _ _ Hq).
    destruct (writes_board _ _ _ _ _ (SaveUser_writes _) Hs) as [Hb|[[] Hb]]; [by left|right].
    by econstructor.
  - destruct (AuthSvc.Login _ _ _ w) as [w' r] eqn:E; cbn [fst]. left. apply AuthSvc.Login_quiet in E; try apply _. apply E.
  - destruct (TeamSvc.Create _ _ _ w) as [w' r] eqn:E; cbn [fst].
    apply TeamSvc.CreateTeam_run in E; try apply _.
    destruct E as [(e & _ & Hq & _)|(id & n & w1 & r1 & Hq & Hs & _)];
      [by left; apply Hq|]. rewrite <-(quiet_board _ _ Hq).
    destruct (writes_board _ _ _ _ _ (CreateTeamWithOwner_writes _ _) Hs) as [Hb|[[] Hb]]; [by left|right].
    by eapply ev_create_team; [|exact Hb].
  - destruct (TeamSvc.ListForUser _ _ w) as [w' r] eqn:E; cbn [fst]. left. apply TeamSvc.ListForUser_quiet in E; try apply _. apply E.
  - destruct (TeamSvc.Invite _ _ _ _ w) as [w' r] eqn:E; cbn [fst].
    apply TeamSvc.Invite_run in E; try apply _.
    destruct E as [(e & _ & Hq & _)|(_ & Hmay & _ & w1 & w2 & r1 & Hq & Hs & Hr)];
      [by left; apply Hq|]. assert (board_of w' = board_of w2) as ->.
    { destruct r1; destruct Hr as [_ Hr]; [apply Hr|by subst]. }
    rewrite <-(quiet_board _ _ Hq) in *.
    destruct (writes_board _ _ _ _ _ (SaveMember_writes _ _ _ TeamSvc.RoleMember_valid) Hs)
      as [Hb|[[] Hb]]; [by left|right]. by eapply ev_invite; [|exact Hb].
  - destruct (TaskService.Create _ _ _ w) as [w' r] eqn:E; cbn [fst].
    apply TaskService.Create_run in E; try apply _.
    destruct E as [(e & _ & Hq & _)|(Ha & id & n & w1 & w2 & r1 & Hq & Hs & Hr)];
      [by left; apply Hq|]. assert (board_of w' = board_of w2) as ->.
    { destruct r1; destruct Hr as [_ Hr]; [apply Hr|by subst]. }
    rewrite <-(quiet_board _ _ Hq) in *.
    destruct (writes_board _ _ _ _ _ (SaveTask_writes _) Hs) as [Hb|[[] Hb]]; [by left|right].
    by eapply ev_create_task; [|exact Hb].
  - destruct (TaskService.List _ _ _ w) as [w' r] eqn:E; cbn [fst]. left.
    apply TaskService.List_run in E; try apply _.
    destruct E as [(e & _ & Hq & _)|(tm & res & _ & _ & _ & Hc)];
      [by apply Hq|]. destruct Hc as [(d & l & _ & _ & _ & Hq)|(_ & Hb & _)]; [apply Hq|done].
  - destruct (TaskService.Update _ _ _ _ w) as [w' r] eqn:E; cbn [fst].
    apply TaskService.Update_run in E; try apply _.
    destruct E as [(e & _ & Hq & _)|(old & n & w1 & w2 & r1 & Hold & Ha & Hq & Hs & Hr)];
      [by left; apply Hq|]. assert (board_of w' = board_of w2) as ->.
    { destruct r1; destruct Hr as [_ Hr]; [apply Hr|by subst]. }
    rewrite <-(quiet_board _ _ Hq) in *.
    destruct (writes_board _ _ _ _ _ (UpdateTaskWithHistory_writes _ _) Hs) as [Hb|[[] Hb]];
      [by left|right]. by eapply ev_update_task; [| |exact Hb].
  - destruct (TaskService.History _ _ _ w) as [w' r] eqn:E; cbn [fst]. left.
    apply TaskService.History_run in E; try apply _. apply E.
  - destruct (CommentSvc.Add _ _ _ _ w) as [w' r] eqn:E; cbn [fst].
    apply CommentSvc.guard_run in E; try apply _.
    destruct E as [(e & _ & Hq & _)|(Hmay & w1 & Hq & Hr)];
      [by left; apply Hq|].
    rewrite <-(quiet_board _ _ Hq) in *.
    run_last Hr as x E;
      (destruct (writes_board _ _ _ _ _ (SaveComment_writes _) E) as [Hb|[c' Hb]]; [by left|right]);
      by eapply (ev_comment _ _ c t); [..|exact Hb].
  - destruct (CommentSvc.List _ _ _ w) as [w' r] eqn:E; cbn [fst]. left.
    apply CommentSvc.List_quiet in E; try apply _. apply E.
Qed.

(** *** The cache *)

(** Only Create and Update of tasks write tasks, and only List adds to the
    cache. *)
Definition writes_tasks (q : request) : bool :=
  match q with ReqCreateTask _ _ | ReqUpdateTask _ _ _ | ReqListTasks _ _ => true | _ => false end.

Definition same_tasks (w w' : W) : Prop :=
  b_tasks (board_of w') = b_tasks (board_of w) ∧ cache_of w' ⊆ cache_of w.

Lemma same_tasks_quiet w w' : quiet w w' → same_tasks w w'.
Proof. intros [Hb Hc _]. split; [by rewrite Hb|done]. Qed.

Lemma same_tasks_trans w1 w2 w3 : same_tasks w1 w2 → same_tasks w2 w3 → same_tasks w1 w3.
Proof. intros [Hb Hc] [Hb' Hc']. split; [congruence|by etrans]. Qed.

Lemma writes_same_tasks {A} (m : comp W A) step w1 w2 r :
  writes m step → (∀ b x b', step b x b' → b_tasks b' = b_tasks b) → m w1 = (w2, r) →
  same_tasks w1 w2.
Proof.
  intros Hm Hstep Hr. split; [|by apply (Hm _ _ _ Hr)].
  destruct (writes_board _ _ _ _ _ Hm Hr) as [->|[x Hx]]; [done|by eapply Hstep].
Qed.

Lemma serve_same_tasks q w : writes_tasks q = false → same_tasks w (serve a q w).
Proof.
  destruct q as [em nm pw|em pw|o nm|u|c tm t|c i|c f|c t i|c t|c t bd|c t]; try done; intros _; simpl.
  - destruct (AuthSvc.Register _ _ _ _ w) as [w' r] eqn:E; cbn [fst].
    apply AuthSvc.Register_run in E; try apply _.
    destruct E as [(e & _ & Hq & _)|(_ & id & h & n & w1 & r1 & Hq & _ & Hs & _)];
      [by apply same_tasks_quiet|]. eapply same_tasks_trans; [by apply same_tasks_quiet|].
    eapply (writes_same_tasks _ _ _ _ _ (SaveUser_writes _)); [|exact Hs].
    by intros b [] b' (_ & _ & _ & u' & _ & _ & _ & _ & ->).
  - destruct (AuthSvc.Login _ _ _ w) as [w' r] eqn:E; cbn [fst].
    apply AuthSvc.Login_quiet in E; try apply _. by apply same_tasks_quiet.
  - destruct (TeamSvc.Create _ _ _ w) as [w' r] eqn:E; cbn [fst].
    apply TeamSvc.CreateTeam_run in E; try apply _.
    destruct E as [(e & _ & Hq & _)|(id & n & w1 & r1 & Hq & Hs & _)];
      [by apply same_tasks_quiet|]. eapply same_tasks_trans; [by apply same_tasks_quiet|].
    eapply (writes_same_tasks _ _ _ _ _ (CreateTeamWithOwner_writes _ _)); [|exact Hs].
    by intros b [] b' (_ & _ & _ & _ & _ & t' & _ & _ & _ & ->).
  - destruct (TeamSvc.ListForUser _ _ w) as [w' r] eqn:E; cbn [fst].
    apply TeamSvc.ListForUser_quiet in E; try apply _. by apply same_tasks_quiet.
  - destruct (TeamSvc.Invite _ _ _ _ w) as [w' r] eqn:E; cbn [fst].
    apply TeamSvc.Invite_run in E; try apply _.
    destruct E as [(e & _ & Hq & _)|(_ & _ & _ & w1 & w2 & r1 & Hq & Hs & Hr)];
      [by apply same_tasks_quiet|]. eapply same_tasks_trans; [by apply same_tasks_quiet|].
    eapply same_tasks_trans.
    + eapply (writes_same_tasks _ _ _ _ _ (SaveMember_writes _ _ _ TeamSvc.RoleMember_valid));
        [|exact Hs]. by intros b [] b' (_ & _ & ->).
    + destruct r1; destruct Hr as [_ Hr]; [by apply same_tasks_quiet|by subst].
  - destruct (TaskService.History _ _ _ w) as [w' r] eqn:E; cbn [fst].
    apply TaskService.History_run in E; try apply _. apply same_tasks_quiet, E.
  - destruct (CommentSvc.Add _ _ _ _ w) as [w' r] eqn:E; cbn [fst].
    apply CommentSvc.guard_run in E; try apply _.
    destruct E as [(e & _ & Hq & _)|(Hmay & w1 & Hq & Hr)]; [by apply same_tasks_quiet|].
    eapply same_tasks_trans; [by apply same_tasks_quiet|].
    run_last Hr as x E;
      (eapply (writes_same_tasks _ _ _ _ _ (SaveComment_writes _)); [|exact E];
       by intros b x' b' (_ & _ & _ & i & n & _ & ->)).
  - destruct (CommentSvc.List _ _ _ w) as [w' r] eqn:E; cbn [fst].
    apply CommentSvc.List_quiet in E; try apply _. by apply same_tasks_quiet.
Qed.

Lemma coherent_same_tasks w w' : same_tasks w w' → coherent w → coherent w'.
Proof.
  intros [Hb Hc] Hco f d Hf Hk. destruct (Hf) as ([tm Htm] & _).
  destruct (Hco f d) as (l & Hl & Hd); [done|by eapply lookup_weaken|]. exists l. split; [|done].
  apply (list_answer_local (board_of w) (board_of w') f tm Htm); [by rewrite Hb|done].
Qed.

(** A request whose status filter, if any, is not the word "all". *)
Definition proper_request (q : request) : Prop :=
  match q with ReqListTasks _ f => proper_status f | _ => True end.

Lemma serve_coherent q w :
  healthy w → proper_request q → coherent w → coherent (serve a q w).
Proof.
  intros Hw Hp Hco. destruct (writes_tasks q) eqn:Eq.
  - destruct q as [| | | | |c i|c f|c t i| | |]; try done; simpl.
    + destruct (TaskService.Create _ _ _ w) as [w' r] eqn:E. by eapply (coherent_Create (taskSvc a)); [..|exact E].
    + destruct (TaskService.List _ _ _ w) as [w' r] eqn:E. by eapply (coherent_List (taskSvc a)); [..|exact E].
    + destruct (TaskService.Update _ _ _ _ w) as [w' r] eqn:E. by eapply (coherent_Update (taskSvc a)); [..|exact E].
  - eapply coherent_same_tasks; [|done]. by apply serve_same_tasks.
Qed.

(** The runs of a program nothing goes wrong around. *)
Inductive healthy_runs : W → W → Prop :=
  | healthy_serve q w : healthy w → proper_request q → healthy_runs w (serve a q w)
  | healthy_idle w w' : board_of w' = board_of w → cache_of w' ⊆ cache_of w → healthy_runs w w'.

(** C33: simulation. Whatever a request's outcome, the program's board after it
    is the board before, or one step of the abstract machine away: an
    authorised, complete operation. *)
Theorem system_refines q w :
  board_of (serve a q w) = board_of w ∨ evolves (board_of w) (board_of (serve a q w)).
Proof. apply serve_simulates. Qed.

(** C3: in every reachable state, through any sequence of requests, failures
    and expiries, tasks belong to existing teams, are created by and assigned
    to members only, and histories and comments were written by members. *)
Theorem system_sound w0 w : sound (board_of w0) → rtc (runs a) w0 w → sound (board_of w).
Proof.
  intros Hi0. induction 1 as [|w0 w1 w2 Hrun _ IH]; [done|]. apply IH. clear IH.
  destruct Hrun as [q w0|w0 w1 Hb _]; [|by rewrite Hb].
  destruct (serve_simulates q w0) as [->|Hev]; [done|by eapply sound_evolves].
Qed.


(** memberships, users and teams are never lost, and a task never changes
    its team, in any run. *)
Theorem system_monotone w0 w :
  sound (board_of w0) → rtc (runs a) w0 w → grows (board_of w0) (board_of w).
Proof.
  intros Hi0 Hrun. revert Hi0. induction Hrun as [w|w0 w1 w2 Hrun _ IH]; intros Hi0.
  { split; eauto. }
  assert (grows (board_of w0) (board_of w1) ∧ sound (board_of w1)) as [Hg Hi1].
  { destruct Hrun as [q w0|w0 w1 Hb _]; [|rewrite Hb; split; [split; eauto|done]].
    destruct (serve_simulates q w0) as [->|Hev]; [split; [split; eauto|done]|].
    split; [by apply evolves_grows|by eapply sound_evolves]. }
  specialize (IH Hi1). split.
  - intros u Hu. by apply IH, Hg.
  - intros tm Htm. by apply IH, Hg.
  - intros tm u Hm. by apply IH, Hg.
  - intros id t Ht. destruct (grows_tasks _ _ Hg _ _ Ht) as (t1 & Ht1 & Htm1).
    destruct (grows_tasks _ _ IH _ _ Ht1) as (t2 & Ht2 & Htm2). exists t2. split; [done|congruence].
Qed.

End simulation.

End machine.
