(* ===== verification/Interleave.v ===== *)
(** * Interleave: requests in flight together

    The services run each request to its end as one function of the world. The
    program runs requests in goroutines, whose calls to the database, the cache
    and the libraries interleave. Here a request is the tree of its calls; a
    pool of such trees and a world take steps, one call of one request at a
    time. A small logic of trees, about the boards a run has passed through,
    shows that a request keeps the invariant of the program whatever happens
    between its calls, and what its answer is worth. *)
From S2P Require Import Prelude Go Uuid Domain Ports TaskService System.

(** ** Programs as trees of calls *)

Inductive prog (W A : Type) : Type :=
  | Done (r : result A)
  | Call {X : Type} (m : comp W X) (k : result X → prog W A).
Arguments Done {W A} r.
Arguments Call {W A X} m k.

(** A single call, and the combinators of Go. *)
Definition call {W A} (m : comp W A) : prog W A := Call m Done.

#[global] Instance prog_ret W : MRet (prog W) := λ A a, Done (Ok a).

Fixpoint prog_then {W A B} (p : prog W A) (f : result A → prog W B) : prog W B :=
  match p with
  | Done r => f r
  | Call m k => Call m (λ x, prog_then (k x) f)
  end.

#[global] Instance prog_bind W : MBind (prog W) := λ A B f p,
  prog_then p (λ r, match r with Ok a => f a | Err e => Done (Err e) end).

Definition throws {W A} (e : error) : prog W A := Done (Err e).
Definition when_err {W A} (h : error → error) (p : prog W A) : prog W A :=
  prog_then p (λ r, Done (match r with Ok a => Ok a | Err e => Err (h e) end)).
Definition ignoring {W A} (p : prog W A) : prog W unit := prog_then p (λ _, Done (Ok tt)).
Definition trying {W A} (p : prog W A) : prog W (result A) := prog_then p (λ r, Done (Ok r)).

(** The value of a program, seen as another. *)
Definition answering {W A B} (f : A → B) (p : prog W A) : prog W B := a ← p; mret (f a).

(** Its calls one after the other, with nothing in between. *)
Fixpoint run {W A} (p : prog W A) : comp W A := λ w,
  match p with
  | Done r => (w, r)
  | Call m k => let '(w', x) := m w in run (k x) w'
  end.

(** [p] is the tree of the sequential [m]. *)
Definition tree_of {W A} (p : prog W A) (m : comp W A) : Prop := ∀ w, run p w = m w.

Section trees.
Context {W : Type}.

Lemma run_then {A B} (p : prog W A) (f : result A → prog W B) w :
  run (prog_then p f) w = let '(w', r) := run p w in run (f r) w'.
Proof.
  revert w. induction p as [r|X m k IH]; intros w; [done|]. cbn. destruct (m w) as [w' x]. apply IH.
Qed.

Lemma tree_call {A} (m : comp W A) : tree_of (call m) m.
Proof. intros w. unfold call. cbn. by destruct (m w). Qed.

Lemma tree_ret {A} (a : A) : tree_of (mret a) (mret a : comp W A).
Proof. done. Qed.

Lemma tree_throw {A} e : tree_of (throws e) (throw e : comp W A).
Proof. done. Qed.

Lemma tree_bind {A B} (p : prog W A) m (f : A → prog W B) g :
  tree_of p m → (∀ a, tree_of (f a) (g a)) → tree_of (p ≫= f) (m ≫= g).
Proof.
  intros Hp Hf w. unfold mbind, prog_bind, comp_bind. rewrite run_then, Hp.
  destruct (m w) as [w' [a|e]]; [apply Hf|done].
Qed.

Lemma tree_when_err {A} h (p : prog W A) m : tree_of p m → tree_of (when_err h p) (on_err h m).
Proof.
  intros Hp w. unfold when_err, on_err. rewrite run_then, Hp. by destruct (m w) as [w' [a|e]].
Qed.

Lemma tree_ignoring {A} (p : prog W A) m : tree_of p m → tree_of (ignoring p) (ignore_err m).
Proof. intros Hp w. unfold ignoring, ignore_err. rewrite run_then, Hp. by destruct (m w). Qed.

Lemma tree_trying {A} (p : prog W A) m : tree_of p m → tree_of (trying p) (attempt m).
Proof. intros Hp w. unfold trying, attempt. rewrite run_then, Hp. by destruct (m w). Qed.

End trees.

(** ** Pools

    A pool is a list of requests in flight, each with the tree of the calls it
    still has to make. *)
Section schedules.
Context {W L R : Type}.

(** One of the requests in flight makes its next call. *)
Inductive calls : W * list (L * prog W R) → W * list (L * prog W R) → Prop :=
  | calls_next {X} (m : comp W X) (k : result X → prog W R) w w' x l ts1 ts2 :
      m w = (w', x) →
      calls (w, ts1 ++ (l, Call m k) :: ts2) (w', ts1 ++ (l, k x) :: ts2).

(** The next call of the [i]-th request, and a whole schedule of such calls. *)
Definition advance (i : nat) (c : W * list (L * prog W R)) : W * list (L * prog W R) :=
  match c.2 !! i with
  | Some (l, Call m k) => let '(w', x) := m c.1 in (w', <[i := (l, k x)]> c.2)
  | _ => c
  end.

Definition play (schedule : list nat) (c : W * list (L * prog W R)) : W * list (L * prog W R) :=
  foldl (λ c i, advance i c) c schedule.

(** What a request that ended has answered. *)
Definition answer_of (t : L * prog W R) : option (result R) :=
  match t.2 with Done r => Some r | Call _ _ => None end.

Definition succeeded (t : L * prog W R) : bool :=
  match answer_of t with Some (Ok _) => true | _ => false end.

Lemma advance_calls i c : rtc calls c (advance i c).
Proof.
  destruct c as [w ts]. unfold advance. cbn [fst snd].
  destruct (ts !! i) as [[l [r|X m k]]|] eqn:Hi; [apply rtc_refl| |apply rtc_refl].
  destruct (m w) as [w' x] eqn:Hm. apply rtc_once.
  rewrite <-(take_drop_middle ts i _ Hi) at 1.
  rewrite insert_take_drop by by eapply lookup_lt_Some. by apply calls_next.
Qed.

Lemma play_calls schedule c : rtc calls c (play schedule c).
Proof.
  revert c. induction schedule as [|i schedule IH]; intros c; [apply rtc_refl|].
  etrans; [apply advance_calls|apply IH].
Qed.

End schedules.

(** ** A property that every call preserves *)
Section preserved.
Context {W : Type} (P : W → Prop).

Fixpoint all_calls {A} (p : prog W A) : Prop :=
  match p with
  | Done _ => True
  | Call m k => preserves P m ∧ ∀ x, all_calls (k x)
  end.

Lemma all_calls_then {A B} (p : prog W A) (f : result A → prog W B) :
  all_calls p → (∀ r, all_calls (f r)) → all_calls (prog_then p f).
Proof. intros Hp Hf. induction p as [r|X m k IH]; cbn; [apply Hf|]. destruct Hp as [? Hk]. eauto. Qed.

Lemma all_calls_bind {A B} (p : prog W A) (f : A → prog W B) :
  all_calls p → (∀ a, all_calls (f a)) → all_calls (p ≫= f).
Proof. intros Hp Hf. apply all_calls_then; [done|]. by intros [a|e]. Qed.
Lemma all_calls_answering {A B} (f : A → B) (p : prog W A) : all_calls p → all_calls (answering f p).
Proof. intros Hp. by apply all_calls_bind. Qed.
Lemma all_calls_when_err {A} h (p : prog W A) : all_calls p → all_calls (when_err h p).
Proof. intros Hp. by apply all_calls_then. Qed.
Lemma all_calls_ignoring {A} (p : prog W A) : all_calls p → all_calls (ignoring p).
Proof. intros Hp. by apply all_calls_then. Qed.
Lemma all_calls_trying {A} (p : prog W A) : all_calls p → all_calls (trying p).
Proof. intros Hp. by apply all_calls_then. Qed.
Lemma all_calls_call {A} (m : comp W A) : preserves P m → all_calls (call m).
Proof. by split. Qed.

Lemma run_preserves {A} (p : prog W A) : all_calls p → preserves P (run p).
Proof.
  induction p as [r|X m k IH]; intros Hp w Hw; cbn; [done|]. destruct Hp as [Hm Hk].
  specialize (Hm w Hw). destruct (m w) as [w' x]. by apply IH.
Qed.

Lemma calls_preserve {L R} (c c' : W * list (L * prog W R)) :
  calls c c' → P c.1 → Forall (λ t, all_calls t.2) c.2 →
  P c'.1 ∧ Forall (λ t, all_calls t.2) c'.2.
Proof.
  destruct 1 as [X m k w w' x l ts1 ts2 Hm]. cbn. intros Hw Hts.
  apply Forall_app in Hts as [H1 H2]. apply Forall_cons in H2 as [[Hp Hk] H3].
  split; [|by apply Forall_app; split; [done|constructor; [apply Hk|]]]. specialize (Hp w Hw). by rewrite Hm in Hp.
Qed.

End preserved.

(** What the services answer. *)
Inductive answer : Type :=
  | ADone
  | AToken (token : string)
  | ATeam (t : Team)
  | ATeams (l : list Team)
  | ATask (t : Task)
  | ATasks (l : list Task) (total : Z)
  | AHistory (l : list TaskHistory)
  | AComment (c : Comment)
  | AComments (l : list Comment).

Abbreviation flight W := (request * prog W answer)%type.

Section pools.
Context {W : Type} `{!UuidLib} `{!CacheCodec} `{!Backend W} `{!BackendSpec W}.
Context (start : request → prog W answer).

(** One step: a request arrives, one request makes its next call, or time
    passes (entries expire, connections come and go). *)
Inductive steps (c : W * list (flight W)) : W * list (flight W) → Prop :=
  | steps_arrive q : steps c (c.1, c.2 ++ [(q, start q)])
  | steps_call c' : calls c c' → steps c c'
  | steps_idle w' :
      board_of w' = board_of c.1 → cache_of w' ⊆ cache_of c.1 → steps c (w', c.2).

Lemma play_steps schedule c : rtc steps c (play schedule c).
Proof.
  eapply rtc_subrel; [|apply play_calls]. intros c1 c2. apply steps_call.
Qed.

Lemma arrive_steps qs w ts : rtc steps (w, ts) (w, ts ++ ((λ q, (q, start q)) <$> qs)).
Proof.
  revert ts. induction qs as [|q qs IH]; intros ts; [rewrite app_nil_r; apply rtc_refl|].
  eapply rtc_l; [apply (steps_arrive _ q)|]. cbn [fmap list_fmap fst snd].
  replace (ts ++ (q, start q) :: ((λ q, (q, start q)) <$> qs))
    with ((ts ++ [(q, start q)]) ++ ((λ q, (q, start q)) <$> qs))
    by by rewrite <-(assoc_L (++)). apply IH.
Qed.

(** A property that every call of every request preserves, and time too. *)
Lemma steps_preserve (P : W → Prop) c c' :
  (∀ q, all_calls P (start q)) →
  (∀ w w', board_of w' = board_of w → cache_of w' ⊆ cache_of w → P w → P w') →
  rtc steps c c' → P c.1 → Forall (λ t, all_calls P t.2) c.2 → P c'.1.
Proof.
  intros Hstart Hidle. induction 1 as [c|c1 c2 c3 Hstep _ IH]; [done|]. intros Hw Hts.
  destruct Hstep as [q|c2 Hc|w' Hb Hc].
  - apply IH; [done|]. apply Forall_app. split; [done|]. constructor; [apply Hstart|constructor].
  - destruct (calls_preserve P _ _ Hc Hw Hts). by apply IH.
  - apply IH; [|done]. by eapply Hidle.
Qed.

(** ** Trails: the boards a run has passed through *)

Record trail : Type := Trail { current : board; past : list board }.

Definition seen (h : trail) (b : board) : Prop := b = current h ∨ b ∈ past h.
Definition extend (h : trail) (b : board) : trail := Trail b (current h :: past h).

(** What a run can make of a trail. *)
Record later (h h' : trail) : Prop := Later {
  later_grows : grows (current h) (current h');
  later_seen b : seen h b → seen h' b
}.

Lemma grows_refl b : grows b b.
Proof. split; eauto. Qed.

Lemma grows_trans b1 b2 b3 : grows b1 b2 → grows b2 b3 → grows b1 b3.
Proof.
  intros H12 H23. split.
  - intros u ?. by apply H23, H12.
  - intros tm ?. by apply H23, H12.
  - intros tm u ?. by apply H23, H12.
  - intros id t Ht. destruct (grows_tasks _ _ H12 _ _ Ht) as (t2 & Ht2 & Hm2).
    destruct (grows_tasks _ _ H23 _ _ Ht2) as (t3 & Ht3 & Hm3). exists t3. split; [done|congruence].
Qed.

#[export] Instance later_preorder : PreOrder later.
Proof.
  split; [intros h; split; [apply grows_refl|done]|].
  intros h1 h2 h3 [Hg12 Hs12] [Hg23 Hs23]. split; [by eapply grows_trans|auto].
Qed.

Lemma seen_extend h b b' : seen (extend h b) b' ↔ b' = b ∨ seen h b'.
Proof. unfold seen, extend. cbn. rewrite elem_of_cons. naive_solver. Qed.

Lemma later_extend h b : grows (current h) b → later h (extend h b).
Proof. intros Hg. split; [done|]. intros b'. rewrite seen_extend. by right. Qed.

(** ** Where a list of tasks comes from *)

(** The rows are the page of one board of the trail and the total the count of
    another; and, whatever the page, each row was a task of the team on a board
    of the trail. *)
Definition sourced (h : trail) (f : TaskFilter) (l : cachedList) : Prop :=
  (page_ok f → ∃ b1 b2, seen h b1 ∧ seen h b2 ∧
     (∃ n, list_answers b1 f (CL_Tasks l, n)) ∧ (∃ ts, list_answers b2 f (ts, CL_Total l))) ∧
  (∀ t, t ∈ CL_Tasks l → ∃ b, seen h b ∧ row_of f t b).

(** Every entry of the cache is the encoding of such a list, of a filter with
    the entry's key. *)
Definition entries_sourced (h : trail) (c : gmap string bytes) : Prop :=
  ∀ f d, c !! cacheKey f = Some d →
    ∃ g l, cacheKey g = cacheKey f ∧ json_Marshal l = Ok d ∧ sourced h g l.

Lemma sourced_later h h' f l : (∀ b, seen h b → seen h' b) → sourced h f l → sourced h' f l.
Proof.
  intros Hs [Hp Ht]. split.
  - intros Hpo. destruct (Hp Hpo) as (b1 & b2 & ? & ? & ? & ?). exists b1, b2. auto.
  - intros t Hin. destruct (Ht t Hin) as (b & ? & ?). exists b. auto.
Qed.

Lemma entries_later h h' c c' :
  (∀ b, seen h b → seen h' b) → c' ⊆ c → entries_sourced h c → entries_sourced h' c'.
Proof.
  intros Hs Hc He f d Hd. destruct (He f d) as (g & l & ? & ? & ?); [by eapply lookup_weaken|].
  exists g, l. split; [done|]. split; [done|]. by eapply sourced_later.
Qed.

Lemma entries_insert h c f l d :
  json_Marshal l = Ok d → sourced h f l → entries_sourced h c →
  entries_sourced h (<[cacheKey f := d]> c).
Proof.
  intros Hm Hl He f' d'. destruct (decide (cacheKey f = cacheKey f')) as [Hk|Hk].
  - rewrite Hk, lookup_insert_eq. intros [= <-]. eauto 6.
  - rewrite lookup_insert_ne by done. apply He.
Qed.

(** ** A logic of trees *)

(** A fact about the trail that what the program does cannot end. *)
Definition stable (F : trail → Prop) : Prop := ∀ h h', later h h' → F h → F h'.

(** A fact about the current board. *)
Definition on_board (F : board → Prop) (h : trail) : Prop := F (current h).

(** The invariant of the program, at a trail. *)
Record inv (h : trail) (w : W) : Prop := Inv {
  inv_current : current h = board_of w;
  inv_sound : sound (current h);
  inv_entries : entries_sourced h (cache_of w)
}.

(** From a trail where [F] holds, every call keeps the board or makes one of the
    program's moves, and keeps the cache sourced, whatever happens in between;
    and a value comes with [Q]. *)
Fixpoint keeps {A} (F : trail → Prop) (p : prog W A) (Q : A → trail → Prop) : Prop :=
  match p with
  | Done (Ok a) => ∀ h, sound (current h) → F h → Q a h
  | Done (Err _) => True
  | Call m k => ∀ h w w' x, inv h w → F h → m w = (w', x) →
      (board_of w' = board_of w ∨ moves (board_of w) (board_of w')) ∧
      entries_sourced (extend h (board_of w')) (cache_of w') ∧
      ∃ F', stable F' ∧ F' (extend h (board_of w')) ∧ keeps F' (k x) Q
  end.

Lemma stable_True : stable (λ _, True).
Proof. done. Qed.

Lemma stable_and F G : stable F → stable G → stable (λ h, F h ∧ G h).
Proof. intros HF HG h h' Hl [? ?]. split; [by eapply HF|by eapply HG]. Qed.

Lemma stable_forall {A} (F : A → trail → Prop) : (∀ a, stable (F a)) → stable (λ h, ∀ a, F a h).
Proof. intros HF h h' Hl Hh a. by eapply HF. Qed.

Lemma stable_impl (P : Prop) F : stable F → stable (λ h, P → F h).
Proof. intros HF h h' Hl Hh HP. eapply HF; eauto. Qed.

Lemma stable_member tm u : stable (λ h, is_member (current h) tm u).
Proof. intros h h' Hl. apply (grows_members _ _ (later_grows _ _ Hl)). Qed.

Lemma stable_sourced f l : stable (λ h, sourced h f l).
Proof. intros h h' Hl. apply sourced_later, Hl. Qed.

(** A weaker precondition, and facts that hold before and therefore after. *)
Lemma keeps_weaken {A} F F' (p : prog W A) Q :
  (∀ h, sound (current h) → F' h → F h) → keeps F p Q → keeps F' p Q.
Proof.
  intros HF. destruct p as [[a|e]|X m k]; cbn; [eauto|done|]. intros Hp h w w' x Hi HF' Hm.
  apply (Hp h w); [done| |done]. apply HF; [apply Hi|done].
Qed.

Lemma keeps_conseq {A} F (p : prog W A) (Q Q' : A → trail → Prop) :
  (∀ a h, sound (current h) → Q a h → Q' a h) → keeps F p Q → keeps F p Q'.
Proof.
  intros HQ. revert F. induction p as [[a|e]|X m k IH]; intros F; cbn; [eauto|done|].
  intros Hp h w w' x Hi HF Hm. destruct (Hp h w w' x Hi HF Hm) as (Hmv & He & F' & HF' & Hb & Hk).
  split; [done|]. split; [done|]. exists F'. eauto.
Qed.

(** A call extends the trail. *)
Lemma moved_later h w (w' : W) :
  current h = board_of w → board_of w' = board_of w ∨ moves (board_of w) (board_of w') →
  later h (extend h (board_of w')).
Proof.
  intros Hc Hm. apply later_extend. rewrite Hc.
  destruct Hm as [->|Hm]; [apply grows_refl|by apply moves_grows].
Qed.

Lemma keeps_frame {A} F G (p : prog W A) Q :
  stable G → keeps F p Q → keeps (λ h, F h ∧ G h) p (λ a h, Q a h ∧ G h).
Proof.
  intros HG. revert F. induction p as [[a|e]|X m k IH]; intros F; cbn; [naive_solver|done|].
  intros Hp h w w' x Hi [HF Hg] Hm. destruct (Hp h w w' x Hi HF Hm) as (Hmv & He & F' & HF' & Hb & Hk).
  split; [done|]. split; [done|]. exists (λ h, F' h ∧ G h). split; [by apply stable_and|].
  split; [|by apply IH]. split; [done|]. eapply HG; [|done]. eapply moved_later; [apply Hi|done].
Qed.

Lemma keeps_then {A B} F (p : prog W A) (f : result A → prog W B) Q R :
  keeps F p Q → (∀ a, keeps (Q a) (f (Ok a)) R) → (∀ e, keeps (λ _, True) (f (Err e)) R) →
  keeps F (prog_then p f) R.
Proof.
  intros Hp Hf He. revert F Hp. induction p as [[a|e]|X m k IH]; intros F; cbn.
  - intros Hp. by apply (keeps_weaken (Q a)).
  - intros _. by apply (keeps_weaken (λ _, True)).
  - intros Hp h w w' x Hi HF Hm. destruct (Hp h w w' x Hi HF Hm) as (Hmv & Hen & F' & HF' & Hb & Hk).
    split; [done|]. split; [done|]. exists F'. eauto.
Qed.

(** Sequencing keeps the stable facts of the first part. *)
Lemma keeps_bind {A B} F (p : prog W A) (f : A → prog W B) Q R :
  stable F → keeps F p Q → (∀ a, keeps (λ h, Q a h ∧ F h) (f a) R) → keeps F (p ≫= f) R.
Proof.
  intros HF Hp Hf. apply (keeps_then _ _ _ (λ a h, Q a h ∧ F h)); [|done|done].
  apply (keeps_weaken (λ h, F h ∧ F h)); [auto|]. by apply keeps_frame.
Qed.

Lemma keeps_ret {A} F (a : A) (Q : A → trail → Prop) :
  (∀ h, sound (current h) → F h → Q a h) → keeps F (mret a) Q.
Proof. done. Qed.

Lemma keeps_answering {A B} F (f : A → B) (p : prog W A) (Q : B → trail → Prop) :
  keeps F p (λ a, Q (f a)) → keeps F (answering f p) Q.
Proof. intros Hp. eapply keeps_then; [exact Hp| |]; cbn; auto. Qed.

Lemma keeps_when_err {A} F h (p : prog W A) Q : keeps F p Q → keeps F (when_err h p) Q.
Proof. intros Hp. eapply keeps_then; [exact Hp| |]; cbn; auto. Qed.

Lemma keeps_ignoring {A} F (p : prog W A) Q : keeps F p Q → keeps F (ignoring p) (λ _ _, True).
Proof. intros Hp. eapply keeps_then; [exact Hp| |]; cbn; auto. Qed.

(** The result of a call, when what is known of a value is true of any error. *)
Lemma keeps_trying {A} F (p : prog W A) Q :
  keeps F p Q → keeps F (trying p) (λ r h, ∀ a, r = Ok a → Q a h).
Proof. intros Hp. eapply keeps_then; [exact Hp| |]; cbn; [naive_solver|done]. Qed.

(** A call that keeps the board, and does not add to the cache. *)
Lemma keeps_read {A} (m : comp W A) F Q :
  (∀ w w' x, m w = (w', x) → board_of w' = board_of w ∧ cache_of w' ⊆ cache_of w ∧
     ∀ h a, x = Ok a → inv h w → F h → Q a h) →
  (∀ a, stable (Q a)) → keeps F (call m) Q.
Proof.
  intros Hm HQ h w w' x Hi HF Hr. destruct (Hm _ _ _ Hr) as (Hb & Hc & Ha). split; [by left|].
  assert (later h (extend h (board_of w'))) as Hl by (eapply moved_later; [apply Hi|by left]).
  split; [eapply entries_later; [apply Hl|exact Hc|apply Hi]|]. destruct x as [a|e].
  - exists (Q a). split; [done|]. split; [eapply HQ; [exact Hl|by apply Ha]|by cbn].
  - exists (λ _, True). split; [apply stable_True|done].
Qed.

(** A call that changes nothing, for its value alone. *)
Lemma keeps_quiet {A} (m : comp W A) F :
  (∀ w w' x, m w = (w', x) → quiet w w') → keeps F (call m) (λ _ _, True).
Proof.
  intros Hm. apply keeps_read; [|by intros _]. intros w w' x Hr. destruct (Hm _ _ _ Hr). eauto.
Qed.

(** A call that writes. *)
Lemma keeps_write {A} (m : comp W A) F step (Q : A → trail → Prop) :
  writes m step → (∀ b x b', sound b → (∃ h, current h = b ∧ F h) → step b x b' → moves b b') →
  (∀ h a b', F h → step (current h) a b' → Q a (extend h b')) → (∀ a, stable (Q a)) →
  keeps F (call m) Q.
Proof.
  intros Hm Hst HQ HS h w w' x Hi HF Hr.
  assert (board_of w' = board_of w ∨ moves (board_of w) (board_of w')) as Hmv.
  { destruct (writes_board _ _ _ _ _ Hm Hr) as [?|[y Hy]]; [by left|right].
    rewrite <-(inv_current _ _ Hi) in *. eapply Hst; [apply Hi|by exists h|exact Hy]. }
  split; [done|]. assert (later h (extend h (board_of w'))) as Hl by (eapply moved_later; [apply Hi|done]).
  destruct (Hm _ _ _ Hr) as (Hc & Hok & _).
  split; [eapply entries_later; [apply Hl|exact Hc|apply Hi]|]. destruct x as [a|e].
  - exists (Q a). split; [done|]. split; [|by cbn]. apply HQ; [done|]. rewrite (inv_current _ _ Hi).
    by apply Hok.
  - exists (λ _, True). split; [apply stable_True|done].
Qed.

(** ** Pools keep the invariant *)
Context (granted : request → answer → trail → Prop).

Definition flight_keeps (h : trail) (t : flight W) : Prop :=
  ∃ F, stable F ∧ F h ∧ keeps F t.2 (granted t.1).

Lemma flight_keeps_later h h' t : later h h' → flight_keeps h t → flight_keeps h' t.
Proof. intros Hl (F & HF & Hh & Hp). exists F. eauto. Qed.

Context (Hstart : ∀ q h, flight_keeps h (q, start q)).

(** A step of the pool, and the trail after it. *)
Lemma steps_invariant h c c' :
  inv h c.1 → Forall (flight_keeps h) c.2 → steps c c' →
  ∃ h', inv h' c'.1 ∧ Forall (flight_keeps h') c'.2 ∧ later h h' ∧
    ∀ b, seen h' b → b = board_of c'.1 ∨ seen h b.
Proof.
  intros Hi Hts Hst. destruct Hst as [q|c' Hc|w' Hb Hc]; cbn in *.
  - exists h. split; [done|]. split; [apply Forall_app; split; [done|]; by constructor|].
    split; [done|]. by right.
  - revert Hi Hts. destruct Hc as [X m k w w' x q ts1 ts2 Hm]. cbn. intros Hi Hts.
    apply Forall_app in Hts as [H1 H2]. apply Forall_cons in H2 as [(F & HF & Hh & Hp) H3].
    destruct (Hp h w w' x Hi Hh Hm) as (Hmv & He & F' & HF' & Hb' & Hk).
    assert (later h (extend h (board_of w'))) as Hl by (eapply moved_later; [apply Hi|done]).
    exists (extend h (board_of w')). split.
    { split; [done| |done]. cbn. pose proof (inv_sound _ _ Hi) as Hs. rewrite (inv_current _ _ Hi) in Hs.
      destruct Hmv as [->|Hmv]; [done|by eapply sound_moves]. }
    assert (∀ ts, Forall (flight_keeps h) ts → Forall (flight_keeps (extend h (board_of w'))) ts) as Hall.
    { intros ts Hall. eapply Forall_impl; [exact Hall|]. intros t. by apply flight_keeps_later. }
    split; [apply Forall_app; split; [by auto|]; constructor; [by exists F'|by auto]|].
    split; [done|]. intros b. by rewrite seen_extend.
  - exists h. split; [|split; [done|]; split; [done|]; by right].
    destruct Hi as [Hcur Hs He]. split; [by rewrite Hb|done|]. by eapply entries_later.
Qed.

(** A board the run [c0] to [c] has passed through. *)
Definition passes (c0 c : W * list (flight W)) (b : board) : Prop :=
  ∃ c1, rtc steps c0 c1 ∧ rtc steps c1 c ∧ board_of c1.1 = b.

Lemma pool_trail w c :
  sound (board_of w) → entries_sourced (Trail (board_of w) []) (cache_of w) →
  rtc steps (w, []) c →
  ∃ h, inv h c.1 ∧ Forall (flight_keeps h) c.2 ∧ later (Trail (board_of w) []) h ∧
    ∀ b, seen h b → passes (w, []) c b.
Proof.
  intros Hs He. revert c. apply rtc_ind_r.
  - exists (Trail (board_of w) []). split; [done|]. split; [constructor|]. split; [done|].
    intros b [->|[]%elem_of_nil]. by exists (w, []).
  - intros c1 c2 Hrun Hstep (h & Hi & Hts & Hl & Hp).
    destruct (steps_invariant _ _ _ Hi Hts Hstep) as (h' & Hi' & Hts' & Hl' & Hnew).
    exists h'. split; [done|]. split; [done|]. split; [by etrans|]. intros b Hb.
    destruct (Hnew b Hb) as [->|Hold].
    + exists c2. split; [by eapply rtc_r|done].
    + destruct (Hp b Hold) as (c & H1 & H2 & ?). exists c. split; [done|]. split; [by eapply rtc_r|done].
Qed.

(** Of a request that ended with a value, [granted] holds. *)
Lemma flight_answer h t a : sound (current h) → flight_keeps h t → answer_of t = Some (Ok a) → granted t.1 a h.
Proof.
  destruct t as [q [r|X m k]]; unfold answer_of; cbn [fst snd]; [|done].
  intros Hs (F & HF & Hh & Hp) [= ->]. by apply Hp.
Qed.

End pools.
