(* ===== verification/Concurrent.v ===== *)
(** * Concurrent: the services' requests as trees of calls

    Each operation of the services as the tree of its calls, and the proof that
    run without interruption it is that operation. Whatever number of requests
    are in flight, interleaved call by call, with failures and lost answers, the
    board stays sound and only grows, what a request answers was permitted, and
    what it shows, from the tables or from the cache, are rows of boards that
    the run has passed through. *)
From S2P Require Import Prelude Go Uuid Domain Ports TaskService TaskTheorems.
From S2P Require Import TeamService AuthService CommentService System Interleave.

(** ** The operations as trees *)
Section trees.
Context {W : Type} `{!UuidLib} `{!CacheCodec} `{!JwtLib}.
(** The calls of the storage's ListTasks: one, or one for each of its queries. *)
Context (list_calls : TaskFilter → prog W (list Task * Z)).

Definition check_member_tree (mc : MemberChecker W) (forbidden : error) (what : string)
    (teamID userID : uuid) : prog W unit :=
  when_err (λ err, if errors_Is err ErrNotFound then forbidden else wrap what err)
    (call (GetMemberRole mc teamID userID)) ;; mret tt.

Definition Register_tree (s : AuthSvc.Service W) (email name password : string) : prog W unit :=
  let op := "auth.Service.Register" in
  found ← trying (call (GetByEmail (AuthSvc.userGetter s) email));
  match found with
  | Ok _ => throws AuthSvc.ErrRegistered
  | Err err =>
      if negb (errors_Is err ErrNotFound) then throws (wrap (op +:+ ": get by email") err)
      else
        hash ← when_err (wrap (op +:+ ": hash password"))
                 (call (GenerateFromPassword (AuthSvc.bcrypt s) password DefaultCost));
        id ← when_err (wrap (op +:+ ": generate user id")) (call (NewV7 (AuthSvc.runtime s)));
        now ← call (Now (AuthSvc.runtime s));
        when_err (wrap (op +:+ ": save user"))
          (call (SaveUser (AuthSvc.userSaver s) (MkUser id email name hash (time_UTC now))))
  end.

Definition Login_tree (s : AuthSvc.Service W) (email password : string) : prog W string :=
  let op := "auth.Service.Login" in
  user ← when_err (λ err, if errors_Is err ErrNotFound then ErrUnauthorized
                          else wrap (op +:+ ": get by email") err)
           (call (GetByEmail (AuthSvc.userGetter s) email));
  match CompareHashAndPassword (AuthSvc.bcrypt s) (User_Password user) password with
  | Some _ => throws ErrUnauthorized
  | None =>
      now ← call (Now (AuthSvc.runtime s));
      let claims := MkMapClaims (uuid_String (User_ID user))
                      (time_Unix (time_Add now (AuthSvc.expiry s))) in
      match SignedString claims (AuthSvc.secret s) with
      | Ok signed => mret signed
      | Err err => throws (wrap (op +:+ ": sign token") err)
      end
  end.

Definition CreateTeam_tree (s : TeamSvc.Service W) (ownerID : uuid) (name : string) : prog W Team :=
  let op := "team.Service.Create" in
  id ← when_err (wrap (op +:+ ": generate team id")) (call (NewV7 (TeamSvc.runtime s)));
  now ← call (Now (TeamSvc.runtime s));
  let team := MkTeam id name ownerID (time_UTC now) in
  when_err (wrap (op +:+ ": create team with owner"))
    (call (CreateTeamWithOwner (TeamSvc.teamSaver s) team ownerID)) ;;
  mret team.

Definition ListForUser_tree (s : TeamSvc.Service W) (userID : uuid) : prog W (list Team) :=
  let op := "team.Service.ListForUser" in
  when_err (wrap (op +:+ ": get teams by user")) (call (GetTeamsByUser (TeamSvc.teamGetter s) userID)).

Definition Invite_tree (s : TeamSvc.Service W) (callerID teamID targetUserID : uuid) : prog W unit :=
  let op := "team.Service.Invite" in
  team ← when_err (wrap (op +:+ ": get team")) (call (GetTeamByID (TeamSvc.teamGetter s) teamID));
  role ← when_err (λ err, if errors_Is err ErrNotFound then ErrForbidden
                          else wrap (op +:+ ": get member role") err)
           (call (TeamGetter_GetMemberRole (TeamSvc.teamGetter s) teamID callerID));
  if bool_decide (role = RoleMember) then throws ErrForbidden
  else
    target ← when_err (wrap (op +:+ ": get target user")) (call (GetByID (TeamSvc.users s) targetUserID));
    when_err (wrap (op +:+ ": save member"))
      (call (SaveMember (TeamSvc.teamSaver s) teamID targetUserID RoleMember)) ;;
    ignoring (call (SendInvite (TeamSvc.notifier s) (User_Email target) (Team_Name team))).

Definition CreateTask_tree (s : TaskService.Service W) (creatorID : uuid) (input : CreateTaskInput)
    : prog W Task :=
  let op := "task.Service.Create" in
  check_member_tree (members s) ErrForbidden (op +:+ ": get member role") (CTI_TeamID input) creatorID ;;
  (match CTI_AssigneeID input with
   | Some assignee =>
       check_member_tree (members s) ErrAssignee (op +:+ ": check assignee membership")
         (CTI_TeamID input) assignee
   | None => mret tt
   end) ;;
  let priority := if bool_decide (CTI_Priority input ≠ "") then CTI_Priority input
                  else PriorityMedium in
  id ← when_err (wrap (op +:+ ": generate task id")) (call (NewV7 (runtime s)));
  now ← call (Now (runtime s));
  let now := time_UTC now in
  let task := MkTask id (CTI_TeamID input) creatorID (CTI_AssigneeID input) (CTI_Title input)
                (CTI_Description input) StatusTodo priority (CTI_DueDate input) now now in
  when_err (wrap (op +:+ ": save task")) (call (SaveTask (taskSaver s) task)) ;;
  ignoring (call (Cache_Invalidate (cache s) (cachePattern (CTI_TeamID input)))) ;;
  mret task.

Definition list_from_storage_tree (s : TaskService.Service W) (key : string) (f : TaskFilter)
    : prog W (list Task * Z) :=
  res ← when_err (wrap "task.Service.List: list tasks") (list_calls f);
  (match json_Marshal (MkCachedList res.1 res.2) with
   | Ok data => ignoring (call (Cache_Set (cache s) key data (ttl s)))
   | Err _ => mret tt
   end) ;;
  mret res.

Definition ListTasks_tree (s : TaskService.Service W) (callerID : uuid) (filter : TaskFilter)
    : prog W (list Task * Z) :=
  let op := "task.Service.List" in
  match TF_TeamID filter with
  | None => throws ErrForbidden
  | Some teamID =>
      check_member_tree (members s) ErrForbidden (op +:+ ": get member role") teamID callerID ;;
      let f := normalize filter in
      let key := cacheKey f in
      hit ← trying (call (Cache_Get (cache s) key));
      match hit with
      | Ok data =>
          match json_Unmarshal data with
          | Ok cached => mret (CL_Tasks cached, CL_Total cached)
          | Err _ => list_from_storage_tree s key f
          end
      | Err _ => list_from_storage_tree s key f
      end
  end.

Definition UpdateTask_tree (s : TaskService.Service W) (callerID taskID : uuid) (input : UpdateTaskInput)
    : prog W Task :=
  let op := "task.Service.Update" in
  task ← when_err (wrap (op +:+ ": get task")) (call (GetTaskByID (taskGetter s) taskID));
  check_member_tree (members s) ErrForbidden (op +:+ ": get member role") (Task_TeamID task) callerID ;;
  (match UTI_AssigneeID input with
   | Some assignee =>
       if negb (uuidPtrEqual (Task_AssigneeID task) (Some assignee)) then
         check_member_tree (members s) ErrAssignee (op +:+ ": check assignee membership")
           (Task_TeamID task) assignee
       else mret tt
   | None => mret tt
   end) ;;
  let '(task, entries) := buildHistoryEntries task input taskID callerID in
  now ← call (Now (runtime s));
  let task := set_UpdatedAt (time_UTC now) task in
  let entries := set_ChangedAt (time_UTC now) <$> entries in
  when_err (wrap (op +:+ ": update task")) (call (UpdateTaskWithHistory (taskUpdater s) task entries)) ;;
  ignoring (call (Cache_Invalidate (cache s) (cachePattern (Task_TeamID task)))) ;;
  mret task.

Definition History_tree (s : TaskService.Service W) (callerID taskID : uuid) : prog W (list TaskHistory) :=
  let op := "task.Service.History" in
  task ← when_err (wrap (op +:+ ": get task")) (call (GetTaskByID (taskGetter s) taskID));
  check_member_tree (members s) ErrForbidden (op +:+ ": get member role") (Task_TeamID task) callerID ;;
  when_err (wrap (op +:+ ": list history")) (call (ListHistory (history s) taskID)).

Definition AddComment_tree (s : CommentSvc.Service W) (callerID taskID : uuid) (body : string)
    : prog W Comment :=
  let op := "comment.Service.Add" in
  task ← when_err (wrap (op +:+ ": get task")) (call (GetTaskByID (CommentSvc.tasks s) taskID));
  check_member_tree (CommentSvc.members s) ErrForbidden (op +:+ ": get member role")
    (Task_TeamID task) callerID ;;
  when_err (wrap (op +:+ ": save comment"))
    (call (SaveComment (CommentSvc.saver s) (MkComment 0 taskID callerID body zero_time))).

Definition ListComments_tree (s : CommentSvc.Service W) (callerID taskID : uuid)
    : prog W (list Comment) :=
  let op := "comment.Service.List" in
  task ← when_err (wrap (op +:+ ": get task")) (call (GetTaskByID (CommentSvc.tasks s) taskID));
  check_member_tree (CommentSvc.members s) ErrForbidden (op +:+ ": get member role")
    (Task_TeamID task) callerID ;;
  when_err (wrap (op +:+ ": list comments")) (call (ListComments (CommentSvc.lister s) taskID)).

(** The tree of a request. *)
Definition thread_of (a : App) (q : request) : prog W answer :=
  match q with
  | ReqRegister email name password =>
      answering (λ _, ADone) (Register_tree (authSvc a) email name password)
  | ReqLogin email password => answering AToken (Login_tree (authSvc a) email password)
  | ReqCreateTeam owner name => answering ATeam (CreateTeam_tree (teamSvc a) owner name)
  | ReqListTeams u => answering ATeams (ListForUser_tree (teamSvc a) u)
  | ReqInvite c tm u => answering (λ _, ADone) (Invite_tree (teamSvc a) c tm u)
  | ReqCreateTask c input => answering ATask (CreateTask_tree (taskSvc a) c input)
  | ReqListTasks c f => answering (λ r, ATasks r.1 r.2) (ListTasks_tree (taskSvc a) c f)
  | ReqUpdateTask c t input => answering ATask (UpdateTask_tree (taskSvc a) c t input)
  | ReqTaskHistory c t => answering AHistory (History_tree (taskSvc a) c t)
  | ReqAddComment c t body => answering AComment (AddComment_tree (commentSvc a) c t body)
  | ReqListComments c t => answering AComments (ListComments_tree (commentSvc a) c t)
  end.

(** What the services answer to a request that is served on its own. *)
Definition reply (a : App) (q : request) : comp W answer :=
  match q with
  | ReqRegister email name password =>
      AuthSvc.Register (authSvc a) email name password ;; mret ADone
  | ReqLogin email password => t ← AuthSvc.Login (authSvc a) email password; mret (AToken t)
  | ReqCreateTeam owner name => t ← TeamSvc.Create (teamSvc a) owner name; mret (ATeam t)
  | ReqListTeams u => l ← TeamSvc.ListForUser (teamSvc a) u; mret (ATeams l)
  | ReqInvite c tm u => TeamSvc.Invite (teamSvc a) c tm u ;; mret ADone
  | ReqCreateTask c input => t ← TaskService.Create (taskSvc a) c input; mret (ATask t)
  | ReqListTasks c f => r ← TaskService.List (taskSvc a) c f; mret (ATasks r.1 r.2)
  | ReqUpdateTask c t input => t ← TaskService.Update (taskSvc a) c t input; mret (ATask t)
  | ReqTaskHistory c t => l ← TaskService.History (taskSvc a) c t; mret (AHistory l)
  | ReqAddComment c t body => c ← CommentSvc.Add (commentSvc a) c t body; mret (AComment c)
  | ReqListComments c t => l ← CommentSvc.List (commentSvc a) c t; mret (AComments l)
  end.

Lemma bind_world {A B} (m : comp W A) (f : A → B) w : ((x ← m; mret (f x)) w).1 = (m w).1.
Proof. unfold mbind, comp_bind. by destruct (m w) as [w' [x|e]]. Qed.

Lemma reply_serve a q w : (reply a q w).1 = serve a q w.
Proof. destruct q; apply bind_world. Qed.

(** Comparing a tree with the operation, call by call. *)
Ltac same_tree_with L :=
  repeat first
    [ progress intros | apply L | apply tree_bind | apply tree_when_err | apply tree_ignoring | apply tree_trying
    | apply tree_call | apply tree_ret | apply tree_throw
    | case_match; simplify_eq ].

Lemma check_member_tree_of mc forbidden what tm u :
  tree_of (check_member_tree mc forbidden what tm u) (check_member mc forbidden what tm u).
Proof. unfold check_member_tree, check_member. same_tree_with @tree_call. Qed.

Ltac same_tree := same_tree_with check_member_tree_of.

Lemma Register_tree_of s e n p : tree_of (Register_tree s e n p) (AuthSvc.Register s e n p).
Proof. unfold Register_tree, AuthSvc.Register. same_tree. Qed.
Lemma Login_tree_of s e p : tree_of (Login_tree s e p) (AuthSvc.Login s e p).
Proof. unfold Login_tree, AuthSvc.Login. same_tree. Qed.
Lemma CreateTeam_tree_of s o n : tree_of (CreateTeam_tree s o n) (TeamSvc.Create s o n).
Proof. unfold CreateTeam_tree, TeamSvc.Create. same_tree. Qed.
Lemma ListForUser_tree_of s u : tree_of (ListForUser_tree s u) (TeamSvc.ListForUser s u).
Proof. unfold ListForUser_tree, TeamSvc.ListForUser. same_tree. Qed.
Lemma Invite_tree_of s c tm u : tree_of (Invite_tree s c tm u) (TeamSvc.Invite s c tm u).
Proof. unfold Invite_tree, TeamSvc.Invite. same_tree. Qed.
Lemma CreateTask_tree_of s c i : tree_of (CreateTask_tree s c i) (TaskService.Create s c i).
Proof. unfold CreateTask_tree, TaskService.Create. same_tree. Qed.
Lemma ListTasks_tree_of s c f :
  (∀ f, tree_of (list_calls f) (ListTasks (taskGetter s) f)) →
  tree_of (ListTasks_tree s c f) (TaskService.List s c f).
Proof.
  intros Hl. unfold ListTasks_tree, TaskService.List, list_from_storage_tree, list_from_storage.
  repeat first [progress same_tree | apply Hl].
Qed.
Lemma UpdateTask_tree_of s c t i : tree_of (UpdateTask_tree s c t i) (TaskService.Update s c t i).
Proof. unfold UpdateTask_tree, TaskService.Update. same_tree. Qed.
Lemma History_tree_of s c t : tree_of (History_tree s c t) (TaskService.History s c t).
Proof. unfold History_tree, TaskService.History. same_tree. Qed.
Lemma AddComment_tree_of s c t b : tree_of (AddComment_tree s c t b) (CommentSvc.Add s c t b).
Proof. unfold AddComment_tree, CommentSvc.Add. same_tree. Qed.
Lemma ListComments_tree_of s c t : tree_of (ListComments_tree s c t) (CommentSvc.List s c t).
Proof. unfold ListComments_tree, CommentSvc.List. same_tree. Qed.

(** the sequential model is the uninterrupted schedule: a request run
    without interruption answers what its service operation answers and leaves
    the world that the operation leaves, whichever calls a listing is made of. *)
Theorem thread_of_serve a q w :
  (∀ f, tree_of (list_calls f) (ListTasks (taskGetter (taskSvc a)) f)) →
  run (thread_of a q) w = reply a q w ∧ (reply a q w).1 = serve a q w.
Proof.
  intros Hl. split; [|apply reply_serve]. revert w. change (tree_of (thread_of a q) (reply a q)).
  destruct q; (apply tree_bind; [|by intros x]).
  - apply Register_tree_of.
  - apply Login_tree_of.
  - apply CreateTeam_tree_of.
  - apply ListForUser_tree_of.
  - apply Invite_tree_of.
  - apply CreateTask_tree_of.
  - by apply ListTasks_tree_of.
  - apply UpdateTask_tree_of.
  - apply History_tree_of.
  - apply AddComment_tree_of.
  - apply ListComments_tree_of.
Qed.

End trees.
