(* ===== verification/Flight.v ===== *)
(** * Flight: what requests in flight together can do and see

    Every request of the services, as the tree of its calls, keeps the
    program's invariant whatever happens between its calls; what it was allowed
    to do was permitted, and what it answers comes from boards the run has
    passed through. *)
From S2P Require Import Prelude Go Uuid Domain Ports TaskService TaskTheorems.
From S2P Require Import TeamService AuthService CommentService System Interleave Concurrent.

Section flight.
Context {W : Type} `{!UuidLib} `{!UuidLibSpec} `{!CacheCodec} `{!CacheCodecSpec} `{!JwtLib}.
Context `{!Backend W} `{!BackendSpec W}.

(** ** What an answer is worth *)

(** A task of the team is stored under the id. *)
Definition task_in (id tm : uuid) (b : board) : Prop :=
  ∃ row, b_tasks b !! id = Some row ∧ Task_TeamID row = tm.

(** The caller is a member of the team of the task. *)
Definition reaches (caller id : uuid) (b : board) : Prop :=
  ∃ tm, task_in id tm b ∧ is_member b tm caller.

(** Something that was true of a board of the trail. *)
Definition once (P : board → Prop) (h : trail) : Prop := ∃ b, seen h b ∧ P b.

(** What the decoder makes of an encoded list: the list itself, when the codec
    is faithful to it. *)
Definition recoded (l l' : cachedList) : Prop :=
  l' = l ∨ ∃ d, json_Marshal l = Ok d ∧ json_Unmarshal d = Ok l'.

(** The user's stored hash accepts the password; the token names the user. *)
Definition accepts (a : App (W := W)) (u : User) (password : string) : Prop :=
  CompareHashAndPassword (AuthSvc.bcrypt (authSvc a)) (User_Password u) password = None.
Definition issued (a : App (W := W)) (u : User) (token : string) : Prop :=
  ∃ now, SignedString (MkMapClaims (uuid_String (User_ID u))
    (time_Unix (time_Add now (AuthSvc.expiry (authSvc a))))) (AuthSvc.secret (authSvc a)) = Ok token.

(** What follows, at the end of any run, from the answer a request got. *)
Definition granted (a : App (W := W)) (q : request) (x : answer) (h : trail) : Prop :=
  let b := current h in
  match q, x with
  | ReqRegister email name password, ADone =>
      once (λ b, ∃ id u, b_users b !! id = Some u ∧ User_Email u = email ∧ User_Name u = name ∧
        accepts a u password) h
  | ReqLogin email password, AToken token =>
      once (λ b, ∃ id u, b_users b !! id = Some u ∧ same_email (User_Email u) email ∧
        accepts a u password ∧ issued a u token) h
  | ReqCreateTeam owner name, ATeam t =>
      Team_Name t = name ∧ Team_CreatedBy t = owner ∧ is_member b (Team_ID t) owner
  | ReqListTeams u, ATeams l =>
      ∀ t, t ∈ l → ∃ id, once (λ b, b_teams b !! id = Some t) h ∧ is_member b id u
  | ReqInvite caller tm u, ADone =>
      once (λ b, TeamSvc.may_invite b tm caller) h ∧ is_member b tm caller ∧ is_member b tm u
  | ReqCreateTask caller i, ATask t =>
      authorised b (CTI_TeamID i) caller (CTI_AssigneeID i) ∧ task_in (Task_ID t) (CTI_TeamID i) b ∧
      (∃ now, t = created_task (Task_ID t) caller i now) ∧
      once (λ b, b_tasks b !! Task_ID t = Some (norm_task t)) h
  | ReqListTasks caller f, ATasks l n =>
      ∃ tm, TF_TeamID f = Some tm ∧ is_member b tm caller ∧
      ∃ g l0, cacheKey g = cacheKey (normalize f) ∧ TF_TeamID g = Some tm ∧ sourced h g l0 ∧
        recoded l0 (MkCachedList l n)
  | ReqUpdateTask caller id i, ATask t =>
      Task_ID t = id ∧ task_in id (Task_TeamID t) b ∧ is_member b (Task_TeamID t) caller ∧
      (∀ a, Task_AssigneeID t = Some a → is_member b (Task_TeamID t) a) ∧
      (∃ old now, once (λ b, b_tasks b !! id = Some old) h ∧ t = merged_task old i now) ∧
      (∃ row, once (λ b, b_tasks b !! id = Some row) h ∧
              once (λ b, b_tasks b !! id = Some (norm_fields (update_columns row t))) h)
  | ReqTaskHistory caller id, AHistory l => reaches caller id b ∧ once (λ b, history_of id b l) h
  | ReqAddComment caller id body, AComment c =>
      reaches caller id b ∧ Comment_TaskID c = id ∧ Comment_UserID c = caller ∧ Comment_Body c = body ∧
      once (λ b, ∃ now, MkComment (Comment_ID c) id caller body now ∈ b_comments b) h
  | ReqListComments caller id, AComments l => reaches caller id b ∧ once (λ b, comments_of id b l) h
  | _, _ => False
  end.

(** ** Facts that last *)

Lemma stable_once P : stable (once P).
Proof. intros h h' Hl (b & Hs & ?). exists b. split; [by apply Hl|done]. Qed.

Lemma once_now (P : board → Prop) h : P (current h) → once P h.
Proof. intros HP. exists (current h). split; [by left|done]. Qed.

Lemma stable_task_in id tm : stable (on_board (task_in id tm)).
Proof.
  intros h h' Hl (row & Hrow & Htm). destruct (grows_tasks _ _ (later_grows _ _ Hl) _ _ Hrow) as (row' & ? & ?).
  exists row'. split; [done|congruence].
Qed.

Lemma stable_ex {A} (F : A → trail → Prop) : (∀ a, stable (F a)) → stable (λ h, ∃ a, F a h).
Proof. intros HF h h' Hl [a Ha]. exists a. by eapply HF. Qed.

Lemma stable_const (P : Prop) : stable (λ _, P).
Proof. by intros h h' _. Qed.

(** What a task read some time ago still says: that it was stored, its id, its
    team, and an assignee of the team. *)
Definition known (id : uuid) (task : Task) (h : trail) : Prop :=
  Task_ID task = id ∧ on_board (task_in id (Task_TeamID task)) h ∧
  (∀ a, Task_AssigneeID task = Some a → is_member (current h) (Task_TeamID task) a) ∧
  once (λ b, b_tasks b !! id = Some task) h.

(** [stable_facts] shows that the facts of the logic last. *)
Ltac stable_facts :=
  repeat first [apply stable_const | apply stable_member | apply stable_task_in | apply stable_once
               | apply stable_sourced | apply stable_and | apply stable_impl
               | apply stable_forall; intros ? | apply stable_ex; intros ?].

Lemma stable_known id task : stable (known id task).
Proof. unfold known. stable_facts. Qed.

Ltac stable_all := repeat first [apply stable_known | progress stable_facts].

(** ** The calls *)

(** A read that follows its contract. *)
Lemma keeps_reads {A} (m : comp W A) answer F (Q : A → trail → Prop) :
  reads m answer →
  (∀ h a w, current h = board_of w → sound (current h) → F h → answer (board_of w) = Ok a → Q a h) →
  (∀ a, stable (Q a)) → keeps F (call m) Q.
Proof.
  intros Hm Ha HQ. apply keeps_read; [|done]. intros w w' x Hr.
  destruct (Hm _ _ _ Hr) as ([Hb Hc _] & Hok & _). split; [done|]. split; [done|].
  intros h a -> [Hcur Hs _] HF. eapply Ha; eauto.
Qed.

(** The same for a read with several admissible answers. *)
Lemma keeps_reads_some {A} (m : comp W A) answers F (Q : A → trail → Prop) :
  reads_some m answers →
  (∀ h a, sound (current h) → F h → answers (current h) (Ok a) → Q a h) →
  (∀ a, stable (Q a)) → keeps F (call m) Q.
Proof.
  intros Hm Ha HQ. apply keeps_read; [|done]. intros w w' x Hr.
  destruct (Hm _ _ _ Hr) as ([Hb Hc _] & Hok & _). split; [done|]. split; [done|].
  intros h a -> [Hcur Hs _] HF. apply Ha; [done..|]. rewrite Hcur. by apply Hok.
Qed.

(** A value with the facts that were known before it. *)
Lemma keeps_post {A} F (p : prog W A) Q : stable F → keeps F p Q → keeps F p (λ a h, Q a h ∧ F h).
Proof. intros HF Hp. apply (keeps_weaken (λ h, F h ∧ F h)); [auto|]. by apply keeps_frame. Qed.

Lemma keeps_check_member mc `{!MemberCheckerSpec mc} F forb what tm u :
  keeps F (check_member_tree mc forb what tm u) (λ _ h, is_member (current h) tm u).
Proof.
  unfold check_member_tree. eapply (keeps_then _ _ _ (λ _ h, is_member (current h) tm u)); [|by cbn; auto|by cbn].
  eapply keeps_when_err, keeps_reads; [apply GetMemberRole_reads| |intros _; apply stable_member].
  intros h role w Hcur _ _ Hrole. rewrite Hcur. apply is_member_role. eauto.
Qed.

Lemma keeps_get_task g `{!TaskGetterSpec g} F h id :
  keeps F (when_err h (call (GetTaskByID g id))) (known id).
Proof.
  eapply keeps_when_err, keeps_reads; [apply GetTaskByID_reads| |intros t; apply stable_known].
  intros tr t w Hcur Hs _. rewrite <-Hcur. unfold or_not_found.
  destruct (b_tasks (current tr) !! id) as [t0|] eqn:Ht; [intros [= ->]|done].
  split; [by eapply sound_keys|]. split; [by exists t|].
  split; [intros a; by eapply sound_assignee|by apply once_now].
Qed.

Lemma keeps_NewV7 r `{!RuntimeSpec r} F h : keeps F (when_err h (call (NewV7 r))) (λ _ _, True).
Proof. apply keeps_when_err, keeps_quiet. intros w w' x Hr. apply (NewV7_quiet _ _ _ Hr). Qed.

Lemma keeps_Now r `{!RuntimeSpec r} F : keeps F (call (Now r)) (λ _ _, True).
Proof. apply keeps_quiet. intros w w' x Hr. apply (Now_quiet _ _ _ Hr). Qed.

Lemma keeps_invalidate c `{!CacheSpec c} F p : keeps F (ignoring (call (Cache_Invalidate c p))) (λ _ _, True).
Proof.
  eapply keeps_ignoring, keeps_quiet. intros w w' x Hr. apply (Cache_Invalidate_spec _ _ _ _ Hr).
Qed.

(** What the cache has under the key of a filter. *)
Lemma keeps_cache_get c `{!CacheSpec c} F f :
  keeps F (call (Cache_Get c (cacheKey f)))
    (λ d h, ∃ g l, cacheKey g = cacheKey f ∧ json_Marshal l = Ok d ∧ sourced h g l).
Proof.
  apply keeps_read; [|by intros d; stable_facts]. intros w w' x Hr.
  destruct (Cache_Get_spec _ _ _ _ Hr) as [[Hb Hc _] Hd]. split; [done|]. split; [done|].
  intros h d -> [_ _ He] _. by apply He, Hd.
Qed.

Lemma keeps_cache_set c `{!CacheSpec c} F f l d ttl :
  (∀ h, F h → sourced h f l) → json_Marshal l = Ok d →
  keeps F (call (Cache_Set c (cacheKey f) d ttl)) (λ _ _, True).
Proof.
  intros HF Hd h w w' x Hi Hh Hr. destruct (Cache_Set_spec _ _ _ _ _ _ Hr) as (Hb & _ & Hc).
  split; [by left|]. assert (later h (extend h (board_of w'))) as Hl by (eapply moved_later; [apply Hi|by left]).
  split; [|exists (λ _, True); split; [apply stable_True|]; split; [done|by destruct x]].
  pose proof (inv_entries _ _ Hi) as He.
  destruct Hc as [Hc|Hc]; (eapply entries_later; [apply Hl|exact Hc|]); [done|].
  eapply entries_insert; [done|by apply HF|done].
Qed.

(** ** The requests *)

(** [bind_keeps L] sequences with the fact of the lemma [L] about the first call. *)
Tactic Notation "bind_keeps" uconstr(L) "as" simple_intropattern(x) :=
  eapply keeps_bind; [stable_all|apply L; apply _|intros x]; cbv beta.
(** [bind_call] is the same for a call whose fact is shown next. *)
Tactic Notation "bind_call" "as" simple_intropattern(x) :=
  eapply keeps_bind; [stable_all| |intros x]; cbv beta.

(** A read whose value nobody asks about. *)
Lemma keeps_lookup {A} (m : comp W A) answer F h :
  reads m answer → keeps F (when_err h (call m)) (λ _ _, True).
Proof. intros Hm. apply keeps_when_err, keeps_quiet. intros w w' x Hr. by apply (Hm _ _ _ Hr). Qed.

Lemma keeps_assignee mc `{!MemberCheckerSpec mc} F (go : uuid → bool) what tm o :
  keeps F
    (match o with
     | Some a => if go a then check_member_tree mc ErrAssignee what tm a else mret tt
     | None => mret tt
     end) (λ _ h, ∀ a, o = Some a → go a = true → is_member (current h) tm a).
Proof.
  destruct o as [a|]; [|by apply keeps_ret]. destruct (go a) eqn:Hgo.
  - apply (keeps_conseq _ _ (λ _ h, is_member (current h) tm a)); [|by apply keeps_check_member].
    by intros _ h _ Hm a' [= <-] _.
  - apply keeps_ret. intros h _ _ a' [= <-]. congruence.
Qed.

(** The calls a listing is made of: run together they are ListTasks, and its
    rows and its total are those of boards of the trail. *)
Class ListCallsSpec (g : TaskGetter W) (list_calls : TaskFilter → prog W (list Task * Z)) : Prop := {
  list_calls_tree f : tree_of (list_calls f) (ListTasks g f);
  list_calls_keeps F f : stable F →
    keeps F (list_calls f) (λ res h, sourced h f (MkCachedList res.1 res.2))
}.

(** One call. *)
#[export] Instance one_call g `{!TaskGetterSpec g} : ListCallsSpec g (λ f, call (ListTasks g f)).
Proof.
  split; [intros f; apply tree_call|]. intros F f _. apply keeps_read; [|by intros r; stable_all].
  intros w w' x Hr. destruct (ListTasks_quiet _ _ _ _ Hr) as [[Hb Hc _] _]. split; [done|]. split; [done|].
  intros h res -> [Hcur _ _] _. split; cbn.
  - intros Hp. apply (reads_answered _ _ _ _ _ (ListTasks_reads f Hp)) in Hr as [_ Hans]. rewrite <-Hcur in Hans.
    destruct res as [ts n]. exists (current h), (current h).
    split; [by left|]. split; [by left|]. split; by eexists.
  - intros t Hin. exists (current h). split; [by left|]. rewrite Hcur. by eapply ListTasks_rows.
Qed.

Section requests.
Context (a : App (W := W)) `{!AppSpec a}.
Context (list_calls : TaskFilter → prog W (list Task * Z)) `{!ListCallsSpec (taskGetter (taskSvc a)) list_calls}.

Lemma keeps_CreateTask c i :
  keeps (λ _, True) (CreateTask_tree (taskSvc a) c i) (λ t, granted a (ReqCreateTask c i) (ATask t)).
Proof.
  unfold CreateTask_tree. bind_keeps keeps_check_member as ?.
  bind_keeps (keeps_assignee _ _ (λ _, true)) as ?.
  bind_keeps keeps_NewV7 as id. bind_keeps keeps_Now as now. bind_call as ?.
  - eapply keeps_when_err, keeps_write with (Q := λ _ h, on_board (task_in id (CTI_TeamID i)) h ∧
        once (λ b, b_tasks b !! id = Some (norm_task (created_task id c i now))) h);
      [apply SaveTask_writes| | |intros _; stable_all].
    + intros b [] b' _ (h & <- & Hf) Hst. eapply mv_create_task; [|exact Hst]. cbn. unfold authorised. naive_solver.
    + intros h [] b' _ (_ & _ & _ & ->). split; [|apply once_now; apply lookup_insert_eq].
      unfold on_board, task_in. cbn. eexists. rewrite lookup_insert_eq. split; [done|]. apply norm_task_refs.
  - bind_keeps keeps_invalidate as ?. apply keeps_ret. intros h _ (_ & [Hin Hst] & _ & _ & Ha & Hc & _).
    cbn. unfold authorised, on_board in *. split; [by auto|]. split; [done|]. split; [by exists now|exact Hst].
Qed.

(** A task written back has the team it was read with, and is the row then. *)
Lemma keeps_UpdateTask s `{!TaskUpdaterSpec s} F h id caller input now task :
  (∀ tr, F tr → known id task tr ∧ update_authorised (current tr) task caller input) →
  keeps F (when_err h (call (UpdateTaskWithHistory s (updated_task task input id caller now)
                               (updated_entries task input id caller now))))
    (λ _ tr, ∃ row, once (λ b, b_tasks b !! id = Some row) tr ∧
       once (λ b, b_tasks b !! id =
         Some (norm_fields (update_columns row (updated_task task input id caller now)))) tr).
Proof.
  intros HF. destruct (updated_task_identity task input id caller now) as [Hid' _].
  eapply keeps_when_err, keeps_write; [apply UpdateTaskWithHistory_writes| | |intros ?; stable_all].
  - intros b [] b' _ (tr & <- & Hb) Hst. destruct (HF _ Hb) as ((Hid & (row & Hrow & Htm) & Has & _) & Ha).
    eapply (mv_update_task _ _ (updated_task task input id caller now) _ row caller);
      [by rewrite Hid', Hid|rewrite Htm; exact (proj1 Ha)| | |exact Hst].
    + intros a'. rewrite Htm. by apply updated_assignee_member.
    + rewrite Hid', Hid. apply updated_entries_refs.
  - intros tr [] b' Hf Hst. destruct (HF _ Hf) as ((Hid & (row & Hrow & _) & _) & _).
    destruct Hst as (Hst & _). rewrite Hid', Hid, Hrow in Hst. destruct Hst as (_ & _ & Hst).
    exists row. split; [exists (current tr); split; [by right; left|done]|].
    apply once_now. cbn. by rewrite Hst, lookup_insert_eq.
Qed.

Lemma keeps_Update c t i :
  keeps (λ _, True) (UpdateTask_tree (taskSvc a) c t i) (λ x, granted a (ReqUpdateTask c t i) (ATask x)).
Proof.
  unfold UpdateTask_tree. bind_keeps keeps_get_task as task. bind_keeps keeps_check_member as ?.
  bind_keeps (keeps_assignee _ _ (λ a', negb (uuidPtrEqual (Task_AssigneeID task) (Some a')))) as ?.
  pose proof (λ now, keeps_UpdateTask (taskUpdater (taskSvc a))
    (λ h, known t task h ∧ update_authorised (current h) task c i) (wrap "task.Service.Update: update task")
    t c i now task (λ b Hb, Hb)) as Hupd.
  pose proof (updated_task_assignee task i t c) as Hasg.
  pose proof (λ now, updated_task_identity task i t c now) as Hid.
  pose proof (updated_task_merged task i t c) as Hmg.
  unfold updated_task, updated_entries in Hupd, Hasg, Hid, Hmg.
  destruct (buildHistoryEntries task i t c) as [task' entries]. cbn [fst snd] in Hupd, Hasg, Hid, Hmg.
  bind_keeps keeps_Now as now. specialize (Hupd now). specialize (Hasg now). specialize (Hid now). specialize (Hmg now).
  assert (∀ h, (True ∧ (∀ a0, UTI_AssigneeID i = Some a0 →
      negb (uuidPtrEqual (Task_AssigneeID task) (Some a0)) = true →
      is_member (current h) (Task_TeamID task) a0) ∧ is_member (current h) (Task_TeamID task) c ∧
      known t task h ∧ True) → known t task h ∧ update_authorised (current h) task c i) as Hfacts.
  { intros h (_ & Ha & Hc & Hk & _). split; [done|]. split; [done|]. intros a' Hi Hne. apply Ha; [done|].
    by rewrite uuidPtrEqual_spec, bool_decide_false. }
  bind_call as ?; [eapply keeps_weaken; [|apply Hupd]; intros h _; apply Hfacts|].
  bind_keeps keeps_invalidate as ?. apply keeps_ret. intros h _ (_ & Hrow & Hf). apply Hfacts in Hf as [Hk Ha].
  destruct Hid as [Hid Htm]. destruct Hk as (Hkid & Hin & Hka & Hold).
  unfold granted, on_board in *. rewrite Hid, Htm, Hasg.
  split; [done|]. split; [done|]. split; [exact (proj1 Ha)|]. split; [clear Hrow|by split; [exists task, now|exact Hrow]].
  destruct Ha as [_ Ha]. destruct (UTI_AssigneeID i) as [asg|]; [|exact Hka]. intros u [= <-].
  destruct (decide (Task_AssigneeID task = Some asg)); auto.
Qed.

Lemma keeps_History c t :
  keeps (λ _, True) (History_tree (taskSvc a) c t) (λ l, granted a (ReqTaskHistory c t) (AHistory l)).
Proof.
  unfold History_tree. bind_keeps keeps_get_task as task. bind_keeps keeps_check_member as ?.
  eapply keeps_conseq; [|apply keeps_post; [stable_all|]; eapply keeps_when_err, keeps_reads_some;
    [apply ListHistory_reads| |intros l; apply stable_once]].
  - intros l h _ (Ho & Hm & (_ & Hin & _) & _). split; [|exact Ho]. by exists (Task_TeamID task).
  - intros h l _ _ (l' & [= <-] & Hl). by apply once_now.
Qed.

Lemma keeps_AddComment c t body :
  keeps (λ _, True) (AddComment_tree (commentSvc a) c t body) (λ x, granted a (ReqAddComment c t body) (AComment x)).
Proof.
  unfold AddComment_tree. bind_keeps keeps_get_task as task. bind_keeps keeps_check_member as ?.
  eapply keeps_conseq; [|apply keeps_post; [stable_all|];
    eapply keeps_when_err, keeps_write with (Q := λ x h, Comment_TaskID x = t ∧ Comment_UserID x = c ∧
        Comment_Body x = body ∧ once (λ b, ∃ now, MkComment (Comment_ID x) t c body now ∈ b_comments b) h);
    [apply SaveComment_writes| | |intros ?; stable_all]].
  - intros x h _ (Hx & Hm & (_ & Hin & _) & _). split; [|exact Hx]. by exists (Task_TeamID task).
  - intros b c' b' _ (h & <- & Hm & (_ & (row & Hrow & Htm) & _) & _) Hst. eapply mv_comment; [|exact Hst].
    exists row. cbn. by rewrite Htm.
  - intros h x b' _ (_ & _ & _ & i & n & -> & ->). do 3 (split; [done|]). apply once_now. exists n.
    cbn. apply elem_of_app. right. by left.
Qed.

Lemma keeps_ListComments c t :
  keeps (λ _, True) (ListComments_tree (commentSvc a) c t) (λ l, granted a (ReqListComments c t) (AComments l)).
Proof.
  unfold ListComments_tree. bind_keeps keeps_get_task as task. bind_keeps keeps_check_member as ?.
  eapply keeps_conseq; [|apply keeps_post; [stable_all|]; eapply keeps_when_err, keeps_reads_some;
    [apply ListComments_reads| |intros l; apply stable_once]].
  - intros l h _ (Ho & Hm & (_ & Hin & _) & _). split; [|exact Ho]. by exists (Task_TeamID task).
  - intros h l _ _ (l' & [= <-] & Hl). by apply once_now.
Qed.

Lemma keeps_from_storage F k f :
  stable F → k = cacheKey f →
  keeps F (list_from_storage_tree list_calls (taskSvc a) k f)
    (λ res h, sourced h f (MkCachedList res.1 res.2)).
Proof.
  intros HF ->. unfold list_from_storage_tree.
  eapply keeps_bind; [done|by apply keeps_when_err, list_calls_keeps|intros res]; cbv beta.
  apply (keeps_bind _ _ _ (λ _ _, True)); [by stable_all| |intros ?; apply keeps_ret; by intros h _ (_ & ? & _)].
  destruct (json_Marshal _) as [d|e] eqn:Hd; [|by apply keeps_ret].
  eapply keeps_ignoring, keeps_cache_set; [apply _|by intros h [? _]|exact Hd].
Qed.

Lemma keeps_List c f :
  keeps (λ _, True) (ListTasks_tree list_calls (taskSvc a) c f)
    (λ res, granted a (ReqListTasks c f) (ATasks res.1 res.2)).
Proof.
  unfold ListTasks_tree, granted. destruct (TF_TeamID f) as [tm|] eqn:Htm; [|done].
  bind_keeps keeps_check_member as ?. set (f' := normalize f).
  assert (TF_TeamID f' = Some tm) as Htm' by done. clearbody f'.
  bind_call as hit; [apply keeps_trying, keeps_cache_get, _|].
  assert (∀ F, stable F → (∀ h, F h → is_member (current h) tm c) →
    keeps F (list_from_storage_tree list_calls (taskSvc a) (cacheKey f') f')
      (λ res h, ∃ tm0, Some tm = Some tm0 ∧ is_member (current h) tm0 c ∧
         ∃ g l0, cacheKey g = cacheKey f' ∧ TF_TeamID g = Some tm0 ∧ sourced h g l0 ∧
           recoded l0 (MkCachedList res.1 res.2))) as Hstore.
  { intros F HF Hm. eapply keeps_conseq; [|apply keeps_post; [exact HF|by apply keeps_from_storage]].
    intros res h _ [Hs Hf]. exists tm. split; [done|]. split; [by apply Hm|].
    exists f', (MkCachedList res.1 res.2). split; [done|]. split; [done|]. split; [done|]. by left. }
  destruct hit as [d|e]; [destruct (json_Unmarshal d) as [l|e] eqn:El|];
    [|apply Hstore; [stable_all|by intros h (_ & ? & _)]..].
  apply keeps_ret. intros h _ (Hd & Hm & _). destruct (Hd d eq_refl) as (g & l0 & Hk & Hl0 & Hs).
  exists tm. split; [done|]. split; [done|]. exists g, l0. split; [done|]. split; [|split; [done|]].
  - apply cacheKey_team. rewrite Hk. by apply cacheKey_team.
  - right. exists d. by destruct l.
Qed.

Lemma keeps_CreateTeam o n :
  keeps (λ _, True) (CreateTeam_tree (teamSvc a) o n) (λ t, granted a (ReqCreateTeam o n) (ATeam t)).
Proof.
  unfold CreateTeam_tree. bind_keeps keeps_NewV7 as id. bind_keeps keeps_Now as now. bind_call as ?.
  - eapply keeps_when_err, keeps_write with (Q := λ _ h, is_member (current h) id o);
      [apply CreateTeamWithOwner_writes| | |intros ?; stable_all].
    + intros b [] b' _ _ Hst. by eapply mv_create_team.
    + intros h [] b' _ (_ & _ & _ & _ & _ & t' & _ & _ & _ & ->). unfold is_member. cbn.
      rewrite lookup_insert_eq. by eexists.
  - apply keeps_ret. by intros h _ (? & _).
Qed.

Lemma keeps_ListForUser u :
  keeps (λ _, True) (ListForUser_tree (teamSvc a) u) (λ l, granted a (ReqListTeams u) (ATeams l)).
Proof.
  eapply keeps_when_err, keeps_reads_some; [apply GetTeamsByUser_reads| |intros l; cbn; stable_all].
  intros h l _ _ (l' & [= <-] & Hp) t Ht. unfold teams_of in Hp. rewrite Hp in Ht. apply list_elem_of_omap in Ht as ([id t'] & Hin & Ht).
  cbn in Ht. case_decide as Hm; [|done]. injection Ht as ->. apply elem_of_map_to_list in Hin.
  exists id. split; [by apply once_now|done].
Qed.

Lemma keeps_Invite c tm u :
  keeps (λ _, True) (Invite_tree (teamSvc a) c tm u) (λ _, granted a (ReqInvite c tm u) ADone).
Proof.
  unfold Invite_tree.
  bind_call as team; [eapply keeps_lookup, GetTeamByID_reads|].
  bind_call as role.
  { eapply keeps_when_err, keeps_reads with (Q := λ role h, is_member (current h) tm c ∧
        once (λ b, b_members b !! (tm, c) = Some role) h);
      [apply TeamGetter_GetMemberRole_reads| |intros ?; stable_all].
    intros h r w Hcur _ _ Hrole. rewrite Hcur. split; [apply is_member_role; by eauto|].
    apply once_now. rewrite Hcur. revert Hrole. unfold member_role, or_not_found.
    by destruct (b_members _ !! _); intros [= ->]. }
  case_bool_decide as Hne; [done|].
  bind_call as target; [eapply keeps_lookup, GetByID_reads|].
  bind_call as ?.
  - eapply keeps_when_err, keeps_write with (Q := λ _ h, is_member (current h) tm u);
      [apply SaveMember_writes, TeamSvc.RoleMember_valid| | |intros ?; stable_all].
    + intros b [] b' _ _ Hst. by eapply mv_member.
    + intros h [] b' _ (_ & _ & ->). unfold is_member. cbn. rewrite lookup_insert_eq. by eexists.
  - eapply keeps_conseq; [|apply keeps_post; [stable_all|]; eapply keeps_ignoring, keeps_quiet;
      intros w w' x Hr; apply (SendInvite_quiet _ _ _ _ _ Hr)].
    intros ? h _ (_ & Hu & _ & [Hm (b & Hs & Hrole)] & _). split; [exists b; split; [done|by exists role]|done].
Qed.

Lemma keeps_by_email g `{!UserByEmailSpec g} F e :
  keeps F (call (GetByEmail g e))
    (λ u, once (λ b, ∃ id, b_users b !! id = Some u ∧ same_email (User_Email u) e)).
Proof.
  eapply keeps_reads_some; [apply GetByEmail_reads| |intros u; stable_all].
  intros h u _ _ [Hu He]. apply once_now. eauto.
Qed.

Lemma keeps_Register e n p :
  keeps (λ _, True) (Register_tree (authSvc a) e n p) (λ _, granted a (ReqRegister e n p) ADone).
Proof.
  unfold Register_tree. bind_call as found; [eapply keeps_trying, keeps_by_email; apply _|].
  destruct found as [u|err]; [done|]. destruct (negb _); [done|].
  bind_call as hash.
  { apply keeps_when_err, keeps_read with (Q := λ hash _,
      CompareHashAndPassword (AuthSvc.bcrypt (authSvc a)) hash p = None); [|by intros ?; stable_all].
    intros w w' x Hr. destruct (AuthSvc.Generate_quiet _ _ _ _ _ Hr) as [[Hb Hc _] _].
    split; [done|]. split; [done|]. intros h hash -> _ _. by eapply AuthSvc.Generate_accepts. }
  bind_keeps keeps_NewV7 as id. bind_keeps keeps_Now as now.
  eapply keeps_when_err, keeps_write; [apply SaveUser_writes| | |intros ?; apply stable_once].
  - intros b [] b' _ _ Hst. by eapply mv_register.
  - intros h [] b' (_ & _ & Hacc & _) (_ & _ & _ & u' & Hid & He & Hn & Hpw & ->). apply once_now. cbn.
    exists id, u'. unfold accepts. cbn in *. by rewrite lookup_insert_eq, Hpw.
Qed.

Lemma keeps_Login e p :
  keeps (λ _, True) (Login_tree (authSvc a) e p) (λ t, granted a (ReqLogin e p) (AToken t)).
Proof.
  unfold Login_tree. bind_call as u; [eapply keeps_when_err, keeps_by_email; apply _|].
  destruct (CompareHashAndPassword _ _ _) eqn:Hc; [done|]. bind_keeps keeps_Now as now.
  destruct (SignedString _ _) eqn:Hsig; [|done]. apply keeps_ret. intros h _ (_ & (b & Hs & id & Hu & He) & _).
  exists b. split; [done|]. exists id, u. do 3 (split; [done|]). by exists now.
Qed.

Lemma thread_of_keeps q h : flight_keeps (granted a) h (q, thread_of list_calls a q).
Proof.
  exists (λ _, True). split; [apply stable_True|]. split; [done|]. cbn [fst snd].
  destruct q; apply keeps_answering.
  - apply keeps_Register.
  - apply keeps_Login.
  - apply keeps_CreateTeam.
  - apply keeps_ListForUser.
  - apply keeps_Invite.
  - apply keeps_CreateTask.
  - apply keeps_List.
  - apply keeps_Update.
  - apply keeps_History.
  - apply keeps_AddComment.
  - apply keeps_ListComments.
Qed.

End requests.

(** ** The pool *)
Section pool.
Context (a : App (W := W)) `{!AppSpec a}.
Context (list_calls : TaskFilter → prog W (list Task * Z)) `{!ListCallsSpec (taskGetter (taskSvc a)) list_calls}.

(** C6: concurrency. Whatever number of requests are in flight and however
    their calls to storage, cache and libraries interleave, with failures and
    lost answers at any of them, the board stays sound, users, teams and
    memberships are never lost and no task changes its team. *)
Theorem concurrent_sound w w' ts :
  sound (board_of w) → entries_sourced (Trail (board_of w) []) (cache_of w) →
  rtc (steps (thread_of list_calls a)) (w, []) (w', ts) →
  sound (board_of w') ∧ grows (board_of w) (board_of w').
Proof.
  intros Hs He Hrun.
  destruct (pool_trail _ (granted a) (thread_of_keeps a list_calls) w (w', ts) Hs He Hrun)
    as (h & [Hcur Hs' _] & _ & [Hg _] & _).
  cbn [fst] in Hcur. rewrite <-Hcur. by split.
Qed.


End pool.

End flight.
