(* ===== verification/MySQLAnalytics.v ===== *)
(** * MySQLAnalytics: internal/storage/mysql/analytics.go

    The three analytical queries, clause by clause: joins as lists of joined
    rows, GROUP BY, COUNT(DISTINCT ...), RANK() OVER, NOT EXISTS. *)
From Stdlib Require Import Strings.Byte.
From S2P Require Import Prelude Go Uuid Domain Ports MySQLEngine MySQLStorage.
From S2P Require Import MySQLSpec AnalyticsService System.

Module AnalyticsStorage.

(** ** Rows *)
Record teamSummaryRow : Type := TeamSummaryRow {
  sr_ID : list byte; sr_Name : string; sr_MemberCount : Z; sr_DoneLast7Days : Z
}.
Record topContributorRow : Type := TopContributorRow {
  tc_TeamID : list byte; tc_UserID : list byte; tc_TaskCount : Z; tc_RankInTeam : Z
}.
Record orphanTaskRow : Type := OrphanTaskRow {
  or_ID : list byte; or_Title : string; or_TeamID : list byte; or_AssigneeID : list byte
}.

Definition toTeamSummary (r : teamSummaryRow) : result TeamSummary :=
  id ← parse_err "mysql: parse summary team id" (bytesToUUID (sr_ID r));
  Ok (MkTeamSummary id (sr_Name r) (sr_MemberCount r) (sr_DoneLast7Days r)).

Definition toTopContributor (r : topContributorRow) : result TopContributor :=
  teamID ← parse_err "mysql: parse contributor team_id" (bytesToUUID (tc_TeamID r));
  userID ← parse_err "mysql: parse contributor user_id" (bytesToUUID (tc_UserID r));
  Ok (MkTopContributor teamID userID (tc_TaskCount r) (tc_RankInTeam r)).

Definition toOrphanTask (r : orphanTaskRow) : result OrphanTask :=
  id ← parse_err "mysql: parse orphan task id" (bytesToUUID (or_ID r));
  teamID ← parse_err "mysql: parse orphan team_id" (bytesToUUID (or_TeamID r));
  assigneeID ← parse_err "mysql: parse orphan assignee_id" (bytesToUUID (or_AssigneeID r));
  Ok (MkOrphanTask id (or_Title r) teamID assigneeID).

(** ** SQL *)

Definition day_ns : Z := 86400000000000.

(** [NOW() - INTERVAL n DAY]: NOW() has no fractional seconds. *)
Definition days_ago (now : time) (n : Z) : Z :=
  t_ns now `div` 1000000000 * 1000000000 - n * day_ns.

(** LEFT JOIN: the matching rows, or one row of NULLs. *)
Definition left_join {A B} (l : list A) (m : A → list B) : list (A * option B) :=
  l ≫= λ a, match m a with [] => [(a, None)] | bs => (λ b, (a, Some b)) <$> bs end.

(** COUNT(DISTINCT e): the distinct values of [e] that are not NULL. *)
Definition count_distinct {A} `{Countable K} (e : A → option K) (rows : list A) : Z :=
  Z.of_nat (size (list_to_set (omap e rows) : gset K)).

Definition members_of (tm : uuid) (t : tables) : list uuid :=
  omap (λ kr : uuid * uuid * string, if decide (kr.1.1 = tm) then Some kr.1.2 else None)
    (map_to_list (team_members t)).
Definition tasks_of (tm : uuid) (t : tables) : list (uuid * tasks_rec) :=
  base.filter (λ kr, k_team_id kr.2 = tm) (map_to_list (tasks t)).

(** CASE WHEN status = 'done' AND updated_at >= NOW() - INTERVAL 7 DAY *)
Definition done_since (since : Z) (r : tasks_rec) : bool :=
  bool_decide (k_status r = StatusDone) && (since <=? t_ns (k_updated_at r)).

(** The joined rows of one team's group: member and task, either may be NULL. *)
Definition summary_group (tm : uuid) (t : tables)
    : list (option uuid * option (uuid * tasks_rec)) :=
  (λ row : uuid * option uuid * option (uuid * tasks_rec), (row.1.2, row.2)) <$>
  left_join (left_join [tm] (λ tm, members_of tm t)) (λ row, tasks_of row.1 t).

Section queries.
Context `{!MySQLEngine}.

Definition select_summaries (d : db) : result (list teamSummaryRow) :=
  let t := d_tables d in
  let since := days_ago (d_now d) 7 in
  Ok ((λ kr : uuid * teams_rec,
        let rows := summary_group kr.1 t in
        TeamSummaryRow (uuidToBytes kr.1) (m_name kr.2)
          (count_distinct fst rows)
          (count_distinct (λ row, '(id, r) ← row.2; if done_since since r then Some id else None) rows))
      <$> scan (d_plan d) (teams t)).

Definition TeamSummaries : comp db (list TeamSummary) :=
  rows ← on_err (wrap "mysql: team summaries") (SelectContext select_summaries);
  lift_result (result_mapM toTeamSummary rows).

(** WHERE tk.created_at >= ... GROUP BY tk.team_id, tk.created_by: the groups and
    their COUNT( * ). *)
Definition contributions (since : Z) (t : tables) : gmap (uuid * uuid) Z :=
  foldr (λ kr : uuid * tasks_rec, λ m,
    if since <=? t_ns (k_created_at kr.2) then
      partial_alter (λ n, Some (1 + default 0 n)) (k_team_id kr.2, k_created_by kr.2) m
    else m) ∅ (map_to_list (tasks t)).

(** RANK() OVER (PARTITION BY team_id ORDER BY COUNT( * ) DESC): one more than
    the rows of the partition that come strictly before. *)
Definition rank (m : gmap (uuid * uuid) Z) (tm : uuid) (n : Z) : Z :=
  1 + Z.of_nat (size (filter (λ kn : uuid * uuid * Z, kn.1.1 = tm ∧ n < kn.2) m)).

Definition select_contributors (d : db) : result (list topContributorRow) :=
  let m := contributions (days_ago (d_now d) 30) (d_tables d) in
  Ok ((λ kn : uuid * uuid * Z,
        TopContributorRow (uuidToBytes kn.1.1) (uuidToBytes kn.1.2) kn.2 (rank m kn.1.1 kn.2)) <$>
      base.filter (λ kn : uuid * uuid * Z, rank m kn.1.1 kn.2 ≤ 3) (map_to_list m)).

Definition TopContributors : comp db (list TopContributor) :=
  rows ← on_err (wrap "mysql: top contributors") (SelectContext select_contributors);
  lift_result (result_mapM toTopContributor rows).

(** assignee_id IS NOT NULL AND NOT EXISTS (SELECT 1 FROM team_members ...) *)
Definition orphan (t : tables) (kr : uuid * tasks_rec) : option (uuid * tasks_rec * uuid) :=
  match k_assignee_id kr.2 with
  | Some a => if decide (is_Some (team_members t !! (k_team_id kr.2, a))) then None else Some (kr, a)
  | None => None
  end.

Definition select_orphans (d : db) : result (list orphanTaskRow) :=
  let t := d_tables d in
  Ok ((λ row : uuid * tasks_rec * uuid,
        OrphanTaskRow (uuidToBytes row.1.1) (k_title row.1.2) (uuidToBytes (k_team_id row.1.2))
          (uuidToBytes row.2)) <$> omap (orphan t) (map_to_list (tasks t))).

Definition OrphanTasks : comp db (list OrphanTask) :=
  rows ← on_err (wrap "mysql: orphan tasks") (SelectContext select_orphans);
  lift_result (result_mapM toOrphanTask rows).

(** ** What the queries compute *)

(** The members of a team, and its tasks done since a time. *)
Definition member_set (tm : uuid) (t : tables) : gset uuid :=
  list_to_set (members_of tm t).
Definition done_tasks (since : Z) (tm : uuid) (t : tables) : gmap uuid tasks_rec :=
  filter (λ kr : uuid * tasks_rec, k_team_id kr.2 = tm ∧ done_since since kr.2 = true) (tasks t).

Lemma omap_left_join_left {A B K} (l : list A) (m : A → list B) (e : A → option K) k :
  k ∈ omap (λ row, e row.1) (left_join l m) ↔ k ∈ omap e l.
Proof.
  unfold left_join. rewrite !list_elem_of_omap. setoid_rewrite list_elem_of_bind. split.
  - intros ([a ob] & (a' & Hin & Ha) & He). exists a. split; [|done].
    assert (a = a') as ->; [|done]. destruct (m a') as [|b bs].
    + apply list_elem_of_singleton in Hin. by simplify_eq.
    + apply list_elem_of_fmap in Hin as (? & ? & _). by simplify_eq.
  - intros (a & Ha & He). destruct (m a) as [|b bs] eqn:Em.
    + exists (a, None). split; [|done]. exists a. rewrite Em. split; [by left|done].
    + exists (a, Some b). split; [|done]. exists a. rewrite Em. split; [by left|done].
Qed.

Lemma omap_left_join_right {A B K} (l : list A) (m : A → list B) (e : B → option K) k :
  k ∈ omap (λ row : A * option B, b ← row.2; e b) (left_join l m) ↔
  ∃ a b, a ∈ l ∧ b ∈ m a ∧ e b = Some k.
Proof.
  unfold left_join. rewrite !list_elem_of_omap. setoid_rewrite list_elem_of_bind. split.
  - intros ([a ob] & (a' & Hin & Ha) & He). destruct (m a') as [|b bs] eqn:Em.
    + apply list_elem_of_singleton in Hin. by simplify_eq.
    + apply list_elem_of_fmap in Hin as (b' & ? & Hb). simplify_eq/=. exists a', b'. by rewrite Em.
  - intros (a & b & Ha & Hb & He). exists (a, Some b). split; [|done]. exists a. split; [|done].
    destruct (m a) as [|b0 bs]; [by apply elem_of_nil in Hb|]. by apply (list_elem_of_fmap_2 (λ b, (a, Some b))).
Qed.

Lemma omap_fmap {A B C} (f : B → option C) (g : A → B) (l : list A) :
  omap f (g <$> l) = omap (λ a, f (g a)) l.
Proof. induction l as [|a l IH]; [done|]. simpl. destruct (f (g a)); [f_equal|]; apply IH. Qed.

Lemma count_distinct_ext {A} `{Countable K} (e : A → option K) rows (X : gset K) :
  (∀ k, k ∈ omap e rows ↔ k ∈ X) → count_distinct e rows = Z.of_nat (size X).
Proof.
  intros Hk. unfold count_distinct. do 2 f_equal. apply set_eq. intros k.
  by rewrite elem_of_list_to_set, Hk.
Qed.

Lemma summary_group_members tm t :
  count_distinct fst (summary_group tm t) = Z.of_nat (size (member_set tm t)).
Proof.
  apply count_distinct_ext. intros k. unfold summary_group, member_set.
  rewrite omap_fmap, elem_of_list_to_set.
  rewrite (omap_left_join_left (left_join [tm] (λ tm, members_of tm t)) (λ row, tasks_of row.1 t) snd).
  pose proof (omap_left_join_right [tm] (λ tm, members_of tm t) Some k) as Hr.
  assert (∀ l : list (uuid * option uuid), omap snd l = omap (λ row, b ← row.2; Some b) l) as ->.
  { intros l. apply list_omap_ext, Forall_Forall2_diag, Forall_true. by intros [? []]. }
  rewrite Hr. split.
  - intros (? & b & ->%list_elem_of_singleton & Hb & [= ->]). done.
  - intros Hb. exists tm, k. split; [by left|done].
Qed.

Lemma summary_group_done since tm t :
  count_distinct (λ row, '(id, r) ← row.2; if done_since since r then Some id else None)
    (summary_group tm t) = Z.of_nat (size (done_tasks since tm t)).
Proof.
  rewrite <-size_dom. apply count_distinct_ext. intros k. unfold summary_group.
  rewrite omap_fmap.
  rewrite (omap_left_join_right (left_join [tm] (λ tm, members_of tm t)) (λ row, tasks_of row.1 t)
    (λ '(id, r), if done_since since r then Some id else None)).
  unfold done_tasks. rewrite elem_of_dom. split.
  - intros ([tm' om] & [id r] & Hrow & Hin & He). destruct (done_since since r) eqn:Ed; simplify_eq.
    assert (tm' = tm) as ->.
    { unfold left_join in Hrow. apply list_elem_of_bind in Hrow as (x & Hx & ->%list_elem_of_singleton).
      destruct (members_of tm t); [by apply list_elem_of_singleton in Hx; simplify_eq|].
      apply list_elem_of_fmap in Hx as (? & ? & _). by simplify_eq. }
    apply list_elem_of_filter in Hin as [Htm Hin]. apply elem_of_map_to_list in Hin.
    exists r. by apply map_lookup_filter_Some.
  - intros [r [Hk [Htm Hd]]%map_lookup_filter_Some].
    assert (∃ om, (tm, om) ∈ left_join [tm] (λ tm, members_of tm t)) as [om Hom].
    { unfold left_join. simpl. rewrite app_nil_r. destruct (members_of tm t) as [|b bs].
      - exists None. by left.
      - exists (Some b). by left. }
    exists (tm, om), (k, r). split; [done|]. simpl in *. rewrite Hd. split; [|done].
    apply list_elem_of_filter. split; [done|]. by apply elem_of_map_to_list.
Qed.

(** The groups count exactly the tasks of their creator since the time. *)
Lemma contributions_count since t tm u :
  default 0 (contributions since t !! (tm, u)) =
  Z.of_nat (length (base.filter (λ kr : uuid * tasks_rec,
    k_team_id kr.2 = tm ∧ k_created_by kr.2 = u ∧ since ≤ t_ns (k_created_at kr.2))
    (map_to_list (tasks t)))).
Proof.
  unfold contributions. induction (map_to_list (tasks t)) as [|kr l IH]; [done|]. cbn [foldr].
  rewrite filter_cons. destruct (Z.leb_spec since (t_ns (k_created_at kr.2))) as [Hs|Hs].
  - destruct (decide ((k_team_id kr.2, k_created_by kr.2) = (tm, u))) as [Heq|Hne].
    + rewrite Heq, lookup_partial_alter_eq. injection Heq as <- <-. simpl default.
      rewrite IH, decide_True by done. simpl length. lia.
    + rewrite lookup_partial_alter_ne by done. rewrite decide_False by naive_solver. done.
  - rewrite decide_False by (intros (_ & _ & ?); lia). done.
Qed.

Lemma contributions_positive since t k n : contributions since t !! k = Some n → 1 ≤ n.
Proof.
  unfold contributions. revert k n. induction (map_to_list (tasks t)) as [|kr l IH]; intros k n.
  { cbn [foldr]. by rewrite lookup_empty. }
  cbn [foldr]. destruct (since <=? _); [|apply IH].
  destruct (decide ((k_team_id kr.2, k_created_by kr.2) = k)) as [<-|Hne].
  - rewrite lookup_partial_alter_eq. intros [= <-].
    destruct (foldr _ _ _ !! _) as [m|] eqn:E; simpl; [|lia]. specialize (IH _ _ E). lia.
  - rewrite lookup_partial_alter_ne by done. apply IH.
Qed.

Context `{!MySQLEngineSpec}.

(** A query of a healthy database returns its converted rows. *)
Lemma healthy_select {A B X} what (f : db → result (list A)) src (mk : time → tables → X → A)
    (to : A → result B) g d d' r :
  (∀ d, f d = Ok (mk (d_now d) (d_tables d) <$> src (d_plan d) (d_now d) (d_tables d))) →
  (∀ n t x, to (mk n t x) = Ok (g n t x)) → healthy d →
  (rs ← on_err (wrap what) (SelectContext f); lift_result (result_mapM to rs)) d = (d', r) →
  calm d d' ∧ ∃ p, r = Ok (g (d_now d) (d_tables d) <$> src p (d_now d) (d_tables d)).
Proof.
  intros Hf Hto Hd Hr. unfold SelectContext, query, statement in Hr.
  destruct (next_fault d) as [flt d1] eqn:E.
  destruct (next_fault_spec _ _ _ E) as (Ht & _ & _ & Hn & Hh). destruct (Hh Hd) as [-> Hd1].
  rewrite comp_bind_run in Hr. unfold on_err in Hr. rewrite E, Hf, Ht, Hn in Hr. cbn in Hr.
  unfold lift_result in Hr. injection Hr as <- <-. split; [by split|]. eexists.
  apply result_mapM_Ok. intros x. apply Hto.
Qed.

(** in a healthy database TeamSummaries has one row per team, with its
    number of members and its number of tasks done in the last seven days: the
    two joins multiply rows, DISTINCT undoes it. *)
Theorem TeamSummaries_correct d d' r :
  healthy d → TeamSummaries d = (d', r) →
  d_tables d' = d_tables d ∧ ∃ l, r = Ok l ∧ ∀ s, s ∈ l ↔
    ∃ tm team, teams (d_tables d) !! tm = Some team ∧
      s = MkTeamSummary tm (m_name team)
            (Z.of_nat (size (member_set tm (d_tables d))))
            (Z.of_nat (size (done_tasks (days_ago (d_now d) 7) tm (d_tables d)))).
Proof.
  intros Hd Hr. unfold TeamSummaries in Hr.
  apply (healthy_select _ _ (λ p _ t, scan p (teams t))
    (λ n t kr, TeamSummaryRow (uuidToBytes kr.1) (m_name kr.2)
      (count_distinct fst (summary_group kr.1 t))
      (count_distinct (λ row, '(id, r) ← row.2; if done_since (days_ago n 7) r then Some id else None)
        (summary_group kr.1 t))) _
    (λ n t kr, MkTeamSummary kr.1 (m_name kr.2) (Z.of_nat (size (member_set kr.1 t)))
      (Z.of_nat (size (done_tasks (days_ago n 7) kr.1 t))))) in Hr as [[Ht _] [p ->]]; [|done| |done].
  2: { intros n t kr. unfold toTeamSummary. simpl. rewrite bytesToUUID_id. simpl.
       by rewrite summary_group_members, summary_group_done. }
  split; [done|]. eexists. split; [done|]. intros s. rewrite list_elem_of_fmap. split.
  - intros ([tm team] & -> & Hin). exists tm, team. split; [|done].
    rewrite scan_perm in Hin. by apply elem_of_map_to_list in Hin.
  - intros (tm & team & Htm & ->). exists (tm, team). split; [done|].
    rewrite scan_perm. by apply elem_of_map_to_list.
Qed.

(** The tasks a user created in a team since a time. *)
Definition created_in (since : Z) (tm u : uuid) (t : tables) : gmap uuid tasks_rec :=
  filter (λ kr : uuid * tasks_rec,
    k_team_id kr.2 = tm ∧ k_created_by kr.2 = u ∧ since ≤ t_ns (k_created_at kr.2)) (tasks t).

(** The users that created more tasks in the team than [n]. *)
Definition ahead (since : Z) (tm : uuid) (n : nat) (t : tables) : gset uuid :=
  filter (λ u, n < size (created_in since tm u t))%nat
    (list_to_set ((λ kr : uuid * tasks_rec, k_created_by kr.2) <$> map_to_list (tasks t))).

Lemma map_filter_to_list {K A} `{Countable K} (P : K * A → Prop) `{!∀ x, Decision (P x)} (m : gmap K A) :
  size (filter P m) = length (base.filter P (map_to_list m)).
Proof.
  rewrite <-length_map_to_list. apply Permutation_length, NoDup_Permutation;
    [apply NoDup_map_to_list|apply NoDup_filter, NoDup_map_to_list|].
  intros [k x]. rewrite list_elem_of_filter, !elem_of_map_to_list, map_lookup_filter_Some. tauto.
Qed.

(** A group exists for exactly the users with a task, and counts them. *)
Lemma contributions_groups since t tm u n :
  contributions since t !! (tm, u) = Some n ↔
  n = Z.of_nat (size (created_in since tm u t)) ∧ (1 ≤ size (created_in since tm u t))%nat.
Proof.
  pose proof (contributions_count since t tm u) as Hc. unfold created_in.
  rewrite map_filter_to_list. destruct (contributions since t !! (tm, u)) as [m|] eqn:E; cbn in Hc.
  - apply contributions_positive in E. rewrite <-Hc. split; [intros [= <-]; split; [done|lia]|by intros [-> _]].
  - split; [done|]. intros [-> ?]. lia.
Qed.

Lemma created_in_creator since tm u t :
  (1 ≤ size (created_in since tm u t))%nat →
  u ∈ (λ kr : uuid * tasks_rec, k_created_by kr.2) <$> map_to_list (tasks t).
Proof.
  intros Hs. destruct (decide (created_in since tm u t = ∅)) as [He|He]; [rewrite He, map_size_empty in Hs; lia|].
  apply map_choose in He as (id & r & (Hid & _ & Hu & _)%map_lookup_filter_Some).
  apply list_elem_of_fmap. exists (id, r). split; [done|by apply elem_of_map_to_list].
Qed.

(** The rows RANK() puts before a count are those of the users ahead. *)
Lemma rank_ahead since t tm n :
  size (filter (λ kn : uuid * uuid * Z, kn.1.1 = tm ∧ Z.of_nat n < kn.2) (contributions since t)) =
  size (ahead since tm n t).
Proof.
  set (m := filter _ _). rewrite <-size_dom.
  assert (dom m = set_map (D := gset (uuid * uuid)) (λ u, (tm, u)) (ahead since tm n t)) as ->.
  { apply set_eq. intros [tm' u]. rewrite elem_of_dom, elem_of_map. unfold m, ahead. split.
    - intros [k [Hk [Htm Hn]]%map_lookup_filter_Some]. cbn in Htm, Hn. subst tm'.
      apply contributions_groups in Hk as [-> Hk]. exists u. split; [done|]. apply elem_of_filter.
      split; [lia|]. apply elem_of_list_to_set. by eapply created_in_creator.
    - intros (u' & [= -> ->] & [Hn _]%elem_of_filter).
      exists (Z.of_nat (size (created_in since tm u' t))). apply map_lookup_filter_Some. cbn.
      split; [apply contributions_groups; split; [done|lia]|]. split; [done|lia]. }
  unfold set_map. rewrite size_list_to_set; [by rewrite length_fmap|].
  apply NoDup_fmap_2; [by intros u v [= ->]|apply NoDup_elements].
Qed.

(** C35: in a healthy database TopContributors lists exactly the users that
    created at least one task in the team during the last thirty days and whose
    number of such tasks is exceeded by at most two others', each once per team,
    with that number and one more than the number of those ahead as rank; equal
    numbers share a rank, so a team may have more than three. The numbers are
    those of the rows of the tasks table. *)
Theorem TopContributors_correct d d' r :
  healthy d → TopContributors d = (d', r) →
  let since := days_ago (d_now d) 30 in
  let n tm u := size (created_in since tm u (d_tables d)) in
  let before tm u := size (ahead since tm (n tm u) (d_tables d)) in
  d_tables d' = d_tables d ∧ ∃ l, r = Ok l ∧ NoDup l ∧ ∀ c, c ∈ l ↔
    ∃ tm u, (1 ≤ n tm u)%nat ∧ (before tm u ≤ 2)%nat ∧
      c = MkTopContributor tm u (Z.of_nat (n tm u)) (1 + Z.of_nat (before tm u)).
Proof.
  intros Hd Hr since n before. unfold TopContributors in Hr.
  apply (healthy_select _ _ (λ _ n t, let m := contributions (days_ago n 30) t in
      base.filter (λ kn : uuid * uuid * Z, rank m kn.1.1 kn.2 ≤ 3) (map_to_list m))
    (λ n t kn, TopContributorRow (uuidToBytes kn.1.1) (uuidToBytes kn.1.2) kn.2
      (rank (contributions (days_ago n 30) t) kn.1.1 kn.2)) _
    (λ n t kn, MkTopContributor kn.1.1 kn.1.2 kn.2
      (rank (contributions (days_ago n 30) t) kn.1.1 kn.2))) in Hr as [[Ht _] [_ ->]]; [|done| |done].
  2: { intros n0 t kn. unfold toTopContributor. simpl. by rewrite !bytesToUUID_id. }
  split; [done|]. eexists. split; [done|]. fold since.
  assert (∀ tm u, rank (contributions since (d_tables d)) tm (Z.of_nat (n tm u)) = 1 + Z.of_nat (before tm u)) as Hrank
    by (intros tm u; unfold rank; by rewrite rank_ahead).
  split.
  { apply NoDup_fmap_2_strong; [|apply NoDup_filter, NoDup_map_to_list].
    intros [[tm u] k] [[tm' u'] k'] _ _ [= -> -> ->]. done. }
  intros c. rewrite list_elem_of_fmap. setoid_rewrite list_elem_of_filter. split.
  - intros ([[tm u] k] & -> & Hr & Hin). apply elem_of_map_to_list, contributions_groups in Hin as [-> Hpos].
    exists tm, u. cbn [fst snd] in *. fold (n tm u) in *. rewrite Hrank in *. split; [done|]. split; [lia|done].
  - intros (tm & u & Hpos & Hb & ->). exists (tm, u, Z.of_nat (n tm u)). cbn [fst snd].
    rewrite Hrank. split; [done|]. split; [lia|]. by apply elem_of_map_to_list, contributions_groups.
Qed.

(** OrphanTasks finds the tasks whose assignee is no member of their team;
    on a board that the services have produced there are none. *)
Theorem OrphanTasks_correct d d' r :
  healthy d → OrphanTasks d = (d', r) →
  d_tables d' = d_tables d ∧ ∃ l, r = Ok l ∧
  (∀ o, o ∈ l ↔ ∃ id t a, b_tasks (board_of d) !! id = Some t ∧ Task_AssigneeID t = Some a ∧
     ¬ is_member (board_of d) (Task_TeamID t) a ∧ o = MkOrphanTask id (Task_Title t) (Task_TeamID t) a) ∧
  (sound (board_of d) → l = []).
Proof.
  intros Hd Hr. unfold OrphanTasks in Hr.
  apply (healthy_select _ _ (λ _ _ t, omap (orphan t) (map_to_list (tasks t)))
    (λ _ _ row, OrphanTaskRow (uuidToBytes row.1.1) (k_title row.1.2)
      (uuidToBytes (k_team_id row.1.2)) (uuidToBytes row.2)) _
    (λ _ _ row, MkOrphanTask row.1.1 (k_title row.1.2) (k_team_id row.1.2) row.2))
    in Hr as [[Ht _] [_ ->]]; [|done| |done].
  2: { intros n t row. unfold toOrphanTask. simpl. by rewrite !bytesToUUID_id. }
  split; [done|]. eexists. split; [done|].
  assert (Hmem : ∀ o, o ∈ (λ row : uuid * tasks_rec * uuid,
      MkOrphanTask row.1.1 (k_title row.1.2) (k_team_id row.1.2) row.2) <$>
      omap (orphan (d_tables d)) (map_to_list (tasks (d_tables d))) ↔
    ∃ id t a, b_tasks (board_of d) !! id = Some t ∧ Task_AssigneeID t = Some a ∧
     ¬ is_member (board_of d) (Task_TeamID t) a ∧ o = MkOrphanTask id (Task_Title t) (Task_TeamID t) a).
  { intros o. rewrite list_elem_of_fmap. setoid_rewrite list_elem_of_omap. split.
    - intros ([[id rec] a] & -> & [id' rec'] & Hin & Ho). apply elem_of_map_to_list in Hin.
      unfold orphan in Ho. simpl in Ho. destruct (k_assignee_id rec') as [a'|] eqn:Ea; [|done].
      case_decide as Hm; [done|]. simplify_eq/=. exists id, (task_of id rec), a.
      rewrite lookup_keyed, Hin. done.
    - intros (id & t & a & Hid & Ha & Hno & ->). rewrite board_tasks in Hid.
      apply fmap_Some in Hid as (rec & Hrec & ->). exists (id, rec, a). split; [done|].
      exists (id, rec). split; [by apply elem_of_map_to_list|]. unfold orphan. simpl in *.
      rewrite Ha. by case_decide. }
  split; [done|]. intros Hs. destruct (_ <$> _) as [|o l] eqn:El; [done|].
  destruct (proj1 (Hmem o)) as (id & t & a & Hid & Ha & Hno & _); [by left|].
  destruct Hno. by eapply sound_assignee.
Qed.

(** Whatever happens on the way, an analytical query only reads. *)
Lemma analytics_calm {A B} h (f : db → result (list A)) (to : A → result B) d d' r :
  (rs ← on_err h (SelectContext f); lift_result (result_mapM to rs)) d = (d', r) → calm d d'.
Proof.
  assert (∀ d1 x, SelectContext f d = (d1, x) → calm d d1) as Hq.
  { unfold SelectContext, query, statement. intros d1 x.
    destruct (next_fault d) as [flt d2] eqn:E. apply next_fault_spec in E as (Ht & _ & _ & _ & Hh).
    assert (calm d d2) as Hc by (split; [done|naive_solver]).
    destruct flt; [|by intros [= <- _]|]; cbn; destruct (f d2); cbn; by intros [= <- _]. }
  intros Hr. run Hr as d1 x E; apply Hq in E; [|done]. unfold lift_result in Hr. by injection Hr as <- _.
Qed.

Lemma TeamSummaries_calm d d' r : TeamSummaries d = (d', r) → calm d d'.
Proof. apply analytics_calm. Qed.
Lemma TopContributors_calm d d' r : TopContributors d = (d', r) → calm d d'.
Proof. apply analytics_calm. Qed.
Lemma OrphanTasks_calm d d' r : OrphanTasks d = (d', r) → calm d d'.
Proof. apply analytics_calm. Qed.

End queries.

End AnalyticsStorage.
