(* ===== verification/EmailClient.v ===== *)
(** * EmailClient: internal/circuitbreaker/email.go

    The invitation mailer. The circuit breaker and the HTTP client are
    parameters over an environment of their own; the settings the
    breaker gets and what a call does inside it are the code's. *)
From S2P Require Import Prelude Go Json JsonDec.
Open Scope Z_scope.

Module EmailClient.

(** gobreaker's counts and settings, the fields the code uses. *)
Record Counts : Type := MkCounts { ConsecutiveFailures : Z }.
Record Settings : Type := MkSettings {
  Name : string;
  MaxRequests : Z;
  Interval : Z;
  Timeout : Z;
  ReadyToTrip : Counts → bool
}.

(** internal/config: the fields of [CircuitBreaker] and [EmailService]. *)
Record CircuitBreakerConfig : Type := MkCircuitBreakerConfig {
  cb_MaxRequests : Z; cb_Interval : Z; cb_Timeout : Z
}.
Record EmailServiceConfig : Type := MkEmailServiceConfig { BaseURL : string }.

Section client.
Context {E : Type}.

(** A POST request: its URL, body and content type. *)
Record Request : Type := MkRequest { req_url : string; req_body : string; req_type : string }.

Record Libraries : Type := MkLibraries {
  Breaker : Type;
  NewCircuitBreaker : Settings → Breaker;
  Execute : Breaker → comp E unit → comp E unit;
  NewRequest : string → string → result Request;
  Do : Request → comp E Z
}.

Context (lib : Libraries).

Record EmailClient : Type := MkEmailClient { cb : Breaker lib; baseURL : string }.

Definition NewEmailClient (cfg : EmailServiceConfig) (cbCfg : CircuitBreakerConfig) : EmailClient :=
  MkEmailClient
    (NewCircuitBreaker lib
       (MkSettings "email-service" (cb_MaxRequests cbCfg) (cb_Interval cbCfg) (cb_Timeout cbCfg)
          (λ counts, 3 <=? ConsecutiveFailures counts)))
    (BaseURL cfg).

(** What the breaker guards. *)
Definition send (c : EmailClient) (to teamName : string) : comp E unit :=
  payload ← on_err (wrap "marshal payload")
    (lift_result (json_Marshal_map {[ "to" := to; "team_name" := teamName ]}));
  req ← on_err (wrap "build request") (lift_result (NewRequest lib (baseURL c +:+ "/send") payload));
  let req := MkRequest (req_url req) (req_body req) "application/json" in
  status ← on_err (wrap "email service unreachable") (Do lib req);
  if 500 <=? status then throw (OtherError ("email service: status " +:+ fmt_d status))
  else mret tt.

Definition SendInvite (c : EmailClient) (to teamName : string) : comp E unit :=
  if bool_decide (baseURL c = "") then mret tt
  else Execute lib (cb c) (send c to teamName).

(** The breaker runs the call once and passes its result on, or refuses. *)
Class LibrariesSpec : Prop :=
  Execute_spec b call e e' r : Execute lib b call e = (e', r) →
    (∃ err, r = Err err) ∨ (∃ e1 e2, call e1 = (e2, r)).

Context `{!LibrariesSpec}.

(** an invitation reported as sent either was not to be sent, because no
    service is configured, or was posted to the service's /send address, which
    answered with a status below 500. *)
Theorem SendInvite_delivered c to teamName e e' :
  SendInvite c to teamName e = (e', Ok tt) →
  (baseURL c = "" ∧ e' = e) ∨
  (∃ payload req status e1 e2,
     json_Marshal_map {[ "to" := to; "team_name" := teamName ]} = Ok payload ∧
     NewRequest lib (baseURL c +:+ "/send") payload = Ok req ∧
     Do lib (MkRequest (req_url req) (req_body req) "application/json") e1 = (e2, Ok status) ∧
     status < 500).
Proof.
  unfold SendInvite. case_bool_decide as Hurl; [by intros [-> _]%ret_inv; left|].
  intros [(err & ?)|(e1 & e2 & Hr)]%Execute_spec; [done|right]. unfold send in Hr.
  run Hr as e3 payload E1. unfold lift_result in E1. injection E1 as <- Hp. subst payload.
  run Hr as e4 req E2. unfold lift_result in E2. injection E2 as <- Hq.
  run Hr as e5 status E3. destruct (Z.leb_spec 500 status); [by run_ret Hr|].
  eexists _, req, status. eauto 10.
Qed.

End client.

End EmailClient.
