(* ===== verification/World.v ===== *)
(** * World: internal/app/app.go, New

    The whole program wired together: a world is a database, a Redis server and
    an environment (identifiers, clock, hashing, mail); the storages are lifted
    to it, and the services are built over the lifted storages as [app.New]
    builds them. The instances show that the wired program keeps every contract
    the services' theorems assume. *)
From S2P Require Import Prelude Go Uuid Domain Ports MySQLEngine MySQLStorage.
From S2P Require Import MySQLSpec TaskCache TaskService TeamService AuthService.
From S2P Require Import CommentService AnalyticsService System MySQLAnalytics.

(** ** The environment *)

(** What the program takes from the outside besides its two servers. *)
Record EnvLib (E : Type) := MkEnvLib {
  env_NewV7 : comp E uuid;
  env_Now : E → E * time;
  env_Generate : string → Z → comp E string;
  env_Compare : string → string → option error;
  env_SendInvite : string → string → comp E unit
}.
Arguments env_NewV7 {E} _.
Arguments env_Now {E} _ _.
Arguments env_Generate {E} _ _ _.
Arguments env_Compare {E} _ _ _.
Arguments env_SendInvite {E} _ _ _.

(** Its errors are not the program's sentinels, and a hash accepts the password
    it was made from. *)
Class EnvLibSpec {E} (lib : EnvLib E) : Prop := {
  env_NewV7_err e e' err : env_NewV7 lib e = (e', Err err) → from_storage err;
  env_Generate_err p c e e' err : env_Generate lib p c e = (e', Err err) →
    from_storage err ∧ errors_Is err ErrConflict = false;
  env_Generate_accepts p c e e' h : env_Generate lib p c e = (e', Ok h) → env_Compare lib h p = None
}.

Record world (E : Type) : Type := World { w_db : db; w_redis : redis; w_env : E }.
Arguments World {E} _ _ _.
Arguments w_db {E} _.
Arguments w_redis {E} _.
Arguments w_env {E} _.

Section world.
Context {E : Type} `{!MySQLEngine} `{!RedisServer} (lib : EnvLib E).

(** ** Lifting *)

Definition on_db {A} (m : comp db A) : comp (world E) A := λ w,
  let '(d, r) := m (w_db w) in (World d (w_redis w) (w_env w), r).
Definition on_redis {A} (m : comp redis A) : comp (world E) A := λ w,
  let '(c, r) := m (w_redis w) in (World (w_db w) c (w_env w), r).
Definition on_env {A} (m : comp E A) : comp (world E) A := λ w,
  let '(e, r) := m (w_env w) in (World (w_db w) (w_redis w) e, r).

#[export] Instance world_backend : Backend (world E) := {|
  board_of w := board_of (w_db w);
  cache_of w := r_store (w_redis w);
  healthy w := healthy (w_db w) ∧ redis_healthy (w_redis w);
  norm_task := norm_task (W := db);
  row_ok := row_ok (W := db);
  norm_fields := norm_fields (W := db);
  fields_ok := fields_ok (W := db);
  history_ok := history_ok (W := db);
  norm_history := norm_history (W := db);
  user_ok := user_ok (W := db);
  team_ok := team_ok (W := db);
  comment_ok := comment_ok (W := db);
  list_answers := list_answers (W := db);
  same_email := same_email (W := db)
|}.

Lemma on_db_run {A} (m : comp db A) w w' r :
  on_db m w = (w', r) →
  m (w_db w) = (w_db w', r) ∧ w_redis w' = w_redis w ∧ w_env w' = w_env w.
Proof. unfold on_db. destruct (m (w_db w)) as [d x] eqn:E0. by intros [= <- <-]. Qed.

Lemma on_db_quiet w w' : quiet (w_db w) (w_db w') → w_redis w' = w_redis w → quiet w w'.
Proof.
  intros [Hb _ Hh] Hr. split; simpl; [done|by rewrite Hr|].
  rewrite Hr. intros [Hd ?]. split; [by apply Hh|done].
Qed.

(** Contracts lift with the storages. *)
Lemma reads_on_db {A} (m : comp db A) answer : reads m answer → reads (on_db m) answer.
Proof.
  intros Hm w w' r Hr. apply on_db_run in Hr as (Hr & Hc & _).
  destruct (Hm _ _ _ Hr) as (Hq & Hok & Herr & Hh).
  split; [by apply on_db_quiet|]. split; [done|]. split; [done|]. intros [Hd _]. by apply Hh.
Qed.

Lemma writes_on_db {A} (m : comp db A) step : writes m step → writes (on_db m) step.
Proof.
  intros Hm w w' r Hr. apply on_db_run in Hr as (Hr & Hc & _).
  destruct (Hm _ _ _ Hr) as (_ & Hok & Herr & Hh). simpl. rewrite Hc.
  split; [done|]. split; [done|]. split; [done|]. intros [Hd ?].
  destruct (Hh Hd) as (? & ? & ?). done.
Qed.

Lemma reads_some_on_db {A} (m : comp db A) answers : reads_some m answers → reads_some (on_db m) answers.
Proof.
  intros Hm w w' r Hr. apply on_db_run in Hr as (Hr & Hc & _).
  destruct (Hm _ _ _ Hr) as (Hq & Hok & Herr & Hh).
  split; [by apply on_db_quiet|]. split; [done|]. split; [done|]. intros [Hd _]. by apply Hh.
Qed.

(** ** app.New *)

Definition taskStorage_saver : TaskSaver (world E) := MkTaskSaver _ (λ t, on_db (SaveTask t)).
Definition taskStorage_getter : TaskGetter (world E) :=
  MkTaskGetter _ (λ id, on_db (GetTaskByID id)) (λ f, on_db (ListTasks f)).
Definition taskStorage_updater : TaskUpdater (world E) :=
  MkTaskUpdater _ (λ t hs, on_db (UpdateTaskWithHistory t hs)).
Definition taskStorage_history : HistoryStore (world E) :=
  MkHistoryStore _ (λ id, on_db (ListHistory id)).
Definition teamStorage_members : MemberChecker (world E) :=
  MkMemberChecker _ (λ tm u, on_db (GetMemberRole tm u)).
Definition teamStorage_saver : TeamSaver (world E) :=
  MkTeamSaver _ (λ t o, on_db (CreateTeamWithOwner t o)) (λ tm u r, on_db (SaveMember tm u r)).
Definition teamStorage_getter : TeamGetter (world E) :=
  MkTeamGetter _ (λ u, on_db (GetTeamsByUser u)) (λ id, on_db (GetTeamByID id))
    (λ tm u, on_db (GetMemberRole tm u)).
Definition userStorage_byID : UserByID (world E) := MkUserByID _ (λ id, on_db (GetByID id)).
Definition userStorage_byEmail : UserByEmail (world E) := MkUserByEmail _ (λ e, on_db (GetByEmail e)).
Definition userStorage_saver : UserSaver (world E) := MkUserSaver _ (λ u, on_db (SaveUser u)).
Definition commentStorage_saver : CommentSaver (world E) := MkCommentSaver _ (λ c, on_db (SaveComment c)).
Definition commentStorage_lister : CommentLister (world E) :=
  MkCommentLister _ (λ id, on_db (ListComments id)).
Definition taskCache : Cache (world E) :=
  MkCache _ (λ k, on_redis (TaskCache.Get k)) (λ k d ttl, on_redis (TaskCache.Set_ k d ttl))
    (λ pat, on_redis (TaskCache.Invalidate pat)).
Definition runtime_of : Runtime (world E) :=
  MkRuntime _ (on_env (env_NewV7 lib)) (on_env (λ e, let '(e, t) := env_Now lib e in (e, Ok t))).
Definition bcrypt_of : Bcrypt (world E) :=
  MkBcrypt _ (λ p c, on_env (env_Generate lib p c)) (env_Compare lib).
Definition notifier_of : Notifier (world E) :=
  MkNotifier _ (λ to name, on_env (env_SendInvite lib to name)).

(** internal/config: the values the services are built with. *)
Record Config : Type := MkConfig { JWTSecret : string; JWTExpiry : Z; TaskListTTL : Z }.

Definition New (cfg : Config) : App :=
  MkApp
    (AuthSvc.New userStorage_saver userStorage_byEmail (JWTSecret cfg) (JWTExpiry cfg)
       bcrypt_of runtime_of)
    (TeamSvc.New teamStorage_saver teamStorage_getter userStorage_byID notifier_of runtime_of)
    (TaskService.New taskStorage_saver taskStorage_getter taskStorage_updater taskStorage_history
       teamStorage_members taskCache (TaskListTTL cfg) runtime_of)
    (CommentSvc.New commentStorage_saver commentStorage_lister taskStorage_getter teamStorage_members).

(** The analytics service over its storage. *)
Definition analyticsSvc : AnalyticsSvc.Service (world E) :=
  AnalyticsSvc.New
    (AnalyticsSvc.MkTeamSummaryReader (on_db AnalyticsStorage.TeamSummaries))
    (AnalyticsSvc.MkTopContributorReader (on_db AnalyticsStorage.TopContributors))
    (AnalyticsSvc.MkOrphanTaskReader (on_db AnalyticsStorage.OrphanTasks)).

(** time.Now and uuid.NewV7, for the middlewares. *)
Definition wall_clock (w : world E) : world E * time :=
  let '(e, t) := env_Now lib (w_env w) in (World (w_db w) (w_redis w) e, t).
Definition new_uuid : comp (world E) uuid := on_env (env_NewV7 lib).

(** ** The wired program keeps the contracts *)

Section contracts.
Context `{!MySQLEngineSpec} `{!RedisServerSpec} `{!EnvLibSpec lib}.

#[export] Instance world_backend_spec : BackendSpec (world E).
Proof.
  split; [done| | | | |].
  - intros w. exact (board_keyed (W := db) (w_db w)).
  - exact (norm_task_refs (W := db)).
  - exact (norm_fields_refs (W := db)).
  - exact (norm_history_refs (W := db)).
  - exact (list_answer_local (W := db)).
Qed.

#[export] Instance taskStorage_saver_spec : TaskSaverSpec taskStorage_saver.
Proof. intros t. apply writes_on_db, (SaveTask_writes (s := TaskSaver_of)). Qed.
#[export] Instance taskStorage_getter_spec : TaskGetterSpec taskStorage_getter.
Proof.
  split.
  - intros id. apply reads_on_db, GetTaskByID_db.
  - intros f Hf. by apply reads_some_on_db, (ListTasks_reads (s := TaskGetter_of)).
  - intros f w w' r Hr. apply on_db_run in Hr as (Hr & Hc & _).
    destruct (ListTasks_quiet (s := TaskGetter_of) _ _ _ _ Hr) as [Hq He].
    split; [by apply on_db_quiet|done].
  - intros f w w' res t Hr. apply on_db_run in Hr as (Hr & _).
    by apply (ListTasks_rows (s := TaskGetter_of) _ _ _ _ _ Hr).
Qed.
#[export] Instance taskStorage_updater_spec : TaskUpdaterSpec taskStorage_updater.
Proof. intros t hs. apply writes_on_db, (UpdateTaskWithHistory_writes (s := TaskUpdater_of)). Qed.
#[export] Instance taskStorage_history_spec : HistoryStoreSpec taskStorage_history.
Proof.
  intros id. apply reads_some_on_db, (ListHistory_reads (s := HistoryStore_of)).
Qed.
#[export] Instance teamStorage_members_spec : MemberCheckerSpec teamStorage_members.
Proof. intros tm u. apply reads_on_db, GetMemberRole_db. Qed.
#[export] Instance teamStorage_saver_spec : TeamSaverSpec teamStorage_saver.
Proof.
  split; [intros t o; apply writes_on_db, (CreateTeamWithOwner_writes (s := TeamSaver_of))|].
  intros tm u r Hr. by apply writes_on_db, (SaveMember_writes (s := TeamSaver_of)).
Qed.
#[export] Instance teamStorage_getter_spec : TeamGetterSpec teamStorage_getter.
Proof.
  split; [intros id; apply reads_on_db, GetTeamByID_db|intros tm u; apply reads_on_db, GetMemberRole_db|].
  intros u. apply reads_some_on_db, (GetTeamsByUser_reads (s := TeamGetter_of)).
Qed.
#[export] Instance userStorage_byID_spec : UserByIDSpec userStorage_byID.
Proof. intros id. apply reads_on_db, (GetByID_reads (s := UserByID_of)). Qed.
#[export] Instance userStorage_byEmail_spec : UserByEmailSpec userStorage_byEmail.
Proof.
  intros e. apply reads_some_on_db, (GetByEmail_reads (s := UserByEmail_of)).
Qed.
#[export] Instance userStorage_saver_spec : UserSaverSpec userStorage_saver.
Proof.
  split; [intros u; apply writes_on_db, (SaveUser_writes (s := UserSaver_of))|].
  intros u w w' e Hr Hc. apply on_db_run in Hr as (Hr & _).
  by apply (SaveUser_conflict (s := UserSaver_of) _ _ _ _ Hr).
Qed.
#[export] Instance commentStorage_saver_spec : CommentSaverSpec commentStorage_saver.
Proof. intros c. apply writes_on_db, (SaveComment_writes (s := CommentSaver_of)). Qed.
#[export] Instance commentStorage_lister_spec : CommentListerSpec commentStorage_lister.
Proof.
  intros id. apply reads_some_on_db, (ListComments_reads (s := CommentLister_of)).
Qed.

Lemma on_redis_run {A} (m : comp redis A) w w' r :
  on_redis m w = (w', r) →
  m (w_redis w) = (w_redis w', r) ∧ w_db w' = w_db w ∧ w_env w' = w_env w.
Proof. unfold on_redis. destruct (m (w_redis w)) as [d x] eqn:E0. by intros [= <- <-]. Qed.

Lemma on_redis_quiet w w' : shrinks (w_redis w) (w_redis w') → w_db w' = w_db w → quiet w w'.
Proof.
  intros [Hs Hh] Hd. split; simpl; [by rewrite Hd|done|]. rewrite Hd. intros [? ?]. split; auto.
Qed.

#[export] Instance taskCache_spec : CacheSpec taskCache.
Proof.
  split.
  - intros k w w' r Hr. apply on_redis_run in Hr as (Hr & Hd & _).
    apply on_err_inv in Hr as [(d & Hr & ->)|(e & Hr & ->)]; apply GET_run in Hr as (Hs & Hk & _);
      (split; [by apply on_redis_quiet|]); [|done]. intros ? [= <-]. by apply Hk.
  - intros k d ttl w w' r Hr. apply on_redis_run in Hr as (Hr & Hd & _).
    apply on_err_inv in Hr as [(x & Hr & ->)|(e & Hr & ->)]; apply SET_run in Hr as [Hs Hh];
      simpl; rewrite Hd; (split; [done|]); (split; [|done]); intros [? ?]; auto.
  - intros pat w w' r Hr. apply on_redis_run in Hr as (Hr & Hd & _).
    apply Invalidate_run in Hr as (Hs & Hh & Hg). split; [by apply on_redis_quiet|].
    split; [intros [_ ?]; auto|]. intros p -> Hp Hr k s ->.
    specialize (Hg Hr). rewrite HasSuffix_app in Hg. by apply Hg, glob_prefix.
Qed.

Lemma on_env_quiet {A} (m : comp E A) w w' r :
  on_env m w = (w', r) → quiet w w' ∧ m (w_env w) = (w_env w', r).
Proof.
  unfold on_env. destruct (m (w_env w)) as [e x] eqn:E0. intros [= <- <-]. by split.
Qed.

#[export] Instance runtime_spec : RuntimeSpec runtime_of.
Proof.
  split.
  - intros w w' r Hr. apply on_env_quiet in Hr as [Hq Hr]. split; [done|].
    intros e ->. by eapply env_NewV7_err.
  - intros w w' r Hr. cbn [Now runtime_of] in Hr. apply on_env_quiet in Hr as [Hq Hr]. split; [done|].
    destruct (env_Now lib (w_env w)) as [e t]. injection Hr as _ <-. by eexists.
Qed.

#[export] Instance bcrypt_spec : AuthSvc.BcryptSpec bcrypt_of.
Proof.
  split.
  - intros p c w w' r Hr. apply on_env_quiet in Hr as [Hq Hr]. split; [done|].
    intros e ->. by eapply env_Generate_err.
  - intros p c w w' h Hr. apply on_env_quiet in Hr as [Hq Hr]. by eapply env_Generate_accepts.
Qed.

#[export] Instance notifier_spec : NotifierSpec notifier_of.
Proof. intros to name w w' r Hr. by apply on_env_quiet in Hr as [Hq _]. Qed.

#[export] Instance analytics_spec : AnalyticsSvc.ServiceSpec analyticsSvc.
Proof.
  split; intros w w' r Hr; apply on_db_run in Hr as (Hr & Hc & _); apply on_db_quiet; try done;
    apply calm_quiet.
  - by eapply AnalyticsStorage.TeamSummaries_calm.
  - by eapply AnalyticsStorage.TopContributors_calm.
  - by eapply AnalyticsStorage.OrphanTasks_calm.
Qed.

#[export] Instance app_spec cfg : AppSpec (New cfg).
Proof. split; split; apply _. Qed.

End contracts.

End world.
