(* ===== verification/RoundTrips.v ===== *)
(** * RoundTrips: a listing is two queries

    ListTasks counts the tasks and then selects a page of them, outside of any
    transaction: two round trips between which other requests can write. Here
    the program of World.v is run with the two as separate calls. *)
From S2P Require Import Prelude Go Uuid Domain Ports MySQLEngine MySQLStorage.
From S2P Require Import MySQLSpec TaskCache TaskService AuthService System Interleave Concurrent Flight World.

Section round_trips.
Context {E : Type} `{!MySQLEngine} `{!RedisServer} (lib : EnvLib E).

(** internal/storage/mysql/task.go, ListTasks *)
Definition ListTasks_calls (filter : TaskFilter) : prog (world E) (list Task * Z) :=
  let conds := buildTaskFilter filter in
  total ← call (on_db (on_err (wrap "mysql: count tasks") (GetContext (count_tasks conds))));
  let offset := int64_wrap (int64_wrap (TF_Page filter - 1) * TF_Limit filter) in
  rows ← call (on_db (on_err (wrap "mysql: list tasks")
           (SelectContext (select_tasks conds (TF_Limit filter) offset))));
  match result_mapM toTask rows with
  | Ok tasks => mret (tasks, total)
  | Err e => throws e
  end.

Lemma on_db_bind {A B} (m : comp db A) (f : A → comp db B) (w : world E) :
  on_db (m ≫= f) w = (on_db m ≫= λ a, on_db (f a)) w.
Proof. unfold on_db, mbind, comp_bind. by destruct (m (w_db w)) as [d [a|e]]. Qed.

Lemma ListTasks_calls_tree f : tree_of (ListTasks_calls f) (on_db (E := E) (ListTasks f)).
Proof.
  intros w. unfold ListTasks. rewrite on_db_bind. revert w. apply tree_bind; [apply tree_call|].
  intros total w. rewrite on_db_bind. revert w. apply tree_bind; [apply tree_call|].
  intros rows w. unfold on_db, lift_result. rewrite comp_bind_run.
  destruct w as [d r e]. by destruct (result_mapM toTask rows).
Qed.

Context `{!MySQLEngineSpec} `{!RedisServerSpec} `{!UuidLib} `{!UuidLibSpec} `{!CacheCodec} `{!CacheCodecSpec}.

(** Each of the two answers from the board of its own moment. *)
#[export] Instance two_calls : ListCallsSpec (W := world E) taskStorage_getter ListTasks_calls.
Proof.
  split; [exact ListTasks_calls_tree|]. intros F f HF. unfold ListTasks_calls. fold (row_offset f).
  eapply keeps_bind; [done| |intros total]; cbv beta.
  - apply keeps_read with
      (Q := λ n h, ∃ b, seen h b ∧ ∃ ts, list_answers (W := world E) b f (ts, n)).
    + intros w w' x Hr. apply on_db_run in Hr as (Hr & Hc & _). apply count_tasks_run in Hr as [Hq Hx].
      pose proof (calm_quiet _ _ Hq) as [Hb _ _]. split; [exact Hb|]. cbn. rewrite Hc. split; [done|].
      intros h n -> [Hcur _ _] _. destruct Hx as [[= ->]|(_ & ? & ? & _)]; [|done].
      exists (current h). split; [by left|]. rewrite Hcur. eexists _, 0%N. symmetry. apply (page_of_count 0 f (w_db w)).
    + intros n h h' Hl (b & Hs & ?). exists b. split; [by apply Hl|done].
  - eapply keeps_bind; [apply stable_and; [|done]; intros h h' Hl (b & Hs & ?); exists b; split; [by apply Hl|done]| |intros rows]; cbv beta.
    + apply keeps_read with (Q := λ rows h, ∀ ts, result_mapM toTask rows = Ok ts →
        (page_ok f → ∃ b, seen h b ∧ ∃ n, list_answers (W := world E) b f (ts, n)) ∧
        ∀ t, t ∈ ts → ∃ b, seen h b ∧ row_of f t b).
      * intros w w' x Hr. apply on_db_run in Hr as (Hr & Hc & _).
        apply select_tasks_run in Hr as Hx.
        assert (calm (w_db w) (w_db w')) as Hq by (by destruct Hx as [[? _]|[? _]]).
        pose proof (calm_quiet _ _ Hq) as [Hb _ _]. split; [exact Hb|]. cbn. rewrite Hc. split; [done|].
        intros h rows -> [Hcur _ _] _ ts Hts.
        destruct Hx as [[_ Hx]|(_ & _ & ? & ? & _)]; [|done]. destruct (_ && _); [|done].
        destruct Hx as (p & rows' & [= <-] & Hto). rewrite Hto in Hts. injection Hts as <-. split.
        -- intros Hp. exists (current h). split; [by left|]. rewrite Hcur.
           eexists _, p. symmetry. by apply (page_of_rows p f (w_db w)).
        -- intros t Hin. exists (current h). split; [by left|]. rewrite Hcur.
           by eapply (page_from_row p f (row_offset f)).
      * intros rows. apply stable_forall. intros ts. apply stable_impl. intros h h' Hl [Hp Hr]. split.
        -- intros Hpo. destruct (Hp Hpo) as (b & Hs & ?). exists b. split; [by apply Hl|done].
        -- intros t Hin. destruct (Hr t Hin) as (b & Hs & ?). exists b. split; [by apply Hl|done].
    + destruct (result_mapM toTask rows) as [ts|e] eqn:Ets; [|done]. apply keeps_ret.
      intros h _ (Hrows & (b2 & Hs2 & Hn) & _). destruct (Hrows ts Ets) as [Hp Hr].
      split; cbn; [|exact Hr]. intros Hpo. destruct (Hp Hpo) as (b1 & Hs1 & Hts). exists b1, b2. done.
Qed.

End round_trips.
