(* ===== verification/Concrete.v ===== *)
(** * Concrete: one concrete world

    An executable instance of everything the development leaves abstract: a
    database server, a Redis server, a JWT encoding and an environment. Its
    instances show that the documented behaviours assumed of the libraries can be
    met together, and the theorems' witnesses run in it. *)
From Stdlib Require Import Strings.Byte.
From stdpp Require Import sorting.
From S2P Require Import Prelude Go GoStrings TimeText Json Uuid Domain Ports TaskService AuthService CacheJson MySQLEngine TaskCache System World.

(** ** A self-delimiting serialization *)

Class Ser (A : Type) := {
  ser : A → string;
  deser : string → option (A * string);
  deser_ser a r : deser (ser a +:+ r) = Some (a, r)
}.

Lemma deser_ser_end `{Ser A} a : deser (ser a) = Some (a, "").
Proof. rewrite <-(str_app_nil_r (ser a)). apply deser_ser. Qed.

(** Each character is marked, the end too. *)
Fixpoint ser_string (s : string) : string :=
  match s with
  | EmptyString => "."
  | String c s => String "x" (String c (ser_string s))
  end.

Fixpoint deser_string (s : string) : option (string * string) :=
  match s with
  | String "x" (String c s) => '(t, r) ← deser_string s; Some (String c t, r)
  | String "." s => Some ("", s)
  | _ => None
  end.

#[export] Program Instance string_ser : Ser string := {| ser := ser_string; deser := deser_string |}.
Next Obligation.
  intros s r. induction s as [|c s IH]; [done|]. simpl ser_string. rewrite !str_app_cons.
  simpl. by rewrite IH.
Qed.

#[export] Program Instance prod_ser `{Ser A, Ser B} : Ser (A * B) := {|
  ser ab := ser ab.1 +:+ ser ab.2;
  deser s := '(a, s) ← deser s; '(b, s) ← deser s; Some ((a, b), s)
|}.
Next Obligation.
  intros A ? B ? [a b] r. simpl. rewrite str_app_assoc, deser_ser. simpl. by rewrite deser_ser.
Qed.

Definition ser_option `{Ser A} (o : option A) : string :=
  match o with Some a => String "s" (ser a) | None => "n" end.
Definition deser_option `{Ser A} (s : string) : option (option A * string) :=
  match s with
  | String "s" s => '(a, s) ← deser s; Some (Some a, s)
  | String "n" s => Some (None, s)
  | _ => None
  end.

#[export] Program Instance option_ser `{Ser A} : Ser (option A) := {|
  ser := ser_option; deser := deser_option
|}.
Next Obligation.
  intros A ? [a|] r; [|done]. simpl. by rewrite deser_ser.
Qed.

(** An encoding into another type. *)
Program Definition ser_via {A B} `{Ser B} (f : A → B) (g : B → option A)
    (Hfg : ∀ a, g (f a) = Some a) : Ser A := {|
  ser a := ser (f a);
  deser s := '(b, s) ← deser s; a ← g b; Some (a, s)
|}.
Next Obligation. intros A B ? f g Hfg a r. simpl. rewrite deser_ser. simpl. by rewrite Hfg. Qed.

#[export] Program Instance Z_ser : Ser Z :=
  ser_via (λ z, ((if z <? 0 then "-" else "") : string, pretty (Z.to_N (Z.abs z))))
    (λ '(sign, digits), let n := Z.of_N (undec 0 digits) in
       Some (if bool_decide (sign = "-") then - n else n)) _.
Next Obligation.
  intros z. cbv beta iota zeta. rewrite undec_pretty_N.
  destruct (Z.ltb_spec z 0); simpl; f_equal; lia.
Qed.

#[export] Program Instance uuid_ser : Ser uuid :=
  ser_via Canonical.to_string (λ s, match Canonical.parse s with Ok a => Some a | Err _ => None end) _.
Next Obligation. intros a. cbv beta. by rewrite Canonical.parse_to_string. Qed.

#[export] Program Instance time_ser : Ser time :=
  ser_via (λ t, (t_ns t, t_off t)) (λ '(n, o), Some (Time n o)) _.
Next Obligation. by intros []. Qed.

(** A list: its elements, each after a mark, and an end; the length of the
    string bounds the number of elements. *)
Fixpoint ser_list `{Ser A} (l : list A) : string :=
  match l with [] => "e" | a :: l => String "c" (ser a +:+ ser_list l) end.

Fixpoint deser_list `{Ser A} (fuel : nat) (s : string) : option (list A * string) :=
  match fuel, s with
  | S fuel, String "c" s => '(a, s) ← deser s; '(l, s) ← deser_list fuel s; Some (a :: l, s)
  | S _, String "e" s => Some ([], s)
  | _, _ => None
  end.

Lemma ser_list_length `{Ser A} (l : list A) : (length l < String.length (ser_list l))%nat.
Proof. induction l as [|a l IH]; simpl; [lia|]. rewrite str_length_app. lia. Qed.

Lemma deser_list_ser `{Ser A} (l : list A) fuel r :
  (length l < fuel)%nat → deser_list fuel (ser_list l +:+ r) = Some (l, r).
Proof.
  revert fuel. induction l as [|a l IH]; intros [|fuel] Hf; simpl in Hf; try lia; [done|].
  simpl ser_list. rewrite str_app_cons, str_app_assoc. simpl. rewrite deser_ser. simpl.
  rewrite IH by lia. done.
Qed.

#[export] Program Instance list_ser `{Ser A} : Ser (list A) := {|
  ser := ser_list; deser s := deser_list (String.length s) s
|}.
Next Obligation.
  intros A ? l r. apply deser_list_ser. rewrite str_length_app. pose proof (ser_list_length l). lia.
Qed.

(** ** encoding/json for cached lists *)

#[export] Instance codec : CacheCodec := @json_codec Canonical.lib.
#[export] Instance codec_spec : CacheCodecSpec := @json_codec_spec Canonical.lib Canonical.lib_spec.

(** ** JWT *)

#[export] Instance jwt : JwtLib := {|
  SignedString c secret := Ok (ser (claim_sub c, claim_exp c, secret));
  jwt_Parse now raw key :=
    match deser raw with
    | Some ((sub, exp, secret), "") =>
        match key SigningMethodHMAC with
        | Ok k => if bool_decide (k = secret) && (now <? exp) then Ok (MkToken true (Ok sub))
                  else Err (OtherError "token is invalid")
        | Err e => Err e
        end
    | _ => Err (OtherError "token is malformed")
    end
|}.

#[export] Instance jwt_spec : JwtLibSpec.
Proof.
  intros [sub exp] secret raw now key Hraw Hk Hn. assert (raw = ser (sub, exp, secret)) as -> by (by injection Hraw).
  unfold jwt_Parse, jwt. cbn [claim_sub claim_exp] in *. rewrite deser_ser_end, Hk, bool_decide_true by done. by rewrite (proj2 (Z.ltb_lt _ _)).
Qed.

(** ** The database server *)

(** Ascending keys; rows of equal keys go up or down by their code, as the
    number of the statement is odd or even. *)
Definition key_le {K} `{Countable K} (plan : N) (x y : K * Z) : Prop :=
  x.2 < y.2 ∨ (x.2 = y.2 ∧ if N.odd plan then (countable.encode x.1 ≤ countable.encode y.1)%positive
                           else (countable.encode y.1 ≤ countable.encode x.1)%positive).
#[export] Instance key_le_dec {K} `{Countable K} plan : RelDecision (@key_le K _ _ plan).
Proof. intros x y. unfold key_le. destruct (N.odd plan); apply _. Defined.
#[export] Instance key_le_trans {K} `{Countable K} plan : Transitive (@key_le K _ _ plan).
Proof. intros x y z. unfold key_le. destruct (N.odd plan); lia. Qed.
#[export] Instance key_le_total {K} `{Countable K} plan : Total (@key_le K _ _ plan).
Proof. intros x y. unfold key_le. destruct (N.odd plan); lia. Qed.

Definition in_range (t : time) : option time := if printable t then Some t else None.

#[export] Instance engine : MySQLEngine := {|
  collate := ToLower;
  varchar n s := (N.of_nat (String.length s) <=? N.of_nat n)%N && valid_utf8 s;
  text s := (N.of_nat (String.length s) <=? 65535)%N && valid_utf8 s;
  enum_of vs v := if decide (v ∈ vs) then Some v else None;
  datetime3 t := in_range (Time ((t_ns t + 500000) `div` 1000000 * 1000000) 0);
  date_of t := in_range (Time (t_ns t `div` ns_per_day * ns_per_day) 0);
  current_timestamp3 t :=
    default (Time 0 0) (in_range (Time (t_ns t `div` 1000000 * 1000000) 0));
  order_by plan K _ _ m := (merge_sort (key_le plan) (map_to_list m)).*1
|}.

#[export] Instance engine_spec : MySQLEngineSpec.
Proof.
  split.
  - intros vs v Hv. simpl. by rewrite decide_True.
  - intros vs s v. simpl. case_decide; [by intros [= <-]|done].
  - intros t. simpl. unfold in_range. destruct (printable (Time (t_ns t `div` 1000000 * 1000000) 0)) eqn:Hp.
    + exists (Time (t_ns t `div` 1000000 * 1000000) 0). cbn [t_ns default].
      replace ((t_ns t `div` 1000000 * 1000000 + 500000) `div` 1000000) with (t_ns t `div` 1000000)
        by (rewrite Z.div_add_l by done; by rewrite Z.add_0_r). by rewrite Hp.
    + by exists (Time 0 0).
  - intros plan K ? ? m. simpl. by rewrite merge_sort_Permutation.
  - intros plan K ? ? m. simpl. set (l := merge_sort _ _).
    assert (Hin : ∀ kx, kx ∈ l → m !! kx.1 = Some kx.2).
    { intros [k x] Hk. apply elem_of_map_to_list. unfold l in Hk.
      by rewrite merge_sort_Permutation in Hk. }
    assert (StronglySorted (key_le plan) l) as Hs by (apply StronglySorted_merge_sort; apply _).
    clearbody l. induction Hs as [|x l Hs IH Hx]; [constructor|]. cbn [fmap list_fmap].
    constructor; [apply IH; intros; apply Hin; by right|].
    apply Forall_forall. intros k (y & -> & Hy)%list_elem_of_fmap i j.
    rewrite (Hin x), (Hin y) by (by left || by right). intros [= <-] [= <-].
    rewrite Forall_forall in Hx. destruct (Hx _ Hy) as [?|[? _]]; lia.
Qed.

Lemma in_range_printable t t' : in_range t = Some t' → printable t' = true.
Proof. unfold in_range. destruct (printable t) eqn:Ht; [|done]. by intros [= <-]. Qed.

(** ** The Redis server *)

(** Literal characters and a final star. *)
Fixpoint glob_match (p s : string) : bool :=
  match p, s with
  | String "*" EmptyString, _ => true
  | EmptyString, EmptyString => true
  | String c p, String d s => bool_decide (c = d) && glob_match p s
  | _, _ => false
  end.

Lemma glob_match_prefix p s : glob_match (p +:+ "*") (p +:+ s) = true.
Proof.
  induction p as [|c p IH]; [by destruct s|]. rewrite !str_app_cons. simpl.
  destruct c as [[] [] [] [] [] [] [] []]; rewrite ?bool_decide_true, ?IH by done; simpl;
    destruct (p +:+ "*"); done.
Qed.

(** One SCAN returns everything. *)
#[export] Instance server : RedisServer := {|
  glob := glob_match;
  scan_cmd s _ pat _ := (base.filter (λ k, glob_match pat k = true) (map_to_list s).*1, 0);
  scan_bound _ := 0%nat
|}.

#[export] Instance server_spec : RedisServerSpec.
Proof.
  split.
  - intros pat count ss kss k Hit Hk Hall. inversion Hit as [? s ks Hs|? ? ? ? ? ? Hs Hne]; subst;
      [|by simplify_eq/=]. injection Hs as <-. eexists. split; [by left|].
    apply Forall_singleton in Hall as [d Hd]. apply list_elem_of_filter. split; [done|].
    apply (list_elem_of_fmap_2 fst _ (k, d)). by apply elem_of_map_to_list.
  - intros pat count n ss Hun _. inversion Hun as [|? ? ? ? ? Hs Hne]; subst; [done|]. by simplify_eq/=.
  - intros p s _. apply glob_match_prefix.
Qed.

(** ** The environment *)

(** A counter for identifiers, a clock, and the letters sent. *)
Record env : Type := Env { e_next : N; e_clock : time; e_mail : list (string * string) }.

Definition byte_of (n : N) : byte := default x00 (Byte.of_N (n `mod` 256)).

Definition hash_of (password : string) : string := "$2a$" +:+ password.

Definition env_lib : EnvLib env := {|
  env_NewV7 e := (Env (e_next e + 1) (e_clock e) (e_mail e), Ok (Canonical.nth_id (byte_of (e_next e))));
  env_Now e := (e, e_clock e);
  env_Generate p _ e :=
    (e, if (N.of_nat (String.length p) <=? 72)%N then Ok (hash_of p)
        else Err (OtherError "bcrypt: password length exceeds 72 bytes"));
  env_Compare h p := if bool_decide (h = hash_of p) then None
                     else Some (OtherError "crypto/bcrypt: hashedPassword is not the hash of the given password");
  env_SendInvite to name e := (Env (e_next e) (e_clock e) (e_mail e ++ [(to, name)]), Ok tt)
|}.

#[export] Instance env_lib_spec : EnvLibSpec env_lib.
Proof.
  split.
  - done.
  - intros p c e e' err. simpl. case_match; by intros [= <- <-].
  - intros p c e e' h. simpl. case_match; intros [= <- <-]. by rewrite bool_decide_true.
Qed.

(** ** A small world

    Alice (1) owns team 3, Bob (2) is a member of it, Carol (5) is a user
    outside of it, and task 4 of the team is Alice's. *)
Definition alice : uuid := Canonical.nth_id x01.
Definition bob : uuid := Canonical.nth_id x02.
Definition team3 : uuid := Canonical.nth_id x03.
Definition task4 : uuid := Canonical.nth_id x04.
Definition carol : uuid := Canonical.nth_id x05.

Definition noon : time := Time 1700000000000000000 0.

Definition small_tables : tables := Tables
  {[ alice := UsersRec "alice@example.com" "Alice" (hash_of "secret") noon;
     bob := UsersRec "bob@example.com" "Bob" (hash_of "hunter2") noon;
     carol := UsersRec "carol@example.com" "Carol" (hash_of "pass") noon ]}
  {[ team3 := TeamsRec "Team" alice noon ]}
  {[ (team3, alice) := RoleOwner; (team3, bob) := RoleMember ]}
  {[ task4 := TasksRec team3 alice None "Title" None StatusTodo PriorityLow None noon noon ]}
  [] [].

Definition small_db : db := Db small_tables 1 1 noon [] 0.
Definition small_world : world env :=
  World small_db (Redis ∅ []) (Env 16 (Time 1700000100000000000 0) []).

Definition config : Config := MkConfig "secret-key" 3600000000000 60000000000.
Definition app : App (W := world env) := World.New env_lib config.
