(* ===== verification/Races.v ===== *)
(** * Races: what interleaving can break

    Three schedules of the concrete program, call by call, in a world where
    nothing fails, and a reader of pages whose rows tie. The schedules show which
    guarantees of the sequential model do not survive requests in flight
    together: the cache can keep a list that is out of date, a page and its
    total can be of different boards, and an update can undo another that its
    history still reports. *)
From S2P Require Import Prelude Go Uuid Domain Ports TaskService System.
From S2P Require Import MySQLEngine MySQLSpec StorageTheorems World RoundTrips Concrete Interleave Concurrent.
Open Scope Z_scope.

#[export] Existing Instances Canonical.lib Canonical.lib_spec.

(** The concrete program, with a listing's two queries as two calls. *)
Definition start : request → prog (world env) answer := thread_of ListTasks_calls app.

(** The requests arrive, and then their calls are made in the given order. *)
Definition scheduled (qs : list request) (schedule : list nat) : world env * list (flight (world env)) :=
  play schedule (small_world, (λ q, (q, start q)) <$> qs).

Lemma scheduled_steps qs schedule :
  rtc (steps start) (small_world, []) (scheduled qs schedule).
Proof. etrans; [apply (arrive_steps _ qs _ [])|apply play_steps]. Qed.

(** ** A list cached after the change *)

Definition board_filter : TaskFilter := MkTaskFilter (Some team3) None None 1 20.
Definition rename : UpdateTaskInput := MkUpdateTaskInput (Some "Renamed") None None None None None.
Definition finish : UpdateTaskInput := MkUpdateTaskInput None None (Some StatusDone) None None None.

(** Bob lists the team: membership, cache, storage; Alice renames the task from
    beginning to end; then Bob's list is stored in the cache. *)
Definition late_list : world env * list (flight (world env)) :=
  scheduled [ReqListTasks bob board_filter; ReqUpdateTask alice task4 rename]
    [0; 0; 0; 0; 1; 1; 1; 1; 1; 0]%nat.

(** An entry that differs from what storage answers. *)
Lemma not_coherent (w : world env) f d :
  proper_status f → is_Some (TF_TeamID f) → page_ok f → cache_of w !! cacheKey f = Some d →
  (size (matching f (board_of w)) <=? 1)%nat = true →
  (let '(ts, n) := page_of 0 f (board_of w) in
   bool_decide (json_Marshal (MkCachedList ts n) = Ok d)) = false →
  ¬ coherent w.
Proof.
  intros Hst Htm Hp Hd Hone%Nat.leb_le Hne Hco. destruct (Hco f d) as ([ts n] & [p Hl] & Hm); [done|done|].
  assert (page_of 0 f (board_of w) = (ts, n)) as He by (rewrite <-(page_of_few p) by done; symmetry; exact Hl).
  rewrite He in Hne. by apply bool_decide_eq_false in Hne.
Qed.

(** C9: invalidation loses a race. In a healthy program, starting from an
    empty cache, a list read before an update and cached after it stays in the
    cache: both requests succeed, and until the entry expires every member is
    answered the task as it was. *)
Theorem stale_list :
  rtc (steps start) (small_world, []) late_list ∧
  healthy late_list.1 ∧ forallb succeeded late_list.2 = true ∧ ¬ coherent late_list.1 ∧
  (Task_Title <$> b_tasks (board_of late_list.1) !! task4) = Some "Renamed" ∧
  (∃ t, (TaskService.List (taskSvc app) alice board_filter late_list.1).2 = Ok ([t], 1) ∧
        Task_ID t = task4 ∧ Task_Title t = "Title").
Proof.
  split; [apply scheduled_steps|]. split; [split; [vm_compute; reflexivity|constructor]|].
  split; [vm_compute; reflexivity|]. split; [|split; [vm_compute; reflexivity|]].
  - eapply (not_coherent _ board_filter); [done|by eexists| |vm_compute; reflexivity..].
    unfold page_ok, int64_range. cbn. lia.
  - eexists. split; [vm_compute; reflexivity|]. split; reflexivity.
Qed.

(** ** A page and a total of different boards *)

Definition second : CreateTaskInput := MkCreateTaskInput team3 "Second" None None None PriorityHigh.

(** Bob's listing has counted the tasks when Alice creates another; then it
    selects the page, and caches both. *)
Definition torn : world env * list (flight (world env)) :=
  scheduled [ReqListTasks bob board_filter; ReqCreateTask alice second]
    [0; 0; 0; 1; 1; 1; 1; 1; 0; 0]%nat.

(** C11: a torn listing. The count and the page are two queries without a
    transaction. In a healthy program a task created between them is on the page
    and not in the total: Bob is answered two tasks of one, and so is every
    member while the entry lasts. *)
Theorem torn_list :
  rtc (steps start) (small_world, []) torn ∧
  healthy torn.1 ∧ forallb succeeded torn.2 = true ∧
  (∃ t1 t2, (answer_of <$> torn.2) !! 0%nat = Some (Some (Ok (ATasks [t1; t2] 1))) ∧
     Task_Title t1 = "Second" ∧ Task_Title t2 = "Title") ∧
  (∃ t1 t2, (TaskService.List (taskSvc app) alice board_filter torn.1).2 = Ok ([t1; t2], 1)).
Proof.
  split; [apply scheduled_steps|]. split; [split; [vm_compute; reflexivity|constructor]|].
  split; [vm_compute; reflexivity|]. split.
  - do 2 eexists. split; [vm_compute; reflexivity|]. split; reflexivity.
  - do 2 eexists. vm_compute. reflexivity.
Qed.

(** ** An update undone by another *)

(** Alice renames the task while Bob marks it done: both read it, then both
    write it. *)
Definition crossed_updates : world env * list (flight (world env)) :=
  scheduled [ReqUpdateTask alice task4 rename; ReqUpdateTask bob task4 finish]
    [0; 0; 1; 1; 0; 0; 0; 1; 1; 1]%nat.

(** C10: a lost update. In a healthy program two members change different
    fields of a task at once, and both are told they succeeded; the second
    write puts back the title the first had changed, and the history still
    says that the title is the new one. *)
Theorem lost_update :
  rtc (steps start) (small_world, []) crossed_updates ∧
  healthy crossed_updates.1 ∧ forallb succeeded crossed_updates.2 = true ∧
  (λ t, (Task_Title t, Task_Status t)) <$> (b_tasks (board_of crossed_updates.1) !! task4) =
    Some ("Title", StatusDone) ∧
  (λ h, (TH_Field h, TH_OldValue h, TH_NewValue h)) <$> b_history (board_of crossed_updates.1) =
    [("title", Some "Title", Some "Renamed"); ("status", Some StatusTodo, Some StatusDone)].
Proof.
  split; [apply scheduled_steps|]. split; [split; [vm_compute; reflexivity|constructor]|].
  split_and!; vm_compute; reflexivity.
Qed.

(** ** Pages of tasks created at the same time *)

Definition twin (title : string) : CreateTaskInput := MkCreateTaskInput team3 title None None None PriorityHigh.

(** Alice creates two tasks within a millisecond. *)
Definition twins : world env :=
  serve app (ReqCreateTask alice (twin "Twin B")) (serve app (ReqCreateTask alice (twin "Twin A")) small_world).

(** Bob reads one page after the other, one task on each. *)
Definition read_page (page : Z) (w : world env) : world env * result (list Task * Z) :=
  TaskService.List (taskSvc app) bob (MkTaskFilter (Some team3) None None page 1) w.
Definition read_titles (r : result (list Task * Z)) : result (list string * Z) :=
  match r with Ok (ts, n) => Ok (Task_Title <$> ts, n) | Err e => Err e end.
Definition page1 := read_page 1 twins.
Definition page2 := read_page 2 page1.1.
Definition page3 := read_page 3 page2.1.

(** C34: pages repeat and skip. The listing is ordered by the time of creation
    alone, and the server may order tasks of the same time anew at every
    statement. In a healthy program whose board nobody changes, a member who
    reads all the pages of a team's three tasks is shown one of two tasks
    created in the same millisecond twice and the other never. *)
Theorem repeated_page :
  healthy twins ∧ board_of page3.1 = board_of twins ∧
  Task_Title <$> (map_to_list (b_tasks (board_of twins))).*2 ≡ₚ ["Title"; "Twin B"; "Twin A"] ∧
  read_titles page1.2 = Ok (["Twin B"], 3) ∧ read_titles page2.2 = Ok (["Twin B"], 3) ∧
  read_titles page3.2 = Ok (["Title"], 3).
Proof.
  split; [split; [vm_compute; reflexivity|constructor]|]. split; [vm_compute; reflexivity|].
  split; [apply reflexive_eq; vm_compute; reflexivity|]. split_and!; vm_compute; reflexivity.
Qed.
