(* ===== verification/Slogx.v ===== *)
(** * Slogx: pkg/slogx, the values a log line shows

    Levels, values and attributes of log/slog, and masking, removal sets and
    level names of the package. A run-time panic is [None]. *)
From S2P Require Import Prelude Go GoStrings.

Module slogx.

(** ** log/slog: levels, values, attributes, records *)

Definition LevelDebug : Z := -4.
Definition LevelInfo : Z := 0.
Definition LevelWarn : Z := 4.
Definition LevelError : Z := 8.

(** [Level.String] *)
Definition plus_d (z : Z) : string := if z <? 0 then pretty z else "+" +:+ pretty z.
Definition level_name (base : string) (val : Z) : string :=
  if val =? 0 then base else base +:+ plus_d val.
Definition Level_String (l : Z) : string :=
  if l <? LevelInfo then level_name "DEBUG" (l - LevelDebug)
  else if l <? LevelWarn then level_name "INFO" (l - LevelInfo)
  else if l <? LevelError then level_name "WARN" (l - LevelWarn)
  else level_name "ERROR" (l - LevelError).

(** A value: a string, a level, nil, anything else that is not a group with its
    [%v] text; or a group of attributes. *)
Inductive Scalar : Type :=
  | StringValue (s : string)
  | LevelValue (l : Z)
  | NilValue
  | AnyValue (text : string).

Inductive Value : Type :=
  | Plain (s : Scalar)
  | GroupValue (attrs : list (string * Value)).
#[global] Coercion Plain : Scalar >-> Value.

Definition Sprintf_scalar (s : Scalar) : string :=
  match s with StringValue s => s | LevelValue l => Level_String l | NilValue => "<nil>" | AnyValue t => t end.

Lemma Value_nested_ind (P : Value → Prop) :
  (∀ s, P (Plain s)) → (∀ attrs, Forall (λ kv, P kv.2) attrs → P (GroupValue attrs)) → ∀ v, P v.
Proof.
  intros Hs Hg. fix IH 1. intros [s|attrs]; [apply Hs|apply Hg].
  induction attrs as [|[k v] attrs IHl]; constructor; [apply IH|exact IHl].
Qed.

(** A group has the text of a slice of attributes. *)
Fixpoint Sprintf_v (v : Value) : string :=
  match v with
  | Plain s => Sprintf_scalar s
  | GroupValue attrs =>
      "[" +:+ String.concat " " (map (λ kv, kv.1 +:+ "=" +:+ Sprintf_v kv.2) attrs) +:+ "]"
  end.

Record Attr : Type := MkAttr { Key : string; Val : Value }.

(** [Attr.isEmpty] *)
Definition isEmpty (a : Attr) : bool :=
  match Val a with Plain NilValue => bool_decide (Key a = "") | _ => false end.

Record LogRecord : Type := MkRecord {
  r_Time : string; r_Level : Z; r_Message : string; r_Attrs : list Attr
}.

(** ** masker.go *)

Definition MaskType : Type := Z.
Definition MaskDefault : MaskType := 0.
Definition MaskEmail : MaskType := 1.
Definition MaskPhone : MaskType := 2.
Definition MaskCard : MaskType := 3.
Definition MaskSecret : MaskType := 4.

Definition maskEmail (s : string) : option string :=
  match Split s "@" with
  | [user; domain] =>
      if (String.length user <=? 2)%nat then
        if (String.length user <? 1)%nat then None
        else Some (take_str 1 user +:+ "***@" +:+ domain)
      else Some (take_str 2 user +:+ "***" +:+ last_str 1 user +:+ "@" +:+ domain)
  | _ => Some "***@***"
  end.

Definition maskPhone (s : string) : string :=
  if (String.length s <? 8)%nat then "***"
  else take_str 4 s +:+ "*******" +:+ last_str 3 s.

Definition maskCard (s : string) : string :=
  let s := remove_byte " " s in
  if (String.length s <? 12)%nat then "**** **** ****"
  else take_str 4 s +:+ " **** **** " +:+ last_str 4 s.

(** The [Masker] interface, for the maskers whose answer is not a group, and its
    default implementation. *)
Definition Masker : Type := Value → MaskType → option Scalar.

Definition DefaultMasker_Mask : Masker := λ value mType,
  let valStr := Sprintf_v value in
  StringValue <$>
    (if mType =? MaskEmail then maskEmail valStr
     else if mType =? MaskPhone then Some (maskPhone valStr)
     else if mType =? MaskCard then Some (maskCard valStr)
     else if mType =? MaskSecret then Some "[SECRET]"
     else Some "[MASKED]").

Abbreviation MaskMap := (gmap string MaskType).

(** The builder of masking rules. *)
Record MaskRules : Type := MkMaskRules { rules : MaskMap }.
Definition NewMaskRules : MaskRules := MkMaskRules ∅.
Definition MaskRules_Add (r : MaskRules) (key : string) (mType : MaskType) : MaskRules :=
  MkMaskRules (<[key := mType]> (rules r)).
Definition MaskRules_Keys (r : MaskRules) : MaskMap := rules r.

(** ** removal.go *)

Record RemovalSet : Type := MkRemovalSet { keys : list string }.
Definition NewRemovalSet (ks : list string) : RemovalSet := MkRemovalSet ks.
Definition RemovalSet_Add (s : RemovalSet) (ks : list string) : RemovalSet :=
  MkRemovalSet (keys s ++ ks).
Definition RemovalSet_Keys (s : RemovalSet) : list string := keys s.

(** ** levels.go *)

Abbreviation LevelNames := (gmap Z string).
Definition LevelTrace : Z := -8.
Definition LevelFatal : Z := 12.
Definition defaultLevelNames : LevelNames := {[ LevelTrace := "TRACE"; LevelFatal := "FATAL" ]}.

(** [strings.ToUpper] of a level's name, which has no lower-case letter. *)
Definition getLevelName (l : Z) (customNames : LevelNames) : string :=
  match customNames !! l with Some name => name | None => Level_String l end.

(** ** What the masks let through *)

(** What a mask of type [t] lets through of a text. *)
Definition shown (t : MaskType) (s : string) : list string :=
  if t =? MaskEmail then
    match Split s "@" with
    | [user; domain] =>
        if (String.length user <=? 2)%nat then [take_str 1 user; domain]
        else [take_str 2 user; last_str 1 user; domain]
    | _ => []
    end
  else if t =? MaskPhone then
    if (String.length s <? 8)%nat then [] else [take_str 4 s; last_str 3 s]
  else if t =? MaskCard then
    let s := remove_byte " " s in
    if (String.length s <? 12)%nat then [] else [take_str 4 s; last_str 4 s]
  else [].

(** The mask as a function of what it lets through. *)
Definition render (t : MaskType) (shown : list string) : option string :=
  if t =? MaskEmail then
    match shown with
    | ["" ; _] => None
    | [a; domain] => Some (a +:+ "***@" +:+ domain)
    | [a; b; domain] => Some (a +:+ "***" +:+ b +:+ "@" +:+ domain)
    | _ => Some "***@***"
    end
  else if t =? MaskPhone then
    Some match shown with [a; b] => a +:+ "*******" +:+ b | _ => "***" end
  else if t =? MaskCard then
    Some match shown with [a; b] => a +:+ " **** **** " +:+ b | _ => "**** **** ****" end
  else if t =? MaskSecret then Some "[SECRET]"
  else Some "[MASKED]".

Lemma Mask_render v t :
  DefaultMasker_Mask v t = StringValue <$> render t (shown t (Sprintf_v v)).
Proof.
  unfold DefaultMasker_Mask, render, shown, maskEmail, maskPhone, maskCard.
  destruct (t =? MaskEmail); [f_equal|destruct (t =? MaskPhone); [f_equal|destruct (t =? MaskCard); [f_equal|done]]].
  - destruct (Split _ _) as [|u [|d [|]]]; try done.
    destruct (Nat.leb_spec (String.length u) 2), (Nat.ltb_spec (String.length u) 1); try lia.
    + by destruct u; [|cbn in *; lia].
    + by destruct u; [cbn in *; lia|].
    + by destruct u; [cbn in *; lia|].
  - by destruct (_ <? _)%nat.
  - by destruct (_ <? _)%nat.
Qed.

Lemma shown_two a b (s : string) k l n :
  (a + b ≤ n)%nat → (k ≤ a)%nat → (l ≤ b)%nat →
  (sum_list (String.length <$> (if (String.length s <? n)%nat then [] else [take_str k s; last_str l s]))
     ≤ a + b)%nat.
Proof.
  intros Hn Hk Hl. destruct (Nat.ltb_spec (String.length s) n); [apply Nat.le_0_l|].
  change ((String.length (take_str k s) + (String.length (last_str l s) + 0) ≤ a + b)%nat).
  rewrite take_str_length, last_str_length by lia. lia.
Qed.

Lemma shown_phone s : (sum_list (String.length <$> shown MaskPhone s) ≤ 7)%nat.
Proof. apply (shown_two 4 3); lia. Qed.

Lemma shown_card s : (sum_list (String.length <$> shown MaskCard s) ≤ 8)%nat.
Proof. apply (shown_two 4 4 (remove_byte " " s)); lia. Qed.

(** C27: what masking hides. A masked value depends only on what its mask lets
    through: nothing for a secret or a default mask, at most seven bytes of a
    phone number and eight of a card, and of an email the domain and at most
    three bytes of the user; and masking panics on exactly the emails that
    have nothing before the "@". *)
Theorem mask_hides t v v' :
  (shown t (Sprintf_v v) = shown t (Sprintf_v v') →
     DefaultMasker_Mask v t = DefaultMasker_Mask v' t) ∧
  (t ≠ MaskEmail → t ≠ MaskPhone → t ≠ MaskCard → shown t (Sprintf_v v) = []) ∧
  (t = MaskPhone → sum_list (String.length <$> shown t (Sprintf_v v)) ≤ 7)%nat ∧
  (t = MaskCard → sum_list (String.length <$> shown t (Sprintf_v v)) ≤ 8)%nat ∧
  (DefaultMasker_Mask v t = None ↔ t = MaskEmail ∧ ∃ domain, Split (Sprintf_v v) "@" = [""; domain]).
Proof.
  split; [by rewrite !Mask_render; intros ->|]. split_and!.
  - unfold shown. intros He%Z.eqb_neq Hp%Z.eqb_neq Hc%Z.eqb_neq. by rewrite He, Hp, Hc.
  - intros ->. apply shown_phone.
  - intros ->. apply shown_card.
  - unfold DefaultMasker_Mask. destruct (Z.eqb_spec t MaskEmail) as [->|Hne].
    + unfold maskEmail. destruct (Split _ _) as [|u [|d [|]]]; try by (split; [done|intros (_ & ? & ?)]).
      destruct u as [|c [|c' [|c'' u]]]; cbn; (split; [by eauto|intros (_ & ? & ?); done]).
    + split; [|by intros [? _]]. by repeat destruct (_ =? _).
Qed.

End slogx.
