(* ===== verification/SlogxHandler.v ===== *)
(** * SlogxHandler: pkg/slogx and pkg/logger, the dynamic handler

    Configurations live behind pointers: a struct and the maps and the slice it
    refers to are objects of a heap. log/slog's handlers are modelled as far as
    the package uses them: a handler is a format, an output and the attributes
    and groups it carries, and a line is the list of qualified attributes it
    writes, where a group value stands for the attributes in it. The dynamic handler keeps its chain in two atomic pointers; its
    calls are trees of atomic steps, so that what goroutines do to each other
    can be stated. *)
From S2P Require Import Prelude Go GoStrings System Interleave Slogx.
Import slogx.

(** ** options.go: configurations *)

Inductive Format : Type := FormatText | FormatJSON.

(** Where lines go: the standard output, the discarding writer, or another. *)
Inductive Writer : Type := Stdout | Discard | OtherWriter (n : N).

Abbreviation loc := positive (only parsing).

Record Config : Type := MkConfig {
  Level : Z;
  Format_ : Format;
  Output : Writer;
  MaskKeys : loc;
  RemoveKeys : loc;
  LevelNames_ : loc;
  Masker_ : Masker;
  ContextKeys : loc
}.

Inductive obj : Type :=
  | OConfig (c : Config)
  | OMask (m : MaskMap)
  | ORemove (s : gset string)
  | ONames (m : LevelNames)
  | OKeys (l : list string).

Abbreviation heap := (gmap positive obj).

Definition alloc (o : obj) (h : heap) : heap * loc := let l := fresh (dom h) in (<[l := o]> h, l).

(** Reading through a pointer; a nil map reads as empty. *)
Definition mask_at (h : heap) (l : loc) : MaskMap := match h !! l with Some (OMask m) => m | _ => ∅ end.
Definition remove_at (h : heap) (l : loc) : gset string :=
  match h !! l with Some (ORemove s) => s | _ => ∅ end.
Definition names_at (h : heap) (l : loc) : LevelNames :=
  match h !! l with Some (ONames m) => m | _ => ∅ end.
Definition keys_at (h : heap) (l : loc) : list string :=
  match h !! l with Some (OKeys k) => k | _ => [] end.

Definition nil_config : Config :=
  MkConfig 0 FormatText Stdout 1%positive 1%positive 1%positive DefaultMasker_Mask 1%positive.
Definition config_at (h : heap) (p : loc) : Config :=
  match h !! p with Some (OConfig c) => c | _ => nil_config end.

(** A configuration's contents. *)
Record Settings : Type := MkSettings {
  s_Level : Z;
  s_Format : Format;
  s_Output : Writer;
  s_Mask : MaskMap;
  s_Remove : gset string;
  s_Names : LevelNames;
  s_Masker : Masker;
  s_Keys : list string
}.

Definition view (h : heap) (p : loc) : Settings :=
  let c := config_at h p in
  MkSettings (Level c) (Format_ c) (Output c) (mask_at h (MaskKeys c)) (remove_at h (RemoveKeys c))
    (names_at h (LevelNames_ c)) (Masker_ c) (keys_at h (ContextKeys c)).

(** A new configuration with these contents, every part of it a new object. *)
Definition new_config (s : Settings) (h : heap) : heap * loc :=
  let '(h, mask) := alloc (OMask (s_Mask s)) h in
  let '(h, remove) := alloc (ORemove (s_Remove s)) h in
  let '(h, names) := alloc (ONames (s_Names s)) h in
  let '(h, ks) := alloc (OKeys (s_Keys s)) h in
  alloc (OConfig (MkConfig (s_Level s) (s_Format s) (s_Output s) mask remove names (s_Masker s) ks)) h.

(** [Clone]: the struct is copied and every map and slice remade. *)
Definition Clone (h : heap) (p : loc) : heap * loc := new_config (view h p) h.

(** ** Assignments through a configuration's pointer *)

Inductive edit : Type :=
  | SetLevelTo (l : Z)
  | SetFormatTo (f : Format)
  | SetOutputTo (w : Writer)
  | SetMaskerTo (m : Masker)
  | PutMask (key : string) (t : MaskType)
  | PutRemove (key : string)
  | PutName (l : Z) (name : string)
  | AppendKeys (ks : list string)
  | DropMask (key : string)
  | DropRemove (key : string).

Definition set_level (l : Z) (c : Config) : Config :=
  MkConfig l (Format_ c) (Output c) (MaskKeys c) (RemoveKeys c) (LevelNames_ c) (Masker_ c) (ContextKeys c).
Definition set_format (f : Format) (c : Config) : Config :=
  MkConfig (Level c) f (Output c) (MaskKeys c) (RemoveKeys c) (LevelNames_ c) (Masker_ c) (ContextKeys c).
Definition set_output (w : Writer) (c : Config) : Config :=
  MkConfig (Level c) (Format_ c) w (MaskKeys c) (RemoveKeys c) (LevelNames_ c) (Masker_ c) (ContextKeys c).
Definition set_masker (m : Masker) (c : Config) : Config :=
  MkConfig (Level c) (Format_ c) (Output c) (MaskKeys c) (RemoveKeys c) (LevelNames_ c) m (ContextKeys c).

(** The appended slice keeps its place: only this configuration refers to it. *)
Definition assign (e : edit) (h : heap) (p : loc) : heap :=
  let c := config_at h p in
  match e with
  | SetLevelTo l => <[p := OConfig (set_level l c)]> h
  | SetFormatTo f => <[p := OConfig (set_format f c)]> h
  | SetOutputTo w => <[p := OConfig (set_output w c)]> h
  | SetMaskerTo m => <[p := OConfig (set_masker m c)]> h
  | PutMask k t => <[MaskKeys c := OMask (<[k := t]> (mask_at h (MaskKeys c)))]> h
  | PutRemove k => <[RemoveKeys c := ORemove ({[k]} ∪ remove_at h (RemoveKeys c))]> h
  | PutName l n => <[LevelNames_ c := ONames (<[l := n]> (names_at h (LevelNames_ c)))]> h
  | AppendKeys ks => <[ContextKeys c := OKeys (keys_at h (ContextKeys c) ++ ks)]> h
  | DropMask k => <[MaskKeys c := OMask (delete k (mask_at h (MaskKeys c)))]> h
  | DropRemove k => <[RemoveKeys c := ORemove (remove_at h (RemoveKeys c) ∖ {[k]})]> h
  end.

(** What the assignment does to the contents. *)
Definition edited (e : edit) (s : Settings) : Settings :=
  match e with
  | SetLevelTo l => MkSettings l (s_Format s) (s_Output s) (s_Mask s) (s_Remove s) (s_Names s) (s_Masker s) (s_Keys s)
  | SetFormatTo f => MkSettings (s_Level s) f (s_Output s) (s_Mask s) (s_Remove s) (s_Names s) (s_Masker s) (s_Keys s)
  | SetOutputTo w => MkSettings (s_Level s) (s_Format s) w (s_Mask s) (s_Remove s) (s_Names s) (s_Masker s) (s_Keys s)
  | SetMaskerTo m => MkSettings (s_Level s) (s_Format s) (s_Output s) (s_Mask s) (s_Remove s) (s_Names s) m (s_Keys s)
  | PutMask k t => MkSettings (s_Level s) (s_Format s) (s_Output s) (<[k := t]> (s_Mask s)) (s_Remove s) (s_Names s) (s_Masker s) (s_Keys s)
  | PutRemove k => MkSettings (s_Level s) (s_Format s) (s_Output s) (s_Mask s) ({[k]} ∪ s_Remove s) (s_Names s) (s_Masker s) (s_Keys s)
  | PutName l n => MkSettings (s_Level s) (s_Format s) (s_Output s) (s_Mask s) (s_Remove s) (<[l := n]> (s_Names s)) (s_Masker s) (s_Keys s)
  | AppendKeys ks => MkSettings (s_Level s) (s_Format s) (s_Output s) (s_Mask s) (s_Remove s) (s_Names s) (s_Masker s) (s_Keys s ++ ks)
  | DropMask k => MkSettings (s_Level s) (s_Format s) (s_Output s) (delete k (s_Mask s)) (s_Remove s) (s_Names s) (s_Masker s) (s_Keys s)
  | DropRemove k => MkSettings (s_Level s) (s_Format s) (s_Output s) (s_Mask s) (s_Remove s ∖ {[k]}) (s_Names s) (s_Masker s) (s_Keys s)
  end.

Definition edited_all (es : list edit) (s : Settings) : Settings := foldl (λ s e, edited e s) s es.

Definition assign_all (es : list edit) (h : heap) (p : loc) : heap := foldl (λ h e, assign e h p) h es.

(** ** Options: each is a list of assignments to the initial configuration *)

Definition Option : Type := list edit.

Definition WithOutput (w : option Writer) : Option :=
  match w with Some w => [SetOutputTo w] | None => [] end.
Definition WithFormat (f : Format) : Option := [SetFormatTo f].
Definition ParseFormat (s : string) : Format :=
  if bool_decide (ToLower s = "json") then FormatJSON else FormatText.
Definition WithLevel (l : Z) : Option := [SetLevelTo l].
Definition WithMaskKey (key : string) (mType : MaskType) : Option := [PutMask key mType].
Definition WithMaskKeys (ks : MaskMap) : Option :=
  (λ kt : string * MaskType, PutMask kt.1 kt.2) <$> map_to_list ks.
Definition WithMaskRules (r : option MaskRules) : Option :=
  match r with
  | None => []
  | Some r => (λ kt : string * MaskType, PutMask kt.1 kt.2) <$> map_to_list (rules r)
  end.
Definition WithMasker (m : option Masker) : Option :=
  match m with Some m => [SetMaskerTo m] | None => [] end.
Definition WithRemoval (set : RemovalSet) : Option := PutRemove <$> RemovalSet_Keys set.
Definition WithLevelNames (m : LevelNames) : Option :=
  (λ kv : Z * string, PutName kv.1 kv.2) <$> map_to_list m.
Definition WithContextKeys (ks : list string) : Option := [AppendKeys ks].

Definition default_settings : Settings :=
  MkSettings LevelTrace FormatText Stdout ∅ ∅ defaultLevelNames DefaultMasker_Mask [].
Definition defaultOptions (h : heap) : heap * loc := new_config default_settings h.

(** ** handler.go: what becomes of an attribute *)

(** The function [getReplaceAttr] returns; [None] is a panic. *)
Definition getReplaceAttr (cfg : Settings) (a : Attr) : option Attr :=
  if bool_decide (Key a ∈ s_Remove cfg) then Some (MkAttr "" NilValue)
  else match s_Mask cfg !! Key a with
  | Some mType => v ← s_Masker cfg (Val a) mType; Some (MkAttr (Key a) (Plain v))
  | None =>
      if bool_decide (Key a = "level") then
        match Val a with
        | Plain (LevelValue lvl) => Some (MkAttr (Key a) (StringValue (getLevelName lvl (s_Names cfg))))
        | _ => Some a
        end
      else Some a
  end.

(** log/slog's text and JSON handlers: attributes are replaced when they are
    added, and stand in the groups open at that time. *)
Record SlogHandler : Type := MkSlogHandler {
  sh_Format : Format;
  sh_Output : Writer;
  sh_Replace : Attr → option Attr;
  sh_Attrs : list (list string * Attr);
  sh_Groups : list string
}.

(** A group without a name is not opened. *)
Definition open_group (name : string) (gs : list string) : list string :=
  if bool_decide (name = "") then gs else gs ++ [name].

(** A group stands for the attributes in it, at every depth. *)
Fixpoint leaves (gs : list string) (k : string) (v : Value) : list (list string * Attr) :=
  match v with
  | Plain s => [(gs, MkAttr k s)]
  | GroupValue attrs => concat (map (λ kv, leaves (open_group k gs) kv.1 kv.2) attrs)
  end.

Definition inside (gs : list string) (l : list Attr) : list (list string * Attr) :=
  concat (map (λ a, leaves gs (Key a) (Val a)) l).

(** ReplaceAttr is called for these and never for a group; what is empty then
    is left out. *)
Fixpoint replaced (f : Attr → option Attr) (l : list (list string * Attr))
    : option (list (list string * Attr)) :=
  match l with
  | [] => Some []
  | (gs, a) :: l =>
      a ← f a;
      rest ← replaced f l;
      Some (if isEmpty a then rest else (gs, a) :: rest)
  end.

(** [slog.Handler.WithAttrs] *)
Definition add_attrs (sh : SlogHandler) (new : list (list string * Attr)) : SlogHandler :=
  MkSlogHandler (sh_Format sh) (sh_Output sh) (sh_Replace sh) (sh_Attrs sh ++ new) (sh_Groups sh).
Definition slog_WithAttrs (sh : SlogHandler) (attrs : list Attr) : option SlogHandler :=
  new ← replaced (sh_Replace sh) (inside (sh_Groups sh) attrs);
  Some (add_attrs sh new).

Definition slog_WithGroup (sh : SlogHandler) (name : string) : SlogHandler :=
  MkSlogHandler (sh_Format sh) (sh_Output sh) (sh_Replace sh) (sh_Attrs sh) (open_group name (sh_Groups sh)).

(** A written line: the record's own three attributes, those of the handler,
    and those of the record. *)
Record line : Type := Line { l_Format : Format; l_Output : Writer; l_Attrs : list (list string * Attr) }.

Definition builtin (r : LogRecord) : list Attr :=
  [MkAttr "time" (AnyValue (r_Time r)); MkAttr "level" (LevelValue (r_Level r));
   MkAttr "msg" (StringValue (r_Message r))].

Definition slog_Handle (sh : SlogHandler) (r : LogRecord) : option line :=
  top ← replaced (sh_Replace sh) (inside [] (builtin r));
  own ← replaced (sh_Replace sh) (inside (sh_Groups sh) (r_Attrs r));
  Some (Line (sh_Format sh) (sh_Output sh) (top ++ sh_Attrs sh ++ own)).

(** *** DynamicHandler *)

Record DynamicHandler : Type := MkDynamicHandler { dh_attrs : list Attr; dh_groups : list string }.

Definition WithAttrs (h : DynamicHandler) (attrs : list Attr) : DynamicHandler :=
  MkDynamicHandler (dh_attrs h ++ attrs) (dh_groups h).
Definition WithGroup (h : DynamicHandler) (name : string) : DynamicHandler :=
  MkDynamicHandler (dh_attrs h) (dh_groups h ++ [name]).

Definition Enabled (cfg : Settings) (level : Z) : bool := s_Level cfg <=? level.

(** The chain for a configuration (the second half of getOrBuildCachedHandler). *)
Definition build (h : DynamicHandler) (cfg : Settings) : option SlogHandler :=
  let base := MkSlogHandler (s_Format cfg) (s_Output cfg) (getReplaceAttr cfg) [] [] in
  base ← (if bool_decide (dh_attrs h = []) then Some base else slog_WithAttrs base (dh_attrs h));
  Some (foldl slog_WithGroup base (dh_groups h)).

(** The attributes taken from the context. *)
Definition ctx_attrs (cfg : Settings) (values : gmap string Value) : list Attr :=
  omap (λ key, MkAttr key <$> values !! key) (s_Keys cfg).

(** What Handle writes with a chain. *)
Definition emit (cfg : Settings) (values : gmap string Value) (base : SlogHandler) (r : LogRecord)
    : option line :=
  let ctxAttrs := ctx_attrs cfg values in
  base ← (if bool_decide (ctxAttrs = []) then Some base else slog_WithAttrs base ctxAttrs);
  slog_Handle base r.

(** The line a record gives under a configuration. *)
Definition line_of (cfg : Settings) (h : DynamicHandler) (values : gmap string Value) (r : LogRecord)
    : option line :=
  base ← build h cfg; emit cfg values base r.

(** *** Its atomic state, and its methods as trees of steps *)

Record logger : Type := MkLogger {
  lg_heap : heap;
  lg_cfg : loc;
  lg_version : option loc;
  lg_handler : option SlogHandler
}.

Definition panic {A} : comp logger A := throw (OtherError "panic").
Definition of_option {A} (o : option A) : comp logger A := λ s,
  match o with Some a => (s, Ok a) | None => panic s end.

Definition load_cfg : comp logger loc := λ s, (s, Ok (lg_cfg s)).
Definition store_cfg (p : loc) : comp logger unit := λ s,
  (MkLogger (lg_heap s) p (lg_version s) (lg_handler s), Ok tt).
Definition load_version : comp logger (option loc) := λ s, (s, Ok (lg_version s)).
Definition store_version (p : loc) : comp logger unit := λ s,
  (MkLogger (lg_heap s) (lg_cfg s) (Some p) (lg_handler s), Ok tt).
Definition load_handler : comp logger (option SlogHandler) := λ s, (s, Ok (lg_handler s)).
Definition store_handler (sh : SlogHandler) : comp logger unit := λ s,
  (MkLogger (lg_heap s) (lg_cfg s) (lg_version s) (Some sh), Ok tt).
Definition settings_at (p : loc) : comp logger Settings := λ s, (s, Ok (view (lg_heap s) p)).

Definition getOrBuildCachedHandler (h : DynamicHandler) (p : loc) : prog logger SlogHandler :=
  let rebuild :=
    cfg ← call (settings_at p);
    base ← call (of_option (build h cfg));
    call (store_handler base) ;;
    call (store_version p) ;;
    mret base in
  version ← call load_version;
  if bool_decide (version = Some p) then
    cached ← call load_handler;
    match cached with Some sh => mret sh | None => rebuild end
  else rebuild.

Definition Handle (h : DynamicHandler) (values : gmap string Value) (r : LogRecord) : prog logger line :=
  p ← call load_cfg;
  cfg ← call (settings_at p);
  base ← getOrBuildCachedHandler h p;
  call (of_option (emit cfg values base r)).

(** log/slog's [Logger.Log]: nothing is handled below the level. *)
Definition Log (h : DynamicHandler) (values : gmap string Value) (r : LogRecord)
    : prog logger (option line) :=
  p ← call load_cfg;
  cfg ← call (settings_at p);
  if Enabled cfg (r_Level r) then (l ← Handle h values r; mret (Some l)) else mret None.

(** ** logger.go *)

Definition New (opts : list Option) (h : heap) : logger :=
  let '(h, p) := defaultOptions h in
  MkLogger (assign_all (concat opts) h p) p None None.
Definition NewNop (h : heap) : logger := New [WithOutput (Some Discard)] h.

(** The copy is private until it is stored: cloning and editing are one step. *)
Definition clone_edited (es : list edit) (p : loc) : comp logger loc := λ s,
  let '(h, p') := Clone (lg_heap s) p in
  (MkLogger (assign_all es h p') (lg_cfg s) (lg_version s) (lg_handler s), Ok p').

Definition UpdateConfig (es : list edit) : prog logger unit :=
  p ← call load_cfg;
  p' ← call (clone_edited es p);
  call (store_cfg p').
Definition SetLevel (lvl : Z) : prog logger unit := UpdateConfig [SetLevelTo lvl].

(** [Err(err)] of package slogx *)
Definition Err_attr (err : option string) : Attr :=
  MkAttr "error" (StringValue (default "nil" err)).

(** ** What a line shows *)

Lemma replaced_app f l1 l2 :
  replaced f (l1 ++ l2) = (x ← replaced f l1; y ← replaced f l2; Some (x ++ y)).
Proof.
  induction l1 as [|[gs a] l1 IH]; cbn [replaced app].
  - cbn. by destruct (replaced f l2).
  - rewrite IH. destruct (f a) as [a'|]; [|done]. cbn. destruct (replaced f l1); [|done]. cbn.
    destruct (replaced f l2); [|done]. cbn. by destruct (isEmpty a').
Qed.

Lemma replaced_elem f l l' gs a :
  replaced f l = Some l' → (gs, a) ∈ l' ↔ ∃ a0, (gs, a0) ∈ l ∧ f a0 = Some a ∧ isEmpty a = false.
Proof.
  revert l'. induction l as [|[gs0 a0] l IH]; intros l'; cbn [replaced].
  { intros [= <-]. set_solver. }
  destruct (f a0) as [a1|] eqn:Hf; [|done]. cbn. destruct (replaced f l) as [rest|]; [|done]. cbn.
  intros [= <-]. specialize (IH rest eq_refl). destruct (isEmpty a1) eqn:He; split.
  - rewrite IH. intros (a2 & ? & ?). exists a2. by rewrite elem_of_cons; eauto.
  - intros (a2 & [[= -> ->]|?]%elem_of_cons & ? & ?); [congruence|]. rewrite IH. eauto.
  - intros [[= -> ->]|Hin]%elem_of_cons; [exists a0; split; [by left|done]|].
    apply IH in Hin as (a2 & ? & ?). exists a2. by rewrite elem_of_cons; eauto.
  - intros (a2 & [[= -> ->]|?]%elem_of_cons & ? & ?); [simplify_eq; by left|right]. rewrite IH. eauto.
Qed.

Lemma replaced_total f l : (∀ gs a, (gs, a) ∈ l → is_Some (f a)) → is_Some (replaced f l).
Proof.
  induction l as [|[gs a] l IH]; intros Hf; [by eexists|]. cbn [replaced].
  destruct (Hf gs a) as [a' ->]; [by left|]. cbn.
  destruct IH as [rest ->]; [intros gs' b Hb; apply (Hf gs'); by right|]. by eexists.
Qed.

Lemma replaced_defined f l l' gs a : replaced f l = Some l' → (gs, a) ∈ l → is_Some (f a).
Proof.
  revert l'. induction l as [|[gs1 a1] l IH]; intros l'; cbn [replaced]; [by intros _ ?%elem_of_nil|].
  destruct (f a1) as [o|] eqn:Hf; [|done]. cbn. destruct (replaced f l) as [rest|]; [|done].
  intros _ [[= -> ->]|Hin]%elem_of_cons; [by eexists|by eapply IH].
Qed.

(** What a line is made from, outside every group value: the record's own
    attributes and the handler's, and in the handler's groups those of the
    context and of the record. *)
Definition sources (cfg : Settings) (h : DynamicHandler) (values : gmap string Value) (r : LogRecord)
    : list (list string * Attr) :=
  let gs := foldl (λ gs name, open_group name gs) [] (dh_groups h) in
  inside [] (builtin r) ++ inside [] (dh_attrs h) ++ inside gs (ctx_attrs cfg values) ++ inside gs (r_Attrs r).

(** Adding attributes, none included. *)
Lemma with_attrs_run sh attrs :
  (if bool_decide (attrs = []) then Some sh else slog_WithAttrs sh attrs) = slog_WithAttrs sh attrs.
Proof.
  case_bool_decide; [|done]. subst. destruct sh. unfold slog_WithAttrs, add_attrs. cbn. by rewrite app_nil_r.
Qed.

Lemma slog_groups_chain gs sh :
  foldl slog_WithGroup sh gs =
    MkSlogHandler (sh_Format sh) (sh_Output sh) (sh_Replace sh) (sh_Attrs sh)
      (foldl (λ gs name, open_group name gs) (sh_Groups sh) gs).
Proof. revert sh. induction gs as [|g gs IH]; intros sh; [by destruct sh|]. cbn [foldl]. by rewrite IH. Qed.

(** A line is its sources, each replaced. *)
Lemma line_of_replaced cfg h values r :
  line_of cfg h values r =
    (attrs ← replaced (getReplaceAttr cfg) (sources cfg h values r);
     Some (Line (s_Format cfg) (s_Output cfg) attrs)).
Proof.
  unfold line_of, build, emit, sources. rewrite !replaced_app, with_attrs_run.
  set (base := MkSlogHandler _ _ _ _ _).
  change (slog_WithAttrs base (dh_attrs h)) with
    (new ← replaced (getReplaceAttr cfg) (inside [] (dh_attrs h)); Some (add_attrs base new)).
  destruct (replaced _ (inside [] (dh_attrs h))) as [l2|]; cbn [mbind option_bind];
    [|destruct (replaced _ (inside [] (builtin r))); reflexivity].
  rewrite with_attrs_run, slog_groups_chain. unfold slog_WithAttrs, slog_Handle, add_attrs.
  cbn [sh_Replace sh_Groups sh_Format sh_Output sh_Attrs].
  set (gs := foldl _ _ (dh_groups h)).
  destruct (replaced _ (inside gs (ctx_attrs cfg values))) as [l3|]; cbn [mbind option_bind];
    [|destruct (replaced _ (inside [] (builtin r))); reflexivity].
  cbn [sh_Replace sh_Groups sh_Format sh_Output sh_Attrs app].
  destruct (replaced _ (inside [] (builtin r))) as [l1|]; cbn [mbind option_bind]; [|reflexivity].
  destruct (replaced _ (inside gs (r_Attrs r))) as [l4|]; cbn [mbind option_bind]; [|reflexivity].
  by rewrite <-app_assoc.
Qed.

Lemma leaves_plain gs k v gs' a : (gs', a) ∈ leaves gs k v → ∃ s : Scalar, Val a = s.
Proof.
  revert gs k. induction v as [s|attrs IH] using Value_nested_ind; intros gs k; cbn.
  - intros [= -> ->]%list_elem_of_singleton. by eexists.
  - rewrite list_elem_of_In, in_concat. intros (l & (kv & <- & Hkv)%in_map_iff & Hin).
    apply list_elem_of_In in Hkv, Hin. rewrite Forall_forall in IH. by eapply IH.
Qed.

Lemma inside_plain gs l gs' a : (gs', a) ∈ inside gs l → ∃ s : Scalar, Val a = s.
Proof.
  unfold inside. rewrite list_elem_of_In, in_concat. intros (l' & (b & <- & _)%in_map_iff & Hin).
  apply list_elem_of_In in Hin. by eapply leaves_plain.
Qed.

(** An attribute outside groups is one of the sources. *)
Lemma inside_scalar gs l k (v : Scalar) : MkAttr k v ∈ l → (gs, MkAttr k v) ∈ inside gs l.
Proof.
  intros Hin%list_elem_of_In. unfold inside. apply list_elem_of_In, in_concat.
  exists [(gs, MkAttr k v)]. split; [|by left]. by apply (in_map (λ a, leaves gs (Key a) (Val a))) in Hin.
Qed.

Lemma sources_plain cfg h values r gs a :
  (gs, a) ∈ sources cfg h values r → ∃ s : Scalar, Val a = s.
Proof.
  unfold sources. rewrite !elem_of_app.
  intros [Hin|[Hin|[Hin|Hin]]]; exact (inside_plain _ _ _ _ Hin).
Qed.

(** What [getReplaceAttr] makes of an attribute that is not a group. *)
Definition rendered (cfg : Settings) (k : string) (v v' : Scalar) : Prop :=
  match s_Mask cfg !! k with
  | Some t => s_Masker cfg v t = Some v'
  | None => if bool_decide (k = "level")
            then match v with
                 | LevelValue lvl => v' = StringValue (getLevelName lvl (s_Names cfg))
                 | _ => v' = v
                 end
            else v' = v
  end.

Lemma replace_kept cfg k (v : Scalar) a :
  k ∉ s_Remove cfg →
  getReplaceAttr cfg (MkAttr k v) = Some a ↔ ∃ v', a = MkAttr k (Plain v') ∧ rendered cfg k v v'.
Proof.
  intros Hk. unfold getReplaceAttr, rendered. cbn [Key Val]. rewrite bool_decide_false by done.
  destruct (s_Mask cfg !! k) as [t|].
  - destruct (s_Masker cfg v t) as [v'|]; cbn; naive_solver.
  - case_bool_decide; [destruct v|]; naive_solver.
Qed.

Lemma line_target cfg h values r l :
  line_of cfg h values r = Some l → l_Format l = s_Format cfg ∧ l_Output l = s_Output cfg.
Proof. rewrite line_of_replaced. destruct (replaced _ _); [|done]. by intros [= <-]. Qed.

Lemma shown_somehow cfg h values r l gs k (v : Scalar) :
  line_of cfg h values r = Some l → (gs, MkAttr k v) ∈ sources cfg h values r → k ∉ s_Remove cfg →
  ∃ v', rendered cfg k v v'.
Proof.
  rewrite line_of_replaced. destruct (replaced _ _) as [attrs|] eqn:Hr; [|done]. intros _ Hin Hk.
  destruct (replaced_defined _ _ _ _ _ Hr Hin) as [a Ha].
  apply replace_kept in Ha as (v' & _ & ?); [by exists v'|done].
Qed.

(** A line shows its sources, but those with a removed key and the empty ones. *)
Lemma redacted cfg h values r l gs k (v' : Scalar) :
  line_of cfg h values r = Some l →
  (gs, MkAttr k v') ∈ l_Attrs l ↔
    (k ∉ s_Remove cfg) ∧ isEmpty (MkAttr k v') = false ∧
    ∃ v : Scalar, (gs, MkAttr k v) ∈ sources cfg h values r ∧ rendered cfg k v v'.
Proof.
  rewrite line_of_replaced. destruct (replaced _ _) as [attrs|] eqn:Hr; [|done]. cbn. intros [= <-].
  cbn [l_Attrs]. rewrite (replaced_elem _ _ _ _ _ Hr). split.
  - intros ([k0 v0] & Hin & Hf & He).
    destruct (sources_plain _ _ _ _ _ _ Hin) as [s Hs]. cbn in Hs. subst v0.
    destruct (decide (k0 ∈ s_Remove cfg)) as [Hk|Hk].
    { exfalso. unfold getReplaceAttr in Hf. cbn in Hf. rewrite bool_decide_true in Hf by done.
      injection Hf as <- <-. done. }
    apply replace_kept in Hf as (v1 & [= <- <-] & Hf); [|done]. eauto.
  - intros (Hk & He & v & Hin & Hv). exists (MkAttr k v). split; [done|]. split; [|done].
    apply replace_kept; eauto.
Qed.

Lemma lines_plain cfg h values r l gs a :
  line_of cfg h values r = Some l → (gs, a) ∈ l_Attrs l → ∃ s : Scalar, Val a = s.
Proof.
  rewrite line_of_replaced. destruct (replaced _ _) as [attrs|] eqn:Hr; [|done]. cbn. intros [= <-].
  cbn [l_Attrs]. rewrite (replaced_elem _ _ _ _ _ Hr). intros ([k0 v0] & Hin & Hf & _).
  destruct (sources_plain _ _ _ _ _ _ Hin) as [s Hs]. cbn in Hs. subst v0.
  destruct (decide (k0 ∈ s_Remove cfg)) as [Hk|Hk].
  - unfold getReplaceAttr in Hf. cbn in Hf. rewrite bool_decide_true in Hf by done.
    injection Hf as <-. by eexists.
  - apply replace_kept in Hf as (v1 & -> & _); [|done]. by eexists.
Qed.

Lemma no_line cfg h values r :
  line_of cfg h values r = None →
  ∃ gs k (v : Scalar) t, (gs, MkAttr k v) ∈ sources cfg h values r ∧ (k ∉ s_Remove cfg) ∧
    s_Mask cfg !! k = Some t ∧ s_Masker cfg v t = None.
Proof.
  rewrite line_of_replaced. destruct (replaced _ _) as [attrs|] eqn:Hr; [done|]. intros _.
  destruct (decide (Exists (λ ga, getReplaceAttr cfg ga.2 = None) (sources cfg h values r))) as [He|He].
  - apply Exists_exists in He as ([gs [k v0]] & Hin & Hf).
    destruct (sources_plain _ _ _ _ _ _ Hin) as [v Hv]. cbn in Hv, Hf. subst v0.
    unfold getReplaceAttr in Hf. cbn in Hf. case_bool_decide; [done|].
    destruct (s_Mask cfg !! k) as [t|] eqn:Ht.
    + exists gs, k, v, t. split_and!; [done..|]. by destruct (s_Masker cfg v t).
    + case_bool_decide; [by destruct v|done].
  - exfalso. destruct (replaced_total (getReplaceAttr cfg) (sources cfg h values r)) as [? ?]; [|congruence].
    intros gs a Hin. destruct (getReplaceAttr cfg a) eqn:Ha; [by eexists|]. exfalso. apply He, Exists_exists.
    by exists (gs, a).
Qed.

(** C25: redaction. A record gives its line unless the masker panics on one of
    its attributes. The line shows the attributes of the record, the handler
    and the context where they stand, those inside group values with them: none
    whose own key is removed, under a masked key only the masker's answer, a
    level by its name, and the others as they are, all that have a key. *)
Theorem redaction cfg h values r :
  match line_of cfg h values r with
  | Some l =>
      l_Format l = s_Format cfg ∧ l_Output l = s_Output cfg ∧
      (∀ gs a, (gs, a) ∈ l_Attrs l → (Key a ∉ s_Remove cfg) ∧
         ∃ v v' : Scalar, Val a = v' ∧ (gs, MkAttr (Key a) v) ∈ sources cfg h values r ∧
           rendered cfg (Key a) v v') ∧
      (∀ gs k (v : Scalar), (gs, MkAttr k v) ∈ sources cfg h values r → (k ∉ s_Remove cfg) → k ≠ "" →
         ∃ v' : Scalar, (gs, MkAttr k v') ∈ l_Attrs l ∧ rendered cfg k v v')
  | None =>
      ∃ gs k (v : Scalar) t, (gs, MkAttr k v) ∈ sources cfg h values r ∧ (k ∉ s_Remove cfg) ∧
        s_Mask cfg !! k = Some t ∧ s_Masker cfg v t = None
  end.
Proof.
  destruct (line_of cfg h values r) as [l|] eqn:Hl; [|by apply no_line].
  pose proof (line_target _ _ _ _ _ Hl) as [Hf Ho]. split; [done|]. split; [done|]. split.
  - intros gs a Hin. destruct (lines_plain _ _ _ _ _ _ _ Hl Hin) as [v' Hv]. destruct a as [k v0]. cbn in *.
    subst v0. apply (redacted _ _ _ _ _ _ _ _ Hl) in Hin as (? & _ & v & ? & ?). eauto 10.
  - intros gs k v Hin Hk Hne. destruct (shown_somehow _ _ _ _ _ _ _ _ Hl Hin Hk) as [v' Hv].
    exists v'. split; [|done]. apply (redacted _ _ _ _ _ _ _ _ Hl). split; [done|]. split; [|by eauto].
    unfold isEmpty. cbn. destruct v'; [done|done| |done]. by rewrite bool_decide_false.
Qed.

(** ReplaceAttr does not see a group: one under a removed key is shown, with
    what is in it. *)
Example removed_group_shown :
  l_Attrs <$> line_of (edited_all [PutRemove "password"; PutRemove "time"; PutRemove "msg"] default_settings)
    (MkDynamicHandler [] []) ∅
    (MkRecord "now" LevelInfo "login" [MkAttr "password" (GroupValue [("value", Plain (StringValue "secret"))])]) =
  Some [([], MkAttr "level" (StringValue "INFO")); (["password"], MkAttr "value" (StringValue "secret"))].
Proof. vm_compute. reflexivity. Qed.

(** ** Configurations are updated on a private copy *)

(** What the objects of a configuration hold. *)
Definition parts (h : heap) (p : loc) (c : Config) (m : MaskMap) (s : gset string) (n : LevelNames)
    (k : list string) : Prop :=
  h !! p = Some (OConfig c) ∧ h !! MaskKeys c = Some (OMask m) ∧
  h !! RemoveKeys c = Some (ORemove s) ∧ h !! LevelNames_ c = Some (ONames n) ∧
  h !! ContextKeys c = Some (OKeys k).

(** A pointer to a configuration all of whose parts are there. *)
Definition valid (h : heap) (p : loc) : Prop := ∃ c m s n k, parts h p c m s n k.

Lemma parts_view h p c m s n k :
  parts h p c m s n k →
  config_at h p = c ∧ mask_at h (MaskKeys c) = m ∧ remove_at h (RemoveKeys c) = s ∧
  names_at h (LevelNames_ c) = n ∧ keys_at h (ContextKeys c) = k ∧
  view h p = MkSettings (Level c) (Format_ c) (Output c) m s n (Masker_ c) k.
Proof.
  intros (Hp & Hm & Hs & Hn & Hk).
  unfold view, config_at, mask_at, remove_at, names_at, keys_at. rewrite Hp. cbn. by rewrite Hm, Hs, Hn, Hk.
Qed.

Lemma parts_mono h0 h p c m s n k : h0 ⊆ h → parts h0 p c m s n k → parts h p c m s n k.
Proof. intros He (? & ? & ? & ? & ?). split_and!; by eapply lookup_weaken. Qed.

(** None of the configuration's objects is one of [h0]. *)
Definition private (h0 h : heap) (p : loc) : Prop :=
  let c := config_at h p in
  h0 !! p = None ∧ h0 !! MaskKeys c = None ∧ h0 !! RemoveKeys c = None ∧
    h0 !! LevelNames_ c = None ∧ h0 !! ContextKeys c = None.

Lemma valid_extends h0 h p : h0 ⊆ h → valid h0 p → valid h p ∧ view h p = view h0 p.
Proof.
  intros He (c & m & s & n & k & Hp). pose proof (parts_mono _ _ _ _ _ _ _ _ He Hp) as Hp'.
  split; [by exists c, m, s, n, k|].
  by destruct (parts_view _ _ _ _ _ _ _ Hp) as (_ & _ & _ & _ & _ & ->),
    (parts_view _ _ _ _ _ _ _ Hp') as (_ & _ & _ & _ & _ & ->).
Qed.

Lemma alloc_spec o h h' l :
  alloc o h = (h', l) → h !! l = None ∧ h' !! l = Some o ∧ h ⊆ h'.
Proof.
  unfold alloc. intros [= <- <-].
  assert (h !! fresh (dom h) = None) as Hf by (apply not_elem_of_dom, is_fresh).
  split; [done|]. split; [apply lookup_insert_eq|by apply insert_subseteq].
Qed.

Lemma new_config_spec s h h' p :
  new_config s h = (h', p) → h ⊆ h' ∧ valid h' p ∧ private h h' p ∧ view h' p = s.
Proof.
  unfold new_config.
  destruct (alloc (OMask _) h) as [h1 l1] eqn:E1, (alloc (ORemove _) _) as [h2 l2] eqn:E2,
    (alloc (ONames _) _) as [h3 l3] eqn:E3, (alloc (OKeys _) _) as [h4 l4] eqn:E4.
  apply alloc_spec in E1 as (F1 & L1 & S1), E2 as (F2 & L2 & S2), E3 as (F3 & L3 & S3),
    E4 as (F4 & L4 & S4). intros (F5 & L5 & S5)%alloc_spec.
  assert (h3 ⊆ h' ∧ h2 ⊆ h' ∧ h1 ⊆ h' ∧ h ⊆ h2 ∧ h ⊆ h3 ∧ h ⊆ h4 ∧ h ⊆ h')
    as (T3 & T2 & T1 & U2 & U3 & U4 & U).
  { split_and!; repeat first [assumption|etrans; [eassumption|]]. }
  assert (∀ k l o, k ⊆ h' → k !! l = Some o → h' !! l = Some o) as up.
  { intros k l o Hk Hl. by eapply lookup_weaken. }
  assert (∀ k l, h ⊆ k → k !! l = None → h !! l = None) as down.
  { intros k l Hk Hl. by eapply lookup_weaken_None. }
  assert (parts h' p (MkConfig (s_Level s) (s_Format s) (s_Output s) l1 l2 l3 (s_Masker s) l4)
    (s_Mask s) (s_Remove s) (s_Names s) (s_Keys s)) as Hp by (split_and!; eauto).
  destruct (parts_view _ _ _ _ _ _ _ Hp) as (Hc & _ & _ & _ & _ & ->).
  split; [done|]. split; [by do 5 eexists|]. split; [|by destruct s].
  unfold private. rewrite Hc. split_and!; eauto.
Qed.

Lemma Clone_spec h p h' p' :
  Clone h p = (h', p') → h ⊆ h' ∧ valid h' p' ∧ private h h' p' ∧ view h' p' = view h p.
Proof. apply new_config_spec. Qed.

(** An assignment through a private pointer changes nothing else. *)
Lemma assign_spec e h0 h p :
  h0 ⊆ h → valid h p → private h0 h p →
  h0 ⊆ assign e h p ∧ valid (assign e h p) p ∧ private h0 (assign e h p) p ∧
    view (assign e h p) p = edited e (view h p).
Proof.
  intros Hsub (c & m & s & n & k & Hp). unfold private at 1.
  destruct (parts_view _ _ _ _ _ _ _ Hp) as (Hc & Am & As & An & Ak & ->).
  rewrite Hc. intros (Gp & Gm & Gs & Gn & Gk).
  assert (∀ l o, h0 !! l = None → h0 ⊆ <[l := o]> h) as Hins by (intros; by apply insert_subseteq_r).
  set (v := MkSettings _ _ _ _ _ _ _ _).
  assert (∀ c' m' s' n' k', parts (assign e h p) p c' m' s' n' k' → h0 ⊆ assign e h p →
    MaskKeys c' = MaskKeys c ∧ RemoveKeys c' = RemoveKeys c ∧ LevelNames_ c' = LevelNames_ c ∧
      ContextKeys c' = ContextKeys c →
    edited e v = MkSettings (Level c') (Format_ c') (Output c') m' s' n' (Masker_ c') k' →
    h0 ⊆ assign e h p ∧ valid (assign e h p) p ∧ private h0 (assign e h p) p ∧
      view (assign e h p) p = edited e v) as Hgoal.
  { intros c' m' s' n' k' Hp' Hs' (E1 & E2 & E3 & E4) ->.
    destruct (parts_view _ _ _ _ _ _ _ Hp') as (Hc' & _ & _ & _ & _ & Hv).
    split; [done|]. split; [by do 5 eexists|]. split; [|done]. unfold private. by rewrite Hc', E1, E2, E3, E4. }
  revert Hgoal. unfold assign. rewrite Hc, Am, As, An, Ak. destruct Hp as (Hp & Hm & Hs & Hn & Hk).
  assert (MaskKeys c ≠ p ∧ RemoveKeys c ≠ p ∧ LevelNames_ c ≠ p ∧ ContextKeys c ≠ p ∧
    MaskKeys c ≠ RemoveKeys c ∧ MaskKeys c ≠ LevelNames_ c ∧ MaskKeys c ≠ ContextKeys c ∧
    RemoveKeys c ≠ LevelNames_ c ∧ RemoveKeys c ≠ ContextKeys c ∧ LevelNames_ c ≠ ContextKeys c)
    as (? & ? & ? & ? & ? & ? & ? & ? & ? & ?) by (split_and!; intros Heq; congruence).
  destruct e; intros Hgoal;
    (eapply Hgoal;
     [split_and!; first [rewrite lookup_insert_eq; reflexivity
                        |rewrite lookup_insert_ne by (cbn; congruence); eassumption]
     |by apply Hins|done|reflexivity]).
Qed.

Lemma assign_all_spec es h0 h p :
  h0 ⊆ h → valid h p → private h0 h p →
  h0 ⊆ assign_all es h p ∧ valid (assign_all es h p) p ∧
    view (assign_all es h p) p = edited_all es (view h p).
Proof.
  revert h. induction es as [|e es IH]; intros h Hs Hv Hp; [done|].
  destruct (assign_spec e h0 h p Hs Hv Hp) as (Hs' & Hv' & Hp' & Heq).
  destruct (IH _ Hs' Hv' Hp') as (? & ? & Hall). unfold edited_all. cbn. by rewrite <-Heq.
Qed.

(** ** Uninterrupted use *)

Inductive op : Type :=
  | OLog (values : gmap string Value) (r : LogRecord)
  | OUpdate (es : list edit).

(** The calls made on a logger, one after the other, and what each writes. *)
Fixpoint session (h : DynamicHandler) (ops : list op) (s : logger) : list (result (option line)) :=
  match ops with
  | [] => []
  | OLog values r :: ops => let '(s', o) := run (Log h values r) s in o :: session h ops s'
  | OUpdate es :: ops => session h ops (run (UpdateConfig es) s).1
  end.

(** What they should write. *)
Definition logged (cfg : Settings) (h : DynamicHandler) (values : gmap string Value) (r : LogRecord)
    : result (option line) :=
  if Enabled cfg (r_Level r) then
    match line_of cfg h values r with Some l => Ok (Some l) | None => Err (OtherError "panic") end
  else Ok None.

Fixpoint expected (h : DynamicHandler) (ops : list op) (cfg : Settings) : list (result (option line)) :=
  match ops with
  | [] => []
  | OLog values r :: ops => logged cfg h values r :: expected h ops cfg
  | OUpdate es :: ops => expected h ops (edited_all es cfg)
  end.

(** The cached chain is the chain of the cached version. *)
Definition cache_ok (h : DynamicHandler) (s : logger) : Prop :=
  valid (lg_heap s) (lg_cfg s) ∧
  ∀ p, lg_version s = Some p → valid (lg_heap s) p ∧
    ∃ sh, lg_handler s = Some sh ∧ build h (view (lg_heap s) p) = Some sh.

Lemma chain_current h s :
  cache_ok h s →
  ∃ s', run (getOrBuildCachedHandler h (lg_cfg s)) s =
      (s', match build h (view (lg_heap s) (lg_cfg s)) with
           | Some sh => Ok sh | None => Err (OtherError "panic") end) ∧
    cache_ok h s' ∧ lg_heap s' = lg_heap s ∧ lg_cfg s' = lg_cfg s.
Proof.
  intros [Hv Hc]. destruct s as [hp p ver hd]. cbn in *. case_bool_decide as Heq.
  - destruct (Hc p Heq) as (_ & sh & -> & Hb). cbn. rewrite Hb. by eexists.
  - unfold of_option. cbn. destruct (build h (view hp p)) as [sh|] eqn:Hb; cbn;
      (eexists; split; [reflexivity|]; split; [|by split]); (split; [done|]); cbn.
    + intros p' [= <-]. eauto.
    + apply Hc.
Qed.

Lemma Handle_current h values r s :
  cache_ok h s →
  ∃ s', run (Handle h values r) s =
      (s', match line_of (view (lg_heap s) (lg_cfg s)) h values r with
           | Some l => Ok l | None => Err (OtherError "panic") end) ∧
    cache_ok h s' ∧ lg_heap s' = lg_heap s ∧ lg_cfg s' = lg_cfg s.
Proof.
  intros Hs. destruct (chain_current h s Hs) as (s' & Hrun & Hs' & Hh & Hp).
  exists s'. split; [|done]. set (cfg := view (lg_heap s) (lg_cfg s)) in *.
  transitivity (run (base ← getOrBuildCachedHandler h (lg_cfg s);
                     call (of_option (emit cfg values base r))) s); [done|].
  unfold mbind, prog_bind. rewrite run_then, Hrun. unfold line_of. destruct (build h cfg) as [sh|]; [|done].
  cbn. unfold of_option. by destruct (emit _ _ _ _).
Qed.

Lemma Log_current h values r s :
  cache_ok h s →
  ∃ s', run (Log h values r) s = (s', logged (view (lg_heap s) (lg_cfg s)) h values r) ∧
    cache_ok h s' ∧ lg_heap s' = lg_heap s ∧ lg_cfg s' = lg_cfg s.
Proof.
  intros Hs. unfold logged.
  change (run (Log h values r) s) with
    (run (if Enabled (view (lg_heap s) (lg_cfg s)) (r_Level r)
          then (l ← Handle h values r; mret (Some l)) else mret None) s).
  destruct (Enabled _ _); [|by eexists].
  destruct (Handle_current h values r s Hs) as (s' & Hrun & Hs'). exists s'. split; [|done].
  unfold mbind, prog_bind. rewrite run_then, Hrun. by destruct (line_of _ _ _ _).
Qed.

Lemma UpdateConfig_current h es s :
  cache_ok h s →
  let s' := (run (UpdateConfig es) s).1 in
  cache_ok h s' ∧ view (lg_heap s') (lg_cfg s') = edited_all es (view (lg_heap s) (lg_cfg s)) ∧
  lg_heap s ⊆ lg_heap s'.
Proof.
  intros [Hv Hc].
  destruct (Clone (lg_heap s) (lg_cfg s)) as [h1 p1] eqn:E.
  assert ((run (UpdateConfig es) s).1 =
    MkLogger (assign_all es h1 p1) p1 (lg_version s) (lg_handler s)) as ->.
  { cbn -[Clone assign_all]. unfold clone_edited. by rewrite E. }
  apply Clone_spec in E as (Hs1 & Hv1 & Hp1 & Heq).
  destruct (assign_all_spec es _ _ _ Hs1 Hv1 Hp1) as (Hs2 & Hv2 & Heq2).
  cbn [lg_heap lg_cfg lg_version lg_handler].
  split; [|split; [by rewrite Heq2, Heq|done]].
  split; [done|]. intros p Hp. destruct (Hc p Hp) as (Hvp & sh & Hsh & Hb).
  destruct (valid_extends _ _ _ Hs2 Hvp) as [? Hview]. cbn. rewrite Hview. eauto.
Qed.

Lemma New_ok h opts hp :
  cache_ok h (New opts hp) ∧
  view (lg_heap (New opts hp)) (lg_cfg (New opts hp)) = edited_all (concat opts) default_settings.
Proof.
  unfold New, defaultOptions. destruct (new_config _ hp) as [h1 p] eqn:E.
  apply new_config_spec in E as (Hs & Hv & Hp & Heq).
  destruct (assign_all_spec (concat opts) _ _ _ Hs Hv Hp) as (_ & Hv' & Heq').
  split; [by split|]. cbn [lg_heap lg_cfg]. by rewrite Heq', Heq.
Qed.

Lemma session_expected h ops s :
  cache_ok h s → session h ops s = expected h ops (view (lg_heap s) (lg_cfg s)).
Proof.
  revert s. induction ops as [|[values r|es] ops IH]; intros s Hs; [done| |]; cbn [session expected].
  - destruct (Log_current h values r s Hs) as (s' & -> & Hs' & Hh & Hp). by rewrite IH, Hh, Hp.
  - destruct (UpdateConfig_current h es s Hs) as (Hs' & Hv & _). by rewrite IH, Hv.
Qed.

(** the cached chain is invisible to a caller alone. Whatever the options
    a logger was made with, records logged and configurations updated one
    after the other write exactly what the configuration in force says, built
    afresh each time: records below its level nothing, and a record whose
    masking panics the panic. *)
Theorem session_current h opts hp ops :
  session h ops (New opts hp) = expected h ops (edited_all (concat opts) default_settings).
Proof. destruct (New_ok h opts hp) as [Hs <-]. by apply session_expected. Qed.

(** The configuration a goroutine has read does not change under it. *)
Lemma UpdateConfig_isolated h es s p :
  cache_ok h s → valid (lg_heap s) p →
  view (lg_heap (run (UpdateConfig es) s).1) p = view (lg_heap s) p.
Proof. intros Hs Hp. destruct (UpdateConfig_current h es s Hs) as (_ & _ & He). by eapply valid_extends. Qed.

(** ** Goroutines *)

(** Goroutines by name; one that logs ends with the line it wrote. *)
Abbreviation goroutine := (string * prog logger (option line))%type.

Definition logging (name : string) (p : prog logger line) : goroutine := (name, answering Some p).
Definition updating (name : string) (p : prog logger unit) : goroutine := (name, answering (λ _, None) p).

(** A logger shared by [threads], made with no options, and the calls they
    make in the order of [schedule]. *)
Definition shared (threads : list goroutine) (schedule : list nat) : logger * list goroutine :=
  play schedule (New [] ∅, threads).

Definition plain : DynamicHandler := MkDynamicHandler [] [].
Definition hello : LogRecord := MkRecord "now" LevelInfo "hello" [].
Definition hide_password : list edit := [PutRemove "password"].

(** Two goroutines log while a third removes a key: the first has built its
    chain for the old configuration when the second stores the chain of the
    new one; then the old chain is stored over it, and then the versions, the
    new one last. *)
Definition logs_and_update : list goroutine :=
  [logging "first" (Handle plain ∅ hello); updating "admin" (UpdateConfig hide_password);
   logging "second" (Handle plain ∅ hello)].

Definition crossed_stores : logger * list goroutine :=
  shared logs_and_update
    [0; 0; 0; 0; 0; 1; 1; 1; 2; 2; 2; 2; 2; 2; 0; 0; 0; 2; 2]%nat.

(** With a chain cached for the configuration in force, every record goes to
    that chain, and nothing changes. *)
Lemma Log_cached h values r s sh :
  lg_version s = Some (lg_cfg s) → lg_handler s = Some sh →
  Enabled (view (lg_heap s) (lg_cfg s)) (r_Level r) = true →
  run (Log h values r) s =
    (s, match emit (view (lg_heap s) (lg_cfg s)) values sh r with
        | Some l => Ok (Some l) | None => Err (OtherError "panic") end).
Proof.
  intros Hv Hh He. destruct s as [hp p ver hd]. cbn [lg_heap lg_cfg lg_version lg_handler] in *. subst.
  cbn -[view emit]. rewrite He. cbn -[view emit]. rewrite bool_decide_true by done.
  cbn -[view emit]. unfold of_option. by destruct (emit _ _ _ _).
Qed.

(** The default configuration shows every attribute of a record. *)
Lemma default_keeps k (v : Scalar) :
  ∃ a', getReplaceAttr default_settings (MkAttr k v) = Some a' ∧ (k ≠ "level" → a' = MkAttr k v).
Proof.
  unfold getReplaceAttr. rewrite bool_decide_false by (cbn; set_solver).
  cbn [s_Mask default_settings]. rewrite lookup_empty. cbn [Key Val].
  case_bool_decide as Hk; [destruct v|]; eexists; (split; [reflexivity|done]).
Qed.

Lemma default_replaced gs l : ∃ l', replaced (getReplaceAttr default_settings) (inside gs l) = Some l'.
Proof.
  apply replaced_total. intros gs' a Hin. destruct (inside_plain _ _ _ _ Hin) as [v Hv].
  destruct a as [k v0]. cbn in Hv. subst. destruct (default_keeps k v) as (a' & -> & _). by eexists.
Qed.

Definition default_chain : SlogHandler :=
  MkSlogHandler FormatText Stdout (getReplaceAttr default_settings) [] [].

Lemma default_emits cfg values r k (v : Scalar) :
  s_Keys cfg = [] → MkAttr k v ∈ r_Attrs r → k ≠ "level" → k ≠ "" →
  ∃ l, emit cfg values default_chain r = Some l ∧ ([], MkAttr k v) ∈ l_Attrs l.
Proof.
  intros Hk Hin Hl Hne. unfold emit, ctx_attrs. rewrite Hk. cbn [omap list_omap].
  rewrite bool_decide_true by done. cbn [mbind option_bind]. unfold slog_Handle, default_chain.
  cbn [sh_Replace sh_Groups sh_Attrs sh_Format sh_Output].
  destruct (default_replaced [] (builtin r)) as [l1 ->], (default_replaced [] (r_Attrs r)) as [l2 H2].
  cbn [mbind option_bind]. rewrite H2. cbn [mbind option_bind].
  eexists. split; [done|]. cbn [l_Attrs]. apply elem_of_app. right.
  eapply replaced_elem; [done|]. exists (MkAttr k v). split; [by apply inside_scalar|].
  destruct (default_keeps k v) as (a' & -> & Ha). rewrite Ha by done. split; [done|].
  unfold isEmpty. cbn. destruct v; [done|done| |done]. by rewrite bool_decide_false.
Qed.

Lemma crossed_view :
  view (lg_heap crossed_stores.1) (lg_cfg crossed_stores.1) = edited_all hide_password default_settings.
Proof. vm_compute. reflexivity. Qed.

(** C26: the chain can outlive its configuration. Three goroutines share a
    logger: two log a record each and one removes the key "password"; all
    three succeed, the key is removed in the configuration in force, and yet
    the chain kept for that configuration is the old one: every later record
    is written with its password (any value but a group), and this lasts until
    the configuration is updated again. *)
Theorem stale_chain :
  rtc calls (New [] ∅, logs_and_update) crossed_stores ∧
  forallb succeeded crossed_stores.2 = true ∧
  "password" ∈ s_Remove (view (lg_heap crossed_stores.1) (lg_cfg crossed_stores.1)) ∧
  (∀ (v : Scalar) values r, LevelTrace ≤ r_Level r → MkAttr "password" v ∈ r_Attrs r →
     ∃ l, run (Log plain values r) crossed_stores.1 = (crossed_stores.1, Ok (Some l)) ∧
       ([], MkAttr "password" v) ∈ l_Attrs l).
Proof.
  split; [apply play_calls|]. split; [vm_compute; reflexivity|]. rewrite crossed_view.
  split; [cbn; set_solver|]. intros v values r Hlvl Hin.
  rewrite (Log_cached plain values r crossed_stores.1 default_chain);
    [|vm_compute; reflexivity|vm_compute; reflexivity|rewrite crossed_view; unfold Enabled; cbn; lia].
  rewrite crossed_view.
  destruct (default_emits (edited_all hide_password default_settings) values r "password" v)
    as (l & -> & Hl); [done..|]. eauto.
Qed.

(** Two updates at once: both succeed, and the first is not in the result. *)
Definition two_updates : list goroutine :=
  [updating "first" (UpdateConfig hide_password); updating "second" (SetLevel LevelError)].
Definition crossed_configs : logger * list goroutine := shared two_updates [0; 0; 1; 1; 0; 1]%nat.

(** [UpdateConfig] is not atomic: when two goroutines update the
    configuration at once both succeed and one update is lost. *)
Theorem lost_config :
  rtc calls (New [] ∅, two_updates) crossed_configs ∧
  forallb succeeded crossed_configs.2 = true ∧
  view (lg_heap crossed_configs.1) (lg_cfg crossed_configs.1) =
    edited_all [SetLevelTo LevelError] default_settings.
Proof. split; [apply play_calls|]. split; vm_compute; reflexivity. Qed.

(** Attributes and groups commute: an attribute added to a group's logger is
    written outside the group. *)
Lemma groups_commute h name attrs :
  WithAttrs (WithGroup h name) attrs = WithGroup (WithAttrs h attrs) name.
Proof. done. Qed.

(** ** pkg/logger *)

Module Logger.

Definition options (env : string) : list Option :=
  let '(format, level) :=
    if bool_decide (env = "prod") then (FormatJSON, LevelInfo) else (FormatText, LevelDebug) in
  [WithOutput None; WithFormat format; WithLevel level;
   WithRemoval (RemovalSet_Add (RemovalSet_Add (RemovalSet_Add (NewRemovalSet []) ["password"]) ["token"])
     ["secret"]);
   WithContextKeys ["request_id"; "trace_id"]].

Definition New (env : string) (h : heap) : logger := New (options env) h.
Definition Nop (h : heap) : logger := NewNop h.

End Logger.

(** Without masks nothing panics. *)
Lemma unmasked_line cfg h values r : s_Mask cfg = ∅ → is_Some (line_of cfg h values r).
Proof.
  intros Hm. destruct (line_of cfg h values r) eqn:Hl; [by eexists|].
  destruct (no_line _ _ _ _ Hl) as (gs & k & v & t & _ & _ & Ht & _). by rewrite Hm, lookup_empty in Ht.
Qed.

Definition env_level (env : string) : Z := if bool_decide (env = "prod") then LevelInfo else LevelDebug.
Definition env_format (env : string) : Format :=
  if bool_decide (env = "prod") then FormatJSON else FormatText.
Definition hidden : list string := ["password"; "token"; "secret"].
Definition env_keys : list string := ["request_id"; "trace_id"].

Lemma env_settings env :
  edited_all (concat (Logger.options env)) default_settings =
    MkSettings (env_level env) (env_format env) Stdout ∅ {[ "secret"; "token"; "password" ]}
      defaultLevelNames DefaultMasker_Mask env_keys.
Proof.
  unfold Logger.options, env_level, env_format. case_bool_decide; cbn; f_equal; set_solver.
Qed.

(** the service's logger. Used on its own it writes nothing below INFO in
    "prod" and below DEBUG elsewhere, and every other record gives a line: in
    JSON in "prod" and as text elsewhere, with every attribute of the record,
    of the logger and of the request's identifiers in the context, but none
    called "password", "token" or "secret". *)
Theorem service_logger env hp h rs :
  let cfg := edited_all (concat (Logger.options env)) default_settings in
  Forall2 (λ (vr : gmap string Value * LogRecord) o,
    if r_Level vr.2 <? env_level env then o = Ok None
    else ∃ l, o = Ok (Some l) ∧ l_Output l = Stdout ∧ l_Format l = env_format env ∧
      (∀ gs a, (gs, a) ∈ l_Attrs l → Key a ∈ hidden → False) ∧
      (∀ gs k (v : Scalar), (gs, MkAttr k v) ∈ sources cfg h vr.1 vr.2 → k ≠ "" →
         k ∈ hidden ∨ ∃ v' : Scalar, (gs, MkAttr k v') ∈ l_Attrs l))
    rs (session h ((λ vr, OLog vr.1 vr.2) <$> rs) (Logger.New env hp)).
Proof.
  intros cfg. unfold Logger.New. destruct (New_ok h (Logger.options env) hp) as [Hs Hv].
  rewrite session_expected by done. rewrite Hv. clear Hs Hv. fold cfg.
  assert (cfg = MkSettings (env_level env) (env_format env) Stdout ∅ {[ "secret"; "token"; "password" ]}
    defaultLevelNames DefaultMasker_Mask env_keys) as Hcfg by apply env_settings.
  clearbody cfg.
  induction rs as [|[values r] rs IH]; [constructor|]. cbn [fmap list_fmap expected fst snd].
  constructor; [|exact IH]. unfold logged, Enabled. cbn [fst snd].
  replace (s_Level cfg) with (env_level env) by by rewrite Hcfg.
  destruct (Z.ltb_spec (r_Level r) (env_level env)), (Z.leb_spec (env_level env) (r_Level r)); try lia; [done|].
  destruct (unmasked_line cfg h values r) as [l Hl]; [by rewrite Hcfg|]. rewrite Hl. exists l. split; [done|].
  destruct (line_target _ _ _ _ _ Hl) as [Hf Ho]. split; [by rewrite Ho, Hcfg|]. split; [by rewrite Hf, Hcfg|].
  split.
  - intros gs [k v0] Ha Hk. destruct (lines_plain _ _ _ _ _ _ _ Hl Ha) as [v Hv]. cbn in Hv, Hk. subst v0.
    apply (redacted _ _ _ _ _ _ _ _ Hl) in Ha as (Hno & _). apply Hno. rewrite Hcfg. cbn.
    unfold hidden in Hk. set_solver.
  - intros gs k v Hin Hne. destruct (decide (k ∈ hidden)) as [|Hk]; [by left|right].
    assert (k ∉ s_Remove cfg) as Hr by (rewrite Hcfg; cbn; unfold hidden in Hk; set_solver).
    destruct (shown_somehow _ _ _ _ _ _ _ _ Hl Hin Hr) as [v' Hv'].
    exists v'. apply (redacted _ _ _ _ _ _ _ _ Hl). split; [done|]. split; [|by eauto].
    unfold isEmpty. cbn. destruct v'; [done|done| |done]. by rewrite bool_decide_false.
Qed.
