(* ===== verification/SlogxLogger.v ===== *)
(** * SlogxLogger: pkg/slogx/logger.go and context.go, the loggers of a process

    A logger is a pair of pointers: to a dynamic handler, which has its own
    cached chain, and to the configuration it shares with every logger derived
    from it. The process has the objects these point to and the default logger
    of log/slog; a context carries a logger and values. The abstract process
    has families of loggers that share a configuration, and no caches. *)
From S2P Require Import Prelude Go System Interleave Slogx SlogxHandler.
Import slogx.

(** ** log/slog: arguments of [With] and [Log] *)

Inductive arg : Type :=
  | ArgAttr (a : Attr)
  | ArgString (s : string)
  | ArgOther (v : Value).

(** [AnyValue] of an argument; an attribute there has only its text. *)
Definition arg_value (x : arg) : Value :=
  match x with
  | ArgAttr a => AnyValue (Key a +:+ "=" +:+ Sprintf_v (Val a))
  | ArgString s => StringValue s
  | ArgOther v => v
  end.

Fixpoint argsToAttrSlice (args : list arg) : list Attr :=
  match args with
  | [] => []
  | ArgAttr a :: args => a :: argsToAttrSlice args
  | [ArgString s] => [MkAttr "!BADKEY" (StringValue s)]
  | ArgString s :: x :: args => MkAttr s (arg_value x) :: argsToAttrSlice args
  | ArgOther v :: args => MkAttr "!BADKEY" v :: argsToAttrSlice args
  end.

(** ** The process *)

(** A DynamicHandler object: the configuration pointer it shares, what it
    carries, its two caches. *)
Record handler_object : Type := MkHandlerObject {
  ho_cfg : nat;
  ho_dyn : DynamicHandler;
  ho_version : option loc;
  ho_chain : option SlogHandler
}.

(** A slog.Logger is known by its handler: a dynamic one, or one of another
    package. *)
Inductive slogger : Type := Dynamic (i : nat) | Foreign.

Record Logger : Type := MkLog { lo_slog : slogger; lo_cfgPtr : option nat }.

Record process : Type := MkProcess {
  p_heap : heap;
  p_cfgs : list loc;
  p_handlers : list handler_object;
  p_default : slogger
}.

(** What becomes of a record: written, below the level, left to another
    package's handler, or a panic; [Exited] is the end of the process. *)
Inductive outcome : Type :=
  | Wrote (l : line)
  | Quiet
  | Elsewhere
  | Panicked
  | Exited (code : Z) (o : outcome).

Definition outcome_of (o : result (option line)) : outcome :=
  match o with Ok (Some l) => Wrote l | Ok None => Quiet | Err _ => Panicked end.

(** ** logger.go *)

(** [New] *)
Definition New_logger (opts : list Option) (p : process) : process * Logger :=
  let s := New opts (p_heap p) in
  (MkProcess (lg_heap s) (p_cfgs p ++ [lg_cfg s])
     (p_handlers p ++ [MkHandlerObject (length (p_cfgs p)) (MkDynamicHandler [] []) None None]) (p_default p),
   MkLog (Dynamic (length (p_handlers p))) (Some (length (p_cfgs p)))).

Definition SetupDefault (opts : list Option) (p : process) : process :=
  let '(p, l) := New_logger opts p in
  MkProcess (p_heap p) (p_cfgs p) (p_handlers p) (lo_slog l).

(** A logger over a new handler that shares the configuration pointer of an old
    one and starts with empty caches. *)
Definition derived (f : DynamicHandler → DynamicHandler) (sl : slogger) (p : process) : process * slogger :=
  match sl with
  | Foreign => (p, Foreign)
  | Dynamic i =>
      match p_handlers p !! i with
      | None => (p, sl)
      | Some o =>
          (MkProcess (p_heap p) (p_cfgs p)
             (p_handlers p ++ [MkHandlerObject (ho_cfg o) (f (ho_dyn o)) None None]) (p_default p),
           Dynamic (length (p_handlers p)))
      end
  end.

(** [slog.Logger.With] and [WithGroup], which do nothing for no attribute and
    for no name. *)
Definition slog_With (args : list arg) (sl : slogger) (p : process) : process * slogger :=
  match args with
  | [] => (p, sl)
  | _ => derived (λ h, WithAttrs h (argsToAttrSlice args)) sl p
  end.
Definition slog_Logger_WithGroup (name : string) (sl : slogger) (p : process) : process * slogger :=
  if bool_decide (name = "") then (p, sl) else derived (λ h, WithGroup h name) sl p.

Definition With (l : Logger) (args : list arg) (p : process) : process * Logger :=
  let '(p, sl) := slog_With args (lo_slog l) p in (p, MkLog sl (lo_cfgPtr l)).
Definition Logger_WithGroup (l : Logger) (name : string) (p : process) : process * Logger :=
  let '(p, sl) := slog_Logger_WithGroup name (lo_slog l) p in (p, MkLog sl (lo_cfgPtr l)).

(** The state a handler's methods, or an update, work on. *)
Definition state_of (p : process) (cfg : loc) (version : option loc) (chain : option SlogHandler) : logger :=
  MkLogger (p_heap p) cfg version chain.

(** [UpdateConfig] goes through the configuration pointer of the logger itself;
    a nil pointer panics. *)
Definition Update_logger (l : Logger) (es : list edit) (p : process) : process * outcome :=
  match lo_cfgPtr l with
  | None => (p, Panicked)
  | Some c =>
      match p_cfgs p !! c with
      | None => (p, Panicked)
      | Some cfg =>
          let s := (run (UpdateConfig es) (state_of p cfg None None)).1 in
          (MkProcess (lg_heap s) (<[c := lg_cfg s]> (p_cfgs p)) (p_handlers p) (p_default p), Quiet)
      end
  end.
Definition SetLevel_logger (l : Logger) (lvl : Z) (p : process) : process * outcome :=
  Update_logger l [SetLevelTo lvl] p.

(** [Log] of the slog.Logger inside. *)
Definition Log_logger (l : Logger) (values : gmap string Value) (r : LogRecord) (p : process)
    : process * outcome :=
  match lo_slog l with
  | Foreign => (p, Elsewhere)
  | Dynamic i =>
      match p_handlers p !! i with
      | None => (p, Panicked)
      | Some o =>
          match p_cfgs p !! ho_cfg o with
          | None => (p, Panicked)
          | Some cfg =>
              let '(s, res) := run (Log (ho_dyn o) values r) (state_of p cfg (ho_version o) (ho_chain o)) in
              (MkProcess (lg_heap s) (p_cfgs p)
                 (<[i := MkHandlerObject (ho_cfg o) (ho_dyn o) (lg_version s) (lg_handler s)]> (p_handlers p))
                 (p_default p), outcome_of res)
          end
      end
  end.

Definition record_of (now : string) (level : Z) (msg : string) (args : list arg) : LogRecord :=
  MkRecord now level msg (argsToAttrSlice args).

Definition TraceContext (l : Logger) (values : gmap string Value) (now msg : string) (args : list arg)
    (p : process) : process * outcome :=
  Log_logger l values (record_of now LevelTrace msg args) p.

(** A panic comes before the exit. *)
Definition FatalContext (l : Logger) (values : gmap string Value) (now msg : string) (args : list arg)
    (p : process) : process * outcome :=
  let '(p, o) := Log_logger l values (record_of now LevelFatal msg args) p in
  (p, match o with Panicked => Panicked | o => Exited 1 o end).

(** ** context.go *)

Record context : Type := MkContext { cx_logger : option Logger; cx_values : gmap string Value }.

Definition ToContext (c : context) (l : Logger) : context := MkContext (Some l) (cx_values c).
Definition FromContext (c : context) (p : process) : Logger :=
  match cx_logger c with Some l => l | None => MkLog (p_default p) None end.

(** ** A process that makes and uses loggers *)

Inductive act : Type :=
  | ANew (opts : list Option)
  | ASetupDefault (opts : list Option)
  | AWith (i : nat) (args : list arg)
  | AWithGroup (i : nat) (name : string)
  | AFromContext (given : option nat)
  | AUpdate (i : nat) (es : list edit)
  | ALog (i : nat) (values : gmap string Value) (r : LogRecord)
  | ATrace (i : nat) (values : gmap string Value) (now msg : string) (args : list arg)
  | AFatal (i : nat) (values : gmap string Value) (now msg : string) (args : list arg).

(** Loggers are known by the order they were made in; [AFromContext] asks a
    context that was given the [i]th, or none. An act on no logger is nothing. *)
Definition act_step (a : act) (s : process * list Logger) : (process * list Logger) * option outcome :=
  let '(p, ls) := s in
  let made (x : process * Logger) := ((x.1, ls ++ [x.2]), None) in
  let did (x : process * outcome) := ((x.1, ls), Some x.2) in
  let on i (f : Logger → (process * list Logger) * option outcome) :=
    match ls !! i with Some l => f l | None => (s, None) end in
  match a with
  | ANew opts => made (New_logger opts p)
  | ASetupDefault opts => ((SetupDefault opts p, ls), None)
  | AWith i args => on i (λ l, made (With l args p))
  | AWithGroup i name => on i (λ l, made (Logger_WithGroup l name p))
  | AFromContext given =>
      let c := MkContext None ∅ in
      match given with
      | Some i => on i (λ l, made (p, FromContext (ToContext c l) p))
      | None => made (p, FromContext c p)
      end
  | AUpdate i es => on i (λ l, did (Update_logger l es p))
  | ALog i values r => on i (λ l, did (Log_logger l values r p))
  | ATrace i values now msg args => on i (λ l, did (TraceContext l values now msg args p))
  | AFatal i values now msg args => on i (λ l, did (FatalContext l values now msg args p))
  end.

(** Acts one after the other until the process ends, with what came of them. *)
Definition is_exit (o : option outcome) : bool := match o with Some (Exited _ _) => true | _ => false end.

Section runs.
Context {S : Type} (step : act → S → S * option outcome).
Fixpoint outcomes (l : list act) (s : S) : list (option outcome) :=
  match l with
  | [] => []
  | a :: l => let '(s, o) := step a s in if is_exit o then [o] else o :: outcomes l s
  end.
End runs.

Definition started : process * list Logger := (MkProcess ∅ [] [] Foreign, []).

(** ** The abstract process

    Settings by family; a logger is what it writes with and the family it can
    reconfigure. *)
Inductive target : Type := InFamily (f : nat) (h : DynamicHandler) | Outside.

Record spec_logger : Type := MkSpecLogger { sl_target : target; sl_family : option nat }.

Record spec : Type := MkSpec { sp_families : list Settings; sp_default : target; sp_loggers : list spec_logger }.

Definition spec_map (f : DynamicHandler → DynamicHandler) (t : target) : target :=
  match t with InFamily i h => InFamily i (f h) | Outside => Outside end.

Definition spec_with (args : list arg) (t : target) : target :=
  match args with [] => t | _ => spec_map (λ h, WithAttrs h (argsToAttrSlice args)) t end.
Definition spec_group (name : string) (t : target) : target :=
  if bool_decide (name = "") then t else spec_map (λ h, WithGroup h name) t.

Definition spec_log (families : list Settings) (t : target) (values : gmap string Value) (r : LogRecord) : outcome :=
  match t with
  | Outside => Elsewhere
  | InFamily f h =>
      match families !! f with Some cfg => outcome_of (logged cfg h values r) | None => Panicked end
  end.

Definition spec_step (a : act) (s : spec) : spec * option outcome :=
  let '(MkSpec fs d ls) := s in
  let made fs l := (MkSpec fs d (ls ++ [l]), None) in
  let on i (f : spec_logger → spec * option outcome) :=
    match ls !! i with Some l => f l | None => (s, None) end in
  match a with
  | ANew opts =>
      made (fs ++ [edited_all (concat opts) default_settings])
        (MkSpecLogger (InFamily (length fs) (MkDynamicHandler [] [])) (Some (length fs)))
  | ASetupDefault opts =>
      (MkSpec (fs ++ [edited_all (concat opts) default_settings])
         (InFamily (length fs) (MkDynamicHandler [] [])) ls, None)
  | AWith i args => on i (λ l, made fs (MkSpecLogger (spec_with args (sl_target l)) (sl_family l)))
  | AWithGroup i name => on i (λ l, made fs (MkSpecLogger (spec_group name (sl_target l)) (sl_family l)))
  | AFromContext (Some i) => on i (λ l, made fs l)
  | AFromContext None => made fs (MkSpecLogger d None)
  | AUpdate i es => on i (λ l,
      match sl_family l with
      | Some f => (MkSpec (alter (edited_all es) f fs) d ls, Some Quiet)
      | None => (s, Some Panicked)
      end)
  | ALog i values r => on i (λ l, (s, Some (spec_log fs (sl_target l) values r)))
  | ATrace i values now msg args => on i (λ l,
      (s, Some (spec_log fs (sl_target l) values (record_of now LevelTrace msg args))))
  | AFatal i values now msg args => on i (λ l,
      (s, Some (match spec_log fs (sl_target l) values (record_of now LevelFatal msg args) with
                | Panicked => Panicked | o => Exited 1 o end)))
  end.

Definition spec_started : spec := MkSpec [] Outside [].

(** ** Simulation *)

Definition object_ok (p : process) (o : handler_object) : Prop :=
  ∃ cfg, p_cfgs p !! ho_cfg o = Some cfg ∧ cache_ok (ho_dyn o) (state_of p cfg (ho_version o) (ho_chain o)).

Definition same_aim (p : process) (sl : slogger) (t : target) : Prop :=
  match sl, t with
  | Foreign, Outside => True
  | Dynamic i, InFamily f h =>
      ∃ o, p_handlers p !! i = Some o ∧ ho_cfg o = f ∧ ho_dyn o = h
  | _, _ => False
  end.

Definition same_logger (p : process) (l : Logger) (sl : spec_logger) : Prop :=
  same_aim p (lo_slog l) (sl_target sl) ∧ lo_cfgPtr l = sl_family sl ∧
  ∀ c, lo_cfgPtr l = Some c → is_Some (p_cfgs p !! c).

Record simulated (s : process * list Logger) (t : spec) : Prop := MkSimulated {
  sim_valid : Forall (valid (p_heap s.1)) (p_cfgs s.1);
  sim_families : sp_families t = view (p_heap s.1) <$> p_cfgs s.1;
  sim_objects : Forall (object_ok s.1) (p_handlers s.1);
  sim_default : same_aim s.1 (p_default s.1) (sp_default t);
  sim_loggers : Forall2 (same_logger s.1) s.2 (sp_loggers t)
}.

(** A later process: objects stay, their configurations and what they carry
    with them; configurations that were valid are as they were. *)
Record grown (p q : process) : Prop := MkGrown {
  gr_heap c : valid (p_heap p) c → valid (p_heap q) c ∧ view (p_heap q) c = view (p_heap p) c;
  gr_cfgs c : is_Some (p_cfgs p !! c) → is_Some (p_cfgs q !! c);
  gr_handlers i o : p_handlers p !! i = Some o →
    ∃ o', p_handlers q !! i = Some o' ∧ ho_cfg o' = ho_cfg o ∧ ho_dyn o' = ho_dyn o
}.

#[export] Instance grown_refl : Reflexive grown.
Proof. intros p. split; eauto. Qed.

Lemma same_aim_grown p q sl t : grown p q → same_aim p sl t → same_aim q sl t.
Proof.
  intros Hg. destruct sl as [i|], t as [f h|]; try done. intros (o & Ho & <- & <-).
  by destruct (gr_handlers _ _ Hg _ _ Ho) as (o' & ? & ? & ?); exists o'.
Qed.

Lemma same_logger_grown p q l sl : grown p q → same_logger p l sl → same_logger q l sl.
Proof.
  intros Hg (Ht & Hc & Hd). split; [by eapply same_aim_grown|]. split; [done|].
  intros c Hl. by apply (gr_cfgs _ _ Hg), Hd.
Qed.

Lemma loggers_grown p q ls sls :
  grown p q → Forall2 (same_logger p) ls sls → Forall2 (same_logger q) ls sls.
Proof. intros Hg. intros H. eapply Forall2_impl; [exact H|]. intros l sl. by apply same_logger_grown. Qed.

Lemma object_grown p q o :
  grown p q → Forall (valid (p_heap q)) (p_cfgs q) → object_ok p o → object_ok q o.
Proof.
  intros Hg Hv (cfg & Hcfg & _ & Hc).
  destruct (gr_cfgs _ _ Hg (ho_cfg o)) as [cfg' Hcfg']; [by eexists|].
  exists cfg'. split; [done|]. split; [by eapply Forall_lookup_1|]. intros c Hver.
  destruct (Hc c Hver) as (Hvc & sh & Hsh & Hb). destruct (gr_heap _ _ Hg c Hvc) as [? Hview].
  split; [done|]. exists sh. split; [done|]. cbn. by rewrite Hview.
Qed.

(** A new object without a cache. *)
Lemma fresh_object p c h cfg :
  p_cfgs p !! c = Some cfg → Forall (valid (p_heap p)) (p_cfgs p) → object_ok p (MkHandlerObject c h None None).
Proof. intros Hc Hv. exists cfg. split; [done|]. split; [by eapply Forall_lookup_1|done]. Qed.

(** Making a logger: a new family. *)
Lemma New_simulated opts p ls t :
  simulated (p, ls) t →
  let '(q, l) := New_logger opts p in
  let fs := sp_families t ++ [edited_all (concat opts) default_settings] in
  grown p q ∧ same_logger q l
    (MkSpecLogger (InFamily (length (sp_families t)) (MkDynamicHandler [] [])) (Some (length (sp_families t)))) ∧
  simulated (q, ls) (MkSpec fs (sp_default t) (sp_loggers t)).
Proof.
  intros [Hv Hf Ho Hd Hl]. cbn [fst snd] in Hv, Hf, Ho, Hd, Hl. unfold New_logger, New, defaultOptions.
  destruct (new_config default_settings (p_heap p)) as [h1 c1] eqn:E.
  apply new_config_spec in E as (Hs & Hv1 & Hp1 & Heq).
  destruct (assign_all_spec (concat opts) _ _ _ Hs Hv1 Hp1) as (Hs2 & Hv2 & Heq2).
  cbv zeta iota beta. cbn [lg_heap lg_cfg]. set (h2 := assign_all _ h1 c1) in *.
  set (q := MkProcess h2 _ _ _).
  assert (grown p q) as Hg.
  { split; cbn.
    - intros c Hc. by eapply valid_extends.
    - intros c [x Hc]. exists x. by apply lookup_app_l_Some.
    - intros i o Hi. exists o. split; [by apply lookup_app_l_Some|done]. }
  assert (Forall (valid h2) (p_cfgs p ++ [c1])) as Hvq.
  { apply Forall_app_2; [|by constructor]. eapply Forall_impl; [exact Hv|]. intros c Hc.
    by eapply valid_extends. }
  assert (length (sp_families t) = length (p_cfgs p)) as Hlen by (by rewrite Hf, length_fmap).
  split; [done|]. split.
  { rewrite Hlen. split; [|split; [done|]].
    - eexists. split; [by apply list_lookup_middle|done].
    - intros c [= <-]. exists c1. by apply list_lookup_middle. }
  split; cbn.
  - done.
  - rewrite fmap_app, Hf. cbn. rewrite Heq2, Heq. f_equal. apply list_fmap_ext. intros i c Hc.
    symmetry. eapply valid_extends; [done|]. by eapply Forall_lookup_1.
  - apply Forall_app_2; [|constructor; [|constructor]].
    + eapply Forall_impl; [exact Ho|]. intros o. by apply object_grown.
    + eapply fresh_object; [by apply list_lookup_middle|done].
  - by eapply same_aim_grown.
  - by eapply loggers_grown.
Qed.

(** Deriving one: a new object of the same family. *)
Lemma derived_simulated f sl x p ls t :
  simulated (p, ls) t → same_aim p sl x →
  let '(q, sl') := derived f sl p in
  grown p q ∧ same_aim q sl' (spec_map f x) ∧ p_cfgs q = p_cfgs p ∧ simulated (q, ls) t.
Proof.
  intros [Hv Hf Ho Hd Hl]. cbn in *. destruct sl as [i|], x as [fam h|]; try done; cbn.
  intros (o & Hi & <- & <-). rewrite Hi.
  set (q := MkProcess _ _ _ _).
  assert (grown p q) as Hg.
  { split; cbn; [done|done|]. intros j o' Hj. exists o'. split; [by apply lookup_app_l_Some|done]. }
  split; [done|]. split; [eexists; split; [by apply list_lookup_middle|done]|]. split; [done|].
  destruct (Forall_lookup_1 _ _ _ _ Ho Hi) as (cfg & Hcfg & _).
  split; cbn; [done|done| |by eapply same_aim_grown|by eapply loggers_grown].
  apply Forall_app_2; [|constructor; [by eapply fresh_object|constructor]].
  eapply Forall_impl; [exact Ho|]. intros o'. by apply object_grown.
Qed.

(** Logging: the line of the settings of the family. *)
Lemma Log_simulated l sl values r p ls t :
  simulated (p, ls) t → same_logger p l sl →
  let '(q, o) := Log_logger l values r p in
  o = spec_log (sp_families t) (sl_target sl) values r ∧ grown p q ∧ simulated (q, ls) t.
Proof.
  intros [Hv Hf Ho Hd Hl] (Ht & _). cbn in *. unfold Log_logger.
  destruct (lo_slog l) as [i|], (sl_target sl) as [fam h|]; try done.
  destruct Ht as (o & Hi & <- & <-). rewrite Hi. cbn [spec_log].
  destruct (Forall_lookup_1 _ _ _ _ Ho Hi) as (cfg & Hcfg & Hok). rewrite Hcfg.
  destruct (Log_current (ho_dyn o) values r _ Hok) as (s' & -> & Hok' & Hh & Hp). cbn in Hh, Hp.
  rewrite Hf, list_lookup_fmap, Hcfg. cbn [fmap option_fmap option_map].
  split; [done|]. set (q := MkProcess _ _ _ _).
  assert (grown p q) as Hg.
  { split; cbn; [by rewrite Hh|done|]. intros j o' Hj. destruct (decide (j = i)) as [->|Hne].
    - rewrite list_lookup_insert_eq by (by eapply lookup_lt_Some). eexists. split; [done|]. cbn. by simplify_eq.
    - rewrite list_lookup_insert_ne by done. eauto. }
  split; [done|]. split; cbn; rewrite ?Hh; [done|done| |by eapply same_aim_grown|by eapply loggers_grown].
  apply Forall_insert.
  - eapply Forall_impl; [exact Ho|]. intros o'. apply object_grown; [done|]. cbn. by rewrite Hh.
  - exists cfg. split; [done|]. unfold state_of. cbn. rewrite <-Hp at 1. by destruct s'.
Qed.

(** Updating: the settings of the family, and of no other. *)
Lemma Update_simulated l sl es p ls t :
  simulated (p, ls) t → same_logger p l sl →
  let '(q, o) := Update_logger l es p in
  match sl_family sl with
  | Some f => o = Quiet ∧
      simulated (q, ls) (MkSpec (alter (edited_all es) f (sp_families t)) (sp_default t) (sp_loggers t))
  | None => o = Panicked ∧ q = p
  end.
Proof.
  intros [Hv Hf Ho Hd Hl] (_ & <- & Hsome). cbn [fst snd] in Hv, Hf, Ho, Hd, Hl. unfold Update_logger.
  destruct (lo_cfgPtr l) as [c|]; [|done]. destruct (Hsome c eq_refl) as [cfg Hcfg]. rewrite Hcfg.
  assert (cache_ok (MkDynamicHandler [] []) (state_of p cfg None None)) as Hok.
  { split; [by eapply Forall_lookup_1|done]. }
  destruct (UpdateConfig_current _ es _ Hok) as ([Hv' _] & Hview & Hkeep).
  set (s := (run (UpdateConfig es) (state_of p cfg None None)).1) in *. clearbody s.
  split; [done|]. set (q := MkProcess _ _ _ _).
  assert (grown p q) as Hg.
  { split; cbn; [|intros d Hx; by apply list_lookup_insert_is_Some|by eauto].
    intros d. by apply valid_extends. }
  assert (Forall (valid (p_heap q)) (p_cfgs q)) as Hvq.
  { apply Forall_insert; [|done]. eapply Forall_impl; [exact Hv|]. intros d. by apply valid_extends. }
  split; cbn; [done| | |by eapply same_aim_grown|by eapply loggers_grown].
  - rewrite list_fmap_insert, Hview, list_insert_alter, Hf. apply list_alter_ext.
    + intros x. rewrite list_lookup_fmap, Hcfg. by intros [= <-].
    + apply list_fmap_ext. intros i d Hi. symmetry. eapply valid_extends; [done|]. by eapply Forall_lookup_1.
  - eapply Forall_impl; [exact Ho|]. intros o. by apply object_grown.
Qed.

(** One act. *)
Lemma simulated_made q ls t l sl :
  simulated (q, ls) t → same_logger q l sl →
  simulated (q, ls ++ [l]) (MkSpec (sp_families t) (sp_default t) (sp_loggers t ++ [sl])).
Proof. intros [Hv Hf Ho Hd Hl] Hs. split; cbn in *; [done..|]. by apply Forall2_app; [|constructor]. Qed.

(** A logger derived from another, by attributes or by a group. *)
Lemma derive_simulated (d : slogger → process → process * slogger) (f : target → target) p ls t l sl :
  (∀ x s, same_aim p s x → simulated (p, ls) t →
     let '(q, s') := d s p in grown p q ∧ same_aim q s' (f x) ∧ p_cfgs q = p_cfgs p ∧ simulated (q, ls) t) →
  simulated (p, ls) t → same_logger p l sl →
  let '(q, s') := d (lo_slog l) p in
  simulated (q, ls ++ [MkLog s' (lo_cfgPtr l)]) (MkSpec (sp_families t) (sp_default t)
    (sp_loggers t ++ [MkSpecLogger (f (sl_target sl)) (sl_family sl)])).
Proof.
  intros Hd Hsim (Ht & Hc & Hs). specialize (Hd _ _ Ht Hsim). destruct (d (lo_slog l) p) as [q s'].
  destruct Hd as (_ & Haim & Hcfgs & Hsim'). apply simulated_made; [done|]. split; [done|]. split; [done|].
  cbn. by rewrite Hcfgs.
Qed.

Lemma slog_With_simulated args p ls t x s :
  same_aim p s x → simulated (p, ls) t →
  let '(q, s') := slog_With args s p in
  grown p q ∧ same_aim q s' (spec_with args x) ∧ p_cfgs q = p_cfgs p ∧ simulated (q, ls) t.
Proof. intros Ha Hs. destruct args as [|a args]; [done|]. by apply derived_simulated. Qed.

Lemma slog_WithGroup_simulated name p ls t x s :
  same_aim p s x → simulated (p, ls) t →
  let '(q, s') := slog_Logger_WithGroup name s p in
  grown p q ∧ same_aim q s' (spec_group name x) ∧ p_cfgs q = p_cfgs p ∧ simulated (q, ls) t.
Proof.
  intros Ha Hs. unfold slog_Logger_WithGroup, spec_group. case_bool_decide; [done|]. by apply derived_simulated.
Qed.

(** Both know the same loggers. *)
Lemma same_loggers p ls t i :
  simulated (p, ls) t →
  match ls !! i, sp_loggers t !! i with
  | Some l, Some sl => same_logger p l sl
  | None, None => True
  | _, _ => False
  end.
Proof.
  intros H. pose proof (proj1 (Forall2_lookup _ _ _) (sim_loggers _ _ H) i) as Hi. cbn in Hi.
  by destruct (ls !! i), (sp_loggers t !! i); inversion Hi.
Qed.

Lemma act_simulated a s t :
  simulated s t → simulated (act_step a s).1 (spec_step a t).1 ∧ (act_step a s).2 = (spec_step a t).2.
Proof.
  destruct s as [p ls], t as [fs d sls]. intros Hsim.
  destruct a as [opts|opts|i args|i name|[i|]|i es|i values r|i values now msg args|i values now msg args];
    cbn [act_step spec_step];
    try (pose proof (same_loggers p ls _ i Hsim) as Hi; cbn [sp_loggers] in Hi;
         destruct (ls !! i) as [l|], (sls !! i) as [sl|]; try done).
  - pose proof (New_simulated opts p ls _ Hsim) as H. destruct (New_logger opts p) as [q l].
    destruct H as (_ & Hl & H). split; [|done]. exact (simulated_made _ _ _ _ _ H Hl).
  - pose proof (New_simulated opts p ls _ Hsim) as H. unfold SetupDefault.
    destruct (New_logger opts p) as [q l]. destruct H as (_ & (Ha & _) & [Hv Hf Ho Hd Hl]). split; [|done].
    by split.
  - pose proof (derive_simulated (slog_With args) (spec_with args) p ls _ l sl
      (λ x s, slog_With_simulated args p ls _ x s) Hsim Hi) as H.
    unfold With. by destruct (slog_With args _ p) as [q s].
  - pose proof (derive_simulated (slog_Logger_WithGroup name) (spec_group name) p ls _ l sl
      (λ x s, slog_WithGroup_simulated name p ls _ x s) Hsim Hi) as H.
    unfold Logger_WithGroup. by destruct (slog_Logger_WithGroup name _ p) as [q s].
  - split; [|done]. exact (simulated_made _ _ _ _ _ Hsim Hi).
  - split; [|done]. refine (simulated_made _ _ _ _ (MkSpecLogger d None) Hsim _).
    split; [exact (sim_default _ _ Hsim)|done].
  - pose proof (Update_simulated l sl es p ls _ Hsim Hi) as H. destruct (Update_logger l es p) as [q o].
    destruct (sl_family sl); [by destruct H as [-> H]|]. by destruct H as [-> ->].
  - pose proof (Log_simulated l sl values r p ls _ Hsim Hi) as H. destruct (Log_logger l values r p) as [q o].
    by destruct H as (-> & _ & H).
  - pose proof (Log_simulated l sl values (record_of now LevelTrace msg args) p ls _ Hsim Hi) as H.
    unfold TraceContext. destruct (Log_logger l values _ p) as [q o]. by destruct H as (-> & _ & H).
  - pose proof (Log_simulated l sl values (record_of now LevelFatal msg args) p ls _ Hsim Hi) as H.
    unfold FatalContext. destruct (Log_logger l values _ p) as [q o]. destruct H as (-> & _ & H).
    split; [done|]. by destruct (spec_log _ _ _ _).
Qed.

Lemma started_simulated : simulated started spec_started.
Proof. split; cbn; constructor. Qed.

(** C24: the loggers of a process do what loggers without pointers and caches
    would. Whatever loggers are made, derived with attributes and groups, put
    in contexts and taken out, made the default, reconfigured and logged with,
    one call after the other, every record comes to what the settings in force
    of the logger's family say of what the logger carries: an update through
    any logger of a family is seen by all of it and by no other family, a
    fatal record ends the process with code 1 after its line, and the logger
    of a context that was given none writes with the default logger and
    cannot be reconfigured. *)
Theorem loggers_refine acts : outcomes act_step acts started = outcomes spec_step acts spec_started.
Proof.
  generalize started_simulated. generalize started spec_started.
  induction acts as [|a acts IH]; intros s t Hsim; [done|]. cbn [outcomes].
  destruct (act_simulated a s t Hsim) as [Hs Ho].
  destruct (act_step a s) as [s' o], (spec_step a t) as [t' o']. cbn in Ho. subst.
  by destruct (is_exit o'); [|rewrite (IH s' t')].
Qed.

(** The logger of a context that was given none has no configuration: the
    process sets its default logger up, takes it from a context and lowers its
    level, and that panics. *)
Example default_unconfigurable :
  outcomes act_step [ASetupDefault []; AFromContext None; AUpdate 0 [SetLevelTo LevelDebug]] started =
    [None; None; Some Panicked].
Proof. vm_compute. reflexivity. Qed.

(** A logger derived before an update follows it, with what it carries. *)
Example derived_follows :
  let id := ArgAttr (MkAttr "request_id" (StringValue "42")) in
  outcomes act_step
    [ANew []; AWith 0 [id]; AUpdate 0 [SetLevelTo LevelError]; ALog 1 ∅ (record_of "t" LevelInfo "hi" []);
     AUpdate 1 [SetLevelTo LevelInfo; PutRemove "time"]; ALog 1 ∅ (record_of "t" LevelInfo "hi" [])] started =
    [None; None; Some Quiet; Some Quiet; Some Quiet;
     Some (Wrote (Line FormatText Stdout
       [([], MkAttr "level" (StringValue "INFO")); ([], MkAttr "msg" (StringValue "hi"));
        ([], MkAttr "request_id" (StringValue "42"))]))].
Proof. vm_compute. reflexivity. Qed.
