(* ===== verification/Startup.v ===== *)
(** * Startup: internal/config, storage connections, app.New, Shutdown and main

    How the process acquires and gives back what it holds: the connections to
    MySQL and Redis with their retries, the context of the background work, and
    the exits of main. The drivers and the HTTP server are parameters: whether
    a DSN parses, what a ping answers at a time, for Redis under a deadline, and
    how long that takes, and how the server stops. *)
From S2P Require Import Prelude Go EmailClient.
Open Scope Z_scope.

Definition second : Z := 1000000000.

(** ** internal/config *)

Module config.

Record Server : Type := MkServer { Port : Z; ReadTimeout : Z; WriteTimeout : Z; ShutdownTimeout : Z }.
Record Database : Type := MkDatabase {
  db_Host : string; db_Port : Z; db_Name : string; db_User : string; db_Password : string;
  db_MaxOpenConns : Z; db_MaxIdleConns : Z; db_ConnMaxLifetime : Z
}.
Record Redis : Type := MkRedis {
  rd_Addr : string; rd_Password : string; rd_DB : Z; rd_PoolSize : Z; rd_TaskListTTL : Z
}.
Record Auth : Type := MkAuth { JWTSecret : string; JWTExpiry : Z }.
Record RateLimit : Type := MkRateLimit { RequestsPerMinute : Z }.
Record Config : Type := MkConfig {
  cfg_Env : string;
  cfg_Server : Server;
  cfg_Database : Database;
  cfg_Redis : Redis;
  cfg_Auth : Auth;
  cfg_RateLimit : RateLimit;
  cfg_CircuitBreaker : EmailClient.CircuitBreakerConfig;
  cfg_EmailService : EmailClient.EmailServiceConfig
}.

Definition Addr (s : Server) : string := ":" +:+ fmt_d (Port s).

End config.
Import config.

(** ** What the process holds *)

(** Resources have identifiers; [trace] lists what was done with them. *)
Inductive event : Type :=
  | Opened (id : nat)
  | Pinged (id : nat)
  | PoolSet (id : nat) (maxOpen maxIdle lifetime : Z)
  | Closed (id : nat)
  | Slept (d : Z).

Record infra : Type := MkInfra { now : Z; next : nat; held : gset nat; trace : list event }.

Record DB : Type := MkDB { db_id : nat; db_dsn : string }.
Record Options : Type := MkOptions { o_Addr : string; o_Password : string; o_DB : Z; o_PoolSize : Z }.
Record Client : Type := MkClient { rdb_id : nat; rdb_opts : Options }.

(** The drivers and the server: a ping at a time takes some time and has an
    answer; Redis' has a deadline before the time. *)
Record Drivers : Type := MkDrivers {
  ParseDSN : string → option error;
  db_Ping : string → Z → Z * result unit;
  rdb_Ping : Options → Z → Z → Z * result unit;
  srv_Shutdown : Z → result unit;
  ReadConfig : string → result Config
}.

Definition log_event (e : event) : comp infra unit := λ w,
  (MkInfra (now w) (next w) (held w) (trace w ++ [e]), Ok tt).
Definition acquire : comp infra nat := λ w,
  (MkInfra (now w) (S (next w)) ({[next w]} ∪ held w) (trace w ++ [Opened (next w)]), Ok (next w)).
Definition release (id : nat) : comp infra unit := λ w,
  (MkInfra (now w) (next w) (held w ∖ {[id]}) (trace w ++ [Closed id]), Ok tt).
Definition Sleep (d : Z) : comp infra unit := λ w,
  (MkInfra (now w + d) (next w) (held w) (trace w ++ [Slept d]), Ok tt).
Definition ping (id : nat) (answer : Z → Z * result unit) : comp infra unit := λ w,
  let '(d, r) := answer (now w) in (MkInfra (now w + d) (next w) (held w) (trace w ++ [Pinged id]), r).

Definition maxRetries : nat := 10.
Definition retryInterval : Z := 3 * second.

(** [context.WithTimeout(context.Background(), d)] around a call: the call made
    at [t] has the deadline [t + d]. *)
Definition with_timeout (d : Z) (call : Z → Z → Z * result unit) (t : Z) : Z * result unit := call (t + d) t.

(** ** internal/storage/mysql/db.go *)

Module mysql.

Definition buildDSN (cfg : Database) : string :=
  db_User cfg +:+ ":" +:+ db_Password cfg +:+ "@tcp(" +:+ db_Host cfg +:+ ":" +:+ fmt_d (db_Port cfg) +:+
  ")/" +:+ db_Name cfg +:+ "?parseTime=true&loc=UTC".

Section mysql.
Context (drv : Drivers).

Definition sqlx_Open (dsn : string) : comp infra DB :=
  match ParseDSN drv dsn with
  | Some err => throw err
  | None => id ← acquire; mret (MkDB id dsn)
  end.

(** The loop, with the attempts it has left. *)
Fixpoint connect (cfg : Database) (dsn : string) (attempts : nat) (lastErr : error) : comp infra DB :=
  match attempts with
  | O => throw (Errorf ("mysql: unavailable after " +:+ pretty maxRetries +:+ " attempts: ") lastErr "")
  | S attempts =>
      db ← on_err (wrap "mysql: invalid dsn") (sqlx_Open dsn);
      pinged ← attempt (ping (db_id db) (db_Ping drv (db_dsn db)));
      match pinged with
      | Ok _ =>
          log_event (PoolSet (db_id db) (db_MaxOpenConns cfg) (db_MaxIdleConns cfg)
            (db_ConnMaxLifetime cfg)) ;;
          mret db
      | Err err =>
          ignore_err (release (db_id db)) ;;
          Sleep retryInterval ;;
          connect cfg dsn attempts err
      end
  end.

Definition New (cfg : Database) : comp infra DB :=
  connect cfg (buildDSN cfg) maxRetries (OtherError "").

End mysql.
End mysql.

(** ** internal/storage/redis/client.go *)

(** Each ping has two seconds. *)
Definition redis_ping (drv : Drivers) (opts : Options) : Z → Z * result unit :=
  with_timeout (2 * second) (rdb_Ping drv opts).

Module redis.
Section redis.
Context (drv : Drivers).

Fixpoint connect (client : Client) (attempts : nat) (lastErr : error) : comp infra Client :=
  match attempts with
  | O =>
      ignore_err (release (rdb_id client)) ;;
      throw (Errorf ("redis: unavailable after " +:+ pretty maxRetries +:+ " attempts: ") lastErr "")
  | S attempts =>
      pinged ← attempt (ping (rdb_id client) (redis_ping drv (rdb_opts client)));
      match pinged with
      | Ok _ => mret client
      | Err err => Sleep retryInterval ;; connect client attempts err
      end
  end.

Definition New (cfg : Redis) : comp infra Client :=
  id ← acquire;
  connect (MkClient id (MkOptions (rd_Addr cfg) (rd_Password cfg) (rd_DB cfg) (rd_PoolSize cfg)))
    maxRetries (OtherError "").

End redis.
End redis.

(** ** internal/app/app.go *)

Module app.

Record http_Server : Type := MkHttpServer { srv_Addr : string; srv_ReadTimeout : Z; srv_WriteTimeout : Z }.
Record App : Type := MkApp { srv : http_Server; db : DB; rdb : Client; ctx : nat }.

Section app.
Context (drv : Drivers).

(** [cancel] of the context: the background work holds it until then. *)
Definition cancel (ctx : nat) : comp infra unit := release ctx.
Definition Close_db (d : DB) : comp infra unit := release (db_id d).
Definition Close_rdb (c : Client) : comp infra unit := release (rdb_id c).

Definition New (cfg : Config) : comp infra App :=
  ctx ← acquire;
  opened ← attempt (mysql.New drv (cfg_Database cfg));
  match opened with
  | Err err => cancel ctx ;; throw err
  | Ok db =>
      connected ← attempt (redis.New drv (cfg_Redis cfg));
      match connected with
      | Err err => cancel ctx ;; ignore_err (Close_db db) ;; throw err
      | Ok rdb =>
          mret (MkApp (MkHttpServer (Addr (cfg_Server cfg)) (ReadTimeout (cfg_Server cfg))
                         (WriteTimeout (cfg_Server cfg))) db rdb ctx)
      end
  end.

Definition Shutdown (a : App) (timeout : Z) : comp infra unit :=
  cancel (ctx a) ;;
  err ← attempt (lift_result (srv_Shutdown drv timeout));
  ignore_err (Close_db (db a)) ;;
  ignore_err (Close_rdb (rdb a)) ;;
  lift_result err.

(** *** cmd/teamtasks/main.go *)

(** Why the process stops serving. *)
Inductive stop : Type := Signalled | ServerError (err : error).

(** internal/config: a configuration that cannot be read is a panic. *)
Definition MustLoad (path : string) : result Config :=
  match ReadConfig drv path with
  | Ok cfg => Ok cfg
  | Err err => Err (wrap "config" err)
  end.

(** The exit code; a panic exits with 2. *)
Definition main (cfgPath : string) (why : stop) (w : infra) : infra * Z :=
  match MustLoad cfgPath with
  | Err _ => (w, 2)
  | Ok cfg =>
      match New cfg w with
      | (w, Err _) => (w, 1)
      | (w, Ok a) =>
          match why with
          | ServerError _ => (w, 1)
          | Signalled =>
              match Shutdown a (ShutdownTimeout (cfg_Server cfg)) w with
              | (w, Err _) => (w, 1)
              | (w, Ok _) => (w, 0)
              end
          end
      end
  end.

End app.
End app.

(** ** The attempts *)

(** When the [k]-th retry of a ping happens. *)
Fixpoint ping_time (answer : Z → Z * result unit) (t : Z) (k : nat) : Z :=
  match k with
  | O => t
  | S k => ping_time answer (t + (answer t).1 + retryInterval) k
  end.

Definition fails (answer : Z → Z * result unit) (t : Z) : Prop := ∃ e, (answer t).2 = Err e.

(** What [k] failed attempts leave in the trace: MySQL's connections are opened
    anew each time, Redis' client stays. *)
Definition db_failed (first k : nat) : list event :=
  flat_map (λ i, [Opened i; Pinged i; Closed i; Slept retryInterval]) (seq first k).
Definition rdb_failed (id k : nat) : list event :=
  flat_map (λ _, [Pinged id; Slept retryInterval]) (seq 0 k).

(** How a series of at most [n] attempts ends: at the first that succeeds, or
    with the error of the last. *)
Definition answered (answer : Z → Z * result unit) (t : Z) (n k : nat) : Prop :=
  (k < n)%nat ∧ (∀ j, (j < k)%nat → fails answer (ping_time answer t j)) ∧
  (answer (ping_time answer t k)).2 = Ok tt.
Definition exhausted (answer : Z → Z * result unit) (t : Z) (n : nat) (lastErr e : error) : Prop :=
  (∀ j, (j < n)%nat → fails answer (ping_time answer t j)) ∧
  match n with
  | O => e = lastErr
  | S n => (answer (ping_time answer t n)).2 = Err e
  end.

(** Identifiers in use are behind the next one. *)
Definition wf (w : infra) : Prop := ∀ i, i ∈ held w → (i < next w)%nat.

Definition unavailable (server : string) (e : error) : error :=
  Errorf (server +:+ ": unavailable after 10 attempts: ") e "".

(** [next], [held] and [trace] of the outcome. *)
Definition leaves (w : infra) (used : nat) (now_held : gset nat) (events : list event) (w' : infra) : Prop :=
  next w' = (next w + used)%nat ∧ held w' = now_held ∧ trace w' = trace w ++ events.

Lemma failed_trace_db first k :
  db_failed first (S k) = [Opened first; Pinged first; Closed first; Slept retryInterval] ++
    db_failed (S first) k.
Proof. done. Qed.

Lemma failed_trace_rdb id k :
  rdb_failed id (S k) = [Pinged id; Slept retryInterval] ++ rdb_failed id k.
Proof. unfold rdb_failed. cbn [seq flat_map]. by rewrite <-seq_shift, flat_map_concat_map, map_map, <-flat_map_concat_map. Qed.

(** One attempt. *)
Lemma mysql_step drv cfg dsn n lastErr w :
  ParseDSN drv dsn = None → wf w →
  mysql.connect drv cfg dsn (S n) lastErr w =
    match db_Ping drv dsn (now w) with
    | (d, Ok _) =>
        (MkInfra (now w + d) (S (next w)) ({[next w]} ∪ held w)
           (trace w ++ [Opened (next w); Pinged (next w);
              PoolSet (next w) (db_MaxOpenConns cfg) (db_MaxIdleConns cfg) (db_ConnMaxLifetime cfg)]),
         Ok (MkDB (next w) dsn))
    | (d, Err e) =>
        mysql.connect drv cfg dsn n e
          (MkInfra (now w + d + retryInterval) (S (next w)) (held w)
             (trace w ++ [Opened (next w); Pinged (next w); Closed (next w); Slept retryInterval]))
    end.
Proof.
  intros Hdsn Hwf. cbn [mysql.connect]. unfold mysql.sqlx_Open. rewrite Hdsn.
  unfold mbind, comp_bind, on_err, attempt, ignore_err, acquire, ping. cbn.
  destruct (db_Ping drv dsn (now w)) as [d [[]|e]]; cbn; rewrite <-!app_assoc; [done|].
  do 2 f_equal. assert (next w ∉ held w) by (intros Hin; specialize (Hwf _ Hin); lia). set_solver.
Qed.

Lemma answered_S answer t n k d e :
  answer t = (d, Err e) → answered answer (t + d + retryInterval) n k → answered answer t (S n) (S k).
Proof.
  intros Ha (Hk & Hf & Hok). split; [lia|]. cbn. rewrite Ha. split; [|exact Hok].
  intros [|j] Hj; cbn; [by exists e; rewrite Ha|]. rewrite Ha. apply Hf. lia.
Qed.

Lemma answered_0 answer t n d : answer t = (d, Ok tt) → answered answer t (S n) 0.
Proof. intros Ha. split; [lia|]. split; [lia|]. cbn. by rewrite Ha. Qed.

Lemma exhausted_S answer t n d e lastErr e' :
  answer t = (d, Err e) → exhausted answer (t + d + retryInterval) n e e' →
  exhausted answer t (S n) lastErr e'.
Proof.
  intros Ha [Hf He]. split.
  - intros [|j] Hj; cbn; [by exists e; rewrite Ha|]. rewrite Ha. apply Hf. lia.
  - destruct n as [|n]; cbn; [by rewrite He, Ha|]. by rewrite Ha.
Qed.

Lemma exhausted_0 answer t lastErr : exhausted answer t 0 lastErr lastErr.
Proof. split; [lia|done]. Qed.

Lemma mysql_connect drv cfg dsn n lastErr w :
  ParseDSN drv dsn = None → wf w →
  (∃ k w', answered (db_Ping drv dsn) (now w) n k ∧
     mysql.connect drv cfg dsn n lastErr w = (w', Ok (MkDB (next w + k) dsn)) ∧
     leaves w (S k) ({[(next w + k)%nat]} ∪ held w)
       (db_failed (next w) k ++
        [Opened (next w + k); Pinged (next w + k);
         PoolSet (next w + k) (db_MaxOpenConns cfg) (db_MaxIdleConns cfg) (db_ConnMaxLifetime cfg)]) w') ∨
  (∃ e w', exhausted (db_Ping drv dsn) (now w) n lastErr e ∧
     mysql.connect drv cfg dsn n lastErr w = (w', Err (unavailable "mysql" e)) ∧
     leaves w n (held w) (db_failed (next w) n) w').
Proof.
  intros Hdsn. revert lastErr w. induction n as [|n IH]; intros lastErr w Hwf.
  - right. exists lastErr, w. split; [apply exhausted_0|]. split; [done|].
    split_and!; [lia|done|by rewrite app_nil_r].
  - rewrite mysql_step by done. destruct (db_Ping drv dsn (now w)) as [d [[]|e]] eqn:Ha.
    + left. exists O. eexists. split; [by eapply answered_0|]. rewrite Nat.add_0_r.
      split; [reflexivity|]. split_and!; cbn; [lia|done|done].
    + edestruct (IH e) as [(k & w' & Hk & -> & Hn & Hh & Ht)|(e' & w' & He & -> & Hn & Hh & Ht)].
      { intros i Hi. cbn in *. specialize (Hwf i Hi). lia. }
      * left. exists (S k), w'. cbn [next held trace now] in Hn, Hh, Ht, Hk |- *. rewrite <-Nat.add_succ_comm in *.
        split; [by eapply answered_S|]. split; [done|].
        split_and!; [lia|exact Hh|]. by rewrite Ht, failed_trace_db, <-!app_assoc.
      * right. exists e', w'. cbn [next held trace now] in Hn, Hh, Ht, He |- *. split; [by eapply exhausted_S|]. split; [done|].
        split_and!; [lia|exact Hh|]. by rewrite Ht, failed_trace_db, <-!app_assoc.
Qed.

Lemma redis_step drv client n lastErr w :
  redis.connect drv client (S n) lastErr w =
    match redis_ping drv (rdb_opts client) (now w) with
    | (d, Ok _) => (MkInfra (now w + d) (next w) (held w) (trace w ++ [Pinged (rdb_id client)]), Ok client)
    | (d, Err e) =>
        redis.connect drv client n e
          (MkInfra (now w + d + retryInterval) (next w) (held w)
             (trace w ++ [Pinged (rdb_id client); Slept retryInterval]))
    end.
Proof.
  cbn [redis.connect]. unfold mbind, comp_bind, attempt, ping.
  destruct (redis_ping drv (rdb_opts client) (now w)) as [d [[]|e]]; cbn; [done|]. by rewrite <-!app_assoc.
Qed.

Lemma redis_connect drv client n lastErr w :
  (∃ k w', answered (redis_ping drv (rdb_opts client)) (now w) n k ∧
     redis.connect drv client n lastErr w = (w', Ok client) ∧
     leaves w 0 (held w) (rdb_failed (rdb_id client) k ++ [Pinged (rdb_id client)]) w') ∨
  (∃ e w', exhausted (redis_ping drv (rdb_opts client)) (now w) n lastErr e ∧
     redis.connect drv client n lastErr w = (w', Err (unavailable "redis" e)) ∧
     leaves w 0 (held w ∖ {[rdb_id client]}) (rdb_failed (rdb_id client) n ++ [Closed (rdb_id client)]) w').
Proof.
  revert lastErr w. induction n as [|n IH]; intros lastErr w.
  - right. exists lastErr. eexists. split; [apply exhausted_0|]. split; [reflexivity|].
    split_and!; cbn; [lia|done|done].
  - rewrite redis_step. destruct (redis_ping _ _ (now w)) as [d [[]|e]] eqn:Ha.
    + left. exists O. eexists. split; [by eapply answered_0|].
      split; [reflexivity|]. split_and!; cbn; [lia|done|done].
    + edestruct (IH e) as [(k & w' & Hk & -> & Hn & Hh & Ht)|(e' & w' & He & -> & Hn & Hh & Ht)].
      * left. exists (S k), w'. cbn [next held trace now] in Hn, Hh, Ht, Hk |- *. split; [by eapply answered_S|]. split; [done|].
        split_and!; [lia|exact Hh|]. by rewrite Ht, failed_trace_rdb, <-!app_assoc.
      * right. exists e', w'. cbn [next held trace now] in Hn, Hh, Ht, He |- *. split; [by eapply exhausted_S|]. split; [done|].
        split_and!; [lia|exact Hh|]. by rewrite Ht, failed_trace_rdb, <-!app_assoc.
Qed.

(** ** New of both storages *)

Lemma mysql_New_ends drv cfg w :
  wf w →
  ∃ w' r, mysql.New drv cfg w = (w', r) ∧ wf w' ∧
  match r with
  | Ok db =>
      ∃ k, answered (db_Ping drv (mysql.buildDSN cfg)) (now w) maxRetries k ∧
        db = MkDB (next w + k) (mysql.buildDSN cfg) ∧
        leaves w (S k) ({[(next w + k)%nat]} ∪ held w)
          (db_failed (next w) k ++
           [Opened (next w + k); Pinged (next w + k);
            PoolSet (next w + k) (db_MaxOpenConns cfg) (db_MaxIdleConns cfg) (db_ConnMaxLifetime cfg)]) w'
  | Err err =>
      (∃ e, ParseDSN drv (mysql.buildDSN cfg) = Some e ∧ err = wrap "mysql: invalid dsn" e ∧ w' = w) ∨
      (∃ e, exhausted (db_Ping drv (mysql.buildDSN cfg)) (now w) maxRetries (OtherError "") e ∧
         err = unavailable "mysql" e ∧ leaves w maxRetries (held w) (db_failed (next w) maxRetries) w')
  end.
Proof.
  intros Hwf. unfold mysql.New. destruct (ParseDSN drv (mysql.buildDSN cfg)) as [e|] eqn:Hdsn.
  - exists w, (Err (wrap "mysql: invalid dsn" e)). split; [|split; [done|left; by exists e]].
    cbn. unfold mysql.sqlx_Open. by rewrite Hdsn.
  - destruct (mysql_connect drv cfg _ maxRetries (OtherError "") w Hdsn Hwf)
      as [(k & w' & Hk & -> & Hl)|(e & w' & He & -> & Hl)].
    + do 2 eexists. split; [done|]. split; [|by exists k].
      destruct Hl as (Hn & Hh & _). intros i. rewrite Hn, Hh. intros [->%elem_of_singleton|Hi]%elem_of_union; [lia|].
      specialize (Hwf i Hi). lia.
    + do 2 eexists. split; [done|]. split; [|right; by exists e].
      destruct Hl as (Hn & Hh & _). intros i. rewrite Hn, Hh. intros Hi. specialize (Hwf i Hi). lia.
Qed.

Lemma redis_New_ends drv cfg w :
  wf w →
  let opts := MkOptions (rd_Addr cfg) (rd_Password cfg) (rd_DB cfg) (rd_PoolSize cfg) in
  ∃ w' r, redis.New drv cfg w = (w', r) ∧ wf w' ∧
  match r with
  | Ok c =>
      ∃ k, answered (redis_ping drv opts) (now w) maxRetries k ∧ c = MkClient (next w) opts ∧
        leaves w 1 ({[next w]} ∪ held w)
          (Opened (next w) :: rdb_failed (next w) k ++ [Pinged (next w)]) w'
  | Err err =>
      ∃ e, exhausted (redis_ping drv opts) (now w) maxRetries (OtherError "") e ∧
        err = unavailable "redis" e ∧
        leaves w 1 (held w) (Opened (next w) :: rdb_failed (next w) maxRetries ++ [Closed (next w)]) w'
  end.
Proof.
  intros Hwf opts. unfold redis.New, mbind at 1, comp_bind, acquire. fold opts.
  assert (next w ∉ held w) as Hnew by (intros Hin; specialize (Hwf _ Hin); lia).
  edestruct (redis_connect drv (MkClient (next w) opts) maxRetries (OtherError "")
    (MkInfra (now w) (S (next w)) ({[next w]} ∪ held w) (trace w ++ [Opened (next w)])))
    as [(k & w' & Hk & -> & Hn & Hh & Ht)|(e & w' & He & -> & Hn & Hh & Ht)];
    cbn [next held trace now rdb_id rdb_opts] in *; do 2 eexists; (split; [done|]).
  - split; [|exists k; do 2 (split; [done|]); split; [lia|split; [done|by rewrite Ht, <-app_assoc]]].
    intros i. rewrite Hn, Hh. intros [->%elem_of_singleton|Hi]%elem_of_union; [lia|].
    specialize (Hwf i Hi). lia.
  - assert (held w' = held w) as Hh' by (rewrite Hh; set_solver).
    split; [|exists e; do 2 (split; [done|]); split; [lia|split; [done|by rewrite Ht, <-app_assoc]]].
    intros i. rewrite Hn, Hh'. intros Hi. specialize (Hwf i Hi). lia.
Qed.

(** connecting to MySQL. A DSN that does not parse fails at once, without
    a ping; otherwise the process pings at most ten times, three seconds after
    each failure, on a connection of its own each time, closing every one that
    fails; the first that answers is configured and returned, and if none does
    the error carries the last answer. *)
Theorem mysql_New_correct drv cfg w :
  wf w →
  ∃ w' r, mysql.New drv cfg w = (w', r) ∧
  match r with
  | Ok db =>
      ∃ k, answered (db_Ping drv (mysql.buildDSN cfg)) (now w) 10 k ∧
        db = MkDB (next w + k) (mysql.buildDSN cfg) ∧
        leaves w (S k) ({[(next w + k)%nat]} ∪ held w)
          (db_failed (next w) k ++
           [Opened (next w + k); Pinged (next w + k);
            PoolSet (next w + k) (db_MaxOpenConns cfg) (db_MaxIdleConns cfg) (db_ConnMaxLifetime cfg)]) w'
  | Err err =>
      (∃ e, ParseDSN drv (mysql.buildDSN cfg) = Some e ∧ err = wrap "mysql: invalid dsn" e ∧ w' = w) ∨
      (∃ e, exhausted (db_Ping drv (mysql.buildDSN cfg)) (now w) 10 (OtherError "") e ∧
         err = unavailable "mysql" e ∧ leaves w 10 (held w) (db_failed (next w) 10) w')
  end.
Proof. intros Hwf. destruct (mysql_New_ends drv cfg w Hwf) as (w' & r & ? & _ & ?). by exists w', r. Qed.

(** ** app.New and Shutdown *)

(** What New holds, and gives back when it fails. *)
Lemma app_New_held drv cfg w :
  wf w →
  ∃ w' r, app.New drv cfg w = (w', r) ∧ wf w' ∧
  match r with
  | Ok a =>
      NoDup [app.ctx a; db_id (app.db a); rdb_id (app.rdb a)] ∧
      (∀ i, i ∈ [app.ctx a; db_id (app.db a); rdb_id (app.rdb a)] → i ∉ held w) ∧
      held w' = held w ∪ {[app.ctx a; db_id (app.db a); rdb_id (app.rdb a)]} ∧
      app.srv a = app.MkHttpServer (Addr (cfg_Server cfg)) (ReadTimeout (cfg_Server cfg))
                    (WriteTimeout (cfg_Server cfg))
  | Err _ => held w' = held w
  end.
Proof.
  intros Hwf. assert (next w ∉ held w) as Hnew by (intros Hin; specialize (Hwf _ Hin); lia).
  set (w1 := (acquire w).1).
  assert (wf w1) as Hwf1.
  { intros i. cbn. intros [->%elem_of_singleton|Hi]%elem_of_union; [lia|]. specialize (Hwf i Hi). lia. }
  destruct (mysql_New_ends drv (cfg_Database cfg) w1 Hwf1) as (w2 & r2 & H2 & Hwf2 & Hr2).
  assert (∀ i, i ∈ held w2 → (i < next w2)%nat) as Hbefore by done.
  unfold app.New, mbind, comp_bind, acquire, attempt.
  change (MkInfra (now w) (S (next w)) ({[next w]} ∪ held w) (trace w ++ [Opened (next w)])) with w1.
  rewrite H2. cbv beta iota zeta. destruct r2 as [db|e2].
  - destruct Hr2 as (k & _ & -> & Hn2 & Hh2 & _). cbn in Hn2, Hh2.
    assert ((S (next w + k) ∉ held w) ∧ next w ≠ S (next w + k)) as [Hk Hne].
    { split; [|lia]. intros Hin. specialize (Hwf _ Hin). lia. }
    destruct (redis_New_ends drv (cfg_Redis cfg) w2 Hwf2) as (w3 & r3 & H3 & Hwf3 & Hr3). cbn [snd fst]. rewrite H3. cbn [snd fst].
    destruct r3 as [c|e3].
    + destruct Hr3 as (k3 & _ & -> & Hn3 & Hh3 & _). do 2 eexists. split; [reflexivity|]. split; [done|].
      cbn. assert (next w2 ∉ held w2) as Hn2' by (intros Hin; specialize (Hwf2 _ Hin); lia).
      rewrite Hh2 in Hn2'. split.
      { rewrite !NoDup_cons, !elem_of_cons, !elem_of_nil. rewrite Hn2. split_and!; [lia|lia|tauto|constructor]. }
      split; [|split; [rewrite Hh3, Hh2; cbn; set_solver|done]].
      intros i. rewrite !elem_of_cons, elem_of_nil. intros [->|[->|[->|[]]]]; [done|done|set_solver].
    + destruct Hr3 as (e & _ & -> & Hn3 & Hh3 & _). do 2 eexists. split; [reflexivity|].
      assert (held w3 ∖ {[next w]} ∖ {[S (next w + k)]} = held w) as Hback by (rewrite Hh3, Hh2; set_solver).
      cbn. rewrite Hback. split; [|done].
      intros i. cbn. intros Hi. specialize (Hwf i Hi). lia.
  - assert (held w2 = {[next w]} ∪ held w ∧ (next w ≤ next w2)%nat) as [Hh2 Hn2].
    { destruct Hr2 as [(e & _ & _ & ->)|(e & _ & _ & Hn & Hh & _)]; [split; [done|cbn; lia]|].
      rewrite Hh, Hn. cbn. split; [done|lia]. }
    do 2 eexists. split; [reflexivity|].
    assert (held w2 ∖ {[next w]} = held w) as Hback by (rewrite Hh2; set_solver).
    cbn. rewrite Hback. split; [|done].
    intros i. cbn. intros Hi. specialize (Hwf i Hi). lia.
Qed.

Lemma Shutdown_held drv a timeout w :
  ∃ w', app.Shutdown drv a timeout w = (w', srv_Shutdown drv timeout) ∧
    held w' = held w ∖ {[app.ctx a; db_id (app.db a); rdb_id (app.rdb a)]}.
Proof.
  unfold app.Shutdown, mbind, comp_bind, attempt, ignore_err, lift_result. cbn.
  eexists. split; [reflexivity|]. cbn. set_solver.
Qed.

(** C36: nothing is leaked. New of the app either fails and holds nothing of
    what it acquired, or returns an app holding three new resources, the
    context, the database and the Redis client, and the server set up from the
    configuration; and shutting the app down gives the three back, whatever
    becomes of the server, whose error it returns. *)
Theorem app_no_leak drv cfg w :
  wf w →
  ∃ w' r, app.New drv cfg w = (w', r) ∧
  match r with
  | Err _ => held w' = held w
  | Ok a =>
      NoDup [app.ctx a; db_id (app.db a); rdb_id (app.rdb a)] ∧
      (∀ i, i ∈ [app.ctx a; db_id (app.db a); rdb_id (app.rdb a)] → i ∈ held w → False) ∧
      held w' = held w ∪ {[app.ctx a; db_id (app.db a); rdb_id (app.rdb a)]} ∧
      app.srv a = app.MkHttpServer (Addr (cfg_Server cfg)) (ReadTimeout (cfg_Server cfg))
                    (WriteTimeout (cfg_Server cfg)) ∧
      ∀ timeout, ∃ w'', app.Shutdown drv a timeout w' = (w'', srv_Shutdown drv timeout) ∧
        held w'' = held w
  end.
Proof.
  intros Hwf. destruct (app_New_held drv cfg w Hwf) as (w' & [a|e] & Hrun & _ & Hr);
    (do 2 eexists; split; [exact Hrun|]); [|done].
  destruct Hr as (Hnd & Hnew & Hh & Hsrv). do 4 (split; [done|]). intros timeout.
  destruct (Shutdown_held drv a timeout w') as (w'' & Hs & Hh''). exists w''. split; [done|].
  rewrite Hh'', Hh. assert (held w ## {[app.ctx a; db_id (app.db a); rdb_id (app.rdb a)]}); [|set_solver].
  intros i Hi Hin. apply (Hnew i); [|done]. rewrite !elem_of_cons. set_solver.
Qed.

(** the process's exit. It exits with 0 exactly when the configuration
    loads, the app starts, a signal arrives and the server stops in time, with
    2 exactly when the configuration does not load; and unless the server
    itself fails, everything it held is given back before it exits. *)
Theorem main_exit drv path why w :
  wf w →
  let '(w', code) := app.main drv path why w in
  (code = 0 ↔ why = app.Signalled ∧ ∃ cfg a w1, ReadConfig drv path = Ok cfg ∧
     app.New drv cfg w = (w1, Ok a) ∧ srv_Shutdown drv (ShutdownTimeout (cfg_Server cfg)) = Ok tt) ∧
  (code = 2 ↔ ∃ e, ReadConfig drv path = Err e) ∧
  (why = app.Signalled → held w' = held w).
Proof.
  intros Hwf. unfold app.main, app.MustLoad. destruct (ReadConfig drv path) as [cfg|e] eqn:Hcfg.
  - destruct (app_New_held drv cfg w Hwf) as (w1 & [a|e] & Hrun & _ & Hr); rewrite Hrun.
    + destruct Hr as (_ & Hnew & Hh & _). destruct why as [|e].
      * destruct (Shutdown_held drv a (ShutdownTimeout (cfg_Server cfg)) w1) as (w2 & -> & Hh2).
        assert (held w2 = held w) as Hback.
        { rewrite Hh2, Hh. assert (held w ## {[app.ctx a; db_id (app.db a); rdb_id (app.rdb a)]}); [|set_solver].
          intros i Hi Hin. apply (Hnew i); [|done]. rewrite !elem_of_cons. set_solver. }
        destruct (srv_Shutdown _ _) as [[]|e] eqn:Hs; (split; [|split; [split; [done|by intros [? ?]]|done]]).
        -- split; [|done]. intros _. split; [done|]. by exists cfg, a, w1.
        -- split; [done|]. intros (_ & cfg' & a' & w1' & [= <-] & _ & Hs'). congruence.
      * split; [split; [done|by intros [? _]]|]. split; [split; [done|by intros [? ?]]|done].
    + split; [split; [done|]|split; [split; [done|by intros [? ?]]|done]].
      intros (_ & cfg' & a' & w1' & [= <-] & Hrun' & _). congruence.
  - split; [split; [done|by intros (_ & ? & ? & ? & ? & _)]|]. split; [|done]. split; [by eauto|done].
Qed.

(** ** Waiting for the servers *)

Lemma ping_time_later answer t k :
  (∀ t, 0 ≤ (answer t).1) → t + Z.of_nat k * retryInterval ≤ ping_time answer t k.
Proof.
  intros Hlat. revert t. induction k as [|k IH]; intros t; cbn [ping_time]; [lia|].
  specialize (IH (t + (answer t).1 + retryInterval)). specialize (Hlat t).
  rewrite Nat2Z.inj_succ. unfold retryInterval, second in *. lia.
Qed.

(** Ten attempts outlast twenty-seven seconds. *)
Lemma not_exhausted answer t lastErr e :
  (∀ t, 0 ≤ (answer t).1) →
  (∀ t', t + 27 * second ≤ t' → (answer t').2 = Ok tt) →
  ¬ exhausted answer t maxRetries lastErr e.
Proof.
  intros Hlat Hup [Hf _]. destruct (Hf 9%nat) as [e' He]; [unfold maxRetries; lia|].
  rewrite Hup in He; [done|]. pose proof (ping_time_later answer t 9 Hlat). unfold retryInterval, second in *. lia.
Qed.

Lemma mysql_connect_now drv cfg dsn n lastErr w :
  ParseDSN drv dsn = None → wf w → (∀ dsn t, 0 ≤ (db_Ping drv dsn t).1) →
  now w ≤ now (mysql.connect drv cfg dsn n lastErr w).1.
Proof.
  intros Hdsn Hwf Hlat. revert lastErr w Hwf. induction n as [|n IH]; intros lastErr w Hwf; [cbn; lia|].
  rewrite mysql_step by done. specialize (Hlat dsn (now w)).
  destruct (db_Ping drv dsn (now w)) as [d [[]|e]]; cbn in Hlat; [cbn; lia|].
  etrans; [|apply IH]; [cbn; unfold retryInterval, second; lia|].
  intros i Hi. cbn in *. specialize (Hwf i Hi). lia.
Qed.

(** C37: start-up waits for the servers. If the DSN parses, and within
    twenty-seven seconds of the start MySQL comes to answer every ping, and
    Redis every ping in the two seconds it is given, the app starts, however
    long the pings before took. *)
Theorem startup_waits drv cfg w :
  wf w → ParseDSN drv (mysql.buildDSN (cfg_Database cfg)) = None →
  (∀ dsn t, 0 ≤ (db_Ping drv dsn t).1) → (∀ opts deadline t, 0 ≤ (rdb_Ping drv opts deadline t).1) →
  (∀ dsn t, now w + 27 * second ≤ t → (db_Ping drv dsn t).2 = Ok tt) →
  (∀ opts t, now w + 27 * second ≤ t → (rdb_Ping drv opts (t + 2 * second) t).2 = Ok tt) →
  ∃ w' a, app.New drv cfg w = (w', Ok a).
Proof.
  intros Hwf Hdsn Hdlat Hrlat Hdb Hrdb. set (w1 := (acquire w).1).
  assert (wf w1) as Hwf1.
  { intros i. cbn. intros [->%elem_of_singleton|Hi]%elem_of_union; [lia|]. specialize (Hwf i Hi). lia. }
  destruct (mysql_New_ends drv (cfg_Database cfg) w1 Hwf1) as (w2 & r2 & H2 & Hwf2 & Hr2).
  pose proof (mysql_connect_now drv (cfg_Database cfg) _ maxRetries (OtherError "") w1 Hdsn Hwf1 Hdlat) as Hnow.
  unfold mysql.New in H2. rewrite H2 in Hnow. cbn in Hnow.
  destruct r2 as [db|e2]; [|destruct Hr2 as [(e & He & _)|(e & He & _)]; [congruence|]];
    [|exfalso; eapply not_exhausted; [apply Hdlat|apply Hdb|exact He]].
  destruct (redis_New_ends drv (cfg_Redis cfg) w2 Hwf2) as (w3 & r3 & H3 & _ & Hr3).
  destruct r3 as [c|e3]; [|destruct Hr3 as (e & He & _)];
    [|exfalso; refine (not_exhausted _ _ _ _ _ _ He);
      [intros t; apply Hrlat|intros t' Ht'; apply (Hrdb _ t'); lia]].
  unfold app.New, mbind, comp_bind, acquire, attempt, mysql.New.
  change (MkInfra (now w) (S (next w)) ({[next w]} ∪ held w) (trace w ++ [Opened (next w)])) with w1.
  rewrite H2. cbn [fst snd]. rewrite H3. by do 2 eexists.
Qed.
