(* ===== verification/Lifecycle.v ===== *)
(** * Lifecycle: cmd/teamtasks/main.go, the process from start to exit

    Startup.v has main as one run that knows why it stops. Here are its
    goroutines: main itself, which waits for a signal or for the server to
    fail; the goroutine that serves; the two channels with a buffer of one
    between them and the operating system; and what the process logs. Any
    interleaving of their steps ends as a run of main does. A signal that comes
    before main has called signal.Notify, which kills the process on the spot,
    is not a step here. *)
From S2P Require Import Prelude Go Startup.
Import config.
Open Scope Z_scope.

(** ** internal/app/app.go *)

Definition Addr (a : app.App) : string := app.srv_Addr (app.srv a).

(** net/http: what [ListenAndServe] returns when the server was shut down. *)
Definition ErrServerClosed : error := OtherError "http: Server closed".

(** What [ListenAndServe] can return: always an error, and this one only after
    Shutdown was called. *)
Definition ListenAndServe_returns (closed : bool) (err : error) : bool :=
  closed || negb (errors_Is err ErrServerClosed).

(** ** The state of the process *)

Inductive entry : Type := Info (msg : string) (value : string) | Error (msg : string) (err : option error).

(** The goroutine that serves: before its first step, inside ListenAndServe, at
    its end. *)
Inductive serving : Type := Started | Listening | Returned.

(** main: in its select, inside Shutdown, or gone with a code. *)
Inductive phase : Type := Waiting | Stopping | Exited (code : Z).

(** The signals that are asked for, and how they are printed. *)
Inductive signal : Type := SIGINT | SIGTERM.
Definition signal_String (sig : signal) : string :=
  match sig with SIGINT => "interrupt" | SIGTERM => "terminated" end.

Record process : Type := MkProcess {
  p_infra : infra;
  p_main : phase;
  p_serving : serving;
  p_serverErr : option error;   (** the channel of the server's error *)
  p_quit : option signal;       (** the channel of signals *)
  p_closed : bool;              (** Shutdown was called on the server *)
  p_log : list entry
}.

(** A send that does not wait, to a channel with a buffer of one: what finds the
    channel full is dropped. *)
Definition send {A} (x : A) (c : option A) : option A := match c with None => Some x | Some y => Some y end.

Section lifecycle.
Context (drv : Drivers).

(** Up to the select: either the process is gone, or it has an app. *)
Definition boot (cfgPath : string) (w : infra) : process * option (Config * app.App) :=
  let gone code w log := MkProcess w (Exited code) Returned None None false log in
  match app.MustLoad drv cfgPath with
  | Err _ => (gone 2 w [], None)
  | Ok cfg =>
      match app.New drv cfg w with
      | (w, Err err) => (gone 1 w [Error "failed to initialize app" (Some err)], None)
      | (w, Ok a) => (MkProcess w Waiting Started None None false [], Some (cfg, a))
      end
  end.

(** The steps: the goroutine starts to listen, ListenAndServe returns; a signal
    arrives; main takes the signal or the error out of its channel, Shutdown
    returns. *)
Inductive label : Type :=
  | Listens
  | Returns (err : error)
  | Signals (sig : signal)
  | TakesSignal
  | TakesError
  | Stops.

Context (cfg : Config) (a : app.App).

Definition listens (p : process) : option process :=
  match p_serving p with
  | Started => Some (MkProcess (p_infra p) (p_main p) Listening (p_serverErr p) (p_quit p) (p_closed p)
                       (p_log p ++ [Info "server starting" (Addr a)]))
  | _ => None
  end.

Definition returns (err : error) (p : process) : option process :=
  match p_serving p with
  | Listening =>
      if ListenAndServe_returns (p_closed p) err then
        let serverErr :=
          if errors_Is err ErrServerClosed then p_serverErr p
          else send err (p_serverErr p) in
        Some (MkProcess (p_infra p) (p_main p) Returned serverErr (p_quit p) (p_closed p) (p_log p))
      else None
  | _ => None
  end.

Definition signals (sig : signal) (p : process) : option process :=
  let quit := send sig (p_quit p) in
  Some (MkProcess (p_infra p) (p_main p) (p_serving p) (p_serverErr p) quit (p_closed p) (p_log p)).

(** The branch of the select for a signal, up to Shutdown. *)
Definition takes_signal (p : process) : option process :=
  match p_main p, p_quit p with
  | Waiting, Some sig =>
      Some (MkProcess (p_infra p) Stopping (p_serving p) (p_serverErr p) None true
              (p_log p ++ [Info "signal received, shutting down" (signal_String sig)]))
  | _, _ => None
  end.

(** The other branch. *)
Definition takes_error (p : process) : option process :=
  match p_main p, p_serverErr p with
  | Waiting, Some err =>
      Some (MkProcess (p_infra p) (Exited 1) (p_serving p) None (p_quit p) (p_closed p)
              (p_log p ++ [Error "server error" (Some err)]))
  | _, _ => None
  end.

(** Shutdown with its timeout, and the end of main. *)
Definition stops (p : process) : option process :=
  match p_main p with
  | Stopping =>
      let '(w, r) := app.Shutdown drv a (ShutdownTimeout (cfg_Server cfg)) (p_infra p) in
      let '(code, e) :=
        match r with
        | Err err => (1, Error "graceful shutdown failed" (Some err))
        | Ok _ => (0, Info "server stopped" "")
        end in
      Some (MkProcess w (Exited code) (p_serving p) (p_serverErr p) (p_quit p) (p_closed p) (p_log p ++ [e]))
  | _ => None
  end.

(** A process that is gone takes no step. *)
Definition step (l : label) (p : process) : option process :=
  match p_main p with
  | Exited _ => None
  | _ =>
      match l with
      | Listens => listens p
      | Returns err => returns err p
      | Signals sig => signals sig p
      | TakesSignal => takes_signal p
      | TakesError => takes_error p
      | Stops => stops p
      end
  end.

Fixpoint steps (ls : list label) (p : process) : option process :=
  match ls with [] => Some p | l :: ls => p' ← step l p; steps ls p' end.

(** ** What holds on the way *)

Definition failed_in (ls : list label) (err : error) : Prop :=
  Returns err ∈ ls ∧ errors_Is err ErrServerClosed = false.

(** [ls] is the way here: what is in the channels came there and is not lost,
    and the app is as main left it. *)
Record on_way (w : infra) (ls : list label) (p : process) : Prop := MkOnWay {
  way_error err : p_serverErr p = Some err → failed_in ls err;
  way_signal sig : p_quit p = Some sig → Signals sig ∈ ls;
  way_failed err : failed_in ls err → p_serverErr p ≠ None ∨ p_main p ≠ Waiting;
  way_signalled sig : Signals sig ∈ ls → p_quit p ≠ None ∨ p_main p ≠ Waiting;
  way_main :
    match p_main p with
    | Waiting => p_infra p = w
    | Stopping => p_infra p = w ∧ ∃ sig, Signals sig ∈ ls
    | Exited code =>
        (p_infra p = w ∧ code = 1 ∧ ∃ err, failed_in ls err) ∨
        ((∃ sig, Signals sig ∈ ls) ∧
         ∃ r, app.Shutdown drv a (ShutdownTimeout (cfg_Server cfg)) w = (p_infra p, r) ∧
           code = match r with Ok _ => 0 | Err _ => 1 end)
    end;
  way_stopped : Info "server stopped" "" ∈ p_log p ↔ p_main p = Exited 0
}.

Lemma failed_snoc ls l err :
  failed_in (ls ++ [l]) err ↔ failed_in ls err ∨ (l = Returns err ∧ errors_Is err ErrServerClosed = false).
Proof. unfold failed_in. rewrite elem_of_app, list_elem_of_singleton. naive_solver. Qed.

Lemma signal_snoc ls l sig : Signals sig ∈ ls ++ [l] ↔ Signals sig ∈ ls ∨ l = Signals sig.
Proof. rewrite elem_of_app, list_elem_of_singleton. naive_solver. Qed.

Lemma stopped_snoc lg e : Info "server stopped" "" ∈ lg ++ [e] ↔ Info "server stopped" "" ∈ lg ∨ e = Info "server stopped" "".
Proof. rewrite elem_of_app, list_elem_of_singleton. naive_solver. Qed.

(** A label that brings nothing into a channel. *)
Definition brings_nothing (l : label) : Prop :=
  match l with Returns err => errors_Is err ErrServerClosed = true | Signals _ => False | _ => True end.

Lemma way_quiet w ls l p : brings_nothing l → on_way w ls p → on_way w (ls ++ [l]) p.
Proof.
  intros Hq [He Hs Hf Hg Hm Hl].
  assert (∀ err, failed_in (ls ++ [l]) err ↔ failed_in ls err) as Hfail.
  { intros err. rewrite failed_snoc. split; [|by left]. intros [?|[-> Herr]]; [done|]. cbn in Hq. congruence. }
  assert (∀ sig, Signals sig ∈ ls ++ [l] ↔ Signals sig ∈ ls) as Hsig.
  { intros sig. rewrite signal_snoc. split; [|by left]. by intros [?| ->]. }
  split; [..|destruct (p_main p)|]; repeat setoid_rewrite Hfail; repeat setoid_rewrite Hsig; done.
Qed.

(** What a step changes, its label aside. *)
Lemma way_listens w ls i ph er q cl lg sv sv' cl' e :
  e ≠ Info "server stopped" "" →
  on_way w ls (MkProcess i ph sv er q cl lg) → on_way w ls (MkProcess i ph sv' er q cl' (lg ++ [e])).
Proof. intros Hne [He Hs Hf Hg Hm Hl]. split; cbn in *; rewrite ?stopped_snoc; [done..|]. naive_solver. Qed.

Lemma way_moves w ls i ph er q cl lg sv sv' cl' :
  on_way w ls (MkProcess i ph sv er q cl lg) → on_way w ls (MkProcess i ph sv' er q cl' lg).
Proof. by intros [He Hs Hf Hg Hm Hl]; split. Qed.

Lemma way_fails w ls i ph er q cl lg sv sv' err :
  errors_Is err ErrServerClosed = false →
  on_way w ls (MkProcess i ph sv er q cl lg) →
  on_way w (ls ++ [Returns err])
    (MkProcess i ph sv' (send err er) q cl lg).
Proof.
  intros Herr [He Hs Hf Hg Hm Hl].
  split; cbn [p_infra p_main p_serving p_serverErr p_quit p_closed p_log] in *;
    [..|destruct ph as [| |code]|]; repeat setoid_rewrite failed_snoc; repeat setoid_rewrite signal_snoc;
    try done.
  - destruct er; [intros e' H; left; by apply He|]. intros e' [= <-]. by right.
  - intros sig H. left. by apply Hs.
  - intros e' _. left. by destruct er.
  - intros sig [H|H]; [by apply (Hg sig)|done].
  - destruct Hm as [? [sig ?]]. eauto.
  - destruct Hm as [(? & ? & e' & ?)|[[sig ?] ?]]; [left; eauto 6|right; eauto].
Qed.

Lemma way_signals w ls i ph er q cl lg sv sig :
  on_way w ls (MkProcess i ph sv er q cl lg) →
  on_way w (ls ++ [Signals sig])
    (MkProcess i ph sv er (send sig q) cl lg).
Proof.
  intros [He Hs Hf Hg Hm Hl].
  split; cbn [p_infra p_main p_serving p_serverErr p_quit p_closed p_log] in *;
    [..|destruct ph as [| |code]|]; repeat setoid_rewrite failed_snoc; repeat setoid_rewrite signal_snoc;
    try done.
  - intros err H. left. by apply He.
  - destruct q; [intros s' H; left; by apply Hs|]. intros s' [= <-]. by right.
  - intros err [H|[? _]]; [by apply (Hf err)|done].
  - intros s' _. left. by destruct q.
  - destruct Hm as [? [s' ?]]. eauto.
  - destruct Hm as [(? & ? & e' & ?)|[[s' ?] ?]]; [left; eauto 6|right; eauto].
Qed.

Lemma step_on_way w ls l p p' : on_way w ls p → step l p = Some p' → on_way w (ls ++ [l]) p'.
Proof.
  intros Hway. destruct p as [i ph sv er q cl lg]. unfold step. cbn [p_main].
  assert (brings_nothing l → on_way w (ls ++ [l]) (MkProcess i ph sv er q cl lg)) as Hquiet
    by (intros; by apply way_quiet).
  destruct ph as [| |code] eqn:Hph; [| |done]; rewrite <-Hph in *;
    destruct l as [|err|sig| | |]; unfold listens, returns, signals, takes_signal, takes_error, stops;
    cbn [p_infra p_main p_serving p_serverErr p_quit p_closed p_log] in *.
  1,7: destruct sv; [|done..]; intros [= <-]; by eapply way_listens; [|by apply Hquiet].
  1,6: destruct sv; [done| |done]; destruct (ListenAndServe_returns cl err); [|done]; intros [= <-];
    destruct (errors_Is err ErrServerClosed) eqn:Herr;
      [eapply way_moves, Hquiet; exact Herr|by eapply way_fails].
  1,5: intros [= <-]; by apply way_signals.
  all: subst ph.
  - destruct q as [sig|] eqn:Hq; [|done]. intros [= <-]. subst.
    destruct (Hquiet I) as [He Hs Hf Hg Hm Hl].
    split; cbn [p_infra p_main p_serving p_serverErr p_quit p_closed p_log] in *; rewrite ?stopped_snoc; eauto.
    + naive_solver.
    + naive_solver.
  - destruct er as [err|] eqn:Her; [|done]. intros [= <-]. subst.
    destruct (Hquiet I) as [He Hs Hf Hg Hm Hl].
    split; cbn [p_infra p_main p_serving p_serverErr p_quit p_closed p_log] in *; rewrite ?stopped_snoc;
      [done|done|by right|by right|left; eauto|naive_solver].
  - done.
  - done.
  - done.
  - destruct (Hquiet I) as [He Hs Hf Hg Hm Hl].
    cbn [p_infra p_main p_serving p_serverErr p_quit p_closed p_log] in *. destruct Hm as [-> Hsig].
    destruct (app.Shutdown drv a _ w) as [w' r] eqn:Hr. destruct r as [[]|e]; intros [= <-];
      (split; cbn [p_infra p_main p_serving p_serverErr p_quit p_closed p_log]; rewrite ?stopped_snoc;
       [done|done|by right|by right|right; split; [done|]; eexists; split; [exact Hr|done]|naive_solver]).
Qed.

Lemma steps_on_way w ls ls' p p' : on_way w ls p → steps ls' p = Some p' → on_way w (ls ++ ls') p'.
Proof.
  revert ls p. induction ls' as [|l ls' IH]; intros ls p Hp; cbn [steps]; [intros [= <-]; by rewrite app_nil_r|].
  destruct (step l p) as [p1|] eqn:Hl; [|done]. cbn [mbind option_bind]. intros H.
  rewrite cons_middle, app_assoc. eapply IH; [by eapply step_on_way|done].
Qed.

(** ** How long it takes *)

(** Steps left, signals aside. *)
Definition left_to_do (p : process) : nat :=
  (match p_serving p with Started => 2 | Listening => 1 | Returned => 0 end +
   match p_main p with Waiting => 2 | Stopping => 1 | Exited _ => 0 end)%nat.

Definition is_signal (l : label) : bool := match l with Signals _ => true | _ => false end.

Lemma step_left l p p' :
  step l p = Some p' → ((if is_signal l then 0 else 1) + left_to_do p' ≤ left_to_do p)%nat.
Proof.
  destruct p as [i ph sv er q cl lg]. unfold step, left_to_do. cbn [p_main p_serving].
  destruct ph as [| |code], l as [|err|sig| | |]; try done;
    unfold listens, returns, signals, takes_signal, takes_error, stops; cbn [p_main p_serving p_quit p_serverErr p_closed p_infra];
    [destruct sv|destruct sv; [|destruct (ListenAndServe_returns _ _)|]| |destruct q|destruct er
    |destruct sv|destruct sv; [|destruct (ListenAndServe_returns _ _)|]| |destruct (app.Shutdown _ _ _ _) as [? [[]|?]]];
    intros [= <-]; cbn; lia.
Qed.

Lemma steps_left ls p p' :
  steps ls p = Some p' → (length (filter (λ l, is_signal l = false) ls) + left_to_do p' ≤ left_to_do p)%nat.
Proof.
  revert p. induction ls as [|l ls IH]; intros p; cbn [steps]; [by intros [= <-]|].
  destruct (step l p) as [p1|] eqn:Hl; [|done]. cbn [mbind option_bind]. intros H%IH.
  apply step_left in Hl. rewrite filter_cons. destruct (is_signal l) eqn:Hs, (decide _); cbn in *; try congruence; lia.
Qed.

End lifecycle.

(** ** From start to exit *)

(** The process after the steps [ls] of its goroutines. *)
Definition reaches (drv : Drivers) (cfgPath : string) (w : infra) (ls : list label) (p : process) : Prop :=
  match boot drv cfgPath w with
  | (p0, None) => ls = [] ∧ p = p0
  | (p0, Some (cfg, a)) => steps drv cfg a ls p0 = Some p
  end.

Lemma boot_on_way drv path w p0 cfg a :
  boot drv path w = (p0, Some (cfg, a)) →
  app.MustLoad drv path = Ok cfg ∧ app.New drv cfg w = (p_infra p0, Ok a) ∧
  left_to_do p0 = 4%nat ∧ on_way drv cfg a (p_infra p0) [] p0.
Proof.
  unfold boot. destruct (app.MustLoad drv path) as [cfg'|e]; [|done].
  destruct (app.New drv cfg' w) as [w1 [a'|e]] eqn:Hn; [|done]. intros [= <- <- <-].
  do 3 (split; [done|]). split; cbn; [done|done| | |done|].
  - by intros err [?%elem_of_nil _].
  - by intros sig ?%elem_of_nil.
  - by split; [intros ?%elem_of_nil|].
Qed.

(** C38: however the goroutines of main are interleaved, and whatever signals
    arrive and errors the server has, a process that is gone is gone as one
    run of main: with the same code, holding the same, and either because a
    signal had arrived or because the server had failed with an error other
    than that it was closed. It says "server stopped" exactly when it ends
    with 0. *)
Theorem lifecycle_exit drv path w ls p code :
  reaches drv path w ls p → p_main p = Exited code →
  (Info "server stopped" "" ∈ p_log p ↔ code = 0) ∧
  ∃ why, app.main drv path why w = (p_infra p, code) ∧
    (ls = [] ∨ match why with
               | app.Signalled => ∃ sig, Signals sig ∈ ls
               | app.ServerError err => failed_in ls err
               end).
Proof.
  unfold reaches. destruct (boot drv path w) as [p0 [[cfg a]|]] eqn:Hb.
  - apply boot_on_way in Hb as (Hcfg & Hn & _ & H0). intros Hs Hc.
    destruct (steps_on_way _ _ _ _ _ _ _ _ H0 Hs) as [_ _ _ _ Hm Hl]. cbn [app] in *.
    rewrite Hc in Hm, Hl. split; [rewrite Hl; split; [by intros [= ->]|by intros ->]|].
    unfold app.main. rewrite Hcfg, Hn. destruct Hm as [(-> & -> & err & Hf)|(Hsig & r & Hr & ->)].
    + exists (app.ServerError err). auto.
    + exists app.Signalled. split; [|by right]. rewrite Hr. by destruct r.
  - unfold boot in Hb. intros [-> ->]. destruct (app.MustLoad drv path) as [cfg|e] eqn:Hcfg.
    + destruct (app.New drv cfg w) as [w1 [a|e]] eqn:Hn; [done|]. injection Hb as <-. intros [= <-].
      split; [cbn; split; [intros [?|?%elem_of_nil]%elem_of_cons; done|done]|].
      exists app.Signalled. split; [|by left]. unfold app.main. by rewrite Hcfg, Hn.
    + injection Hb as <-. intros [= <-]. split; [cbn; split; [by intros ?%elem_of_nil|done]|].
      exists app.Signalled. split; [|by left]. unfold app.main. by rewrite Hcfg.
Qed.

(** C39: the process ends. Its goroutines take at most four steps, signals
    aside, and as long as it is there, either nothing has happened to stop it
    (no signal, no failure of the server), or main has a step to take: no
    signal and no failure is lost, and no goroutine waits for another. *)
Theorem lifecycle_ends drv path w ls p :
  reaches drv path w ls p →
  (length (filter (λ l, is_signal l = false) ls) ≤ 4)%nat ∧
  ((∃ code, p_main p = Exited code) ∨
   (p_main p = Waiting ∧ (∀ sig, Signals sig ∉ ls) ∧ ∀ err, ¬ failed_in ls err) ∨
   ∃ cfg a l, app.MustLoad drv path = Ok cfg ∧ l ∈ [TakesSignal; TakesError; Stops] ∧
     is_Some (step drv cfg a l p)).
Proof.
  unfold reaches. destruct (boot drv path w) as [p0 [[cfg a]|]] eqn:Hb.
  - apply boot_on_way in Hb as (Hcfg & _ & H4 & H0). intros Hs. pose proof (steps_left _ _ _ _ _ _ Hs) as Hle.
    split; [lia|]. destruct (steps_on_way _ _ _ _ _ _ _ _ H0 Hs) as [_ _ Hf Hg _ _]. cbn [app] in *.
    destruct p as [i ph sv er q cl lg]. cbn [p_main p_serverErr p_quit] in *. destruct ph as [| |code]; [| |eauto].
    + destruct q as [sig|].
      { right; right. exists cfg, a, TakesSignal. split_and!; [done|set_solver|by eexists]. }
      destruct er as [err|].
      { right; right. exists cfg, a, TakesError. split_and!; [done|set_solver|by eexists]. }
      right; left. split; [done|]. split; [intros sig H; by destruct (Hg sig H)|intros err H; by destruct (Hf err H)].
    + right; right. exists cfg, a, Stops. split_and!; [done|set_solver|]. cbn. unfold stops. cbn [p_main p_infra].
      destruct (app.Shutdown _ _ _ _) as [w' [[]|e]]; by eexists.
  - unfold boot in Hb. intros [-> ->]. split; [cbn; lia|]. left.
    destruct (app.MustLoad drv path) as [cfg|e]; [destruct (app.New drv cfg w) as [w1 [a|e]]; [done|]|];
      injection Hb as <-; by eexists.
Qed.
