(* ===== verification/Genschema.v ===== *)
(** * Genschema: scripts/genschema/main.go

    From the migrations to the entity diagram of the README: the four regular
    expressions of the script over a matcher for the expressions it uses, the
    parser of the migrations, the diagram and the patching of the file. Files
    are texts in bytes; letter case and white space are ASCII's. *)
From stdpp Require Import sorting.
From S2P Require Import Prelude Go GoStrings.
Open Scope Z_scope.

(** ** package regexp, as far as the script uses it *)

Module regexp.

(** [\w], [\s] and [[^)]]. *)
Inductive class : Type := Word | Space | NotParen.

Definition in_class (k : class) (c : ascii) : bool :=
  let n := N_of_ascii c in
  match k with
  | Word => ((48 <=? n) && (n <=? 57) || (65 <=? n) && (n <=? 90) || (97 <=? n) && (n <=? 122) || (n =? 95))%N
  | Space => ((n =? 9) || (n =? 10) || (n =? 12) || (n =? 13) || (n =? 32))%N
  | NotParen => negb (n =? 41)%N
  end.

(** A literal regardless of case, a run of a class of some length or more, and
    such a run of at least one byte that is captured. *)
Inductive item : Type :=
  | Lit (p : string)
  | Run (least : nat) (k : class)
  | Cap (k : class).

Definition Regexp : Type := list item.

(** The longest prefix in a class, and what follows. *)
Fixpoint span (k : class) (s : string) : string * string :=
  match s with
  | EmptyString => (EmptyString, EmptyString)
  | String c s' =>
      if in_class k c then let '(u, r) := span k s' in (String c u, r) else (EmptyString, s)
  end.

(** A literal regardless of case. *)
Fixpoint cut_fold (s p : string) {struct p} : option string :=
  match p, s with
  | EmptyString, _ => Some s
  | String d p, String c s => if bool_decide (lower_char c = lower_char d) then cut_fold s p else None
  | String _ _, EmptyString => None
  end.

Fixpoint match_here (r : Regexp) (s : string) : option (list string) :=
  match r with
  | [] => Some []
  | Lit p :: r => match cut_fold s p with Some s => match_here r s | None => None end
  | Run least k :: r =>
      let '(u, s) := span k s in if (least <=? String.length u)%nat then match_here r s else None
  | Cap k :: r =>
      let '(u, s) := span k s in
      if (1 <=? String.length u)%nat then cons u <$> match_here r s else None
  end.

(** [FindStringSubmatch]: the captures of the first match. *)
Fixpoint FindStringSubmatch (r : Regexp) (s : string) : option (list string) :=
  match match_here r s with
  | Some caps => Some caps
  | None => match s with EmptyString => None | String _ s => FindStringSubmatch r s end
  end.

(** *** What the expressions mean *)

(** [r] matches a prefix of [s] with these captures. A run may have any length;
    one that ends the expression is as long as possible, as greedy runs are. *)
Definition longest (k : class) (s : string) : Prop :=
  match s with EmptyString => True | String c _ => in_class k c = false end.

Inductive matches : Regexp → string → list string → Prop :=
  | matches_nil s : matches [] s []
  | matches_lit p p' r s caps :
      ToLower p' = ToLower p → matches r s caps → matches (Lit p :: r) (p' +:+ s) caps
  | matches_run least k u r s caps :
      str_forall (in_class k) u = true → (least ≤ String.length u)%nat → (r = [] → longest k s) →
      matches r s caps → matches (Run least k :: r) (u +:+ s) caps
  | matches_cap k u r s caps :
      str_forall (in_class k) u = true → (1 ≤ String.length u)%nat → (r = [] → longest k s) →
      matches r s caps → matches (Cap k :: r) (u +:+ s) (u :: caps).

(** Whether a run can only stop where the next item starts. *)
Definition all_bytes : list ascii := ascii_of_nat <$> seq 0 256.
Definition apart (k k' : class) : bool := forallb (λ c, negb (in_class k c && in_class k' c)) all_bytes.
Definition stops (k : class) (r : Regexp) : bool :=
  match r with
  | [] => true
  | Lit (String d _) :: _ =>
      forallb (λ c, negb (in_class k c && bool_decide (lower_char c = lower_char d))) all_bytes
  | Lit EmptyString :: _ => false
  | Run least k' :: _ => (1 <=? least)%nat && apart k k'
  | Cap k' :: _ => apart k k'
  end.
Fixpoint separated (r : Regexp) : bool :=
  match r with
  | [] => true
  | Lit _ :: r => separated r
  | (Run _ k | Cap k) :: r => stops k r && separated r
  end.

Lemma all_bytes_in c : c ∈ all_bytes.
Proof.
  apply list_elem_of_fmap. exists (nat_of_ascii c). rewrite ascii_nat_embedding. split; [done|].
  apply elem_of_seq. pose proof (nat_ascii_bounded c). lia.
Qed.

Lemma forallb_bytes (f : ascii → bool) c : forallb f all_bytes = true → f c = true.
Proof. intros Hf. rewrite forallb_forall in Hf. apply Hf, list_elem_of_In, all_bytes_in. Qed.

Lemma span_spec k s u r :
  span k s = (u, r) → s = u +:+ r ∧ str_forall (in_class k) u = true ∧ longest k r.
Proof.
  revert u r. induction s as [|c s IH]; intros u r; cbn; [by intros [= <- <-]|].
  destruct (in_class k c) eqn:Hc.
  - destruct (span k s) as [u' r'] eqn:Hs. intros [= <- <-].
    destruct (IH _ _ eq_refl) as (-> & Hu & Hl). rewrite str_app_cons. cbn. by rewrite Hc.
  - intros [= <- <-]. split; [done|]. split; [done|]. exact Hc.
Qed.

Lemma span_app k u r : str_forall (in_class k) u = true → longest k r → span k (u +:+ r) = (u, r).
Proof.
  induction u as [|c u IH]; cbn [str_forall].
  - intros _ Hl. rewrite str_app_nil_l. destruct r as [|c r]; [done|]. cbn in Hl |- *. by rewrite Hl.
  - intros [Hc Hu]%andb_true_iff Hl. rewrite str_app_cons. cbn. by rewrite Hc, IH.
Qed.

Lemma cut_fold_spec s p t :
  cut_fold s p = Some t ↔ ∃ p', ToLower p' = ToLower p ∧ s = p' +:+ t.
Proof.
  revert s. induction p as [|d p IH]; intros s; cbn.
  - split; [intros [= ->]; by exists ""|]. by intros ([|c p'] & Hp & ->).
  - destruct s as [|c s].
    + split; [done|]. by intros ([|c p'] & Hp & ?).
    + case_bool_decide as Hc.
      * rewrite IH. split.
        -- intros (p' & Hp & ->). exists (String c p'). cbn. by rewrite Hp, Hc.
        -- intros ([|c' p'] & Hp & Heq); [done|]. rewrite str_app_cons in Heq. simplify_eq.
           cbn in Hp. exists p'. by simplify_eq.
      * split; [done|]. intros ([|c' p'] & Hp & Heq); [done|]. rewrite str_app_cons in Heq. cbn in Hp. by simplify_eq.
Qed.

(** A match starts where a run before it has to stop. *)
Lemma stops_longest k r s caps : stops k r = true → r ≠ [] → matches r s caps → longest k s.
Proof.
  intros Hst Hr Hm. destruct Hm as [s|p p' r s caps Hp Hm|least k' u r s caps Hu Hl _ Hm|k' u r s caps Hu Hl _ Hm];
    [done|..]; cbn [stops] in Hst.
  - destruct p as [|d p]; [done|]. destruct p' as [|c p']; [done|].
    cbn in Hp. cbn [longest].
    apply (forallb_bytes _ c) in Hst. apply negb_true_iff, andb_false_iff in Hst as [Hst|Hst]; [done|].
    apply bool_decide_eq_false in Hst. by simplify_eq.
  - apply andb_true_iff in Hst as [H1 Hst]. apply Nat.leb_le in H1. destruct u as [|c u]; [cbn in Hl; lia|].
    cbn [str_forall longest] in Hu |- *. apply andb_true_iff in Hu as [Hc _].
    unfold apart in Hst. apply (forallb_bytes _ c) in Hst. cbv beta in Hst. rewrite Hc, andb_true_r in Hst. by apply negb_true_iff in Hst.
  - destruct u as [|c u]; [cbn in Hl; lia|].
    cbn [str_forall longest] in Hu |- *. apply andb_true_iff in Hu as [Hc _].
    unfold apart in Hst. apply (forallb_bytes _ c) in Hst. cbv beta in Hst. rewrite Hc, andb_true_r in Hst.
    by apply negb_true_iff in Hst.
Qed.

Lemma match_here_spec r s caps :
  separated r = true → match_here r s = Some caps ↔ matches r s caps.
Proof.
  revert s caps. induction r as [|[p|least k|k] r IH]; intros s caps; cbn [separated match_here].
  - intros _. split; [intros [= <-]; constructor|by inversion 1].
  - intros Hs. destruct (cut_fold s p) as [t|] eqn:Hc.
    + rewrite IH by done. split.
      * intros Hm. apply cut_fold_spec in Hc as (p' & Hp & ->). by constructor.
      * inversion 1 as [|p0 p' r0 s' caps' Hp Hm| |]; subst.
        assert (cut_fold (p' +:+ s') p = Some s') as Hc' by (apply cut_fold_spec; eauto).
        rewrite Hc in Hc'. by simplify_eq.
    + split; [done|]. inversion 1 as [|p0 p' r0 s' caps' Hp Hm| |]; subst.
      assert (cut_fold (p' +:+ s') p = Some s') as Hc' by (apply cut_fold_spec; eauto).
      by rewrite Hc in Hc'.
  - intros [Hst Hs]%andb_true_iff. destruct (span k s) as [u t] eqn:Hsp. split.
    + apply span_spec in Hsp as (-> & Hu & Hl). destruct (Nat.leb_spec least (String.length u)); [|done].
      intros Hm%IH; [|done]. by constructor.
    + inversion 1 as [| |least' k' u' r' s' caps' Hu Hlen Hlong Hm|]; subst.
      assert (longest k s') as Hl by (destruct r; [by apply Hlong|by eapply stops_longest]).
      rewrite span_app in Hsp by done. injection Hsp as <- <-. apply Nat.leb_le in Hlen as ->. by apply IH.
  - intros [Hst Hs]%andb_true_iff. destruct (span k s) as [u t] eqn:Hsp. split.
    + apply span_spec in Hsp as (-> & Hu & Hl). destruct (Nat.leb_spec 1 (String.length u)); [|done].
      destruct (match_here r t) as [caps'|] eqn:Hm; [|done]. intros [= <-]. apply IH in Hm; [|done]. by constructor.
    + inversion 1 as [| | |k' u' r' s' caps' Hu Hlen Hlong Hm]; subst.
      assert (longest k s') as Hl by (destruct r; [by apply Hlong|by eapply stops_longest]).
      rewrite span_app in Hsp by done. injection Hsp as <- <-. apply Nat.leb_le in Hlen as ->.
      apply IH in Hm; [|done]. by rewrite Hm.
Qed.

(** A match at the first place where there is one. *)
Lemma Find_spec r s caps :
  separated r = true →
  FindStringSubmatch r s = Some caps ↔
    ∃ a b, s = a +:+ b ∧ matches r b caps ∧
      ∀ a' b' caps', s = a' +:+ b' → (String.length a' < String.length a)%nat → ¬ matches r b' caps'.
Proof.
  intros Hr. induction s as [|c s IH]; cbn [FindStringSubmatch].
  - destruct (match_here r "") as [caps'|] eqn:Hm; split.
    + intros [= ->]. exists "", "". split; [done|]. split; [by apply match_here_spec|]. cbn. lia.
    + intros ([|] & [|] & ? & Hm' & _); try done. apply match_here_spec in Hm'; [|done]. congruence.
    + done.
    + intros ([|] & [|] & ? & Hm' & _); try done. apply match_here_spec in Hm'; [|done]. congruence.
  - destruct (match_here r (String c s)) as [caps'|] eqn:Hm.
    + split.
      * intros [= ->]. exists "", (String c s). split; [done|]. split; [by apply match_here_spec|]. cbn. lia.
      * intros ([|d a] & b & Heq & Hm' & Hfirst).
        -- rewrite str_app_nil_l in Heq. subst. apply match_here_spec in Hm'; [|done]. congruence.
        -- exfalso. eapply (Hfirst "" (String c s)); [done|cbn; lia|]. by apply match_here_spec.
    + rewrite IH. split.
      * intros (a & b & -> & Hm' & Hfirst). exists (String c a), b. split; [done|]. split; [done|].
        intros [|d a'] b' caps' Heq Hlen Hm''.
        -- rewrite str_app_nil_l in Heq. subst. apply match_here_spec in Hm''; [|done]. congruence.
        -- rewrite str_app_cons in Heq. injection Heq as -> Heq. cbn in Hlen.
           eapply Hfirst; [exact Heq|lia|exact Hm''].
      * intros ([|d a] & b & Heq & Hm' & Hfirst).
        -- rewrite str_app_nil_l in Heq. subst. apply match_here_spec in Hm'; [|done]. congruence.
        -- rewrite str_app_cons in Heq. injection Heq as -> ->. exists a, b. split; [done|]. split; [done|].
           intros a' b' caps' Heq Hlen. apply (Hfirst (String d a')); [by rewrite str_app_cons, Heq|cbn; lia].
Qed.

End regexp.

(** ** The script *)

Module genschema.
Import regexp.

Definition startMarker : string := "<!-- schema:start -->".
Definition endMarker : string := "<!-- schema:end -->".

Record column : Type := MkColumn { name : string; typ : string; pk : bool; fk : bool; uk : bool }.
Record foreignKey : Type := MkForeignKey { srcCol : string; dstTable : string }.
Record table : Type := MkTable { t_name : string; cols : list column; fks : list foreignKey }.

Definition reCreateTable : Regexp := [Lit "CREATE TABLE IF NOT EXISTS "; Cap Word].
Definition rePK : Regexp := [Lit "PRIMARY KEY"; Run 0 Space; Lit "("; Cap NotParen; Lit ")"].
Definition reUK : Regexp := [Lit "UNIQUE KEY "; Run 1 Word; Lit " ("; Cap Word; Lit ")"].
Definition reFK : Regexp :=
  [Lit "FOREIGN KEY"; Run 0 Space; Lit "("; Cap Word; Lit ")"; Run 0 Space; Lit "REFERENCES";
   Run 1 Space; Cap Word].

Definition skipPrefixes : list string :=
  ["primary key"; "unique key"; "constraint"; "key "; "index "; ") engine"; ")"].
Definition skipKeywords : list string := ["primary"; "unique"; "constraint"; "key"; "index"].

Definition shouldSkip (lower : string) : bool :=
  existsb (HasPrefix lower) skipPrefixes || bool_decide (lower = "") || HasPrefix lower "--".

(** [None] is a run-time panic: an index out of range. *)
Definition normalizeType (s : string) : option string :=
  let t := ToLower s in
  let t := match Index t "(" with
           | Some idx => if (0 <? idx)%nat then take_str idx t else t
           | None => t
           end in
  Fields t !! 0%nat.

(** Setting a flag of the columns with a name. *)
Definition mark (f : column → column) (n : string) (cur : table) : table :=
  MkTable (t_name cur) ((λ c, if bool_decide (name c = n) then f c else c) <$> cols cur) (fks cur).
Definition set_pk (c : column) : column := MkColumn (name c) (typ c) true (fk c) (uk c).
Definition set_fk (c : column) : column := MkColumn (name c) (typ c) (pk c) true (uk c).
Definition set_uk (c : column) : column := MkColumn (name c) (typ c) (pk c) (fk c) true.

Definition markPKColumns (cur : table) (colList : string) : table :=
  foldl (λ cur c, mark set_pk (TrimSpace c) cur) cur (Split colList ",").
Definition markUKColumn (cur : table) (n : string) : table := mark set_uk n cur.
Definition addFK (cur : table) (src dst : string) : table :=
  mark set_fk src (MkTable (t_name cur) (cols cur) (fks cur ++ [MkForeignKey src dst])).

Definition addColumnIfValid (cur : table) (trimmed : string) : option table :=
  match Fields trimmed with
  | f0 :: f1 :: _ =>
      if bool_decide (ToLower f0 ∈ skipKeywords) then Some cur
      else t ← normalizeType f1;
           Some (MkTable (t_name cur) (cols cur ++ [MkColumn f0 t false false false]) (fks cur))
  | _ => Some cur
  end.

Definition processTableLine (cur : table) (trimmed lower : string) : option table :=
  match FindStringSubmatch rePK trimmed with
  | Some caps => Some (markPKColumns cur (default "" (caps !! 0%nat)))
  | None =>
  match FindStringSubmatch reUK trimmed with
  | Some caps => Some (markUKColumn cur (TrimSpace (default "" (caps !! 0%nat))))
  | None =>
  match FindStringSubmatch reFK trimmed with
  | Some caps =>
      Some (addFK cur (TrimSpace (default "" (caps !! 0%nat))) (TrimSpace (default "" (caps !! 1%nat))))
  | None => if negb (shouldSkip lower) then addColumnIfValid cur trimmed else Some cur
  end end end.

(** One line of the file; the current table, if any, and the tables so far. *)
Definition parseLine (st : option (list table * option table)) (raw : string)
    : option (list table * option table) :=
  '(tables, cur) ← st;
  let trimmed := TrimSpace raw in
  let lower := ToLower trimmed in
  match FindStringSubmatch reCreateTable trimmed with
  | Some caps => Some (tables, Some (MkTable (default "" (caps !! 0%nat)) [] []))
  | None =>
      match cur with
      | None => Some (tables, None)
      | Some cur =>
          if HasPrefix lower ")" then Some (tables ++ [cur], None)
          else cur ← processTableLine cur trimmed lower; Some (tables, Some cur)
      end
  end.

Definition newline : ascii := "010"%char.

Definition parseSQL (sql : string) : option (list table) :=
  fst <$> foldl parseLine (Some ([], None)) (Split sql newline).

(** The files' names are sorted; reading one can fail. The outer [option] is a panic. *)
Fixpoint parseFiles (ReadFile : string → result string) (files : list string) : option (result (list table)) :=
  match files with
  | [] => Some (Ok [])
  | f :: files =>
      match ReadFile f with
      | Err err => Some (Err err)
      | Ok data =>
          ts ← parseSQL data;
          rest ← parseFiles ReadFile files;
          Some (l ← rest; Ok (ts ++ l))
      end
  end.

Definition parseMigrations (Glob : result (list string)) (ReadFile : string → result string)
    : option (result (list table)) :=
  match Glob with
  | Err err => Some (Err err)
  | Ok files => parseFiles ReadFile (merge_sort String.le files)
  end.

Definition nl : string := String newline EmptyString.
Definition fence : string := "```".

Definition attr_of (c : column) : string :=
  if pk c && fk c then " PK,FK" else if pk c then " PK" else if fk c then " FK"
  else if uk c then " UK" else "".

Definition concat_str (l : list string) : string := foldr String.append EmptyString l.

Definition tableBlock (t : table) : string :=
  "    " +:+ t_name t +:+ " {" +:+ nl +:+
  concat_str ((λ c, "        " +:+ typ c +:+ " " +:+ name c +:+ attr_of c +:+ nl) <$> cols t) +:+
  "    }" +:+ nl.

Definition tableLinks (t : table) : string :=
  concat_str ((λ k, "    " +:+ dstTable k +:+ " ||--o{ " +:+ t_name t +:+ " : " +:+
    quoted (srcCol k) +:+ nl) <$> fks t).

Definition mermaidERD (tables : list table) : string :=
  fence +:+ "mermaid" +:+ nl +:+ "erDiagram" +:+ nl +:+
  concat_str (tableBlock <$> tables) +:+ concat_str (tableLinks <$> tables) +:+ fence.

(** The patched text. *)
Definition patch (src content : string) : result string :=
  match Index src startMarker, Index src endMarker with
  | Some si, Some ei =>
      if (si <? ei)%nat then
        Ok (take_str (si + String.length startMarker) src +:+ nl +:+ content +:+ nl +:+ drop_str ei src)
      else Err (OtherError "markers not found")
  | _, _ => Err (OtherError "markers not found")
  end.

Definition patchReadme {W} (ReadFile : comp W string) (WriteFile : string → comp W unit)
    (content : string) : comp W unit :=
  data ← ReadFile;
  patched ← lift_result (patch data content);
  WriteFile patched.

Definition main {W} (Glob : result (list string)) (migration : string → result string)
    (ReadFile : comp W string) (WriteFile : string → comp W unit) : comp W unit :=
  match parseMigrations Glob migration with
  | None => throw (OtherError "panic")
  | Some tables =>
      tables ← on_err (wrap "genschema: parse migrations") (lift_result tables);
      on_err (wrap "genschema: patch readme") (patchReadme ReadFile WriteFile (mermaidERD tables))
  end.

(** ** No panic *)

Lemma fields_from_nonempty w s : ∀ f, f ∈ fields_from w s → f ≠ "".
Proof.
  revert w. induction s as [|c s IH]; intros w f; cbn [fields_from].
  - destruct w; [by intros ?%elem_of_nil|]. by intros ->%list_elem_of_singleton.
  - destruct (is_space c); [|apply IH]. rewrite elem_of_app.
    intros [Hf|Hf]; [|by eapply IH]. destruct w; [by apply elem_of_nil in Hf|].
    by apply list_elem_of_singleton in Hf as ->.
Qed.

Definition spaceless : string → bool := str_forall (λ c, negb (is_space c)).

Lemma fields_from_spaceless w s : spaceless w = true → ∀ f, f ∈ fields_from w s → spaceless f = true.
Proof.
  revert w. induction s as [|c s IH]; intros w Hw f; cbn [fields_from].
  - destruct w; [by intros ?%elem_of_nil|]. by intros ->%list_elem_of_singleton.
  - destruct (is_space c) eqn:Hc.
    + rewrite elem_of_app. intros [Hf|Hf]; [|by eapply (IH "")]. destruct w; [by apply elem_of_nil in Hf|].
      by apply list_elem_of_singleton in Hf as ->.
    + apply IH. unfold spaceless. rewrite str_forall_app. unfold spaceless in Hw. rewrite Hw. cbn. by rewrite Hc.
Qed.

Lemma fields_from_word w s : spaceless s = true → w +:+ s ≠ "" → fields_from w s = [w +:+ s].
Proof.
  revert w. induction s as [|c s IH]; intros w; cbn [fields_from].
  - rewrite str_app_nil_r. by destruct w.
  - intros [Hc Hs]%andb_true_iff Hne. apply negb_true_iff in Hc. rewrite Hc.
    replace (w +:+ String c s) with ((w +:+ String c "") +:+ s) by by rewrite str_app_assoc.
    apply IH; [done|]. by destruct w.
Qed.

Lemma lower_char_space c : is_space (lower_char c) = is_space c.
Proof.
  assert (forallb (λ c, Bool.eqb (is_space (lower_char c)) (is_space c)) all_bytes = true) as Hall
    by (vm_compute; reflexivity).
  apply (forallb_bytes _ c) in Hall. by apply eqb_prop in Hall.
Qed.

Lemma ToLower_spaceless s : spaceless (ToLower s) = spaceless s.
Proof. unfold spaceless. induction s as [|c s IH]; [done|]. cbn. by rewrite lower_char_space, IH. Qed.

Lemma take_str_spaceless i s : spaceless s = true → spaceless (take_str i s) = true.
Proof.
  unfold spaceless. revert s. induction i as [|i IH]; intros [|c s]; [done..|]. cbn.
  intros [-> Hs]%andb_true_iff. by apply IH.
Qed.

Lemma normalizeType_word s : spaceless s = true → s ≠ "" → ∃ t, normalizeType s = Some t.
Proof.
  intros Hs Hne. unfold normalizeType.
  assert (spaceless (ToLower s) = true) as Hl by by rewrite ToLower_spaceless.
  assert (ToLower s ≠ "") as Hlne by by destruct s.
  assert (∀ t, spaceless t = true → t ≠ "" → ∃ t', Fields t !! 0%nat = Some t') as Hf.
  { intros t Ht Htne. unfold Fields. rewrite fields_from_word by done. by eexists. }
  destruct (Index (ToLower s) "(") as [i|] eqn:Hi; [|by apply Hf].
  destruct (Nat.ltb_spec 0 i); [|by apply Hf]. apply Hf; [by apply take_str_spaceless|].
  destruct i; [lia|]. by destruct (ToLower s).
Qed.

Lemma addColumn_total cur trimmed : ∃ t, addColumnIfValid cur trimmed = Some t.
Proof.
  unfold addColumnIfValid. destruct (Fields trimmed) as [|f0 [|f1 fs]] eqn:Hf; [by eexists..|].
  case_bool_decide; [by eexists|].
  assert (f1 ∈ Fields trimmed) as Hin by (rewrite Hf; right; left).
  destruct (normalizeType_word f1) as [t ->]; [|by eapply fields_from_nonempty|by eexists].
  by eapply (fields_from_spaceless "").
Qed.

Lemma parseLine_total st raw : ∃ st', parseLine (Some st) raw = Some st'.
Proof.
  destruct st as [tables [cur|]]; cbn.
  - destruct (FindStringSubmatch reCreateTable _); [by eexists|]. destruct (HasPrefix _ _); [by eexists|].
    unfold processTableLine. repeat (destruct (FindStringSubmatch _ _); [by eexists|]).
    destruct (negb _); [|by eexists]. destruct (addColumn_total cur (TrimSpace raw)) as [t ->]. by eexists.
  - destruct (FindStringSubmatch _ _); by eexists.
Qed.

Lemma parseSQL_total sql : ∃ ts, parseSQL sql = Some ts.
Proof.
  unfold parseSQL. generalize (Split sql newline) as l. intros l.
  enough (∀ st, ∃ st', foldl parseLine (Some st) l = Some st') as Hall.
  { destruct (Hall ([], None)) as [st' ->]. by eexists. }
  induction l as [|raw l IH]; intros st; [by eexists|]. cbn [foldl].
  destruct (parseLine_total st raw) as [st' ->]. apply IH.
Qed.

(** ** Patching again *)

Definition no_byte (c : ascii) : string → bool := str_forall (λ d, negb (bool_decide (d = c))).

Lemma HasPrefix_line c a b m : no_byte c m = true → HasPrefix (a +:+ String c b) m = HasPrefix a m.
Proof.
  unfold HasPrefix. revert a. induction m as [|d m IH]; intros a Hm; [by destruct a|].
  cbn in Hm. apply andb_true_iff in Hm as [Hd Hm]. apply negb_true_iff, bool_decide_eq_false in Hd.
  destruct a as [|e a].
  - rewrite str_app_nil_l. cbn. rewrite bool_decide_false by congruence. done.
  - rewrite str_app_cons. cbn. case_bool_decide; [by apply IH|done].
Qed.

(** A marker without line breaks is in one of two lines. *)
Lemma Index_line c a b m :
  no_byte c m = true → m ≠ "" →
  Index (a +:+ String c b) m =
    match Index a m with Some i => Some i | None => Nat.add (S (String.length a)) <$> Index b m end.
Proof.
  intros Hm Hne. induction a as [|d a IH].
  - pose proof (HasPrefix_line c "" b m Hm) as Hp. rewrite str_app_nil_l in *. cbn [Index].
    rewrite Hp. assert (HasPrefix "" m = false) as -> by by destruct m.
    cbn [String.length]. by destruct (Index b m).
  - pose proof (HasPrefix_line c (String d a) b m Hm) as Hp. rewrite str_app_cons in *. cbn [Index].
    rewrite Hp. destruct (HasPrefix (String d a) m); [done|]. rewrite IH.
    destruct (Index a m); [done|]. cbn [fmap option_fmap option_map]. by destruct (Index b m).
Qed.

Lemma HasPrefix_take n s m : (String.length m ≤ n)%nat → HasPrefix (take_str n s) m = HasPrefix s m.
Proof.
  unfold HasPrefix. revert n s. induction m as [|d m IH]; intros n s Hn; [by destruct (take_str n s), s|].
  cbn in Hn. destruct n as [|n]; [lia|]. destruct s as [|c s]; [done|]. cbn.
  case_bool_decide; [apply IH; lia|done].
Qed.

Lemma Index_take s m i : Index s m = Some i → Index (take_str (i + String.length m) s) m = Some i.
Proof.
  revert i. induction s as [|c s IH]; intros i; cbn [Index].
  - destruct (HasPrefix "" m) eqn:Hp; [|done]. intros [= <-]. destruct m; [done|done].
  - destruct (HasPrefix (String c s) m) eqn:Hp.
    + intros [= <-]. assert (HasPrefix (take_str (String.length m) (String c s)) m = true) as Hp'
        by by rewrite HasPrefix_take. cbn [Nat.add]. destruct (take_str _ _); cbn [Index]; by rewrite Hp'.
    + destruct (Index s m) as [k|] eqn:Hk; [|done]. intros [= <-]. cbn [Nat.add take_str Index].
      change (String c (take_str (k + String.length m) s)) with (take_str (S (k + String.length m)) (String c s)).
      rewrite HasPrefix_take by lia. by rewrite Hp, IH.
Qed.

(** What is not in a text's beginning, being first somewhere after. *)
Lemma Index_before s m i n :
  Index s m = Some i → (n < i + String.length m)%nat → Index (take_str n s) m = None.
Proof.
  revert i n. induction s as [|c s IH]; intros i n; cbn [Index].
  - destruct (HasPrefix "" m) eqn:Hp; [|done]. intros [= <-]. destruct m; cbn; [lia|done].
  - assert (∀ n, (n < String.length m)%nat → ∀ s, Index (take_str n s) m = None) as Hshort.
    { clear. induction n as [|n IHn]; intros Hn s.
      - assert (take_str 0 s = "") as -> by by destruct s. by destruct m; [cbn in Hn; lia|].
      - destruct (Index (take_str (S n) s) m) as [j|] eqn:Hj; [|done].
        apply Index_Some in Hj as (t & Ht & _). apply (f_equal String.length) in Ht.
        rewrite !str_length_app in Ht.
        assert (String.length (take_str (S n) s) ≤ S n)%nat; [|lia].
        clear. generalize (S n) as k. induction s as [|d s IH]; intros [|k]; cbn; [lia..|]. specialize (IH k). lia. }
    destruct (HasPrefix (String c s) m) eqn:Hp.
    + intros [= <-] Hn. apply Hshort. lia.
    + destruct (Index s m) as [k|] eqn:Hk; [|done]. intros [= <-] Hn.
      destruct n as [|n]; [apply Hshort; destruct m; [done|cbn; lia]|].
      destruct (decide (S n < String.length m)%nat); [by apply Hshort|].
      cbn [take_str Index]. change (String c (take_str n s)) with (take_str (S n) (String c s)).
      rewrite HasPrefix_take by lia. rewrite Hp, (IH k n); [done..|lia].
Qed.

Lemma drop_str_drop i j s : drop_str i (drop_str j s) = drop_str (j + i) s.
Proof.
  revert s. induction j as [|j IH]; intros s; [by rewrite drop_str_0|].
  destruct s; [by destruct i|apply IH].
Qed.

Lemma Index_drop s m i : Index s m = Some i → ∃ t, drop_str i s = m +:+ t.
Proof.
  intros (t & Ht & Hl)%Index_Some. exists t. rewrite Ht at 1.
  rewrite <-(take_str_length i s Hl) at 1. apply drop_str_app.
Qed.

Lemma Index_prefix m t : Index (m +:+ t) m = Some 0%nat.
Proof.
  assert (HasPrefix (m +:+ t) m = true) as Hp by (apply HasPrefix_true; by exists t).
  destruct (m +:+ t); cbn [Index]; by rewrite Hp.
Qed.

(** The markers do not overlap. *)
Lemma markers_apart src si ei :
  Index src startMarker = Some si → Index src endMarker = Some ei → (si < ei)%nat →
  (si + String.length startMarker ≤ ei)%nat.
Proof.
  intros [t1 H1]%Index_drop [t2 H2]%Index_drop Hlt.
  destruct (decide (si + String.length startMarker ≤ ei)%nat) as [|Hin]; [done|exfalso].
  assert (∃ k, ei = (si + S k)%nat ∧ (k < 20)%nat) as (k & -> & Hk).
  { exists (ei - S si)%nat. cbn in Hin. lia. }
  rewrite <-drop_str_drop, H1 in H2. clear H1 Hlt Hin.
  do 20 (destruct k as [|k]; [discriminate H2|]). lia.
Qed.

(** The patched text: what is before and after the diagram, and where the
    markers are. *)
Lemma patched_text src content p :
  patch src content = Ok p →
  ∃ a b, (∃ old, src = a +:+ old +:+ b) ∧
    (∀ content', patch src content' = Ok (a +:+ nl +:+ content' +:+ nl +:+ b)) ∧
    Index a startMarker = Some (String.length a - String.length startMarker)%nat ∧
    (String.length startMarker ≤ String.length a)%nat ∧
    Index a endMarker = None ∧ Index b endMarker = Some 0%nat.
Proof.
  unfold patch. destruct (Index src startMarker) as [si|] eqn:Hs, (Index src endMarker) as [ei|] eqn:He; try done.
  destruct (Nat.ltb_spec si ei) as [Hlt|]; [|done]. intros _.
  pose proof (markers_apart _ _ _ Hs He Hlt) as Hap.
  assert (String.length (take_str (si + String.length startMarker) src) = (si + String.length startMarker)%nat) as Hlen.
  { destruct (Index_Some _ _ _ Hs) as (t & Ht & Hl). apply take_str_length. apply (f_equal String.length) in Ht.
    rewrite !str_length_app, take_str_length in Ht by done. lia. }
  exists (take_str (si + String.length startMarker) src), (drop_str ei src).
  split; [|split; [done|rewrite Hlen; split; [|split; [lia|split]]]].
  - exists (take_str (ei - (si + String.length startMarker)) (drop_str (si + String.length startMarker) src)).
    replace (drop_str ei src) with (drop_str (ei - (si + String.length startMarker))
      (drop_str (si + String.length startMarker) src)) by (rewrite drop_str_drop; f_equal; lia).
    by rewrite take_drop_str, take_drop_str.
  - rewrite Index_take by done. f_equal. lia.
  - eapply Index_before; [exact He|]. cbn in Hap |- *. lia.
  - destruct (Index_drop _ _ _ He) as [t ->]. apply Index_prefix.
Qed.

Lemma drop_two_lines a c b :
  drop_str (S (String.length a) + (S (String.length c) + 0)) (a +:+ String newline (c +:+ String newline b)) = b.
Proof.
  replace (a +:+ String newline (c +:+ String newline b)) with ((a +:+ String newline (c +:+ nl)) +:+ b).
  2: { unfold nl. rewrite str_app_assoc, str_app_cons, str_app_assoc. done. }
  replace (S (String.length a) + (S (String.length c) + 0))%nat
    with (String.length (a +:+ String newline (c +:+ nl))).
  2: { rewrite str_length_app. cbn. rewrite str_length_app. cbn. lia. }
  apply drop_str_app.
Qed.

(** patching is the same the second time. When the file has its markers
    the patch puts the new diagram between them and leaves all else as it was;
    and patching the result again, with the same diagram or another, gives
    what patching the original gives, so nothing is left of the first. *)
Theorem patch_again src content p :
  patch src content = Ok p → Index content endMarker = None →
  ∃ before after, (∃ old, src = before +:+ old +:+ after) ∧
    ∀ content', patch src content' = Ok (before +:+ nl +:+ content' +:+ nl +:+ after) ∧
                patch p content' = patch src content'.
Proof.
  intros Hp Hc. destruct (patched_text _ _ _ Hp) as (a & b & Hold & Hall & Hs & Hle & Ha & Hb).
  exists a, b. split; [done|]. intros content'. split; [apply Hall|]. rewrite Hall.
  rewrite Hall in Hp. injection Hp as <-. unfold patch, nl. rewrite !str_app_cons, !str_app_nil_l.
  rewrite !Index_line by done. rewrite Hs, Ha, Hc, Hb. cbn [fmap option_fmap option_map].
  destruct (Nat.ltb_spec (String.length a - String.length startMarker)
    (S (String.length a) + (S (String.length content) + 0))); [|lia].
  f_equal. rewrite Nat.sub_add, take_str_app by done. do 4 f_equal. apply drop_two_lines.
Qed.

(** ** The README *)

Definition lines (l : list string) : string := concat_str ((λ s, s +:+ nl) <$> l).

(** migrations/000001_create_users.up.sql *)
Definition m_000001 : string := lines [
  "CREATE TABLE IF NOT EXISTS users (";
  "    id         BINARY(16)   NOT NULL,";
  "    email      VARCHAR(255) NOT NULL,";
  "    name       VARCHAR(255) NOT NULL,";
  "    password   VARCHAR(255) NOT NULL,";
  "    created_at DATETIME(3)  NOT NULL DEFAULT CURRENT_TIMESTAMP(3),";
  "    PRIMARY KEY (id),";
  "    UNIQUE KEY uq_users_email (email)";
  ") ENGINE=InnoDB DEFAULT CHARSET=utf8mb4 COLLATE=utf8mb4_unicode_ci;"].

(** migrations/000002_create_teams.up.sql *)
Definition m_000002 : string := lines [
  "CREATE TABLE IF NOT EXISTS teams (";
  "    id         BINARY(16)   NOT NULL,";
  "    name       VARCHAR(255) NOT NULL,";
  "    created_by BINARY(16)   NOT NULL,";
  "    created_at DATETIME(3)  NOT NULL DEFAULT CURRENT_TIMESTAMP(3),";
  "    PRIMARY KEY (id),";
  "    CONSTRAINT fk_teams_created_by FOREIGN KEY (created_by) REFERENCES users (id)";
  ") ENGINE=InnoDB DEFAULT CHARSET=utf8mb4 COLLATE=utf8mb4_unicode_ci;"].

(** migrations/000003_create_team_members.up.sql *)
Definition m_000003 : string := lines [
  "CREATE TABLE IF NOT EXISTS team_members (";
  "    team_id   BINARY(16)                         NOT NULL,";
  "    user_id   BINARY(16)                         NOT NULL,";
  "    role      ENUM('owner','admin','member')      NOT NULL DEFAULT 'member',";
  "    joined_at DATETIME(3)                        NOT NULL DEFAULT CURRENT_TIMESTAMP(3),";
  "    PRIMARY KEY (team_id, user_id),";
  "    CONSTRAINT fk_team_members_team FOREIGN KEY (team_id) REFERENCES teams (id),";
  "    CONSTRAINT fk_team_members_user FOREIGN KEY (user_id) REFERENCES users (id)";
  ") ENGINE=InnoDB DEFAULT CHARSET=utf8mb4 COLLATE=utf8mb4_unicode_ci;"].

(** migrations/000004_create_tasks.up.sql *)
Definition m_000004 : string := lines [
  "CREATE TABLE IF NOT EXISTS tasks (";
  "    id          BINARY(16)                             NOT NULL,";
  "    team_id     BINARY(16)                             NOT NULL,";
  "    created_by  BINARY(16)                             NOT NULL,";
  "    assignee_id BINARY(16)                             NULL,";
  "    title       VARCHAR(500)                           NOT NULL,";
  "    description TEXT                                   NULL,";
  "    status      ENUM('todo','in_progress','done')      NOT NULL DEFAULT 'todo',";
  "    priority    ENUM('low','medium','high')             NOT NULL DEFAULT 'medium',";
  "    due_date    DATE                                   NULL,";
  "    created_at  DATETIME(3)                            NOT NULL DEFAULT CURRENT_TIMESTAMP(3),";
  "    updated_at  DATETIME(3)                            NOT NULL DEFAULT CURRENT_TIMESTAMP(3) ON UPDATE CURRENT_TIMESTAMP(3),";
  "    PRIMARY KEY (id),";
  "    CONSTRAINT fk_tasks_team     FOREIGN KEY (team_id)     REFERENCES teams (id),";
  "    CONSTRAINT fk_tasks_creator  FOREIGN KEY (created_by)  REFERENCES users (id),";
  "    CONSTRAINT fk_tasks_assignee FOREIGN KEY (assignee_id) REFERENCES users (id)";
  ") ENGINE=InnoDB DEFAULT CHARSET=utf8mb4 COLLATE=utf8mb4_unicode_ci;"].

(** migrations/000005_create_task_history.up.sql *)
Definition m_000005 : string := lines [
  "CREATE TABLE IF NOT EXISTS task_history (";
  "    id         BIGINT UNSIGNED  NOT NULL AUTO_INCREMENT,";
  "    task_id    BINARY(16)       NOT NULL,";
  "    changed_by BINARY(16)       NOT NULL,";
  "    field      VARCHAR(100)     NOT NULL,";
  "    old_value  TEXT             NULL,";
  "    new_value  TEXT             NULL,";
  "    changed_at DATETIME(3)      NOT NULL DEFAULT CURRENT_TIMESTAMP(3),";
  "    PRIMARY KEY (id),";
  "    CONSTRAINT fk_task_history_task FOREIGN KEY (task_id)    REFERENCES tasks (id),";
  "    CONSTRAINT fk_task_history_user FOREIGN KEY (changed_by) REFERENCES users (id)";
  ") ENGINE=InnoDB DEFAULT CHARSET=utf8mb4 COLLATE=utf8mb4_unicode_ci;"].

(** migrations/000006_create_task_comments.up.sql *)
Definition m_000006 : string := lines [
  "CREATE TABLE IF NOT EXISTS task_comments (";
  "    id         BIGINT UNSIGNED  NOT NULL AUTO_INCREMENT,";
  "    task_id    BINARY(16)       NOT NULL,";
  "    user_id    BINARY(16)       NOT NULL,";
  "    body       TEXT             NOT NULL,";
  "    created_at DATETIME(3)      NOT NULL DEFAULT CURRENT_TIMESTAMP(3),";
  "    PRIMARY KEY (id),";
  "    CONSTRAINT fk_task_comments_task FOREIGN KEY (task_id) REFERENCES tasks (id),";
  "    CONSTRAINT fk_task_comments_user FOREIGN KEY (user_id) REFERENCES users (id)";
  ") ENGINE=InnoDB DEFAULT CHARSET=utf8mb4 COLLATE=utf8mb4_unicode_ci;"].

(** migrations/000007_create_indexes.up.sql *)
Definition m_000007 : string := lines [
  "-- tasks: filter by team + status (primary task list query)";
  "CREATE INDEX idx_tasks_team_status  ON tasks (team_id, status);";
  "";
  "-- tasks: filter by assignee";
  "CREATE INDEX idx_tasks_assignee     ON tasks (assignee_id);";
  "";
  "-- tasks: sort/filter by creation date (analytics, pagination)";
  "CREATE INDEX idx_tasks_created_at   ON tasks (created_at);";
  "";
  "-- task_history: fetch history entries for a task";
  "CREATE INDEX idx_task_history_task  ON task_history (task_id);";
  "";
  "-- task_comments: fetch comments for a task";
  "CREATE INDEX idx_task_comments_task ON task_comments (task_id);";
  "";
  "-- team_members: find all teams a user belongs to";
  "CREATE INDEX idx_team_members_user  ON team_members (user_id);"].

Definition migrations : list (string * string) := [
  ("migrations/000001_create_users.up.sql", m_000001);
  ("migrations/000002_create_teams.up.sql", m_000002);
  ("migrations/000003_create_team_members.up.sql", m_000003);
  ("migrations/000004_create_tasks.up.sql", m_000004);
  ("migrations/000005_create_task_history.up.sql", m_000005);
  ("migrations/000006_create_task_comments.up.sql", m_000006);
  ("migrations/000007_create_indexes.up.sql", m_000007)].

Definition migrationFile (f : string) : result string :=
  match list_find (λ e : string * string, e.1 = f) migrations with
  | Some (_, (_, text)) => Ok text
  | None => Err (OtherError "no such file")
  end.

(** README.md, between the markers: lines 78 to 138. *)
Definition readme_diagram : string := lines [
  "```mermaid";
  "erDiagram";
  "    users {";
  "        binary id PK";
  "        varchar email UK";
  "        varchar name";
  "        varchar password";
  "        datetime created_at";
  "    }";
  "    teams {";
  "        binary id PK";
  "        varchar name";
  "        binary created_by FK";
  "        datetime created_at";
  "    }";
  "    team_members {";
  "        binary team_id PK,FK";
  "        binary user_id PK,FK";
  "        enum role";
  "        datetime joined_at";
  "    }";
  "    tasks {";
  "        binary id PK";
  "        binary team_id FK";
  "        binary created_by FK";
  "        binary assignee_id FK";
  "        varchar title";
  "        text description";
  "        enum status";
  "        enum priority";
  "        date due_date";
  "        datetime created_at";
  "        datetime updated_at";
  "    }";
  "    task_history {";
  "        bigint id PK";
  "        binary task_id FK";
  "        binary changed_by FK";
  "        varchar field";
  "        text old_value";
  "        text new_value";
  "        datetime changed_at";
  "    }";
  "    task_comments {";
  "        bigint id PK";
  "        binary task_id FK";
  "        binary user_id FK";
  "        text body";
  "        datetime created_at";
  "    }";
  "    users ||--o{ teams : " +:+ quoted "created_by";
  "    teams ||--o{ team_members : " +:+ quoted "team_id";
  "    users ||--o{ team_members : " +:+ quoted "user_id";
  "    teams ||--o{ tasks : " +:+ quoted "team_id";
  "    users ||--o{ tasks : " +:+ quoted "created_by";
  "    users ||--o{ tasks : " +:+ quoted "assignee_id";
  "    tasks ||--o{ task_history : " +:+ quoted "task_id";
  "    users ||--o{ task_history : " +:+ quoted "changed_by";
  "    tasks ||--o{ task_comments : " +:+ quoted "task_id";
  "    users ||--o{ task_comments : " +:+ quoted "user_id";
  "```"].

(** The order in which the files are found does not matter. *)
Lemma parseMigrations_order files files' ReadFile :
  files ≡ₚ files' → parseMigrations (Ok files) ReadFile = parseMigrations (Ok files') ReadFile.
Proof.
  intros Hp. unfold parseMigrations. f_equal. apply (StronglySorted_unique String.le).
  - apply (StronglySorted_merge_sort String.le).
  - apply (StronglySorted_merge_sort String.le).
  - by rewrite !merge_sort_Permutation.
Qed.

(** C40: the README is current. However the migrations are listed, the script
    parses them without a panic into tables whose diagram is the one that
    stands in README.md. *)
Theorem readme_current files :
  files ≡ₚ migrations.*1 →
  ∃ tables, parseMigrations (Ok files) migrationFile = Some (Ok tables) ∧
    mermaidERD tables +:+ nl = readme_diagram.
Proof.
  intros Hp. rewrite (parseMigrations_order _ _ _ Hp). clear Hp. eexists. split; vm_compute; reflexivity.
Qed.

Lemma parseFiles_total ReadFile files : ∃ r, parseFiles ReadFile files = Some r.
Proof.
  induction files as [|f files [r IH]]; [by eexists|]. cbn [parseFiles].
  destruct (ReadFile f) as [data|err]; [|by eexists]. destruct (parseSQL_total data) as [ts ->].
  cbn [mbind option_bind]. rewrite IH. by eexists.
Qed.

(** the script cannot crash, and patches only what it parsed. On any files
    it ends with an error that says which half failed, or it writes the README
    once, patched with the diagram of the tables parsed. *)
Theorem main_outcome {W} Glob migration (ReadFile : comp W string) WriteFile w :
  ∃ parsed, parseMigrations Glob migration = Some parsed ∧
  main Glob migration ReadFile WriteFile w =
    match parsed with
    | Err err => (w, Err (wrap "genschema: parse migrations" err))
    | Ok tables =>
        match ReadFile w with
        | (w, Err err) => (w, Err (wrap "genschema: patch readme" err))
        | (w, Ok data) =>
            match patch data (mermaidERD tables) with
            | Err err => (w, Err (wrap "genschema: patch readme" err))
            | Ok text =>
                match WriteFile text w with
                | (w, Err err) => (w, Err (wrap "genschema: patch readme" err))
                | (w, Ok _) => (w, Ok tt)
                end
            end
        end
    end.
Proof.
  assert (∃ parsed, parseMigrations Glob migration = Some parsed) as [parsed Hp].
  { unfold parseMigrations. destruct Glob; [apply parseFiles_total|by eexists]. }
  exists parsed. split; [done|]. unfold main. rewrite Hp. destruct parsed as [tables|err]; [|done].
  unfold patchReadme, mbind, comp_bind, on_err, lift_result.
  destruct (ReadFile w) as [w1 [data|err]]; [|done]. destruct (patch _ _); [|done].
  by destruct (WriteFile _ w1) as [w2 [[]|err]].
Qed.

(** The four expressions are of the kind for which greedy matching is what the
    notation says, so each captures what the first match captures. *)
Lemma expressions_match re s caps :
  re ∈ [reCreateTable; rePK; reUK; reFK] →
  FindStringSubmatch re s = Some caps ↔
    ∃ a b, s = a +:+ b ∧ matches re b caps ∧
      ∀ a' b' caps', s = a' +:+ b' → (String.length a' < String.length a)%nat → ¬ matches re b' caps'.
Proof.
  intros Hre. apply Find_spec. rewrite !elem_of_cons, elem_of_nil in Hre.
  destruct Hre as [->|[->|[->|[->|[]]]]]; vm_compute; reflexivity.
Qed.

End genschema.
