(* ===== verification/Api.v ===== *)
(** * Api: internal/handler/api/v1/api.gen.go

    The HTTP layer generated from the OpenAPI document: the wire types, one
    response type per operation with the status each [Visit...] writes, the
    strict handler that decodes bodies and turns errors into answers, the
    wrapper that binds parameters, and the route table.

    The openapi types, the parameter binder and the router are libraries:
    classes with their functions. A response body is the value handed to the
    JSON encoder. *)
From S2P Require Import Prelude Go Uuid Domain Json JsonDec.

(** ** net/http *)

Inductive method : Type := MethodGet | MethodPost | MethodPut | MethodOther (name : string).

#[global] Instance method_eq_dec : EqDecision method.
Proof. solve_decision. Defined.

(** Headers are keyed by their canonical name; [Get] of an absent one is empty. *)
Record http_request : Type := HttpRequest {
  r_Method : method;
  r_Path : string;
  r_RawQuery : string;
  r_Header : gmap string string;
  r_Body : string;
  r_RemoteAddr : string
}.

Definition Header_Get (h : gmap string string) (k : string) : string := default "" (h !! k).

(** The values the program puts in a request's context. *)
Record ctx : Type := Ctx { ctx_userID : option uuid; ctx_request_id : option string }.
Definition Background : ctx := Ctx None None.

(** *** The wire types (api.gen.go:38-180) *)
Module v1.

(** openapi_types.Date *)
Record Date : Type := MkDate { Date_Time : time }.

Record AddCommentRequest : Type := MkAddCommentRequest { ACR_Body : string }.
Record Comment : Type := MkComment {
  C_Body : string; C_CreatedAt : time; C_Id : Z; C_TaskId : uuid; C_UserId : uuid
}.
Record CreateTaskRequest : Type := MkCreateTaskRequest {
  CTR_AssigneeId : option uuid; CTR_Description : option string; CTR_DueDate : option Date;
  CTR_Priority : option TaskPriority; CTR_TeamId : uuid; CTR_Title : string
}.
Record CreateTeamRequest : Type := MkCreateTeamRequest { CTmR_Name : string }.
Record Error : Type := MkError { Message : string }.
Record InviteRequest : Type := MkInviteRequest { IR_UserId : uuid }.
Record LoginRequest : Type := MkLoginRequest { LR_Email : string; LR_Password : string }.
Record LoginResponse : Type := MkLoginResponse { LRs_Token : string }.
Record OrphanTask : Type := MkOrphanTask {
  O_AssigneeId : uuid; O_Id : uuid; O_TeamId : uuid; O_Title : string
}.
Record RegisterRequest : Type := MkRegisterRequest {
  RR_Email : string; RR_Name : string; RR_Password : string
}.
Record Task : Type := MkTask {
  T_AssigneeId : option uuid; T_CreatedAt : time; T_CreatedBy : uuid;
  T_Description : option string; T_DueDate : option Date; T_Id : uuid;
  T_Priority : TaskPriority; T_Status : TaskStatus; T_TeamId : uuid; T_Title : string;
  T_UpdatedAt : time
}.
Record TaskHistory : Type := MkTaskHistory {
  H_ChangedAt : time; H_ChangedBy : uuid; H_Field : string; H_Id : Z;
  H_NewValue : option string; H_OldValue : option string; H_TaskId : uuid
}.
Record TaskHistoryResponse : Type := MkTaskHistoryResponse { THR_History : list TaskHistory }.
Record TaskListResponse : Type := MkTaskListResponse {
  TL_Limit : Z; TL_Page : Z; TL_Tasks : list Task; TL_Total : Z
}.
Record Team : Type := MkTeam { Tm_CreatedAt : time; Tm_CreatedBy : uuid; Tm_Id : uuid; Tm_Name : string }.
Record TeamSummary : Type := MkTeamSummary {
  S_DoneLast7Days : Z; S_MemberCount : Z; S_Name : string; S_TeamId : uuid
}.
Record TopContributor : Type := MkTopContributor {
  TCo_RankInTeam : Z; TCo_TaskCount : Z; TCo_TeamId : uuid; TCo_UserId : uuid
}.
Record UpdateTaskRequest : Type := MkUpdateTaskRequest {
  UTR_AssigneeId : option uuid; UTR_Description : option string; UTR_DueDate : option Date;
  UTR_Priority : option TaskPriority; UTR_Status : option TaskStatus; UTR_Title : option string
}.
Record ListTasksParams : Type := MkListTasksParams {
  P_TeamId : option uuid; P_Status : option TaskStatus; P_AssigneeId : option uuid;
  P_Page : option Z; P_Limit : option Z
}.

(** *** Responses: what each operation may answer *)
Inductive GetOrphanTasksResponse : Type :=
  | GetOrphanTasks200JSONResponse (v : list OrphanTask)
  | GetOrphanTasks401JSONResponse (e : Error).
Inductive GetTeamSummariesResponse : Type :=
  | GetTeamSummaries200JSONResponse (v : list TeamSummary)
  | GetTeamSummaries401JSONResponse (e : Error).
Inductive GetTopContributorsResponse : Type :=
  | GetTopContributors200JSONResponse (v : list TopContributor)
  | GetTopContributors401JSONResponse (e : Error).
Inductive LoginResponseObject : Type :=
  | Login200JSONResponse (v : LoginResponse)
  | Login400JSONResponse (e : Error)
  | Login401JSONResponse (e : Error).
Inductive RegisterResponse : Type :=
  | Register201Response
  | Register400JSONResponse (e : Error)
  | Register409JSONResponse (e : Error).
Inductive ListTasksResponse : Type :=
  | ListTasks200JSONResponse (v : TaskListResponse)
  | ListTasks401JSONResponse (e : Error)
  | ListTasks403JSONResponse (e : Error).
Inductive CreateTaskResponse : Type :=
  | CreateTask201JSONResponse (v : Task)
  | CreateTask400JSONResponse (e : Error)
  | CreateTask401JSONResponse (e : Error)
  | CreateTask403JSONResponse (e : Error).
Inductive UpdateTaskResponse : Type :=
  | UpdateTask200JSONResponse (v : Task)
  | UpdateTask400JSONResponse (e : Error)
  | UpdateTask401JSONResponse (e : Error)
  | UpdateTask403JSONResponse (e : Error)
  | UpdateTask404JSONResponse (e : Error).
Inductive ListTaskCommentsResponse : Type :=
  | ListTaskComments200JSONResponse (v : list Comment)
  | ListTaskComments401JSONResponse (e : Error)
  | ListTaskComments403JSONResponse (e : Error)
  | ListTaskComments404JSONResponse (e : Error).
Inductive AddTaskCommentResponse : Type :=
  | AddTaskComment201JSONResponse (v : Comment)
  | AddTaskComment400JSONResponse (e : Error)
  | AddTaskComment401JSONResponse (e : Error)
  | AddTaskComment403JSONResponse (e : Error)
  | AddTaskComment404JSONResponse (e : Error).
Inductive GetTaskHistoryResponse : Type :=
  | GetTaskHistory200JSONResponse (v : TaskHistoryResponse)
  | GetTaskHistory401JSONResponse (e : Error)
  | GetTaskHistory403JSONResponse (e : Error)
  | GetTaskHistory404JSONResponse (e : Error).
Inductive ListTeamsResponse : Type :=
  | ListTeams200JSONResponse (v : list Team)
  | ListTeams401JSONResponse (e : Error).
Inductive CreateTeamResponse : Type :=
  | CreateTeam201JSONResponse (v : Team)
  | CreateTeam400JSONResponse (e : Error)
  | CreateTeam401JSONResponse (e : Error).
Inductive InviteToTeamResponse : Type :=
  | InviteToTeam200Response
  | InviteToTeam400JSONResponse (e : Error)
  | InviteToTeam401JSONResponse (e : Error)
  | InviteToTeam403JSONResponse (e : Error)
  | InviteToTeam404JSONResponse (e : Error).

(** *** Written answers *)

(** The values given to [json.NewEncoder(w).Encode]. *)
Inductive json : Type :=
  | J_Error (e : Error)
  | J_Login (v : LoginResponse)
  | J_Task (v : Task)
  | J_TaskList (v : TaskListResponse)
  | J_History (v : TaskHistoryResponse)
  | J_Comment (v : Comment)
  | J_Comments (v : list Comment)
  | J_Team (v : Team)
  | J_Teams (v : list Team)
  | J_Summaries (v : list TeamSummary)
  | J_Contributors (v : list TopContributor)
  | J_Orphans (v : list OrphanTask).

End v1.

(** A body: nothing, a JSON value, the literal text of [http.Error], or the text
    [err.Error()] of an error. *)
Inductive body : Type :=
  | NoBody
  | JSON (v : v1.json)
  | Text (msg : string)
  | ErrorText (err : error).

Record http_response : Type := HttpResponse {
  rs_Status : Z;
  rs_Header : gmap string string;
  rs_Body : body;
  rs_Pattern : string  (** chi's route pattern once routing is done *)
}.

Definition WriteJSON (status : Z) (v : v1.json) : http_response :=
  HttpResponse status {[ "Content-Type" := "application/json" ]} (JSON v) "".
Definition WriteHeader (status : Z) : http_response := HttpResponse status ∅ NoBody "".

(** http.Error *)
Definition http_Error (b : body) (status : Z) : http_response :=
  HttpResponse status
    {[ "Content-Type" := "text/plain; charset=utf-8"; "X-Content-Type-Options" := "nosniff" ]} b "".

(** ** Visit...Response *)
Module Visit.
Import v1.

Definition GetOrphanTasks (r : GetOrphanTasksResponse) : http_response :=
  match r with
  | GetOrphanTasks200JSONResponse v => WriteJSON 200 (J_Orphans v)
  | GetOrphanTasks401JSONResponse e => WriteJSON 401 (J_Error e)
  end.
Definition GetTeamSummaries (r : GetTeamSummariesResponse) : http_response :=
  match r with
  | GetTeamSummaries200JSONResponse v => WriteJSON 200 (J_Summaries v)
  | GetTeamSummaries401JSONResponse e => WriteJSON 401 (J_Error e)
  end.
Definition GetTopContributors (r : GetTopContributorsResponse) : http_response :=
  match r with
  | GetTopContributors200JSONResponse v => WriteJSON 200 (J_Contributors v)
  | GetTopContributors401JSONResponse e => WriteJSON 401 (J_Error e)
  end.
Definition Login (r : LoginResponseObject) : http_response :=
  match r with
  | Login200JSONResponse v => WriteJSON 200 (J_Login v)
  | Login400JSONResponse e => WriteJSON 400 (J_Error e)
  | Login401JSONResponse e => WriteJSON 401 (J_Error e)
  end.
Definition Register (r : RegisterResponse) : http_response :=
  match r with
  | Register201Response => WriteHeader 201
  | Register400JSONResponse e => WriteJSON 400 (J_Error e)
  | Register409JSONResponse e => WriteJSON 409 (J_Error e)
  end.
Definition ListTasks (r : ListTasksResponse) : http_response :=
  match r with
  | ListTasks200JSONResponse v => WriteJSON 200 (J_TaskList v)
  | ListTasks401JSONResponse e => WriteJSON 401 (J_Error e)
  | ListTasks403JSONResponse e => WriteJSON 403 (J_Error e)
  end.
Definition CreateTask (r : CreateTaskResponse) : http_response :=
  match r with
  | CreateTask201JSONResponse v => WriteJSON 201 (J_Task v)
  | CreateTask400JSONResponse e => WriteJSON 400 (J_Error e)
  | CreateTask401JSONResponse e => WriteJSON 401 (J_Error e)
  | CreateTask403JSONResponse e => WriteJSON 403 (J_Error e)
  end.
Definition UpdateTask (r : UpdateTaskResponse) : http_response :=
  match r with
  | UpdateTask200JSONResponse v => WriteJSON 200 (J_Task v)
  | UpdateTask400JSONResponse e => WriteJSON 400 (J_Error e)
  | UpdateTask401JSONResponse e => WriteJSON 401 (J_Error e)
  | UpdateTask403JSONResponse e => WriteJSON 403 (J_Error e)
  | UpdateTask404JSONResponse e => WriteJSON 404 (J_Error e)
  end.
Definition ListTaskComments (r : ListTaskCommentsResponse) : http_response :=
  match r with
  | ListTaskComments200JSONResponse v => WriteJSON 200 (J_Comments v)
  | ListTaskComments401JSONResponse e => WriteJSON 401 (J_Error e)
  | ListTaskComments403JSONResponse e => WriteJSON 403 (J_Error e)
  | ListTaskComments404JSONResponse e => WriteJSON 404 (J_Error e)
  end.
Definition AddTaskComment (r : AddTaskCommentResponse) : http_response :=
  match r with
  | AddTaskComment201JSONResponse v => WriteJSON 201 (J_Comment v)
  | AddTaskComment400JSONResponse e => WriteJSON 400 (J_Error e)
  | AddTaskComment401JSONResponse e => WriteJSON 401 (J_Error e)
  | AddTaskComment403JSONResponse e => WriteJSON 403 (J_Error e)
  | AddTaskComment404JSONResponse e => WriteJSON 404 (J_Error e)
  end.
Definition GetTaskHistory (r : GetTaskHistoryResponse) : http_response :=
  match r with
  | GetTaskHistory200JSONResponse v => WriteJSON 200 (J_History v)
  | GetTaskHistory401JSONResponse e => WriteJSON 401 (J_Error e)
  | GetTaskHistory403JSONResponse e => WriteJSON 403 (J_Error e)
  | GetTaskHistory404JSONResponse e => WriteJSON 404 (J_Error e)
  end.
Definition ListTeams (r : ListTeamsResponse) : http_response :=
  match r with
  | ListTeams200JSONResponse v => WriteJSON 200 (J_Teams v)
  | ListTeams401JSONResponse e => WriteJSON 401 (J_Error e)
  end.
Definition CreateTeam (r : CreateTeamResponse) : http_response :=
  match r with
  | CreateTeam201JSONResponse v => WriteJSON 201 (J_Team v)
  | CreateTeam400JSONResponse e => WriteJSON 400 (J_Error e)
  | CreateTeam401JSONResponse e => WriteJSON 401 (J_Error e)
  end.
Definition InviteToTeam (r : InviteToTeamResponse) : http_response :=
  match r with
  | InviteToTeam200Response => WriteHeader 200
  | InviteToTeam400JSONResponse e => WriteJSON 400 (J_Error e)
  | InviteToTeam401JSONResponse e => WriteJSON 401 (J_Error e)
  | InviteToTeam403JSONResponse e => WriteJSON 403 (J_Error e)
  | InviteToTeam404JSONResponse e => WriteJSON 404 (J_Error e)
  end.

End Visit.

(** ** StrictServerInterface *)

(** The operations the generated code calls, request objects flattened to their
    fields; a nil body is [None]. *)
Record StrictServerInterface (W : Type) : Type := MkSSI {
  ssi_GetOrphanTasks : ctx → comp W v1.GetOrphanTasksResponse;
  ssi_GetTeamSummaries : ctx → comp W v1.GetTeamSummariesResponse;
  ssi_GetTopContributors : ctx → comp W v1.GetTopContributorsResponse;
  ssi_Login : ctx → option v1.LoginRequest → comp W v1.LoginResponseObject;
  ssi_Register : ctx → option v1.RegisterRequest → comp W v1.RegisterResponse;
  ssi_ListTasks : ctx → v1.ListTasksParams → comp W v1.ListTasksResponse;
  ssi_CreateTask : ctx → option v1.CreateTaskRequest → comp W v1.CreateTaskResponse;
  ssi_UpdateTask : ctx → uuid → option v1.UpdateTaskRequest → comp W v1.UpdateTaskResponse;
  ssi_ListTaskComments : ctx → uuid → comp W v1.ListTaskCommentsResponse;
  ssi_AddTaskComment : ctx → uuid → option v1.AddCommentRequest → comp W v1.AddTaskCommentResponse;
  ssi_GetTaskHistory : ctx → uuid → comp W v1.GetTaskHistoryResponse;
  ssi_ListTeams : ctx → comp W v1.ListTeamsResponse;
  ssi_CreateTeam : ctx → option v1.CreateTeamRequest → comp W v1.CreateTeamResponse;
  ssi_InviteToTeam : ctx → uuid → option v1.InviteRequest → comp W v1.InviteToTeamResponse
}.
Arguments ssi_GetOrphanTasks {W} _ _.
Arguments ssi_GetTeamSummaries {W} _ _.
Arguments ssi_GetTopContributors {W} _ _.
Arguments ssi_Login {W} _ _ _.
Arguments ssi_Register {W} _ _ _.
Arguments ssi_ListTasks {W} _ _ _.
Arguments ssi_CreateTask {W} _ _ _.
Arguments ssi_UpdateTask {W} _ _ _ _.
Arguments ssi_ListTaskComments {W} _ _ _.
Arguments ssi_AddTaskComment {W} _ _ _ _.
Arguments ssi_GetTaskHistory {W} _ _ _.
Arguments ssi_ListTeams {W} _ _.
Arguments ssi_CreateTeam {W} _ _ _.
Arguments ssi_InviteToTeam {W} _ _ _ _.

(** ** Libraries: the openapi types and the parameter binder

    Email and Date read JSON with methods of their own, Date writes it with one;
    a UUID is google/uuid's. [decode_error] is the error of a text that
    encoding/json does not decode, whose message the answer quotes. *)
Class OapiRuntime := {
  Email_UnmarshalJSON : json → option string;
  Date_UnmarshalJSON : json → option time;
  Date_MarshalJSON : time → option json;
  decode_error : string → error;
  (** BindStyledParameterWithOptions("simple", ...) of a UUID *)
  bind_path_UUID : string → result uuid;
  (** BindQueryParameter("form", ...) of an optional parameter *)
  bind_query_UUID : string → string → result (option uuid);
  bind_query_string : string → string → result (option string);
  bind_query_int : string → string → result (option Z)
}.

(** ** Request bodies *)
Section decoders.
Context `{!UuidLib} `{!OapiRuntime}.

Definition dec_Email : Dec string := λ _ j, Email_UnmarshalJSON j.
Definition dec_Date : Dec v1.Date := λ _ j, v1.MkDate <$> Date_UnmarshalJSON j.
Definition zero_Date : v1.Date := v1.MkDate zero_time.

Definition dec_LoginRequest : Dec v1.LoginRequest := dec_struct [
  ("email", in_field v1.LR_Email (λ x r, v1.MkLoginRequest x (v1.LR_Password r)) dec_Email);
  ("password", in_field v1.LR_Password (λ x r, v1.MkLoginRequest (v1.LR_Email r) x) dec_string) ].

Definition dec_RegisterRequest : Dec v1.RegisterRequest := dec_struct [
  ("email", in_field v1.RR_Email (λ x r, v1.MkRegisterRequest x (v1.RR_Name r) (v1.RR_Password r)) dec_Email);
  ("name", in_field v1.RR_Name (λ x r, v1.MkRegisterRequest (v1.RR_Email r) x (v1.RR_Password r)) dec_string);
  ("password",
    in_field v1.RR_Password (λ x r, v1.MkRegisterRequest (v1.RR_Email r) (v1.RR_Name r) x) dec_string) ].

Definition dec_CreateTaskRequest : Dec v1.CreateTaskRequest := dec_struct [
  ("assignee_id", in_field v1.CTR_AssigneeId (λ x r, v1.MkCreateTaskRequest x (v1.CTR_Description r)
     (v1.CTR_DueDate r) (v1.CTR_Priority r) (v1.CTR_TeamId r) (v1.CTR_Title r)) (dec_ptr zero_id dec_uuid));
  ("description", in_field v1.CTR_Description (λ x r, v1.MkCreateTaskRequest (v1.CTR_AssigneeId r) x
     (v1.CTR_DueDate r) (v1.CTR_Priority r) (v1.CTR_TeamId r) (v1.CTR_Title r)) (dec_ptr "" dec_string));
  ("due_date", in_field v1.CTR_DueDate (λ x r, v1.MkCreateTaskRequest (v1.CTR_AssigneeId r)
     (v1.CTR_Description r) x (v1.CTR_Priority r) (v1.CTR_TeamId r) (v1.CTR_Title r)) (dec_ptr zero_Date dec_Date));
  ("priority", in_field v1.CTR_Priority (λ x r, v1.MkCreateTaskRequest (v1.CTR_AssigneeId r)
     (v1.CTR_Description r) (v1.CTR_DueDate r) x (v1.CTR_TeamId r) (v1.CTR_Title r)) (dec_ptr "" dec_string));
  ("team_id", in_field v1.CTR_TeamId (λ x r, v1.MkCreateTaskRequest (v1.CTR_AssigneeId r)
     (v1.CTR_Description r) (v1.CTR_DueDate r) (v1.CTR_Priority r) x (v1.CTR_Title r)) dec_uuid);
  ("title", in_field v1.CTR_Title (λ x r, v1.MkCreateTaskRequest (v1.CTR_AssigneeId r)
     (v1.CTR_Description r) (v1.CTR_DueDate r) (v1.CTR_Priority r) (v1.CTR_TeamId r) x) dec_string) ].

Definition dec_UpdateTaskRequest : Dec v1.UpdateTaskRequest := dec_struct [
  ("assignee_id", in_field v1.UTR_AssigneeId (λ x r, v1.MkUpdateTaskRequest x (v1.UTR_Description r)
     (v1.UTR_DueDate r) (v1.UTR_Priority r) (v1.UTR_Status r) (v1.UTR_Title r)) (dec_ptr zero_id dec_uuid));
  ("description", in_field v1.UTR_Description (λ x r, v1.MkUpdateTaskRequest (v1.UTR_AssigneeId r) x
     (v1.UTR_DueDate r) (v1.UTR_Priority r) (v1.UTR_Status r) (v1.UTR_Title r)) (dec_ptr "" dec_string));
  ("due_date", in_field v1.UTR_DueDate (λ x r, v1.MkUpdateTaskRequest (v1.UTR_AssigneeId r)
     (v1.UTR_Description r) x (v1.UTR_Priority r) (v1.UTR_Status r) (v1.UTR_Title r)) (dec_ptr zero_Date dec_Date));
  ("priority", in_field v1.UTR_Priority (λ x r, v1.MkUpdateTaskRequest (v1.UTR_AssigneeId r)
     (v1.UTR_Description r) (v1.UTR_DueDate r) x (v1.UTR_Status r) (v1.UTR_Title r)) (dec_ptr "" dec_string));
  ("status", in_field v1.UTR_Status (λ x r, v1.MkUpdateTaskRequest (v1.UTR_AssigneeId r)
     (v1.UTR_Description r) (v1.UTR_DueDate r) (v1.UTR_Priority r) x (v1.UTR_Title r)) (dec_ptr "" dec_string));
  ("title", in_field v1.UTR_Title (λ x r, v1.MkUpdateTaskRequest (v1.UTR_AssigneeId r)
     (v1.UTR_Description r) (v1.UTR_DueDate r) (v1.UTR_Priority r) (v1.UTR_Status r) x) (dec_ptr "" dec_string)) ].

Definition dec_AddCommentRequest : Dec v1.AddCommentRequest := dec_struct [
  ("body", in_field v1.ACR_Body (λ x _, v1.MkAddCommentRequest x) dec_string) ].
Definition dec_CreateTeamRequest : Dec v1.CreateTeamRequest := dec_struct [
  ("name", in_field v1.CTmR_Name (λ x _, v1.MkCreateTeamRequest x) dec_string) ].
Definition dec_InviteRequest : Dec v1.InviteRequest := dec_struct [
  ("user_id", in_field v1.IR_UserId (λ x _, v1.MkInviteRequest x) dec_uuid) ].

(** [json.NewDecoder(r.Body).Decode(&body)]: the first value of the text, into
    a zero body. *)
Definition json_Decode {A} (zero : A) (d : Dec A) (text : string) : result A :=
  match '(j, _) ← parse_first text; d zero j with
  | Some a => Ok a
  | None => Err (decode_error text)
  end.

Definition decode_Login : string → result v1.LoginRequest :=
  json_Decode (v1.MkLoginRequest "" "") dec_LoginRequest.
Definition decode_Register : string → result v1.RegisterRequest :=
  json_Decode (v1.MkRegisterRequest "" "" "") dec_RegisterRequest.
Definition decode_CreateTask : string → result v1.CreateTaskRequest :=
  json_Decode (v1.MkCreateTaskRequest None None None None zero_id "") dec_CreateTaskRequest.
Definition decode_UpdateTask : string → result v1.UpdateTaskRequest :=
  json_Decode (v1.MkUpdateTaskRequest None None None None None None) dec_UpdateTaskRequest.
Definition decode_AddComment : string → result v1.AddCommentRequest :=
  json_Decode (v1.MkAddCommentRequest "") dec_AddCommentRequest.
Definition decode_CreateTeam : string → result v1.CreateTeamRequest :=
  json_Decode (v1.MkCreateTeamRequest "") dec_CreateTeamRequest.
Definition decode_Invite : string → result v1.InviteRequest :=
  json_Decode (v1.MkInviteRequest zero_id) dec_InviteRequest.

End decoders.

(** What the generated code runs for a matched request. *)
Definition http_call (W : Type) : Type := ctx → http_request → W → W * http_response.

(** *** strictHandler (api.gen.go:1461-1885) *)

(** NewStrictHandler: the two error handlers. *)
Definition RequestErrorHandlerFunc (err : error) : http_response := http_Error (ErrorText err) 400.
Definition ResponseErrorHandlerFunc (err : error) : http_response := http_Error (ErrorText err) 500.

(** [response, err := handler(...)] and the answer written for it: a status and
    a value to encode. A value that does not encode leaves the status sent and
    the error's text for a body, which is [body_text] of Wire. *)
Definition respond {W R} (visit : R → http_response) (m : comp W R) (w : W) : W * http_response :=
  match m w with
  | (w', Ok r) => (w', visit r)
  | (w', Err err) => (w', ResponseErrorHandlerFunc err)
  end.

(** The same after decoding a JSON body. *)
Definition respond_body {W B R} (decode : string → result B) (visit : R → http_response)
    (m : option B → comp W R) (r : http_request) (w : W) : W * http_response :=
  match decode (r_Body r) with
  | Ok body => respond visit (m (Some body)) w
  | Err err => (w, RequestErrorHandlerFunc (Errorf "can't decode JSON body: " err ""))
  end.

Module strictHandler.
Section methods.
Context {W : Type} `{!UuidLib} `{!OapiRuntime} (sh : StrictServerInterface W).

Definition GetOrphanTasks : http_call W := λ c r w,
  respond Visit.GetOrphanTasks (ssi_GetOrphanTasks sh c) w.
Definition GetTeamSummaries : http_call W := λ c r w,
  respond Visit.GetTeamSummaries (ssi_GetTeamSummaries sh c) w.
Definition GetTopContributors : http_call W := λ c r w,
  respond Visit.GetTopContributors (ssi_GetTopContributors sh c) w.
Definition Login : http_call W := λ c r w,
  respond_body decode_Login Visit.Login (ssi_Login sh c) r w.
Definition Register : http_call W := λ c r w,
  respond_body decode_Register Visit.Register (ssi_Register sh c) r w.
Definition ListTasks (params : v1.ListTasksParams) : http_call W := λ c r w,
  respond Visit.ListTasks (ssi_ListTasks sh c params) w.
Definition CreateTask : http_call W := λ c r w,
  respond_body decode_CreateTask Visit.CreateTask (ssi_CreateTask sh c) r w.
Definition UpdateTask (id : uuid) : http_call W := λ c r w,
  respond_body decode_UpdateTask Visit.UpdateTask (ssi_UpdateTask sh c id) r w.
Definition ListTaskComments (id : uuid) : http_call W := λ c r w,
  respond Visit.ListTaskComments (ssi_ListTaskComments sh c id) w.
Definition AddTaskComment (id : uuid) : http_call W := λ c r w,
  respond_body decode_AddComment Visit.AddTaskComment (ssi_AddTaskComment sh c id) r w.
Definition GetTaskHistory (id : uuid) : http_call W := λ c r w,
  respond Visit.GetTaskHistory (ssi_GetTaskHistory sh c id) w.
Definition ListTeams : http_call W := λ c r w,
  respond Visit.ListTeams (ssi_ListTeams sh c) w.
Definition CreateTeam : http_call W := λ c r w,
  respond_body decode_CreateTeam Visit.CreateTeam (ssi_CreateTeam sh c) r w.
Definition InviteToTeam (id : uuid) : http_call W := λ c r w,
  respond_body decode_Invite Visit.InviteToTeam (ssi_InviteToTeam sh c id) r w.

End methods.
End strictHandler.

(** *** ServerInterfaceWrapper (api.gen.go:346-720) *)

(** HandlerWithOptions: the error handler of parameters that do not bind. *)
Definition InvalidParam (name : string) (err : error) : http_response :=
  http_Error (ErrorText (Errorf ("Invalid format for parameter " +:+ name +:+ ": ") err "")) 400.

Definition with_id `{!OapiRuntime} {W} (raw : string) (k : uuid → http_call W) : http_call W := λ c r w,
  match bind_path_UUID raw with
  | Ok id => k id c r w
  | Err err => (w, InvalidParam "id" err)
  end.

Definition with_param {W A} (name : string) (bound : result (option A))
    (k : option A → W → W * http_response) (w : W) : W * http_response :=
  match bound with
  | Ok v => k v w
  | Err err => (w, InvalidParam name err)
  end.

(** The wrapper of each operation; [id] is [chi.URLParam(r, "id")]. *)
Module ServerInterfaceWrapper.
Section methods.
Context {W : Type} `{!UuidLib} `{!OapiRuntime} (siw : StrictServerInterface W).

Definition GetOrphanTasks : http_call W := strictHandler.GetOrphanTasks siw.
Definition GetTeamSummaries : http_call W := strictHandler.GetTeamSummaries siw.
Definition GetTopContributors : http_call W := strictHandler.GetTopContributors siw.
Definition Login : http_call W := strictHandler.Login siw.
Definition Register : http_call W := strictHandler.Register siw.
Definition ListTasks : http_call W := λ c r w,
  let q := r_RawQuery r in
  with_param "team_id" (bind_query_UUID "team_id" q) (λ teamId,
  with_param "status" (bind_query_string "status" q) (λ status,
  with_param "assignee_id" (bind_query_UUID "assignee_id" q) (λ assigneeId,
  with_param "page" (bind_query_int "page" q) (λ page,
  with_param "limit" (bind_query_int "limit" q) (λ limit,
  strictHandler.ListTasks siw (v1.MkListTasksParams teamId status assigneeId page limit) c r))))) w.
Definition CreateTask : http_call W := strictHandler.CreateTask siw.
Definition UpdateTask (id : string) : http_call W := with_id id (strictHandler.UpdateTask siw).
Definition ListTaskComments (id : string) : http_call W := with_id id (strictHandler.ListTaskComments siw).
Definition AddTaskComment (id : string) : http_call W := with_id id (strictHandler.AddTaskComment siw).
Definition GetTaskHistory (id : string) : http_call W := with_id id (strictHandler.GetTaskHistory siw).
Definition ListTeams : http_call W := strictHandler.ListTeams siw.
Definition CreateTeam : http_call W := strictHandler.CreateTeam siw.
Definition InviteToTeam (id : string) : http_call W := with_id id (strictHandler.InviteToTeam siw).

End methods.
End ServerInterfaceWrapper.

Inductive endpoint : Type :=
  | GetOrphanTasks | GetTeamSummaries | GetTopContributors | Login | Register | ListTasks
  | CreateTask | UpdateTask | ListTaskComments | AddTaskComment | GetTaskHistory | ListTeams
  | CreateTeam | InviteToTeam.

#[global] Instance endpoint_eq_dec : EqDecision endpoint.
Proof. solve_decision. Defined.

(** The wrapper a route leads to. *)
Definition call `{!UuidLib} `{!OapiRuntime} {W} (ssi : StrictServerInterface W) (e : endpoint) (id : string)
    : http_call W :=
  match e with
  | GetOrphanTasks => ServerInterfaceWrapper.GetOrphanTasks ssi
  | GetTeamSummaries => ServerInterfaceWrapper.GetTeamSummaries ssi
  | GetTopContributors => ServerInterfaceWrapper.GetTopContributors ssi
  | Login => ServerInterfaceWrapper.Login ssi
  | Register => ServerInterfaceWrapper.Register ssi
  | ListTasks => ServerInterfaceWrapper.ListTasks ssi
  | CreateTask => ServerInterfaceWrapper.CreateTask ssi
  | UpdateTask => ServerInterfaceWrapper.UpdateTask ssi id
  | ListTaskComments => ServerInterfaceWrapper.ListTaskComments ssi id
  | AddTaskComment => ServerInterfaceWrapper.AddTaskComment ssi id
  | GetTaskHistory => ServerInterfaceWrapper.GetTaskHistory ssi id
  | ListTeams => ServerInterfaceWrapper.ListTeams ssi
  | CreateTeam => ServerInterfaceWrapper.CreateTeam ssi
  | InviteToTeam => ServerInterfaceWrapper.InviteToTeam ssi id
  end.

(** *** HandlerWithOptions: the route table (api.gen.go:818-878) *)
Definition routes : list (method * string * endpoint) :=
  [(MethodGet, "/analytics/orphan-tasks", GetOrphanTasks);
   (MethodGet, "/analytics/team-summaries", GetTeamSummaries);
   (MethodGet, "/analytics/top-contributors", GetTopContributors);
   (MethodPost, "/login", Login);
   (MethodPost, "/register", Register);
   (MethodGet, "/tasks", ListTasks);
   (MethodPost, "/tasks", CreateTask);
   (MethodPut, "/tasks/{id}", UpdateTask);
   (MethodGet, "/tasks/{id}/comments", ListTaskComments);
   (MethodPost, "/tasks/{id}/comments", AddTaskComment);
   (MethodGet, "/tasks/{id}/history", GetTaskHistory);
   (MethodGet, "/teams", ListTeams);
   (MethodPost, "/teams", CreateTeam);
   (MethodPost, "/teams/{id}/invite", InviteToTeam)].

(** Every operation has exactly one route, and no two routes coincide. *)
Lemma routes_complete e : e ∈ routes.*2.
Proof. destruct e; apply (bool_decide_unpack _); by vm_compute. Qed.

Lemma routes_one_each : NoDup routes.*2.
Proof. apply (bool_decide_unpack _). by vm_compute. Qed.

Lemma routes_NoDup : NoDup routes.*1.
Proof. apply (bool_decide_unpack _). by vm_compute. Qed.
