(* ===== verification/Wire.v ===== *)
(** * Wire: the answers as JSON

    What [json.NewEncoder(w).Encode(response)] writes for the wire types of
    api.gen.go: the fields in the order of the structs under the names of their
    tags, and a line end. An instant or a date that has no text is an error,
    [None]. *)
From S2P Require Import Prelude Go Uuid Domain Json JsonDec Api.
Open Scope Z_scope.

Section wire.
Context `{!UuidLib} `{!OapiRuntime}.

Definition enc_Date (d : v1.Date) : option json := Date_MarshalJSON (v1.Date_Time d).
Definition enc_some {A} (e : A → json) (a : A) : option json := Some (e a).
Definition enc_list {A} (e : A → option json) (l : list A) : option json := JArray <$> mapM e l.

Definition enc_Error (e : v1.Error) : json := JObject [("message", enc_string (v1.Message e))].

Definition enc_LoginResponse (v : v1.LoginResponse) : json :=
  JObject [("token", enc_string (v1.LRs_Token v))].

Definition enc_Comment (c : v1.Comment) : option json :=
  created ← enc_time (v1.C_CreatedAt c);
  Some (JObject [
    ("body", enc_string (v1.C_Body c)); ("created_at", created); ("id", enc_int (v1.C_Id c));
    ("task_id", enc_uuid (v1.C_TaskId c)); ("user_id", enc_uuid (v1.C_UserId c)) ]).

Definition enc_Task (t : v1.Task) : option json :=
  assignee ← enc_ptr (enc_some enc_uuid) (v1.T_AssigneeId t);
  created ← enc_time (v1.T_CreatedAt t);
  description ← enc_ptr (enc_some enc_string) (v1.T_Description t);
  due ← enc_ptr enc_Date (v1.T_DueDate t);
  updated ← enc_time (v1.T_UpdatedAt t);
  Some (JObject [
    ("assignee_id", assignee); ("created_at", created); ("created_by", enc_uuid (v1.T_CreatedBy t));
    ("description", description); ("due_date", due); ("id", enc_uuid (v1.T_Id t));
    ("priority", enc_string (v1.T_Priority t)); ("status", enc_string (v1.T_Status t));
    ("team_id", enc_uuid (v1.T_TeamId t)); ("title", enc_string (v1.T_Title t)); ("updated_at", updated) ]).

Definition enc_TaskHistory (h : v1.TaskHistory) : option json :=
  changed ← enc_time (v1.H_ChangedAt h);
  new ← enc_ptr (enc_some enc_string) (v1.H_NewValue h);
  old ← enc_ptr (enc_some enc_string) (v1.H_OldValue h);
  Some (JObject [
    ("changed_at", changed); ("changed_by", enc_uuid (v1.H_ChangedBy h)); ("field", enc_string (v1.H_Field h));
    ("id", enc_int (v1.H_Id h)); ("new_value", new); ("old_value", old); ("task_id", enc_uuid (v1.H_TaskId h)) ]).

Definition enc_TaskHistoryResponse (v : v1.TaskHistoryResponse) : option json :=
  history ← enc_list enc_TaskHistory (v1.THR_History v);
  Some (JObject [("history", history)]).

Definition enc_TaskListResponse (v : v1.TaskListResponse) : option json :=
  tasks ← enc_list enc_Task (v1.TL_Tasks v);
  Some (JObject [
    ("limit", enc_int (v1.TL_Limit v)); ("page", enc_int (v1.TL_Page v)); ("tasks", tasks);
    ("total", enc_int (v1.TL_Total v)) ]).

Definition enc_Team (t : v1.Team) : option json :=
  created ← enc_time (v1.Tm_CreatedAt t);
  Some (JObject [
    ("created_at", created); ("created_by", enc_uuid (v1.Tm_CreatedBy t)); ("id", enc_uuid (v1.Tm_Id t));
    ("name", enc_string (v1.Tm_Name t)) ]).

Definition enc_TeamSummary (s : v1.TeamSummary) : json := JObject [
  ("done_last_7_days", enc_int (v1.S_DoneLast7Days s)); ("member_count", enc_int (v1.S_MemberCount s));
  ("name", enc_string (v1.S_Name s)); ("team_id", enc_uuid (v1.S_TeamId s)) ].

Definition enc_TopContributor (c : v1.TopContributor) : json := JObject [
  ("rank_in_team", enc_int (v1.TCo_RankInTeam c)); ("task_count", enc_int (v1.TCo_TaskCount c));
  ("team_id", enc_uuid (v1.TCo_TeamId c)); ("user_id", enc_uuid (v1.TCo_UserId c)) ].

Definition enc_OrphanTask (o : v1.OrphanTask) : json := JObject [
  ("assignee_id", enc_uuid (v1.O_AssigneeId o)); ("id", enc_uuid (v1.O_Id o));
  ("team_id", enc_uuid (v1.O_TeamId o)); ("title", enc_string (v1.O_Title o)) ].

Definition enc_response (v : v1.json) : option json :=
  match v with
  | v1.J_Error e => Some (enc_Error e)
  | v1.J_Login v => Some (enc_LoginResponse v)
  | v1.J_Task t => enc_Task t
  | v1.J_TaskList v => enc_TaskListResponse v
  | v1.J_History v => enc_TaskHistoryResponse v
  | v1.J_Comment c => enc_Comment c
  | v1.J_Comments l => enc_list enc_Comment l
  | v1.J_Team t => enc_Team t
  | v1.J_Teams l => teams ← enc_list enc_Team l; Some (JObject [("teams", teams)])
  | v1.J_Summaries l => enc_list (enc_some enc_TeamSummary) l
  | v1.J_Contributors l => enc_list (enc_some enc_TopContributor) l
  | v1.J_Orphans l => enc_list (enc_some enc_OrphanTask) l
  end.

Definition newline : string := String (of_byte 10) "".

(** The bytes of a body; an error's text is [err.Error()], and http.Error ends
    a text with a line end. A response that does not encode has its status and
    its header sent, and then the error for a body. *)
Definition body_text (Error : error → string) (encode_error : v1.json → error) (b : body) : string :=
  match b with
  | NoBody => ""
  | JSON v =>
      match enc_response v with
      | Some j => encode j +:+ newline
      | None => Error (encode_error v) +:+ newline
      end
  | Text msg => msg +:+ newline
  | ErrorText err => Error err +:+ newline
  end.

(** The API declares the assignee and the due date of an update nullable; a
    null and an absent field are the same request, that changes neither. *)
Example null_is_absent :
  decode_UpdateTask (encode (JObject [("assignee_id", JNull); ("due_date", JNull)])) =
    decode_UpdateTask (encode (JObject [])) ∧
  decode_UpdateTask (encode (JObject [])) = Ok (v1.MkUpdateTaskRequest None None None None None None).
Proof. by split. Qed.

End wire.
