(* ===== verification/Generated.v ===== *)
(** * Generated: the generated server with its options (api.gen.go)

    Api.v has what an operation of the program runs. Here is the generated code
    as it is written, with the parts the program leaves at their defaults: the
    interfaces, the request objects, the middlewares of the two layers, the
    error handlers that can be replaced, the router the routes are added to.
    With the defaults the two are the same. *)
From S2P Require Import Prelude Go Uuid Domain Api.

(** ** Constants and enumerations

    The enumerations are strings, as in Domain.v. *)
Definition BearerAuthScopes : string := "bearerAuth.Scopes".
Definition High : TaskPriority := "high".
Definition Low : TaskPriority := "low".
Definition Medium : TaskPriority := "medium".
Definition Done : TaskStatus := "done".
Definition InProgress : TaskStatus := "in_progress".
Definition Todo : TaskStatus := "todo".

(** The conversions of the handlers between the two packages keep the meaning of
    the constants. *)
Lemma enumerations_agree :
  [Low; Medium; High] = [PriorityLow; PriorityMedium; PriorityHigh] ∧
  [Todo; InProgress; Done] = [StatusTodo; StatusInProgress; StatusDone].
Proof. done. Qed.

(** ** Bodies and request objects *)

Definition LoginJSONRequestBody : Type := v1.LoginRequest.
Definition RegisterJSONRequestBody : Type := v1.RegisterRequest.
Definition CreateTaskJSONRequestBody : Type := v1.CreateTaskRequest.
Definition UpdateTaskJSONRequestBody : Type := v1.UpdateTaskRequest.
Definition AddTaskCommentJSONRequestBody : Type := v1.AddCommentRequest.
Definition CreateTeamJSONRequestBody : Type := v1.CreateTeamRequest.
Definition InviteToTeamJSONRequestBody : Type := v1.InviteRequest.

Record GetOrphanTasksRequestObject : Type := MkGetOrphanTasksRequest {}.
Record GetTeamSummariesRequestObject : Type := MkGetTeamSummariesRequest {}.
Record GetTopContributorsRequestObject : Type := MkGetTopContributorsRequest {}.
Record LoginRequestObject : Type := MkLoginRequest { Login_Body : option LoginJSONRequestBody }.
Record RegisterRequestObject : Type := MkRegisterRequest { Register_Body : option RegisterJSONRequestBody }.
Record ListTasksRequestObject : Type := MkListTasksRequest { ListTasks_Params : v1.ListTasksParams }.
Record CreateTaskRequestObject : Type := MkCreateTaskRequest { CreateTask_Body : option CreateTaskJSONRequestBody }.
Record UpdateTaskRequestObject : Type := MkUpdateTaskRequest { UpdateTask_Id : uuid; UpdateTask_Body : option UpdateTaskJSONRequestBody }.
Record ListTaskCommentsRequestObject : Type := MkListTaskCommentsRequest { ListTaskComments_Id : uuid }.
Record AddTaskCommentRequestObject : Type := MkAddTaskCommentRequest { AddTaskComment_Id : uuid; AddTaskComment_Body : option AddTaskCommentJSONRequestBody }.
Record GetTaskHistoryRequestObject : Type := MkGetTaskHistoryRequest { GetTaskHistory_Id : uuid }.
Record ListTeamsRequestObject : Type := MkListTeamsRequest {}.
Record CreateTeamRequestObject : Type := MkCreateTeamRequest { CreateTeam_Body : option CreateTeamJSONRequestBody }.
Record InviteToTeamRequestObject : Type := MkInviteToTeamRequest { InviteToTeam_Id : uuid; InviteToTeam_Body : option InviteToTeamJSONRequestBody }.

(** ** Errors of parameters *)

Inductive param_error : Type :=
  | UnescapedCookieParamError (ParamName : string) (Err : error)
  | UnmarshalingParamError (ParamName : string) (Err : error)
  | RequiredParamError (ParamName : string)
  | RequiredHeaderError (ParamName : string) (Err : error)
  | InvalidParamFormatError (ParamName : string) (Err : error)
  | TooManyValuesForParamError (ParamName : string) (Count : Z).

(** [Unwrap()], for the types that have it. *)
Definition Unwrap (e : param_error) : option error :=
  match e with
  | UnescapedCookieParamError _ err | UnmarshalingParamError _ err | RequiredHeaderError _ err
  | InvalidParamFormatError _ err => Some err
  | RequiredParamError _ | TooManyValuesForParamError _ _ => None
  end.

(** The error as a chain: its text, with the text of the error inside where the
    format has one. *)
Definition param_err (e : param_error) : error :=
  match e with
  | UnescapedCookieParamError n _ => OtherError ("error unescaping cookie parameter '" +:+ n +:+ "'")
  | UnmarshalingParamError n err => Errorf ("Error unmarshaling parameter " +:+ n +:+ " as JSON: ") err ""
  | RequiredParamError n => OtherError ("Query argument " +:+ n +:+ " is required, but not found")
  | RequiredHeaderError n _ => OtherError ("Header parameter " +:+ n +:+ " is required, but not found")
  | InvalidParamFormatError n err => Errorf ("Invalid format for parameter " +:+ n +:+ ": ") err ""
  | TooManyValuesForParamError n c =>
      OtherError ("Expected one value for " +:+ n +:+ ", got " +:+ fmt_d c)
  end.

(** ** ServerInterface *)

Record ServerInterface (W : Type) : Type := MkServerInterface {
  si_GetOrphanTasks : http_call W;
  si_GetTeamSummaries : http_call W;
  si_GetTopContributors : http_call W;
  si_Login : http_call W;
  si_Register : http_call W;
  si_ListTasks : v1.ListTasksParams → http_call W;
  si_CreateTask : http_call W;
  si_UpdateTask : uuid → http_call W;
  si_ListTaskComments : uuid → http_call W;
  si_AddTaskComment : uuid → http_call W;
  si_GetTaskHistory : uuid → http_call W;
  si_ListTeams : http_call W;
  si_CreateTeam : http_call W;
  si_InviteToTeam : uuid → http_call W
}.
Arguments si_GetOrphanTasks {W} _.
Arguments si_GetTeamSummaries {W} _.
Arguments si_GetTopContributors {W} _.
Arguments si_Login {W} _.
Arguments si_Register {W} _.
Arguments si_ListTasks {W} _.
Arguments si_CreateTask {W} _.
Arguments si_UpdateTask {W} _.
Arguments si_ListTaskComments {W} _.
Arguments si_AddTaskComment {W} _.
Arguments si_GetTaskHistory {W} _.
Arguments si_ListTeams {W} _.
Arguments si_CreateTeam {W} _.
Arguments si_InviteToTeam {W} _.

(** Every operation answers 501. *)
Definition Unimplemented {W} : ServerInterface W :=
  let not_implemented : http_call W := λ _ _ w, (w, WriteHeader 501) in
  MkServerInterface W
    not_implemented not_implemented not_implemented not_implemented not_implemented (λ _, not_implemented) not_implemented (λ _, not_implemented) (λ _, not_implemented) (λ _, not_implemented) (λ _, not_implemented) not_implemented not_implemented (λ _, not_implemented).

(** ** The strict handler *)

Record StrictHTTPServerOptions : Type := MkStrictHTTPServerOptions {
  opt_RequestErrorHandlerFunc : http_request → error → http_response;
  opt_ResponseErrorHandlerFunc : http_request → error → http_response
}.

(** A handler function of one operation: [None] is a nil response. *)
Definition StrictHandlerFunc (W Req Res : Type) : Type := ctx → http_request → Req → comp W (option Res).

(** A middleware wraps the handler of any operation, whose name it is told; it
    keeps the operation's types of requests and responses, and writes nothing
    itself. *)
Definition StrictMiddlewareFunc (W : Type) : Type :=
  ∀ Req Res : Type, StrictHandlerFunc W Req Res → string → StrictHandlerFunc W Req Res.

Record StrictHandler (W : Type) : Type := MkStrictHandler {
  sh_ssi : StrictServerInterface W;
  sh_middlewares : list (StrictMiddlewareFunc W);
  sh_options : StrictHTTPServerOptions
}.
Arguments sh_ssi {W} _.
Arguments sh_middlewares {W} _.
Arguments sh_options {W} _.

Section strict.
Context {W : Type} `{!UuidLib} `{!OapiRuntime} (sh : StrictHandler W).

(** [for _, middleware := range sh.middlewares { handler = middleware(handler, name) }] *)
Definition strict_wrap {Req Res} (name : string) (h : ctx → Req → comp W Res) : StrictHandlerFunc W Req Res :=
  foldl (λ handler middleware, middleware Req Res handler name)
    (λ c _ request, response ← h c request; mret (Some response)) (sh_middlewares sh).

(** Running the handler, and what is written for its outcome; nothing written
    is an empty answer. *)
Definition strict_run {Req Res} (name : string) (visit : Res → http_response)
    (h : ctx → Req → comp W Res) (request : Req) : http_call W := λ c r w,
  match strict_wrap name h c r request w with
  | (w', Err err) => (w', opt_ResponseErrorHandlerFunc (sh_options sh) r err)
  | (w', Ok (Some response)) => (w', visit response)
  | (w', Ok None) => (w', WriteHeader 200)
  end.

(** The same after decoding the JSON body. *)
Definition strict_body {B Req Res} (decode : string → result B) (request : B → Req) (name : string)
    (visit : Res → http_response) (h : ctx → Req → comp W Res) : http_call W := λ c r w,
  match decode (r_Body r) with
  | Ok body => strict_run name visit h (request body) c r w
  | Err err => (w, opt_RequestErrorHandlerFunc (sh_options sh) r (Errorf "can't decode JSON body: " err ""))
  end.

(** The methods of strictHandler. *)
Definition strict_GetOrphanTasks : http_call W :=
  strict_run "GetOrphanTasks" Visit.GetOrphanTasks (λ c _, ssi_GetOrphanTasks (sh_ssi sh) c) MkGetOrphanTasksRequest.
Definition strict_GetTeamSummaries : http_call W :=
  strict_run "GetTeamSummaries" Visit.GetTeamSummaries (λ c _, ssi_GetTeamSummaries (sh_ssi sh) c) MkGetTeamSummariesRequest.
Definition strict_GetTopContributors : http_call W :=
  strict_run "GetTopContributors" Visit.GetTopContributors (λ c _, ssi_GetTopContributors (sh_ssi sh) c) MkGetTopContributorsRequest.
Definition strict_Login : http_call W :=
  strict_body decode_Login (λ body, MkLoginRequest (Some body)) "Login" Visit.Login
    (λ c request, ssi_Login (sh_ssi sh) c (Login_Body request)).
Definition strict_Register : http_call W :=
  strict_body decode_Register (λ body, MkRegisterRequest (Some body)) "Register" Visit.Register
    (λ c request, ssi_Register (sh_ssi sh) c (Register_Body request)).
Definition strict_ListTasks (params : v1.ListTasksParams) : http_call W :=
  strict_run "ListTasks" Visit.ListTasks (λ c request, ssi_ListTasks (sh_ssi sh) c (ListTasks_Params request)) (MkListTasksRequest params).
Definition strict_CreateTask : http_call W :=
  strict_body decode_CreateTask (λ body, MkCreateTaskRequest (Some body)) "CreateTask" Visit.CreateTask
    (λ c request, ssi_CreateTask (sh_ssi sh) c (CreateTask_Body request)).
Definition strict_UpdateTask (id : uuid) : http_call W :=
  strict_body decode_UpdateTask (λ body, MkUpdateTaskRequest id (Some body)) "UpdateTask" Visit.UpdateTask
    (λ c request, ssi_UpdateTask (sh_ssi sh) c (UpdateTask_Id request) (UpdateTask_Body request)).
Definition strict_ListTaskComments (id : uuid) : http_call W :=
  strict_run "ListTaskComments" Visit.ListTaskComments (λ c request, ssi_ListTaskComments (sh_ssi sh) c (ListTaskComments_Id request)) (MkListTaskCommentsRequest id).
Definition strict_AddTaskComment (id : uuid) : http_call W :=
  strict_body decode_AddComment (λ body, MkAddTaskCommentRequest id (Some body)) "AddTaskComment" Visit.AddTaskComment
    (λ c request, ssi_AddTaskComment (sh_ssi sh) c (AddTaskComment_Id request) (AddTaskComment_Body request)).
Definition strict_GetTaskHistory (id : uuid) : http_call W :=
  strict_run "GetTaskHistory" Visit.GetTaskHistory (λ c request, ssi_GetTaskHistory (sh_ssi sh) c (GetTaskHistory_Id request)) (MkGetTaskHistoryRequest id).
Definition strict_ListTeams : http_call W :=
  strict_run "ListTeams" Visit.ListTeams (λ c _, ssi_ListTeams (sh_ssi sh) c) MkListTeamsRequest.
Definition strict_CreateTeam : http_call W :=
  strict_body decode_CreateTeam (λ body, MkCreateTeamRequest (Some body)) "CreateTeam" Visit.CreateTeam
    (λ c request, ssi_CreateTeam (sh_ssi sh) c (CreateTeam_Body request)).
Definition strict_InviteToTeam (id : uuid) : http_call W :=
  strict_body decode_Invite (λ body, MkInviteToTeamRequest id (Some body)) "InviteToTeam" Visit.InviteToTeam
    (λ c request, ssi_InviteToTeam (sh_ssi sh) c (InviteToTeam_Id request) (InviteToTeam_Body request)).

Definition as_ServerInterface : ServerInterface W :=
  MkServerInterface W strict_GetOrphanTasks strict_GetTeamSummaries strict_GetTopContributors strict_Login strict_Register
    strict_ListTasks strict_CreateTask strict_UpdateTask strict_ListTaskComments 
    strict_AddTaskComment strict_GetTaskHistory strict_ListTeams strict_CreateTeam strict_InviteToTeam.

End strict.

Definition NewStrictHandlerWithOptions {W} `{!UuidLib} `{!OapiRuntime} (ssi : StrictServerInterface W)
    (middlewares : list (StrictMiddlewareFunc W)) (options : StrictHTTPServerOptions) : ServerInterface W :=
  as_ServerInterface (MkStrictHandler W ssi middlewares options).

Definition NewStrictHandler {W} `{!UuidLib} `{!OapiRuntime} (ssi : StrictServerInterface W)
    (middlewares : list (StrictMiddlewareFunc W)) : ServerInterface W :=
  as_ServerInterface (MkStrictHandler W ssi middlewares (MkStrictHTTPServerOptions
    (λ _ err, http_Error (ErrorText err) 400) (λ _ err, http_Error (ErrorText err) 500))).

(** ** The wrapper *)

Definition MiddlewareFunc (W : Type) : Type := http_call W → http_call W.

Record Wrapper (W : Type) : Type := MkWrapper {
  siw_Handler : ServerInterface W;
  siw_HandlerMiddlewares : list (MiddlewareFunc W);
  siw_ErrorHandlerFunc : http_request → error → http_response
}.
Arguments siw_Handler {W} _.
Arguments siw_HandlerMiddlewares {W} _.
Arguments siw_ErrorHandlerFunc {W} _.

Section wrapper.
Context {W : Type} `{!UuidLib} `{!OapiRuntime} (siw : Wrapper W).

(** [for _, middleware := range siw.HandlerMiddlewares { handler = middleware(handler) }]; the
    scopes put in the context are read by nothing here. *)
Definition wrapped (handler : http_call W) : http_call W :=
  foldl (λ handler middleware, middleware handler) handler (siw_HandlerMiddlewares siw).

(** A parameter is bound, or the operation ends with the error handler. *)
Definition bound {A} (name : string) (value : http_request → result A) (k : A → http_call W) : http_call W := λ c r w,
  match value r with
  | Ok a => k a c r w
  | Err err => (w, siw_ErrorHandlerFunc siw r (param_err (InvalidParamFormatError name err)))
  end.

(** The methods of ServerInterfaceWrapper; [id] is [chi.URLParam(r, "id")]. *)
Definition wrap_GetOrphanTasks : http_call W := wrapped (si_GetOrphanTasks (siw_Handler siw)).
Definition wrap_GetTeamSummaries : http_call W := wrapped (si_GetTeamSummaries (siw_Handler siw)).
Definition wrap_GetTopContributors : http_call W := wrapped (si_GetTopContributors (siw_Handler siw)).
Definition wrap_Login : http_call W := wrapped (si_Login (siw_Handler siw)).
Definition wrap_Register : http_call W := wrapped (si_Register (siw_Handler siw)).
Definition wrap_ListTasks : http_call W :=
  bound "team_id" (λ r, bind_query_UUID "team_id" (r_RawQuery r)) (λ teamId,
  bound "status" (λ r, bind_query_string "status" (r_RawQuery r)) (λ status,
  bound "assignee_id" (λ r, bind_query_UUID "assignee_id" (r_RawQuery r)) (λ assigneeId,
  bound "page" (λ r, bind_query_int "page" (r_RawQuery r)) (λ page,
  bound "limit" (λ r, bind_query_int "limit" (r_RawQuery r)) (λ limit,
  wrapped (si_ListTasks (siw_Handler siw) (v1.MkListTasksParams teamId status assigneeId page limit))))))).
Definition wrap_CreateTask : http_call W := wrapped (si_CreateTask (siw_Handler siw)).
Definition wrap_UpdateTask (id : string) : http_call W :=
  bound "id" (λ _, bind_path_UUID id) (λ id, wrapped (si_UpdateTask (siw_Handler siw) id)).
Definition wrap_ListTaskComments (id : string) : http_call W :=
  bound "id" (λ _, bind_path_UUID id) (λ id, wrapped (si_ListTaskComments (siw_Handler siw) id)).
Definition wrap_AddTaskComment (id : string) : http_call W :=
  bound "id" (λ _, bind_path_UUID id) (λ id, wrapped (si_AddTaskComment (siw_Handler siw) id)).
Definition wrap_GetTaskHistory (id : string) : http_call W :=
  bound "id" (λ _, bind_path_UUID id) (λ id, wrapped (si_GetTaskHistory (siw_Handler siw) id)).
Definition wrap_ListTeams : http_call W := wrapped (si_ListTeams (siw_Handler siw)).
Definition wrap_CreateTeam : http_call W := wrapped (si_CreateTeam (siw_Handler siw)).
Definition wrap_InviteToTeam (id : string) : http_call W :=
  bound "id" (λ _, bind_path_UUID id) (λ id, wrapped (si_InviteToTeam (siw_Handler siw) id)).

End wrapper.

(** ** The routes *)

(** chi.Router as a registry: methods and patterns with their handlers, which
    take the value of the [{id}] segment. *)
Abbreviation Router W := (list (method * string * (string → http_call W))).

Record ChiServerOptions (W : Type) : Type := MkChiServerOptions {
  opt_BaseURL : string;
  opt_BaseRouter : option (Router W);
  opt_Middlewares : list (MiddlewareFunc W);
  opt_ErrorHandlerFunc : option (http_request → error → http_response)
}.
Arguments opt_BaseURL {W} _.
Arguments opt_BaseRouter {W} _.
Arguments opt_Middlewares {W} _.
Arguments opt_ErrorHandlerFunc {W} _.

Section router.
Context {W : Type} `{!UuidLib} `{!OapiRuntime}.

Definition HandlerWithOptions (si : ServerInterface W) (options : ChiServerOptions W) : Router W :=
  let r := default [] (opt_BaseRouter options) in
  let error_handler := default (λ _ err, http_Error (ErrorText err) 400) (opt_ErrorHandlerFunc options) in
  let wrapper := MkWrapper W si (opt_Middlewares options) error_handler in
  let url := opt_BaseURL options in
  r ++
  [(MethodGet, url +:+ "/analytics/orphan-tasks", λ _, wrap_GetOrphanTasks wrapper);
   (MethodGet, url +:+ "/analytics/team-summaries", λ _, wrap_GetTeamSummaries wrapper);
   (MethodGet, url +:+ "/analytics/top-contributors", λ _, wrap_GetTopContributors wrapper);
   (MethodPost, url +:+ "/login", λ _, wrap_Login wrapper);
   (MethodPost, url +:+ "/register", λ _, wrap_Register wrapper);
   (MethodGet, url +:+ "/tasks", λ _, wrap_ListTasks wrapper);
   (MethodPost, url +:+ "/tasks", λ _, wrap_CreateTask wrapper);
   (MethodPut, url +:+ "/tasks/{id}", wrap_UpdateTask wrapper);
   (MethodGet, url +:+ "/tasks/{id}/comments", wrap_ListTaskComments wrapper);
   (MethodPost, url +:+ "/tasks/{id}/comments", wrap_AddTaskComment wrapper);
   (MethodGet, url +:+ "/tasks/{id}/history", wrap_GetTaskHistory wrapper);
   (MethodGet, url +:+ "/teams", λ _, wrap_ListTeams wrapper);
   (MethodPost, url +:+ "/teams", λ _, wrap_CreateTeam wrapper);
   (MethodPost, url +:+ "/teams/{id}/invite", wrap_InviteToTeam wrapper)].

(** The package's Handler function. *)
Definition Handler_default (si : ServerInterface W) : Router W :=
  HandlerWithOptions si (MkChiServerOptions W "" None [] None).
Definition HandlerFromMux (si : ServerInterface W) (r : Router W) : Router W :=
  HandlerWithOptions si (MkChiServerOptions W "" (Some r) [] None).
Definition HandlerFromMuxWithBaseURL (si : ServerInterface W) (r : Router W) (baseURL : string) : Router W :=
  HandlerWithOptions si (MkChiServerOptions W baseURL (Some r) [] None).

(** ** With the defaults *)

Lemma strict_run_default {Req Res} ssi name (visit : Res → http_response) (h : ctx → Req → comp W Res) request c r w :
  strict_run (MkStrictHandler W ssi [] (MkStrictHTTPServerOptions
    (λ _ err, http_Error (ErrorText err) 400) (λ _ err, http_Error (ErrorText err) 500))) name visit h request c r w =
  respond visit (h c request) w.
Proof.
  unfold strict_run, strict_wrap, respond. cbn [sh_middlewares foldl sh_options]. rewrite comp_bind_run.
  by destruct (h c request w) as [w' [x|e]].
Qed.

Create HintDb operation.
#[local] Hint Unfold
  wrap_GetOrphanTasks wrap_GetTeamSummaries wrap_GetTopContributors wrap_Login wrap_Register
  wrap_ListTasks wrap_CreateTask wrap_UpdateTask wrap_ListTaskComments wrap_AddTaskComment
  wrap_GetTaskHistory wrap_ListTeams wrap_CreateTeam wrap_InviteToTeam strict_GetOrphanTasks
  strict_GetTeamSummaries strict_GetTopContributors strict_Login strict_Register strict_ListTasks
  strict_CreateTask strict_UpdateTask strict_ListTaskComments strict_AddTaskComment
  strict_GetTaskHistory strict_ListTeams strict_CreateTeam strict_InviteToTeam : operation.
#[local] Hint Unfold
  ServerInterfaceWrapper.GetOrphanTasks ServerInterfaceWrapper.GetTeamSummaries
  ServerInterfaceWrapper.GetTopContributors ServerInterfaceWrapper.Login
  ServerInterfaceWrapper.Register ServerInterfaceWrapper.ListTasks ServerInterfaceWrapper.CreateTask
  ServerInterfaceWrapper.UpdateTask ServerInterfaceWrapper.ListTaskComments
  ServerInterfaceWrapper.AddTaskComment ServerInterfaceWrapper.GetTaskHistory
  ServerInterfaceWrapper.ListTeams ServerInterfaceWrapper.CreateTeam
  ServerInterfaceWrapper.InviteToTeam strictHandler.GetOrphanTasks strictHandler.GetTeamSummaries
  strictHandler.GetTopContributors strictHandler.Login strictHandler.Register
  strictHandler.ListTasks strictHandler.CreateTask strictHandler.UpdateTask
  strictHandler.ListTaskComments strictHandler.AddTaskComment strictHandler.GetTaskHistory
  strictHandler.ListTeams strictHandler.CreateTeam strictHandler.InviteToTeam : operation.
#[local] Hint Unfold wrapped bound with_param with_id NewStrictHandler as_ServerInterface : operation.

(** Both sides bind the parameters alike and then run the same strict handler. *)
Ltac operation_default :=
  cbn [snd call]; autounfold with operation;
  cbn [foldl default from_option opt_BaseRouter opt_Middlewares opt_ErrorHandlerFunc siw_Handler siw_HandlerMiddlewares
    siw_ErrorHandlerFunc sh_ssi
    si_GetOrphanTasks si_GetTeamSummaries si_GetTopContributors si_Login si_Register si_ListTasks
    si_CreateTask si_UpdateTask si_ListTaskComments si_AddTaskComment si_GetTaskHistory si_ListTeams
    si_CreateTeam si_InviteToTeam];
  repeat match goal with |- context [match ?x with Ok _ => _ | Err _ => _ end] => destruct x; [|done] end;
  unfold strict_body, respond_body;
  repeat match goal with |- context [match ?x with Ok _ => _ | Err _ => _ end] => destruct x; [|reflexivity] end;
  rewrite strict_run_default; reflexivity.

(** The generated server with its defaults: mounted on a router, with no
    middlewares and the error handlers of NewStrictHandler, it adds the routes
    of the API in order, and every operation does what Api.v says of it. *)
Lemma HandlerFromMux_default (ssi : StrictServerInterface W) (base : Router W) :
  ∃ added, HandlerFromMux (NewStrictHandler ssi []) base = base ++ added ∧
    Forall2 (λ x y, x.1 = y.1 ∧ ∀ id c r w, x.2 id c r w = call ssi y.2 id c r w) added routes.
Proof.
  eexists. split; [reflexivity|]. unfold routes.
  repeat (constructor; [split; [reflexivity|]; intros id c r w; operation_default|]). constructor.
Qed.

End router.
