(* ===== verification/Handler.v ===== *)
(** * Handler: internal/handler

    The HTTP handlers: each checks the caller's identity, converts the request,
    calls one service and maps the service's errors to the operation's
    responses. *)
From S2P Require Import Prelude Go Uuid Domain Ports Api.
From S2P Require Import TaskService TeamService AuthService CommentService AnalyticsService.

(** ** handler.go: the services the handler requires *)

Record AuthService (W : Type) := MkAuthService {
  h_Register : string → string → string → comp W unit;
  h_Login : string → string → comp W string
}.
Record TeamService (W : Type) := MkTeamService {
  h_CreateTeam : uuid → string → comp W Team;
  h_ListForUser : uuid → comp W (list Team);
  h_Invite : uuid → uuid → uuid → comp W unit
}.
Record TaskService (W : Type) := MkTaskService {
  h_CreateTask : uuid → CreateTaskInput → comp W Task;
  h_ListTasks : uuid → TaskFilter → comp W (list Task * Z);
  h_UpdateTask : uuid → uuid → UpdateTaskInput → comp W Task;
  h_History : uuid → uuid → comp W (list TaskHistory)
}.
Record CommentService (W : Type) := MkCommentService {
  h_AddComment : uuid → uuid → string → comp W Comment;
  h_ListComments : uuid → uuid → comp W (list Comment)
}.
Record AnalyticsService (W : Type) := MkAnalyticsService {
  h_TeamSummaries : comp W (list TeamSummary);
  h_TopContributors : comp W (list TopContributor);
  h_OrphanTasks : comp W (list OrphanTask)
}.
Arguments h_Register {W} _ _ _ _.
Arguments h_Login {W} _ _ _.
Arguments h_CreateTeam {W} _ _ _.
Arguments h_ListForUser {W} _ _.
Arguments h_Invite {W} _ _ _ _.
Arguments h_CreateTask {W} _ _ _.
Arguments h_ListTasks {W} _ _ _.
Arguments h_UpdateTask {W} _ _ _ _.
Arguments h_History {W} _ _ _.
Arguments h_AddComment {W} _ _ _ _.
Arguments h_ListComments {W} _ _ _.
Arguments h_TeamSummaries {W} _.
Arguments h_TopContributors {W} _.
Arguments h_OrphanTasks {W} _.

Module Handler.

(** ** constants.go *)
Definition msgUnauthorized : string := "unauthorized".
Definition msgEmptyBody : string := "empty body".
Definition msgForbidden : string := "forbidden".
Definition msgTaskNotFound : string := "task not found".

(** ** Conversions *)

Definition toAPITask (t : Task) : v1.Task :=
  v1.MkTask (Task_AssigneeID t) (Task_CreatedAt t) (Task_CreatedBy t) (Task_Description t)
    (v1.MkDate <$> Task_DueDate t) (Task_ID t) (Task_Priority t) (Task_Status t)
    (Task_TeamID t) (Task_Title t) (Task_UpdatedAt t).

Definition toAPITeam (t : Team) : v1.Team :=
  v1.MkTeam (Team_CreatedAt t) (Team_CreatedBy t) (Team_ID t) (Team_Name t).

Definition toAPIComment (c : Comment) : v1.Comment :=
  v1.MkComment (Comment_Body c) (Comment_CreatedAt c) (Comment_ID c) (Comment_TaskID c)
    (Comment_UserID c).

Definition toAPIHistory (e : TaskHistory) : v1.TaskHistory :=
  v1.MkTaskHistory (TH_ChangedAt e) (TH_ChangedBy e) (TH_Field e) (TH_ID e) (TH_NewValue e)
    (TH_OldValue e) (TH_TaskID e).

Definition toAPISummary (s : TeamSummary) : v1.TeamSummary :=
  v1.MkTeamSummary (TS_DoneLast7Days s) (TS_MemberCount s) (TS_Name s) (TS_TeamID s).

Definition toAPIContributor (c : TopContributor) : v1.TopContributor :=
  v1.MkTopContributor (TC_RankInTeam c) (TC_TaskCount c) (TC_TeamID c) (TC_UserID c).

Definition toAPIOrphan (t : OrphanTask) : v1.OrphanTask :=
  v1.MkOrphanTask (OT_AssigneeID t) (OT_ID t) (OT_TeamID t) (OT_Title t).

(** The inputs built from request bodies; an absent priority is the zero value. *)
Definition create_input (b : v1.CreateTaskRequest) : CreateTaskInput :=
  MkCreateTaskInput (v1.CTR_TeamId b) (v1.CTR_Title b) (v1.CTR_Description b)
    (v1.CTR_AssigneeId b) (v1.Date_Time <$> v1.CTR_DueDate b) (default "" (v1.CTR_Priority b)).

Definition update_input (b : v1.UpdateTaskRequest) : UpdateTaskInput :=
  MkUpdateTaskInput (v1.UTR_Title b) (v1.UTR_Description b) (v1.UTR_Status b)
    (v1.UTR_AssigneeId b) (v1.Date_Time <$> v1.UTR_DueDate b) (v1.UTR_Priority b).

Definition list_filter (p : v1.ListTasksParams) : TaskFilter :=
  MkTaskFilter (v1.P_TeamId p) (v1.P_Status p) (v1.P_AssigneeId p)
    (default 0 (v1.P_Page p)) (default 0 (v1.P_Limit p)).

Section handler.
Context {W : Type}.

Record Handler : Type := MkHandler {
  auth : AuthService W;
  teams : TeamService W;
  tasks : TaskService W;
  comments : CommentService W;
  analytics : AnalyticsService W
}.

Definition New (auth : AuthService W) (teams : TeamService W) (tasks : TaskService W)
    (comments : CommentService W) (analytics : AnalyticsService W) : Handler :=
  MkHandler auth teams tasks comments analytics.

(** middleware.UserIDFromCtx *)
Definition UserIDFromCtx (c : ctx) : option uuid := ctx_userID c.

(** ** auth.go *)

Definition Register (h : Handler) (c : ctx) (body : option v1.RegisterRequest)
    : comp W v1.RegisterResponse :=
  match body with
  | None => mret (v1.Register400JSONResponse (v1.MkError msgEmptyBody))
  | Some b =>
      res ← attempt (h_Register (auth h) (v1.RR_Email b) (v1.RR_Name b) (v1.RR_Password b));
      match res with
      | Ok _ => mret v1.Register201Response
      | Err err =>
          if errors_Is err ErrConflict
          then mret (v1.Register409JSONResponse (v1.MkError "email already registered"))
          else throw err
      end
  end.

Definition Login (h : Handler) (c : ctx) (body : option v1.LoginRequest)
    : comp W v1.LoginResponseObject :=
  match body with
  | None => mret (v1.Login400JSONResponse (v1.MkError msgEmptyBody))
  | Some b =>
      res ← attempt (h_Login (auth h) (v1.LR_Email b) (v1.LR_Password b));
      match res with
      | Ok token => mret (v1.Login200JSONResponse (v1.MkLoginResponse token))
      | Err err =>
          if errors_Is err ErrUnauthorized
          then mret (v1.Login401JSONResponse (v1.MkError "invalid credentials"))
          else throw err
      end
  end.

(** ** team.go *)

Definition ListTeams (h : Handler) (c : ctx) : comp W v1.ListTeamsResponse :=
  match UserIDFromCtx c with
  | None => mret (v1.ListTeams401JSONResponse (v1.MkError msgUnauthorized))
  | Some userID =>
      ts ← h_ListForUser (teams h) userID;
      mret (v1.ListTeams200JSONResponse (toAPITeam <$> ts))
  end.

Definition CreateTeam (h : Handler) (c : ctx) (body : option v1.CreateTeamRequest)
    : comp W v1.CreateTeamResponse :=
  match UserIDFromCtx c, body with
  | None, _ => mret (v1.CreateTeam401JSONResponse (v1.MkError msgUnauthorized))
  | Some _, None => mret (v1.CreateTeam400JSONResponse (v1.MkError msgEmptyBody))
  | Some userID, Some b =>
      t ← h_CreateTeam (teams h) userID (v1.CTmR_Name b);
      mret (v1.CreateTeam201JSONResponse (toAPITeam t))
  end.

Definition InviteToTeam (h : Handler) (c : ctx) (id : uuid) (body : option v1.InviteRequest)
    : comp W v1.InviteToTeamResponse :=
  match UserIDFromCtx c, body with
  | None, _ => mret (v1.InviteToTeam401JSONResponse (v1.MkError msgUnauthorized))
  | Some _, None => mret (v1.InviteToTeam400JSONResponse (v1.MkError msgEmptyBody))
  | Some userID, Some b =>
      res ← attempt (h_Invite (teams h) userID id (v1.IR_UserId b));
      match res with
      | Ok _ => mret v1.InviteToTeam200Response
      | Err err =>
          if errors_Is err ErrForbidden
          then mret (v1.InviteToTeam403JSONResponse (v1.MkError msgForbidden))
          else if errors_Is err ErrNotFound
          then mret (v1.InviteToTeam404JSONResponse (v1.MkError "not found"))
          else throw err
      end
  end.

(** ** task.go *)

Definition CreateTask (h : Handler) (c : ctx) (body : option v1.CreateTaskRequest)
    : comp W v1.CreateTaskResponse :=
  match UserIDFromCtx c, body with
  | None, _ => mret (v1.CreateTask401JSONResponse (v1.MkError msgUnauthorized))
  | Some _, None => mret (v1.CreateTask400JSONResponse (v1.MkError msgEmptyBody))
  | Some userID, Some b =>
      res ← attempt (h_CreateTask (tasks h) userID (create_input b));
      match res with
      | Ok task => mret (v1.CreateTask201JSONResponse (toAPITask task))
      | Err err =>
          if errors_Is err ErrForbidden
          then mret (v1.CreateTask403JSONResponse (v1.MkError "not a team member"))
          else throw err
      end
  end.

Definition ListTasks (h : Handler) (c : ctx) (params : v1.ListTasksParams)
    : comp W v1.ListTasksResponse :=
  match UserIDFromCtx c with
  | None => mret (v1.ListTasks401JSONResponse (v1.MkError msgUnauthorized))
  | Some userID =>
      let filter := list_filter params in
      res ← attempt (h_ListTasks (tasks h) userID filter);
      match res with
      | Ok (ts, total) =>
          mret (v1.ListTasks200JSONResponse
            (v1.MkTaskListResponse (TF_Limit filter) (TF_Page filter) (toAPITask <$> ts) total))
      | Err err =>
          if errors_Is err ErrForbidden
          then mret (v1.ListTasks403JSONResponse (v1.MkError msgForbidden))
          else throw err
      end
  end.

Definition UpdateTask (h : Handler) (c : ctx) (id : uuid) (body : option v1.UpdateTaskRequest)
    : comp W v1.UpdateTaskResponse :=
  match UserIDFromCtx c, body with
  | None, _ => mret (v1.UpdateTask401JSONResponse (v1.MkError msgUnauthorized))
  | Some _, None => mret (v1.UpdateTask400JSONResponse (v1.MkError msgEmptyBody))
  | Some userID, Some b =>
      res ← attempt (h_UpdateTask (tasks h) userID id (update_input b));
      match res with
      | Ok task => mret (v1.UpdateTask200JSONResponse (toAPITask task))
      | Err err =>
          if errors_Is err ErrNotFound
          then mret (v1.UpdateTask404JSONResponse (v1.MkError msgTaskNotFound))
          else if errors_Is err ErrForbidden
          then mret (v1.UpdateTask403JSONResponse (v1.MkError msgForbidden))
          else throw err
      end
  end.

Definition GetTaskHistory (h : Handler) (c : ctx) (id : uuid) : comp W v1.GetTaskHistoryResponse :=
  match UserIDFromCtx c with
  | None => mret (v1.GetTaskHistory401JSONResponse (v1.MkError msgUnauthorized))
  | Some userID =>
      res ← attempt (h_History (tasks h) userID id);
      match res with
      | Ok l => mret (v1.GetTaskHistory200JSONResponse (v1.MkTaskHistoryResponse (toAPIHistory <$> l)))
      | Err err =>
          if errors_Is err ErrNotFound
          then mret (v1.GetTaskHistory404JSONResponse (v1.MkError msgTaskNotFound))
          else if errors_Is err ErrForbidden
          then mret (v1.GetTaskHistory403JSONResponse (v1.MkError msgForbidden))
          else throw err
      end
  end.

(** ** comment.go *)

Definition ListTaskComments (h : Handler) (c : ctx) (id : uuid) : comp W v1.ListTaskCommentsResponse :=
  match UserIDFromCtx c with
  | None => mret (v1.ListTaskComments401JSONResponse (v1.MkError msgUnauthorized))
  | Some callerID =>
      res ← attempt (h_ListComments (comments h) callerID id);
      match res with
      | Ok l => mret (v1.ListTaskComments200JSONResponse (toAPIComment <$> l))
      | Err err =>
          if errors_Is err ErrNotFound
          then mret (v1.ListTaskComments404JSONResponse (v1.MkError msgTaskNotFound))
          else if errors_Is err ErrForbidden
          then mret (v1.ListTaskComments403JSONResponse (v1.MkError msgForbidden))
          else throw err
      end
  end.

Definition AddTaskComment (h : Handler) (c : ctx) (id : uuid) (body : option v1.AddCommentRequest)
    : comp W v1.AddTaskCommentResponse :=
  match UserIDFromCtx c with
  | None => mret (v1.AddTaskComment401JSONResponse (v1.MkError msgUnauthorized))
  | Some callerID =>
      match body with
      | Some (v1.MkAddCommentRequest (String _ _ as text)) =>
          res ← attempt (h_AddComment (comments h) callerID id text);
          match res with
          | Ok cm => mret (v1.AddTaskComment201JSONResponse (toAPIComment cm))
          | Err err =>
              if errors_Is err ErrNotFound
              then mret (v1.AddTaskComment404JSONResponse (v1.MkError msgTaskNotFound))
              else if errors_Is err ErrForbidden
              then mret (v1.AddTaskComment403JSONResponse (v1.MkError msgForbidden))
              else throw err
          end
      | _ => mret (v1.AddTaskComment400JSONResponse (v1.MkError "body is required"))
      end
  end.

(** ** analytics.go *)

Definition GetTeamSummaries (h : Handler) (c : ctx) : comp W v1.GetTeamSummariesResponse :=
  match UserIDFromCtx c with
  | None => mret (v1.GetTeamSummaries401JSONResponse (v1.MkError msgUnauthorized))
  | Some _ =>
      l ← h_TeamSummaries (analytics h);
      mret (v1.GetTeamSummaries200JSONResponse (toAPISummary <$> l))
  end.

Definition GetTopContributors (h : Handler) (c : ctx) : comp W v1.GetTopContributorsResponse :=
  match UserIDFromCtx c with
  | None => mret (v1.GetTopContributors401JSONResponse (v1.MkError msgUnauthorized))
  | Some _ =>
      l ← h_TopContributors (analytics h);
      mret (v1.GetTopContributors200JSONResponse (toAPIContributor <$> l))
  end.

Definition GetOrphanTasks (h : Handler) (c : ctx) : comp W v1.GetOrphanTasksResponse :=
  match UserIDFromCtx c with
  | None => mret (v1.GetOrphanTasks401JSONResponse (v1.MkError msgUnauthorized))
  | Some _ =>
      l ← h_OrphanTasks (analytics h);
      mret (v1.GetOrphanTasks200JSONResponse (toAPIOrphan <$> l))
  end.

(** Handler implements v1.StrictServerInterface. *)
Definition strict_server (h : Handler) : StrictServerInterface W :=
  MkSSI W (GetOrphanTasks h) (GetTeamSummaries h) (GetTopContributors h) (Login h) (Register h)
    (ListTasks h) (CreateTask h) (UpdateTask h) (ListTaskComments h) (AddTaskComment h)
    (GetTaskHistory h) (ListTeams h) (CreateTeam h) (InviteToTeam h).

End handler.
Arguments Handler W : clear implicits.

End Handler.
