(* ===== verification/Http.v ===== *)
(** * Http: the HTTP layer over the services

    What an HTTP call does, in terms of the service requests of System: which
    request it stands for, as whom, and what it is answered, status and body. *)
From S2P Require Import Prelude Go Uuid Domain Ports Api Handler.
From S2P Require Import TaskService TeamService AuthService CommentService AnalyticsService System.

(** [enter_call] exposes what an operation's wrapper and strict handler do. *)
Ltac enter_call :=
  unfold call, ServerInterfaceWrapper.GetOrphanTasks, ServerInterfaceWrapper.GetTeamSummaries,
    ServerInterfaceWrapper.GetTopContributors, ServerInterfaceWrapper.Login,
    ServerInterfaceWrapper.Register, ServerInterfaceWrapper.ListTasks,
    ServerInterfaceWrapper.CreateTask, ServerInterfaceWrapper.UpdateTask,
    ServerInterfaceWrapper.ListTaskComments, ServerInterfaceWrapper.AddTaskComment,
    ServerInterfaceWrapper.GetTaskHistory, ServerInterfaceWrapper.ListTeams,
    ServerInterfaceWrapper.CreateTeam, ServerInterfaceWrapper.InviteToTeam, with_id, with_param,
    strictHandler.GetOrphanTasks, strictHandler.GetTeamSummaries, strictHandler.GetTopContributors,
    strictHandler.Login, strictHandler.Register, strictHandler.ListTasks, strictHandler.CreateTask,
    strictHandler.UpdateTask, strictHandler.ListTaskComments, strictHandler.AddTaskComment,
    strictHandler.GetTaskHistory, strictHandler.ListTeams, strictHandler.CreateTeam,
    strictHandler.InviteToTeam, respond_body.

(** ** app.New: the handler over the services (app.go:89) *)
Section http.
Context {W : Type} `{!UuidLib} `{!CacheCodec} `{!JwtLib} `{!OapiRuntime}.
Context (a : App (W := W)) (an : AnalyticsSvc.Service W).

Definition handler_of : Handler.Handler W :=
  Handler.New
    (MkAuthService W (AuthSvc.Register (authSvc a)) (AuthSvc.Login (authSvc a)))
    (MkTeamService W (TeamSvc.Create (teamSvc a)) (TeamSvc.ListForUser (teamSvc a))
       (TeamSvc.Invite (teamSvc a)))
    (MkTaskService W (TaskService.Create (taskSvc a)) (TaskService.List (taskSvc a))
       (TaskService.Update (taskSvc a)) (TaskService.History (taskSvc a)))
    (MkCommentService W (CommentSvc.Add (commentSvc a)) (CommentSvc.List (commentSvc a)))
    (MkAnalyticsService W (AnalyticsSvc.TeamSummaries an) (AnalyticsSvc.TopContributors an)
       (AnalyticsSvc.OrphanTasks an)).

(** NewStrictHandler over that handler: one call of an operation. *)
Definition http (e : endpoint) (id : string) : http_call W :=
  call (Handler.strict_server handler_of) e id.

(** ** The specification: requests, outcomes, statuses *)

Definition read {A} (r : result A) : option A := match r with Ok x => Some x | Err _ => None end.

Definition params_of (r : http_request) : option v1.ListTasksParams :=
  let q := r_RawQuery r in
  tm ← read (bind_query_UUID "team_id" q);
  st ← read (bind_query_string "status" q);
  asg ← read (bind_query_UUID "assignee_id" q);
  pg ← read (bind_query_int "page" q);
  lim ← read (bind_query_int "limit" q);
  Some (v1.MkListTasksParams tm st asg pg lim).

(** The service request a well-formed, authenticated call stands for. *)
Definition request_of (e : endpoint) (id : string) (c : ctx) (r : http_request) : option request :=
  match e with
  | Register => b ← read (decode_Register (r_Body r));
      Some (ReqRegister (v1.RR_Email b) (v1.RR_Name b) (v1.RR_Password b))
  | Login => b ← read (decode_Login (r_Body r)); Some (ReqLogin (v1.LR_Email b) (v1.LR_Password b))
  | _ =>
      u ← ctx_userID c;
      match e with
      | CreateTeam => b ← read (decode_CreateTeam (r_Body r)); Some (ReqCreateTeam u (v1.CTmR_Name b))
      | ListTeams => Some (ReqListTeams u)
      | InviteToTeam => tm ← read (bind_path_UUID id); b ← read (decode_Invite (r_Body r));
          Some (ReqInvite u tm (v1.IR_UserId b))
      | CreateTask => b ← read (decode_CreateTask (r_Body r));
          Some (ReqCreateTask u (Handler.create_input b))
      | ListTasks => p ← params_of r; Some (ReqListTasks u (Handler.list_filter p))
      | UpdateTask => t ← read (bind_path_UUID id); b ← read (decode_UpdateTask (r_Body r));
          Some (ReqUpdateTask u t (Handler.update_input b))
      | GetTaskHistory => t ← read (bind_path_UUID id); Some (ReqTaskHistory u t)
      | AddTaskComment => t ← read (bind_path_UUID id); b ← read (decode_AddComment (r_Body r));
          if bool_decide (v1.ACR_Body b = "") then None
          else Some (ReqAddComment u t (v1.ACR_Body b))
      | ListTaskComments => t ← read (bind_path_UUID id); Some (ReqListComments u t)
      | _ => None
      end
  end.

Definition is_analytics (e : endpoint) : bool :=
  match e with GetOrphanTasks | GetTeamSummaries | GetTopContributors => true | _ => false end.

(** The error a request ends with, if any. *)
Definition failure {A} (r : result A) : option error := match r with Ok _ => None | Err e => Some e end.

Definition outcome (q : request) (w : W) : option error :=
  match q with
  | ReqRegister email name password => failure (AuthSvc.Register (authSvc a) email name password w).2
  | ReqLogin email password => failure (AuthSvc.Login (authSvc a) email password w).2
  | ReqCreateTeam owner name => failure (TeamSvc.Create (teamSvc a) owner name w).2
  | ReqListTeams u => failure (TeamSvc.ListForUser (teamSvc a) u w).2
  | ReqInvite c tm u => failure (TeamSvc.Invite (teamSvc a) c tm u w).2
  | ReqCreateTask c input => failure (TaskService.Create (taskSvc a) c input w).2
  | ReqListTasks c f => failure (TaskService.List (taskSvc a) c f w).2
  | ReqUpdateTask c t input => failure (TaskService.Update (taskSvc a) c t input w).2
  | ReqTaskHistory c t => failure (TaskService.History (taskSvc a) c t w).2
  | ReqAddComment c t body => failure (CommentSvc.Add (commentSvc a) c t body w).2
  | ReqListComments c t => failure (CommentSvc.List (commentSvc a) c t w).2
  end.

(** The first sentinel of the list the error is, else 500. *)
Fixpoint err_status (table : list (error * Z)) (e : error) : Z :=
  match table with
  | [] => 500
  | (target, status) :: table => if errors_Is e target then status else err_status table e
  end.

Definition status_of (q : request) (o : option error) : Z :=
  let answer (ok : Z) (table : list (error * Z)) := from_option (err_status table) ok o in
  match q with
  | ReqRegister _ _ _ => answer 201 [(ErrConflict, 409)]
  | ReqLogin _ _ => answer 200 [(ErrUnauthorized, 401)]
  | ReqCreateTeam _ _ => answer 201 []
  | ReqListTeams _ => answer 200 []
  | ReqInvite _ _ _ => answer 200 [(ErrForbidden, 403); (ErrNotFound, 404)]
  | ReqCreateTask _ _ => answer 201 [(ErrForbidden, 403)]
  | ReqListTasks _ _ => answer 200 [(ErrForbidden, 403)]
  | ReqUpdateTask _ _ _ | ReqTaskHistory _ _ | ReqListComments _ _ =>
      answer 200 [(ErrNotFound, 404); (ErrForbidden, 403)]
  | ReqAddComment _ _ _ => answer 201 [(ErrNotFound, 404); (ErrForbidden, 403)]
  end.

(** The answer to a request: what the service returned, converted; the message
    of the first sentinel of the table the error is; or the text of the error. *)
Fixpoint err_answer (table : list (error * Z * string)) (e : error) : http_response :=
  match table with
  | [] => http_Error (ErrorText e) 500
  | (target, status, msg) :: table =>
      if errors_Is e target then WriteJSON status (v1.J_Error (v1.MkError msg)) else err_answer table e
  end.

Definition answer_with {A} (ok : A → http_response) (table : list (error * Z * string)) (r : result A)
    : http_response :=
  match r with Ok x => ok x | Err e => err_answer table e end.

Definition forbidden : error * Z * string := (ErrForbidden, 403, "forbidden").
Definition task_refused : list (error * Z * string) := [(ErrNotFound, 404, "task not found"); forbidden].

Definition answer (q : request) (w : W) : http_response :=
  match q with
  | ReqRegister email name password =>
      answer_with (λ _, WriteHeader 201) [(ErrConflict, 409, "email already registered")]
        (AuthSvc.Register (authSvc a) email name password w).2
  | ReqLogin email password =>
      answer_with (λ token, WriteJSON 200 (v1.J_Login (v1.MkLoginResponse token)))
        [(ErrUnauthorized, 401, "invalid credentials")]
        (AuthSvc.Login (authSvc a) email password w).2
  | ReqCreateTeam owner name =>
      answer_with (λ t, WriteJSON 201 (v1.J_Team (Handler.toAPITeam t))) []
        (TeamSvc.Create (teamSvc a) owner name w).2
  | ReqListTeams u =>
      answer_with (λ ts, WriteJSON 200 (v1.J_Teams (Handler.toAPITeam <$> ts))) []
        (TeamSvc.ListForUser (teamSvc a) u w).2
  | ReqInvite c tm u =>
      answer_with (λ _, WriteHeader 200) [forbidden; (ErrNotFound, 404, "not found")]
        (TeamSvc.Invite (teamSvc a) c tm u w).2
  | ReqCreateTask c input =>
      answer_with (λ t, WriteJSON 201 (v1.J_Task (Handler.toAPITask t)))
        [(ErrForbidden, 403, "not a team member")]
        (TaskService.Create (taskSvc a) c input w).2
  | ReqListTasks c f =>
      answer_with (λ '(ts, total), WriteJSON 200 (v1.J_TaskList
          (v1.MkTaskListResponse (TF_Limit f) (TF_Page f) (Handler.toAPITask <$> ts) total)))
        [forbidden] (TaskService.List (taskSvc a) c f w).2
  | ReqUpdateTask c t input =>
      answer_with (λ t, WriteJSON 200 (v1.J_Task (Handler.toAPITask t))) task_refused
        (TaskService.Update (taskSvc a) c t input w).2
  | ReqTaskHistory c t =>
      answer_with (λ l, WriteJSON 200 (v1.J_History (v1.MkTaskHistoryResponse (Handler.toAPIHistory <$> l))))
        task_refused (TaskService.History (taskSvc a) c t w).2
  | ReqAddComment c t body =>
      answer_with (λ cm, WriteJSON 201 (v1.J_Comment (Handler.toAPIComment cm))) task_refused
        (CommentSvc.Add (commentSvc a) c t body w).2
  | ReqListComments c t =>
      answer_with (λ l, WriteJSON 200 (v1.J_Comments (Handler.toAPIComment <$> l))) task_refused
        (CommentSvc.List (commentSvc a) c t w).2
  end.

Lemma err_answer_status table e :
  rs_Status (err_answer table e) = err_status ((λ t : error * Z * string, t.1) <$> table) e.
Proof. induction table as [|[[target st] msg] table IH]; [done|]. cbn. by destruct (errors_Is e target). Qed.

(** Its status. *)
Lemma answer_status q w : rs_Status (answer q w) = status_of q (outcome q w).
Proof.
  assert (∀ A (ok : A → http_response) table st r, (∀ x, rs_Status (ok x) = st) →
    rs_Status (answer_with ok table r) =
      from_option (err_status ((λ t : error * Z * string, t.1) <$> table)) st (failure r)) as Hw.
  { intros A ok table st [x|e] Hok; [apply Hok|apply err_answer_status]. }
  destruct q; cbn [answer outcome status_of]; apply Hw; try done. by intros [ts total].
Qed.

(** ** The calls meet the specification *)

Lemma respond_run {R} (visit : R → http_response) (m : comp W R) w :
  respond visit m w = ((m w).1, match (m w).2 with
                                | Ok r => visit r
                                | Err e => ResponseErrorHandlerFunc e
                                end).
Proof. unfold respond. by destruct (m w) as [w' [r|e]]. Qed.

Lemma refused_statuses s : s = 400 ∨ s = 401 → s ∈ [400; 401].
Proof. intros [-> | ->]; [by left|by right; left]. Qed.

(** [http_step] runs the handler of a decoded call: the service call it makes,
    then each sentinel test. *)
Ltac http_step :=
  rewrite respond_run; cbn [Handler.strict_server ssi_Login ssi_Register ssi_ListTasks
    ssi_CreateTask ssi_UpdateTask ssi_ListTaskComments ssi_AddTaskComment ssi_GetTaskHistory
    ssi_ListTeams ssi_CreateTeam ssi_InviteToTeam];
  unfold Handler.Login, Handler.Register, Handler.ListTasks, Handler.CreateTask,
    Handler.UpdateTask, Handler.ListTaskComments, Handler.AddTaskComment,
    Handler.GetTaskHistory, Handler.ListTeams, Handler.CreateTeam, Handler.InviteToTeam,
    Handler.UserIDFromCtx.

(** [service t] looks at the result of the service call [t] and at each test of
    its error. *)
Ltac service t :=
  unfold mbind, comp_bind, attempt, serve, answer; cbn;
  destruct t as [? [?|?]]; cbn;
  repeat match goal with |- context [errors_Is ?e ?s] => destruct (errors_Is e s) end; done.

(** [refused] closes a call that was turned away before any service. *)
Ltac refused := split; [done|by apply refused_statuses; auto].

(** A call that names a request serves exactly that request and gives its
    answer; any other changes nothing and answers 400 or 401. *)
Lemma http_answers e id c r w :
  is_analytics e = false →
  match request_of e id c r with
  | Some q => (http e id c r w).1 = serve a q w ∧ (http e id c r w).2 = answer q w
  | None => (http e id c r w).1 = w ∧ rs_Status (http e id c r w).2 ∈ [400; 401]
  end.
Proof.
  intros He. unfold http; enter_call; unfold request_of, params_of.
  destruct e; try discriminate He; clear He.
  - destruct (decode_Login _) as [b|err]; cbn; [|refused].
    http_step. service (AuthSvc.Login (authSvc a) (v1.LR_Email b) (v1.LR_Password b) w).
  - destruct (decode_Register _) as [b|err]; cbn; [|refused].
    http_step. service (AuthSvc.Register (authSvc a) (v1.RR_Email b) (v1.RR_Name b) (v1.RR_Password b) w).
  - destruct (bind_query_UUID "team_id" _) as [tm|?]; cbn; [|destruct (ctx_userID c); refused].
    destruct (bind_query_string "status" _) as [st|?]; cbn; [|destruct (ctx_userID c); refused].
    destruct (bind_query_UUID "assignee_id" _) as [asg|?]; cbn; [|destruct (ctx_userID c); refused].
    destruct (bind_query_int "page" _) as [pg|?]; cbn; [|destruct (ctx_userID c); refused].
    destruct (bind_query_int "limit" _) as [lim|?]; cbn; [|destruct (ctx_userID c); refused].
    http_step. destruct (ctx_userID c) as [u|]; cbn; [|refused].
    unfold mbind, comp_bind, attempt. cbn.
    destruct (TaskService.List (taskSvc a) u _ w) as [? [[? ?]|?]]; cbn; [done|].
    destruct (errors_Is _ _); done.
  - destruct (decode_CreateTask _) as [b|err]; cbn; [|destruct (ctx_userID c); refused].
    http_step. destruct (ctx_userID c) as [u|]; cbn; [|refused].
    service (TaskService.Create (taskSvc a) u (Handler.create_input b) w).
  - destruct (bind_path_UUID id) as [t|?]; cbn; [|destruct (ctx_userID c); refused].
    destruct (decode_UpdateTask _) as [b|err]; cbn; [|destruct (ctx_userID c); refused].
    http_step. destruct (ctx_userID c) as [u|]; cbn; [|refused].
    service (TaskService.Update (taskSvc a) u t (Handler.update_input b) w).
  - destruct (bind_path_UUID id) as [t|?]; cbn; [|destruct (ctx_userID c); refused].
    http_step. destruct (ctx_userID c) as [u|]; cbn; [|refused].
    service (CommentSvc.List (commentSvc a) u t w).
  - destruct (bind_path_UUID id) as [t|?]; cbn; [|destruct (ctx_userID c); refused].
    destruct (decode_AddComment _) as [[text]|err]; cbn; [|destruct (ctx_userID c); refused].
    http_step. destruct (ctx_userID c) as [u|]; cbn; [|refused].
    destruct text as [|x text]; [refused|].
    rewrite (bool_decide_false (String x text = "")) by done.
    service (CommentSvc.Add (commentSvc a) u t (String x text) w).
  - destruct (bind_path_UUID id) as [t|?]; cbn; [|destruct (ctx_userID c); refused].
    http_step. destruct (ctx_userID c) as [u|]; cbn; [|refused].
    service (TaskService.History (taskSvc a) u t w).
  - http_step. destruct (ctx_userID c) as [u|]; cbn; [|refused].
    service (TeamSvc.ListForUser (teamSvc a) u w).
  - destruct (decode_CreateTeam _) as [b|err]; cbn; [|destruct (ctx_userID c); refused].
    http_step. destruct (ctx_userID c) as [u|]; cbn; [|refused].
    service (TeamSvc.Create (teamSvc a) u (v1.CTmR_Name b) w).
  - destruct (bind_path_UUID id) as [t|?]; cbn; [|destruct (ctx_userID c); refused].
    destruct (decode_Invite _) as [b|err]; cbn; [|destruct (ctx_userID c); refused].
    http_step. destruct (ctx_userID c) as [u|]; cbn; [|refused].
    service (TeamSvc.Invite (teamSvc a) u t (v1.IR_UserId b) w).
Qed.

(** The reports: for anyone with an identity, whatever its teams. *)
Definition report (e : endpoint) : comp W v1.json :=
  match e with
  | GetTeamSummaries => l ← AnalyticsSvc.TeamSummaries an; mret (v1.J_Summaries (Handler.toAPISummary <$> l))
  | GetTopContributors =>
      l ← AnalyticsSvc.TopContributors an; mret (v1.J_Contributors (Handler.toAPIContributor <$> l))
  | _ => l ← AnalyticsSvc.OrphanTasks an; mret (v1.J_Orphans (Handler.toAPIOrphan <$> l))
  end.

Lemma http_reports e id c r w :
  is_analytics e = true →
  http e id c r w =
    match ctx_userID c with
    | None => (w, WriteJSON 401 (v1.J_Error (v1.MkError Handler.msgUnauthorized)))
    | Some _ => ((report e w).1, answer_with (WriteJSON 200) [] (report e w).2)
    end.
Proof.
  intros He. destruct e; try discriminate He; clear He; unfold http; enter_call; unfold respond, report;
    cbn; unfold Handler.GetOrphanTasks, Handler.GetTeamSummaries, Handler.GetTopContributors,
      Handler.UserIDFromCtx; destruct (ctx_userID c) as [u|]; [|done| |done| |done];
    unfold mbind, comp_bind; cbn.
  - by destruct (AnalyticsSvc.OrphanTasks an w) as [w' [l|err]].
  - by destruct (AnalyticsSvc.TeamSummaries an w) as [w' [l|err]].
  - by destruct (AnalyticsSvc.TopContributors an w) as [w' [l|err]].
Qed.

Lemma http_run e id c r w :
  is_analytics e = false →
  match request_of e id c r with
  | Some q => (http e id c r w).1 = serve a q w ∧
              rs_Status (http e id c r w).2 = status_of q (outcome q w)
  | None => (http e id c r w).1 = w ∧ rs_Status (http e id c r w).2 ∈ [400; 401]
  end.
Proof.
  intros He. pose proof (http_answers e id c r w He) as Hrun.
  destruct (request_of e id c r) as [q|]; [|done]. destruct Hrun as [-> ->].
  split; [done|apply answer_status].
Qed.

(** The user a request acts as. *)
Definition actor (q : request) : option uuid :=
  match q with
  | ReqRegister _ _ _ | ReqLogin _ _ => None
  | ReqCreateTeam u _ | ReqListTeams u | ReqInvite u _ _ | ReqCreateTask u _ | ReqListTasks u _
  | ReqUpdateTask u _ _ | ReqTaskHistory u _ | ReqAddComment u _ _ | ReqListComments u _ => Some u
  end.

Lemma request_of_actor e id c r q u :
  request_of e id c r = Some q → actor q = Some u → ctx_userID c = Some u.
Proof.
  unfold request_of. destruct (ctx_userID c) as [v|], e; cbn; intros Hq Ha; try done;
    repeat (apply bind_Some in Hq as (? & _ & Hq)); try case_bool_decide; by simplify_eq/=.
Qed.

(** The statuses of the services' outcomes. *)
Lemma status_of_values q o :
  let s := status_of q o in
  (s = 401 ∨ s = 409) ∨ (s = 403 ∨ s = 404) ∨ (s = 200 ∨ s = 201) ∨ s = 500.
Proof. destruct q, o as [e|]; cbn; repeat case_match; auto 8. Qed.

(** ** Authorisation *)
Section authorisation.
Context `{!UuidLibSpec} `{!CacheCodecSpec} `{!Backend W} `{!BackendSpec W} `{!AppSpec a}.

(** What a request needs of the board. *)
Definition permitted (b : board) (q : request) : Prop :=
  match q with
  | ReqInvite c tm u => is_Some (b_teams b !! tm) ∧ TeamSvc.may_invite b tm c ∧ is_Some (b_users b !! u)
  | ReqCreateTask c input => authorised b (CTI_TeamID input) c (CTI_AssigneeID input)
  | ReqListTasks c f => ∃ tm, TF_TeamID f = Some tm ∧ is_member b tm c
  | ReqUpdateTask c t input => ∃ old, b_tasks b !! t = Some old ∧ update_authorised b old c input
  | ReqTaskHistory c t | ReqAddComment c t _ | ReqListComments c t => CommentSvc.may_comment b c t
  | _ => True
  end.

(** What a status says: success needs permission, a refusal changed nothing and
    was due, and a healthy world refuses whatever lacks permission. *)
Record verdict (b b' : board) (hw perm : Prop) (s : Z) : Prop := Verdict {
  verdict_ok : s = 200 ∨ s = 201 → perm;
  verdict_refused : s = 403 ∨ s = 404 → b' = b ∧ ¬ perm;
  verdict_client : s = 401 ∨ s = 409 → b' = b;
  verdict_healthy : hw → ¬ perm → s = 403 ∨ s = 404
}.

(** A request nobody is refused: only its client errors matter. *)
Lemma verdict_free b b' hw s : s ≠ 403 → s ≠ 404 → (s = 401 ∨ s = 409 → b' = b) → verdict b b' hw True s.
Proof. intros ? ? ?. split; [done|by intros [-> | ->]|done|]. by intros _ []. Qed.

(** The two error tables of the operations that can refuse. *)
Lemma verdict_forbidden b b' (hw perm : Prop) ok e :
  ok = 200 ∨ ok = 201 →
  (errors_Is e ErrForbidden = true → b' = b ∧ ¬ perm) →
  (hw → ¬ perm → errors_Is e ErrForbidden = true) →
  verdict b b' hw perm (err_status [(ErrForbidden, 403)] e).
Proof. intros Hok Hf Hh. cbn. destruct (errors_Is e ErrForbidden); split; naive_solver lia. Qed.

Lemma verdict_both b b' (hw perm : Prop) e t1 t2 s1 s2 :
  (s1 = 403 ∧ s2 = 404 ∧ t1 = ErrForbidden ∧ t2 = ErrNotFound ∨
   s1 = 404 ∧ s2 = 403 ∧ t1 = ErrNotFound ∧ t2 = ErrForbidden) →
  (errors_Is e t1 = true ∨ errors_Is e t2 = true → b' = b ∧ ¬ perm) →
  (hw → ¬ perm → errors_Is e t1 = true ∨ errors_Is e t2 = true) →
  verdict b b' hw perm (err_status [(t1, s1); (t2, s2)] e).
Proof.
  intros Hs Hf Hh. cbn. destruct (errors_Is e t1), (errors_Is e t2); split; naive_solver lia.
Qed.

Lemma verdict_success b b' (hw perm : Prop) s : s = 200 ∨ s = 201 → perm → verdict b b' hw perm s.
Proof. intros Hs Hp. split; naive_solver lia. Qed.

(** [free] leaves only the client errors of such a request. *)
Ltac free := apply verdict_free; [done|done|first [by intros [?|?]|intros _]].

Definition judged (q : request) (w : W) : Prop :=
  verdict (board_of w) (board_of (serve a q w)) (healthy w) (permitted (board_of w) q)
    (status_of q (outcome q w)).

Lemma judged_Register email name password w : judged (ReqRegister email name password) w.
Proof.
  unfold judged, permitted, status_of, outcome, serve. cbn.
  destruct (AuthSvc.Register _ _ _ _ w) as [w' r] eqn:Hr. apply AuthSvc.Register_run in Hr; [|apply _..].
  destruct Hr as [(e & -> & Hq & _)|(_ & id & h & n & w1 & r1 & Hq & _ & Hs & ->)]; cbn.
  - destruct (errors_Is e ErrConflict); free. apply Hq.
  - destruct r1 as [[]|e]; cbn; [free|]. rewrite wrap_Is by done.
    destruct (errors_Is e ErrConflict) eqn:Hc; free.
    rewrite <-(quiet_board _ _ Hq). by eapply SaveUser_conflict.
Qed.

Lemma judged_Login email password w : judged (ReqLogin email password) w.
Proof.
  unfold judged, permitted, status_of, outcome, serve. cbn.
  destruct (AuthSvc.Login _ _ _ w) as [w' r] eqn:Hr. apply AuthSvc.Login_quiet in Hr; [|apply _..].
  destruct r as [t|e]; cbn; [free|].
  destruct (errors_Is e ErrUnauthorized); free. apply Hr.
Qed.

Lemma judged_CreateTeam owner name w : judged (ReqCreateTeam owner name) w.
Proof.
  unfold judged, permitted, status_of, outcome, serve. cbn.
  destruct (TeamSvc.Create _ _ _ w) as [w' [t|e]]; free.
Qed.

Lemma judged_ListTeams u w : judged (ReqListTeams u) w.
Proof.
  unfold judged, permitted, status_of, outcome, serve. cbn.
  destruct (TeamSvc.ListForUser _ _ w) as [w' [t|e]]; free.
Qed.

Lemma judged_Invite c tm u w : judged (ReqInvite c tm u) w.
Proof.
  unfold judged, permitted, status_of, outcome, serve. cbn -[err_status].
  destruct (TeamSvc.Invite _ _ _ _ w) as [w' [[]|e]] eqn:Hr; cbn -[err_status].
  { apply TeamSvc.Invite_run in Hr; [|apply _..].
    destruct Hr as [(? & ? & _)|(Ht & Hm & Hu & _)]; [done|]. by apply verdict_success; auto. }
  apply TeamSvc.Invite_run in Hr; [|apply _..].
  destruct Hr as [(? & [= <-] & Hq & Hcase)|(Ht & Hm & Hu & w1 & w2 & r1 & Hq & Hs & Hr)];
    (apply verdict_both; [by auto| |]).
  - intros Hf. split; [apply Hq|]. intros (Ht & Hm & Hu).
    destruct Hcase as [(_ & _ & ?)|[[_ [Hn|[_ Hn]]]|(_ & Hn1 & Hn2)]]; [done|by rewrite Hn in Ht|by rewrite Hn in Hu|].
    rewrite Hn1, Hn2 in Hf. by destruct Hf.
  - intros Hw _. destruct Hcase as [(? & _)|[(? & _)|[? _]]]; [by left|by right|done].
  - destruct r1; destruct Hr as [[= ->] _]. destruct (SaveMember_writes _ _ _ TeamSvc.RoleMember_valid _ _ _ Hs)
      as (_ & _ & Herr & _). destruct (Herr _ eq_refl) as [Hst _].
    destruct (from_write_wrap "team.Service.Invite: save member" _ Hst) as [-> ->]. by intros [?|?].
  - intros _ []. done.
Qed.

Lemma judged_CreateTask c input w : judged (ReqCreateTask c input) w.
Proof.
  unfold judged, permitted, status_of, outcome, serve. cbn -[err_status].
  destruct (TaskService.Create _ _ _ w) as [w' [t|e]] eqn:Hr; cbn -[err_status];
    apply TaskService.Create_run in Hr; try apply _;
    destruct Hr as [(? & He & Hq & Hcase)|(Ha & id & n & w1 & w2 & r1 & Hq & Hs & Hr)]; try done.
  - by apply verdict_success; auto.
  - injection He as <-. apply (verdict_forbidden _ _ _ _ 200); [by left| |].
    + intros Hf. split; [apply Hq|]. destruct Hcase as [[_ ?]|[? _]]; [done|congruence].
    + intros Hw Hno. destruct Hcase as [[? _]|[_ Ha]]; [done|by destruct Hno, Ha].
  - destruct r1; destruct Hr as [[= ->] _].
    destruct (SaveTask_writes _ _ _ _ Hs) as (_ & _ & Herr & _). destruct (Herr _ eq_refl) as [Hst _].
    apply (verdict_forbidden _ _ _ _ 200); [by left| |by intros _ []].
    by rewrite (proj1 (from_write_wrap _ _ Hst)).
Qed.

Lemma judged_ListTasks c f w : judged (ReqListTasks c f) w.
Proof.
  unfold judged, permitted, status_of, outcome, serve. cbn -[err_status].
  destruct (TaskService.List _ _ _ w) as [w' [t|e]] eqn:Hr; cbn -[err_status];
    apply TaskService.List_run in Hr; try apply _;
    destruct Hr as [(? & He & Hq & Hcase)|(tm & res & Htm & Hm & He & _)]; try done.
  - apply verdict_success; eauto.
  - injection He as <-. apply (verdict_forbidden _ _ _ _ 200); [by left| |].
    + intros Hf. split; [apply Hq|]. intros (tm & Htm & Hm).
      destruct Hcase as [[_ Hno]|[? _]]; [by apply (Hno _ Htm)|congruence].
    + intros Hw Hno. destruct Hcase as [[? _]|(_ & _ & Ha)]; [done|destruct (Hno (Ha Hw))].
Qed.

Lemma judged_UpdateTask c t input w : judged (ReqUpdateTask c t input) w.
Proof.
  unfold judged, permitted, status_of, outcome, serve. cbn -[err_status].
  destruct (TaskService.Update _ _ _ _ w) as [w' [x|e]] eqn:Hr; cbn -[err_status];
    apply TaskService.Update_run in Hr; try apply _;
    destruct Hr as [(? & He & Hq & Hcase)|(old & n & w1 & w2 & r1 & Hold & Ha & Hq & Hs & Hr)];
    try done.
  - apply verdict_success; eauto.
  - injection He as <-. apply verdict_both; [by auto| |].
    + intros Hf. split; [apply Hq|]. intros (old & Hold & Ha).
      destruct Hcase as [[_ ?]|[(_ & ? & ? & ?)|(_ & Hn1 & Hn2)]]; [congruence|naive_solver|].
      rewrite Hn1, Hn2 in Hf. by destruct Hf.
    + intros Hw _. destruct Hcase as [[? _]|[[? _]|[? _]]]; [by left|by right|done].
  - destruct r1; destruct Hr as [[= ->] _].
    destruct (UpdateTaskWithHistory_writes _ _ _ _ _ Hs) as (_ & _ & Herr & _).
    destruct (Herr _ eq_refl) as [Hst _]. apply verdict_both; [by auto| |intros _ []; eauto].
    destruct (from_write_wrap "task.Service.Update: update task" _ Hst) as [-> ->]. by intros [?|?].
Qed.

Lemma judged_TaskHistory c t w : judged (ReqTaskHistory c t) w.
Proof.
  unfold judged, permitted, status_of, outcome, serve. cbn -[err_status].
  destruct (TaskService.History _ _ _ w) as [w' [x|e]] eqn:Hr; cbn -[err_status];
    apply TaskService.History_run in Hr as [Hq Hr]; try apply _.
  - destruct Hr as (task & ? & ? & _). apply verdict_success; [by auto|by exists task].
  - apply verdict_both; [by auto| |].
    + intros Hf. split; [apply Hq|]. intros (old & Hold & Ha).
      destruct Hr as [[_ ?]|[(_ & ? & ? & ?)|(_ & Hn1 & Hn2)]]; [congruence|naive_solver|].
      rewrite Hn1, Hn2 in Hf. by destruct Hf.
    + intros Hw _. destruct Hr as [[? _]|[[? _]|[? _]]]; [by left|by right|done].
Qed.

(** Why the comment operations turn a caller away. *)
Lemma judged_turned_away c t e b b' hw (perm : Prop) :
  b' = b → (perm → CommentSvc.may_comment b c t) →
  (CommentSvc.turned_away b c t e ∨ (¬ hw ∧ errors_Is e ErrForbidden = false ∧ errors_Is e ErrNotFound = false)) →
  verdict b b' hw perm (err_status [(ErrNotFound, 404); (ErrForbidden, 403)] e).
Proof.
  intros Hb Hp Hcase. apply verdict_both; [by auto| |].
  - intros Hf. split; [done|]. intros (task & Ht & Hm)%Hp.
    destruct Hcase as [[[_ ?]|(_ & _ & Hn)]|(_ & Hn1 & Hn2)]; [congruence| |].
    + destruct Hn. by exists task.
    + rewrite Hn1, Hn2 in Hf. by destruct Hf.
  - intros Hw _. destruct Hcase as [[[? _]|[? _]]|[? _]]; [by left|by right|done].
Qed.

Lemma judged_AddComment c t text w : judged (ReqAddComment c t text) w.
Proof.
  unfold judged, permitted, status_of, outcome, serve. cbn -[err_status].
  destruct (CommentSvc.Add _ _ _ _ w) as [w' r] eqn:Hr. unfold CommentSvc.Add in Hr.
  apply CommentSvc.guard_run in Hr; [|apply _..].
  destruct Hr as [(e & -> & Hq & Hcase)|(Hm & w1 & Hq & Hs)]; cbn -[err_status].
  - eapply judged_turned_away; [apply Hq|done|exact Hcase].
  - destruct r as [x|e]; cbn -[err_status]; [by apply verdict_success; auto|].
    run_last Hs as x E. destruct (SaveComment_writes _ _ _ _ E) as (_ & _ & Herr & _).
    destruct (Herr _ eq_refl) as [Hst _]. apply verdict_both; [by auto| |by intros _ []].
    rewrite (proj1 (from_write_wrap _ _ Hst)), (proj2 (from_write_wrap _ _ Hst)). by intros [?|?].
Qed.

Lemma judged_ListComments c t w : judged (ReqListComments c t) w.
Proof.
  unfold judged, permitted, status_of, outcome, serve. cbn -[err_status].
  destruct (CommentSvc.List _ _ _ w) as [w' r] eqn:Hr.
  pose proof (CommentSvc.List_quiet _ _ _ _ _ _ Hr) as Hql. unfold CommentSvc.List in Hr.
  apply CommentSvc.guard_run in Hr; [|apply _..].
  destruct Hr as [(e & -> & Hq & Hcase)|(Hm & w1 & Hq & Hs)]; cbn -[err_status].
  - eapply judged_turned_away; [apply Hq|done|exact Hcase].
  - destruct r as [x|e]; cbn -[err_status]; [by apply verdict_success; auto|].
    run_last Hs as x E.
    apply (reads_answered _ _ _ _ _ (ListComments_reads t)) in E as (_ & Hst & Hnf & _).
    apply verdict_both; [by auto| |by intros _ []].
    rewrite wrap_not_forbidden, wrap_Is, Hnf by done. by intros [?|?].
Qed.

Lemma judge q w : judged q w.
Proof.
  destruct q; [apply judged_Register|apply judged_Login|apply judged_CreateTeam|apply judged_ListTeams
    |apply judged_Invite|apply judged_CreateTask|apply judged_ListTasks|apply judged_UpdateTask
    |apply judged_TaskHistory|apply judged_AddComment|apply judged_ListComments].
Qed.

(** A report only reads, and is answered 200, 401 or 500. *)
Lemma report_quiet `{!AnalyticsSvc.ServiceSpec an} e id c r w :
  is_analytics e = true →
  board_of (http e id c r w).1 = board_of w ∧ request_of e id c r = None ∧
  ((is_Some (ctx_userID c) ∧ rs_Status (http e id c r w).2 = 200) ∨
   rs_Status (http e id c r w).2 ∈ [401; 500]).
Proof.
  intros He. rewrite (http_reports e id c r w He).
  assert (request_of e id c r = None) as Hq by (destruct e; try discriminate He; by destruct c as [[u|]]).
  assert (board_of (report e w).1 = board_of w) as Hb.
  { pose proof (AnalyticsSvc.OrphanTasks_quiet an w) as Ho. pose proof (AnalyticsSvc.TeamSummaries_quiet an w) as Hs.
    pose proof (AnalyticsSvc.TopContributors_quiet an w) as Hc.
    destruct e; try discriminate He; unfold report, mbind, comp_bind.
    - by destruct (AnalyticsSvc.OrphanTasks an w) as [w' [l|err]]; apply quiet_board.
    - by destruct (AnalyticsSvc.TeamSummaries an w) as [w' [l|err]]; apply quiet_board.
    - by destruct (AnalyticsSvc.TopContributors an w) as [w' [l|err]]; apply quiet_board. }
  destruct (ctx_userID c) as [u|]; [|split; [done|]; split; [done|]; right; by left].
  split; [exact Hb|]. split; [done|]. unfold answer_with. destruct (report e w).2; cbn.
  - left. split; [by eexists|done].
  - right. right. by left.
Qed.

(** C2: who is answered what, for all fourteen operations. A success is only
    ever given to a request its caller had permission for, or to a report,
    which needs an authenticated user and no more; 403 and 404 are only ever
    given to a request that lacks permission (a missing resource or
    membership); no client error and no report changes the board; in a healthy
    world every request without permission is answered 403 or 404. *)
Theorem http_authorised `{!AnalyticsSvc.ServiceSpec an} e id c r w :
  let s := rs_Status (http e id c r w).2 in
  (s = 200 ∨ s = 201 → if is_analytics e then is_Some (ctx_userID c)
                       else ∃ q, request_of e id c r = Some q ∧ permitted (board_of w) q) ∧
  (s = 403 ∨ s = 404 → ∃ q, request_of e id c r = Some q ∧ ¬ permitted (board_of w) q) ∧
  (400 ≤ s < 500 ∨ is_analytics e = true → board_of (http e id c r w).1 = board_of w) ∧
  (∀ q, healthy w → request_of e id c r = Some q → ¬ permitted (board_of w) q → s = 403 ∨ s = 404).
Proof.
  intros s. subst s. destruct (is_analytics e) eqn:He.
  { destruct (report_quiet e id c r w He) as (Hb & Hq & Hs). rewrite Hq, !elem_of_cons, elem_of_nil in *.
    split_and!; [by destruct Hs as [[? _]|[->|[->|[]]]]; naive_solver lia| |done|done].
    intros Hc. destruct Hs as [[_ Hs]|[Hs|[Hs|[]]]]; rewrite Hs in Hc; lia. }
  pose proof (http_run e id c r w He) as Hrun.
  destruct (request_of e id c r) as [q|]; cycle 1.
  { destruct Hrun as [-> Hs]. apply elem_of_cons in Hs as [-> |Hs%list_elem_of_singleton];
      [|rewrite Hs]; split_and!; naive_solver lia. }
  destruct Hrun as [-> ->]. destruct (judge q w) as [Hok Href Hcl Hh].
  pose proof (status_of_values q (outcome q w)) as Hv. split_and!.
  - intros ?. exists q. auto.
  - intros ?. exists q. split; [done|]. by apply Href.
  - intros [Hs|?]; [|done]. destruct Hv as [Hv|[Hv|[Hv|Hv]]]; [by apply Hcl|by apply Href| |]; lia.
  - intros ? Hw [= <-]. auto.
Qed.

End authorisation.

(** C17: what every HTTP call does. A call of one of the three reports needs an
    identity and answers what the service reports. Any other call is one
    service request: a body or parameter that does not decode, or a missing
    identity, changes nothing and is answered 400 or 401; otherwise exactly the
    request it encodes is served, on behalf of the authenticated user, and its
    answer, status and body, is the one the specification gives for what the
    service returned: the converted value, a sentinel's message, or for any
    other error status 500 with the text of the error. *)
Theorem http_served e id c r w :
  if is_analytics e then
    http e id c r w =
      match ctx_userID c with
      | None => (w, WriteJSON 401 (v1.J_Error (v1.MkError Handler.msgUnauthorized)))
      | Some _ => ((report e w).1, answer_with (WriteJSON 200) [] (report e w).2)
      end
  else match request_of e id c r with
  | Some q => http e id c r w = (serve a q w, answer q w) ∧
      (∀ u, actor q = Some u → ctx_userID c = Some u)
  | None => (http e id c r w).1 = w ∧ rs_Status (http e id c r w).2 ∈ [400; 401]
  end.
Proof.
  destruct (is_analytics e) eqn:He; [by apply http_reports|].
  pose proof (http_answers e id c r w He) as Hrun. pose proof (request_of_actor e id c r) as Ha.
  destruct (request_of e id c r) as [q|]; [|done]. destruct Hrun as [Hw Hrs].
  split; [by rewrite (surjective_pairing (http e id c r w)), Hw, Hrs|by eauto].
Qed.

(** without an identity in the context no operation but registration and
    login does anything: the world is unchanged and the answer is 401, or 400
    when the request does not even decode. *)
Theorem http_unauthenticated e id c r w :
  ctx_userID c = None → e ≠ Login → e ≠ Register →
  (http e id c r w).1 = w ∧ rs_Status (http e id c r w).2 ∈ [400; 401].
Proof.
  intros Hc Hl Hr. destruct (is_analytics e) eqn:He.
  - destruct e; try discriminate He; unfold http; enter_call; rewrite respond_run; cbn;
      unfold Handler.GetOrphanTasks, Handler.GetTeamSummaries, Handler.GetTopContributors,
        Handler.UserIDFromCtx; rewrite Hc; refused.
  - pose proof (http_run e id c r w He) as Hrun. unfold request_of in Hrun.
    rewrite Hc in Hrun. by destruct e.
Qed.

End http.
