(* ===== verification/Middleware.v ===== *)
(** * Middleware: internal/middleware

    The middlewares around the router: request identifiers, metrics, the soft
    JWT check and the per-user rate limiter with its cleanup. A handler is a
    function of the context, the request and the state of the process: the
    world the services run in, the limiter map and the counters. *)
From Stdlib Require Import QArith Qminmax Lqa.
From S2P Require Import Prelude Go GoStrings Uuid Domain Ports AuthService Api.
Open Scope Z_scope.

(** ** golang.org/x/time/rate

    A limiter of [r] events per second with a burst. [TokensAt] is the library's
    own observer. Rates and tokens are rationals here, floating-point numbers
    there. *)
Class RateLib := {
  Limiter : Type;
  NewLimiter : Q → Z → Limiter;
  AllowN : Limiter → time → Limiter * bool;
  TokensAt : Limiter → time → Q;
  Limit : Limiter → Q;
  Burst : Limiter → Z
}.

(** Seconds from [t] to [u]. *)
Definition seconds (t u : time) : Q := (inject_Z (t_ns u - t_ns t) / inject_Z 1000000000)%Q.

(** From [t] on the limiter is only refilled: none of its events is later. *)
Definition settled `{RateLib} (l : Limiter) (t : time) : Prop :=
  ∀ u v, t_ns t ≤ t_ns u → t_ns u ≤ t_ns v →
    (TokensAt l v == Qmin (inject_Z (Burst l)) (TokensAt l u + Limit l * seconds u v))%Q.

(** What a nanosecond adds: durations are whole nanoseconds, and an event that
    would have to wait for less is allowed. *)
Definition nanosecond : Q := (1 # 1000000000)%Q.

(** The documented token bucket: full at first, refilled at [r] tokens per
    second up to the burst, and an allowed event takes one token. Nothing is
    said of an event before the limiter's last one. *)
Class RateLibSpec `{RateLib} : Prop := {
  New_limit r b : Limit (NewLimiter r b) = r ∧ Burst (NewLimiter r b) = b;
  New_full r b t : (TokensAt (NewLimiter r b) t == inject_Z b)%Q;
  Allow_limit l t : Limit (AllowN l t).1 = Limit l ∧ Burst (AllowN l t).1 = Burst l;
  Allow_tokens l t : settled l t → (0 <= Limit l)%Q → (AllowN l t).2 = true →
    (1 <= TokensAt l t + Limit l * nanosecond)%Q;
  Allow_refuses l t : settled l t → (AllowN l t).2 = false → (TokensAt l t < 1)%Q;
  Allow_refill l t u : settled l t → t_ns t ≤ t_ns u →
    (TokensAt (AllowN l t).1 u ==
     Qmin (inject_Z (Burst l))
       (TokensAt l t - (if (AllowN l t).2 then 1 else 0) + Limit l * seconds t u))%Q
}.

(** ** The state of the process *)

(** An entry points to its limiter; requests in flight may hold the pointer
    after the entry is gone. *)
Record userLimiter : Type := UserLimiter { limiter : nat; lastSeen : time }.

Record limiters `{RateLib} : Type := Limiters {
  l_heap : list Limiter;
  l_entries : gmap string userLimiter
}.
Arguments Limiters {_} _ _.
Arguments l_heap {_} _.
Arguments l_entries {_} _.

Definition no_limiters `{RateLib} : limiters := Limiters [] ∅.

Record server `{RateLib} (W : Type) : Type := Server {
  s_world : W;
  s_limiters : limiters;
  s_requests : gmap (string * string * string) N;  (** http_requests_total *)
  s_durations : list (string * string * Z)         (** observed durations, ns *)
}.
Arguments Server {_ W} _ _ _ _.
Arguments s_world {_ W} _.
Arguments s_limiters {_ W} _.
Arguments s_requests {_ W} _.
Arguments s_durations {_ W} _.

(** ** Strings *)

Definition quote (s : string) : string :=
  String (ascii_of_nat 34) (s +:+ String (ascii_of_nat 34) "").

(** The literal bodies given to [http.Error]: one JSON object. *)
Definition message_json (msg : string) : string := "{" +:+ quote "message" +:+ ":" +:+ quote msg +:+ "}".

(** net.SplitHostPort: the host, or [None] on an address error. *)
Definition SplitHostPort (hostport : string) : option string :=
  i ← LastIndexByte hostport ":";
  '(host, j, k) ←
    match hostport with
    | String "[" _ =>
        close ← IndexByte hostport "]";
        if bool_decide (S close = i) then Some (drop_str 1 (take_str close hostport), 1%nat, S close)
        else None
    | _ =>
        let host := take_str i hostport in
        if IndexByte host ":" is Some _ then None else Some (host, 0%nat, 0%nat)
    end;
  if IndexByte (drop_str j hostport) "[" is Some _ then None
  else if IndexByte (drop_str k hostport) "]" is Some _ then None
  else Some host.

Example SplitHostPort_v4 : SplitHostPort "1.2.3.4:1234" = Some "1.2.3.4".
Proof. reflexivity. Qed.
Example SplitHostPort_v6 : SplitHostPort "[::1]:80" = Some "::1".
Proof. reflexivity. Qed.
Example SplitHostPort_bare : SplitHostPort "::1" = None.
Proof. reflexivity. Qed.

(** ** The middlewares *)
Section middleware.
Context {W : Type} `{!RateLib} `{!UuidLib} `{!JwtLib}.
(** time.Now and uuid.NewV7 *)
Context (clock : W → W * time) (newV7 : comp W uuid).

Definition put_world (s : server W) (w : W) : server W :=
  Server w (s_limiters s) (s_requests s) (s_durations s).

Definition now (s : server W) : server W * time :=
  let '(w, t) := clock (s_world s) in (put_world s w, t).

(** *** jwt.go *)

Definition ErrSignatureInvalid : error := OtherError "signature is invalid".

Definition keyfunc (secret : string) (m : SigningMethod) : result string :=
  match m with SigningMethodHMAC => Ok secret | SigningMethodOther => Err ErrSignatureInvalid end.

Definition unauthorized (msg : string) : http_response := http_Error (Text (message_json msg)) 401.

Definition ContextWithUserID (c : ctx) (id : uuid) : ctx := Ctx (Some id) (ctx_request_id c).

Definition JWT (secret : string) (next : http_call (server W)) : http_call (server W) := λ c r s,
  let auth := Header_Get (r_Header r) "Authorization" in
  if bool_decide (auth = "") then next c r s
  else match CutPrefix auth "Bearer " with
  | None => (s, unauthorized "invalid authorization header")
  | Some raw =>
      let '(s, t) := now s in
      match jwt_Parse (time_Unix t) raw (keyfunc secret) with
      | Err _ => (s, unauthorized "invalid token")
      | Ok tok =>
          if negb (tok_Valid tok) then (s, unauthorized "invalid token")
          else match GetSubject tok with
          | Err _ => (s, unauthorized "invalid token claims")
          | Ok sub =>
              match uuid_Parse sub with
              | Err _ => (s, unauthorized "invalid token subject")
              | Ok id => next (ContextWithUserID c id) r s
              end
          end
      end
  end.

(** *** ratelimit.go *)

Definition limit_key (c : ctx) (r : http_request) : string :=
  match ctx_userID c with
  | Some id => "u:" +:+ uuid_String id
  | None => "ip:" +:+ default (r_RemoteAddr r) (SplitHostPort (r_RemoteAddr r))
  end.

(** rate.Limit(float64(requestsPerMinute) / 60.0) and the burst *)
Definition new_limiter (requestsPerMinute : Z) : Limiter :=
  NewLimiter (inject_Z requestsPerMinute / inject_Z 60)%Q requestsPerMinute.

(** getLimiter(key), under the mutex: the limiter of a key, created if there is
    none, seen now. *)
Definition getLimiter (rpm : Z) (key : string) (t : time) (m : limiters) : limiters * nat :=
  match l_entries m !! key with
  | Some ul => (Limiters (l_heap m) (<[key := UserLimiter (limiter ul) t]> (l_entries m)), limiter ul)
  | None =>
      let p := length (l_heap m) in
      (Limiters (l_heap m ++ [new_limiter rpm]) (<[key := UserLimiter p t]> (l_entries m)), p)
  end.

(** [Allow()] on a limiter, under the limiter's own mutex. *)
Definition Allow (p : nat) (t : time) (m : limiters) : limiters * bool :=
  match l_heap m !! p with
  | Some l => let '(l, ok) := AllowN l t in (Limiters (<[p := l]> (l_heap m)) (l_entries m), ok)
  | None => (m, false)
  end.

Definition tooManyRequests : http_response := http_Error (Text (message_json "too many requests")) 429.

Definition RateLimit (rpm : Z) (next : http_call (server W)) : http_call (server W) := λ c r s,
  let key := limit_key c r in
  let '(s, t) := now s in
  let '(m, p) := getLimiter rpm key t (s_limiters s) in
  let '(s, t) := now s in
  let '(m, ok) := Allow p t m in
  let s := Server (s_world s) m (s_requests s) (s_durations s) in
  if ok then next c r s else (s, tooManyRequests).

Definition ten_minutes : Z := 10 * 60 * 1000000000.

(** One tick of startLimiterCleanup. *)
Definition cleanup (t : time) (m : limiters) : limiters :=
  Limiters (l_heap m)
    (filter (λ kv : string * userLimiter, t_ns t - t_ns (lastSeen kv.2) ≤ ten_minutes) (l_entries m)).

(** *** requestid.go *)

Definition requestIDHeader : string := "X-Request-Id".

(** [w.Header().Set(...)] before the rest of the chain writes. *)
Definition with_header (k v : string) (rs : http_response) : http_response :=
  HttpResponse (rs_Status rs) (rs_Header rs ∪ {[ k := v ]}) (rs_Body rs) (rs_Pattern rs).

Definition RequestID (next : http_call (server W)) : http_call (server W) := λ c r s,
  let serve id s :=
    let '(s, rs) := next (Ctx (ctx_userID c) (Some id)) r s in (s, with_header requestIDHeader id rs) in
  let given := Header_Get (r_Header r) requestIDHeader in
  if bool_decide (given = "") then
    match newV7 (s_world s) with
    | (w, Ok id) => serve (uuid_String id) (put_world s w)
    | (w, Err _) => (put_world s w, http_Error (Text "internal server error") 500)
    end
  else serve given s.

(** *** metrics.go *)

Definition method_name (m : method) : string :=
  match m with
  | MethodGet => "GET" | MethodPost => "POST" | MethodPut => "PUT" | MethodOther name => name
  end.

Definition Metrics (next : http_call (server W)) : http_call (server W) := λ c r s,
  let '(s, start) := now s in
  let '(s, rs) := next c r s in
  let path := if bool_decide (rs_Pattern rs ≠ "") then rs_Pattern rs else r_Path r in
  let meth := method_name (r_Method r) in
  let status := fmt_d (rs_Status rs) in
  let '(s, stop) := now s in
  (Server (s_world s) (s_limiters s)
     (partial_alter (λ n, Some (1 + default 0 n)%N) (meth, path, status) (s_requests s))
     (s_durations s ++ [(meth, path, t_ns stop - t_ns start)]), rs).

End middleware.
