(* ===== verification/RateBound.v ===== *)
(** * RateBound: what the rate limiter guarantees

    The steps of requests in flight and of the cleanup as a trace over the
    limiters: a request takes its limiter and calls it in two steps, between
    which anything else may happen. However the steps interleave, a key is
    admitted at most its burst plus its rate times the elapsed time, provided
    the clock does not go backwards and no request takes longer than nine
    minutes between its two steps; then evicting an idle entry never lends the
    key more. A request that takes longer can (see [late_request] in
    ConcreteServer). *)
From Stdlib Require Import Setoid QArith Qminmax Lqa.
From S2P Require Import Prelude Go Middleware.
Open Scope Z_scope.

(** ** Traces *)

(** A step: a request takes the limiter of its key, or calls [Allow] on it; the
    cleanup goroutine's ticker. Each with the reading of the clock it uses, in
    the order in which the mutexes let them through. *)
Inductive event : Type :=
  | Get (i : nat) (key : string) (t : time)
  | Call (i : nat) (t : time)
  | Tick (t : time).

Definition at_time (ev : event) : time :=
  match ev with Get _ _ t | Call _ t | Tick t => t end.

Definition nine_minutes : Z := 9 * 60 * 1000000000.

(** [waiting] are the requests between their steps, with the reading of the
    first. The clock does not go backwards from one step to the next, and a
    request's second step comes within nine minutes of its first. *)
Fixpoint timely (T : time) (waiting : gmap nat time) (evs : list event) : Prop :=
  match evs with
  | [] => True
  | ev :: evs =>
      t_ns T ≤ t_ns (at_time ev) ∧
      match ev with
      | Get i _ t => waiting !! i = None ∧ timely t (<[i := t]> waiting) evs
      | Call i t => (∃ t0, waiting !! i = Some t0 ∧ t_ns t ≤ t_ns t0 + nine_minutes) ∧
                    timely t (delete i waiting) evs
      | Tick t => timely t waiting evs
      end
  end.

(** When a trace that starts at [T] ends, and who waits then. *)
Fixpoint ends (T : time) (evs : list event) : time :=
  match evs with [] => T | ev :: evs => ends (at_time ev) evs end.

Fixpoint waits (waiting : gmap nat time) (evs : list event) : gmap nat time :=
  match evs with
  | [] => waiting
  | Get i _ t :: evs => waits (<[i := t]> waiting) evs
  | Call i _ :: evs => waits (delete i waiting) evs
  | Tick _ :: evs => waits waiting evs
  end.

Lemma timely_app T ws evs evs' :
  timely T ws (evs ++ evs') → timely T ws evs ∧ timely (ends T evs) (waits ws evs) evs'.
Proof.
  revert T ws. induction evs as [|[i k t|i t|t] evs IH]; intros T ws; cbn; [done|..].
  - intros (? & ? & ?%IH). naive_solver.
  - intros (? & ? & ?%IH). naive_solver.
  - intros (? & ?%IH). naive_solver.
Qed.

(** ** The limiters and the requests that hold one *)
Section bound.
Context `{!RateLib} (rpm : Z).

(** The limiters, and the key and the limiter of each waiting request. *)
Record crowd : Type := Crowd { c_limiters : limiters; c_held : gmap nat (string * nat) }.

Definition nobody : crowd := Crowd no_limiters ∅.

(** A step, and the key it admits if it does. *)
Definition take (ev : event) (c : crowd) : crowd * option string :=
  match ev with
  | Get i key t =>
      let '(m, p) := getLimiter rpm key t (c_limiters c) in
      (Crowd m (<[i := (key, p)]> (c_held c)), None)
  | Call i t =>
      match c_held c !! i with
      | Some (key, p) =>
          let '(m, ok) := Allow p t (c_limiters c) in
          (Crowd m (delete i (c_held c)), if ok : bool then Some key else None)
      | None => (c, None)
      end
  | Tick t => (Crowd (cleanup t (c_limiters c)) (c_held c), None)
  end.

Fixpoint run_trace (evs : list event) (c : crowd) : crowd :=
  match evs with [] => c | ev :: evs => run_trace evs (take ev c).1 end.

(** How many of a key's requests are admitted. *)
Fixpoint admitted (key : string) (evs : list event) (c : crowd) : Z :=
  match evs with
  | [] => 0
  | ev :: evs =>
      (if bool_decide ((take ev c).2 = Some key) then 1 else 0) + admitted key evs (take ev c).1
  end.

(** ** Token buckets *)
Context `{!RateLibSpec} (Hrpm : 0 < rpm).

Local Open Scope Q_scope.

Definition rate : Q := inject_Z rpm / inject_Z 60.

(** The bucket held [x] tokens at [t], perhaps a nanosecond's worth below zero,
    and has only been refilled since. *)
Definition refilling (l : Limiter) (t : time) (x : Q) : Prop :=
  0 <= x + rate * nanosecond ∧ Limit l = rate ∧ Burst l = rpm ∧
  ∀ u, (t_ns t ≤ t_ns u)%Z →
    TokensAt l u == Qmin (inject_Z rpm) (x + rate * seconds t u).

(** Every entry has a limiter of its own, which has been refilling since its
    last use; a waiting request's limiter is that of its key's entry, for as
    long as the request may take. *)
Record fair (T : time) (ws : gmap nat time) (c : crowd) : Prop := Fair {
  fair_entry key ul : l_entries (c_limiters c) !! key = Some ul →
    ∃ l t x, l_heap (c_limiters c) !! limiter ul = Some l ∧ refilling l t x ∧
      (t_ns t ≤ t_ns T)%Z ∧ (t_ns t ≤ t_ns (lastSeen ul) + nine_minutes)%Z ∧ (t_ns (lastSeen ul) ≤ t_ns T)%Z;
  fair_own k1 k2 u1 u2 : l_entries (c_limiters c) !! k1 = Some u1 →
    l_entries (c_limiters c) !! k2 = Some u2 → limiter u1 = limiter u2 → k1 = k2;
  fair_held i key p : c_held c !! i = Some (key, p) → ∃ t0, ws !! i = Some t0 ∧
    ((t_ns T ≤ t_ns t0 + nine_minutes)%Z → ∃ ul, l_entries (c_limiters c) !! key = Some ul ∧
       limiter ul = p ∧ (t_ns t0 ≤ t_ns (lastSeen ul))%Z)
}.

(** The tokens a key can draw on. *)
Definition tokens (key : string) (c : crowd) (T : time) : Q :=
  match l_entries (c_limiters c) !! key with
  | Some ul => match l_heap (c_limiters c) !! limiter ul with
               | Some l => TokensAt l T
               | None => inject_Z rpm
               end
  | None => inject_Z rpm
  end.

Lemma rate_pos : 0 < rate.
Proof. unfold rate, Qdiv, Qlt, Qmult, Qinv, inject_Z; simpl. lia. Qed.

Lemma slack_nonneg : 0 <= rate * nanosecond.
Proof. pose proof rate_pos. apply Qmult_le_0_compat; [lra|discriminate]. Qed.

Lemma seconds_nonneg t u : (t_ns t ≤ t_ns u)%Z → 0 <= seconds t u.
Proof. intros ?. unfold seconds, Qdiv, Qle, Qmult, Qinv, inject_Z; simpl. lia. Qed.

Lemma seconds_add t u v : seconds t v == seconds t u + seconds u v.
Proof. unfold seconds, Qdiv, Qeq, Qplus, Qmult, Qinv, inject_Z; simpl. lia. Qed.

Lemma seconds_refl t : seconds t t == 0.
Proof. unfold seconds, Qdiv, Qeq, Qmult, Qinv, inject_Z; simpl. lia. Qed.

Lemma refill_nonneg t u : (t_ns t ≤ t_ns u)%Z → 0 <= rate * seconds t u.
Proof. intros ?. pose proof rate_pos. apply Qmult_le_0_compat; [lra|by apply seconds_nonneg]. Qed.

Lemma rate_seconds_add t u v : rate * seconds t v == rate * seconds t u + rate * seconds u v.
Proof. rewrite (seconds_add t u v). ring. Qed.

Lemma rpm_pos : 0 < inject_Z rpm.
Proof. change 0 with (inject_Z 0). by rewrite <-Zlt_Qlt. Qed.

(** Refilling adds at most the rate times the time, and is all that happens. *)
Lemma refilling_grows l t x u v :
  refilling l t x → (t_ns t ≤ t_ns u)%Z → (t_ns u ≤ t_ns v)%Z →
  (0 <= TokensAt l u + rate * nanosecond ∧ TokensAt l u <= inject_Z rpm) ∧
  TokensAt l v <= TokensAt l u + rate * seconds u v ∧
  TokensAt l v == Qmin (inject_Z rpm) (TokensAt l u + rate * seconds u v).
Proof.
  intros (Hx & _ & _ & Hl) Hu Hv. rewrite (Hl u), (Hl v) by lia. rewrite (rate_seconds_add t u v).
  pose proof slack_nonneg. pose proof rpm_pos. pose proof (refill_nonneg t u Hu). pose proof (refill_nonneg u v Hv).
  generalize dependent (rate * seconds t u). generalize dependent (rate * seconds u v).
  generalize dependent (rate * nanosecond). intros e Hx He a Ha b Hb.
  destruct (Q.min_spec (inject_Z rpm) (x + b)) as [[? Hm]|[? Hm]]; rewrite Hm;
    destruct (Q.min_spec (inject_Z rpm) (x + (b + a))) as [[? ->]|[? ->]];
    (split; [split; lra|]); (split; [lra|]).
  1,2: rewrite Q.min_l; lra.
  1: rewrite Q.min_l; lra.
  rewrite Q.min_r; lra.
Qed.

Lemma refilling_settled l t x u : refilling l t x → (t_ns t ≤ t_ns u)%Z → settled l u.
Proof.
  intros Hl Hu a b Ha Hb. destruct (refilling_grows l t x a b Hl) as (_ & _ & Hm); [lia..|].
  destruct Hl as (_ & -> & -> & _). exact Hm.
Qed.

(** A minute and a nanosecond refill any bucket. *)
Lemma refilling_full l t x u :
  refilling l t x → (t_ns t + 60 * 1000000000 < t_ns u)%Z → TokensAt l u == inject_Z rpm.
Proof.
  intros (Hx & _ & _ & Hl) Hu. rewrite Hl by lia. apply Q.min_l.
  assert (inject_Z rpm + rate * nanosecond <= rate * seconds t u); [|lra].
  unfold rate, nanosecond, seconds, Qdiv, Qle, Qplus, Qmult, Qinv, inject_Z; simpl. nia.
Qed.

Lemma new_refilling t : refilling (new_limiter rpm) t (inject_Z rpm).
Proof.
  unfold new_limiter. destruct (New_limit (inject_Z rpm / inject_Z 60) rpm) as [Hl Hb].
  pose proof rpm_pos. pose proof slack_nonneg. split_and!; [lra|done|done|].
  intros u Hu. rewrite New_full. symmetry. apply Q.min_l. pose proof (refill_nonneg t u Hu). lra.
Qed.

(** An event on a refilling limiter. *)
Lemma allow_refilling l t0 x t :
  refilling l t0 x → (t_ns t0 ≤ t_ns t)%Z →
  refilling (AllowN l t).1 t (TokensAt l t - (if (AllowN l t).2 then 1 else 0)).
Proof.
  intros Hl Ht. destruct (refilling_grows _ t0 x t t Hl) as [[Hx0 _] _]; [lia..|].
  pose proof (refilling_settled _ _ _ _ Hl Ht) as Hset. pose proof rate_pos.
  destruct Hl as (_ & Hr & Hb & _), (Allow_limit l t) as [Hr' Hb']. split_and!.
  - destruct (AllowN l t).2 eqn:E; [|lra]. apply Allow_tokens in E; [|done|rewrite Hr; lra].
    rewrite Hr in E. lra.
  - congruence.
  - congruence.
  - intros u Hu. by rewrite (Allow_refill l t u Hset Hu), Hr, Hb.
Qed.

(** ** Steps *)

(** The limiter of an entry is refilling. *)
Lemma tokens_entry T ws c key :
  fair T ws c →
  ∃ l t x, refilling l t x ∧ (t_ns t ≤ t_ns T)%Z ∧ ∀ u, (t_ns T ≤ t_ns u)%Z → tokens key c u == TokensAt l u.
Proof.
  intros Hf. unfold tokens. destruct (l_entries (c_limiters c) !! key) as [ul|] eqn:Hk.
  - destruct (fair_entry _ _ _ Hf _ _ Hk) as (l & t & x & -> & Hl & Ht & _). by exists l, t, x.
  - exists (new_limiter rpm), T, (inject_Z rpm). split; [apply new_refilling|]. split; [lia|].
    intros u _. unfold new_limiter. by rewrite New_full.
Qed.

Lemma tokens_grow T ws c key u :
  fair T ws c → (t_ns T ≤ t_ns u)%Z →
  (0 <= tokens key c u + rate * nanosecond ∧ tokens key c u <= inject_Z rpm) ∧
  tokens key c u <= tokens key c T + rate * seconds T u.
Proof.
  intros Hf Hu. destruct (tokens_entry T ws c key Hf) as (l & t & x & Hl & Ht & Htok).
  rewrite (Htok u Hu), (Htok T) by lia. destruct (refilling_grows l t x T u Hl) as (_ & ? & _); [lia..|].
  destruct (refilling_grows l t x u u Hl) as (? & _); [lia..|]. done.
Qed.

(** Time alone. *)
Lemma fair_later T ws c u : fair T ws c → (t_ns T ≤ t_ns u)%Z → fair u ws c.
Proof.
  intros [He Ho Hh] Hu. split; [|done|].
  - intros key ul Hk. destruct (He key ul Hk) as (l & t & x & ? & ? & ? & ? & ?). exists l, t, x. split_and!; try done; lia.
  - intros i key p Hi. destruct (Hh i key p Hi) as (t0 & ? & Hw). exists t0. split; [done|]. intros ?. apply Hw. lia.
Qed.

(** A request takes its limiter: nobody's tokens change. *)
Lemma get_fair T ws c i key t :
  fair T ws c → (t_ns T ≤ t_ns t)%Z →
  fair t (<[i := t]> ws) (take (Get i key t) c).1 ∧
  ∀ k, tokens k (take (Get i key t) c).1 t == tokens k c t.
Proof.
  intros Hf HT. pose proof (fair_later _ _ _ _ Hf HT) as [He Ho Hh]. clear Hf.
  unfold take, getLimiter, tokens. destruct (l_entries (c_limiters c) !! key) as [ul|] eqn:Hk; cbn.
  - split; [split; cbn|].
    + intros k u [[<- <-]|[Hne Hu]]%lookup_insert_Some; [|by eapply He].
      destruct (He _ _ Hk) as (l & t1 & x & ? & ? & ? & ? & ?). exists l, t1, x. cbn.
      split_and!; try done; unfold nine_minutes; lia.
    + intros k1 k2 u1 u2 [[<- <-]|[? Hk1]]%lookup_insert_Some [[<- <-]|[? Hk2]]%lookup_insert_Some; cbn; intros Heq.
      * done.
      * by eapply Ho.
      * by eapply Ho.
      * by eapply Ho.
    + intros j k p [[<- [= <- <-]]|[? Hj]]%lookup_insert_Some.
      * exists t. rewrite lookup_insert_eq. split; [done|]. intros _. eexists. rewrite lookup_insert_eq.
        split; [done|]. cbn. split; [done|lia].
      * destruct (Hh _ _ _ Hj) as (t0 & Hws & Hw). exists t0. rewrite lookup_insert_ne by done. split; [done|].
        intros Hin. destruct (Hw Hin) as (u & Hu & <- & Hls). destruct (decide (k = key)) as [->|Hne].
        -- rewrite lookup_insert_eq. eexists. split; [done|]. cbn. split; [by simplify_eq|].
           destruct (He _ _ Hk) as (? & ? & ? & _ & _ & _ & _ & ?). simplify_eq. lia.
        -- exists u. by rewrite lookup_insert_ne.
  + intros k. destruct (decide (k = key)) as [->|Hne]; [by rewrite lookup_insert_eq, Hk|by rewrite lookup_insert_ne].
  - assert (∀ k u, l_entries (c_limiters c) !! k = Some u → (limiter u < length (l_heap (c_limiters c)))%nat) as Hlt.
    { intros k u Hu. destruct (He _ _ Hu) as (l & _ & _ & Hl & _). by eapply lookup_lt_Some. }
    split; [split; cbn|].
    + intros k u [[<- <-]|[Hne Hu]]%lookup_insert_Some; cbn.
      * exists (new_limiter rpm), t, (inject_Z rpm). rewrite list_lookup_middle by done.
        split_and!; [done|apply new_refilling|unfold nine_minutes; lia..].
      * destruct (He _ _ Hu) as (l & t1 & x & Hl & ?). exists l, t1, x. by rewrite (lookup_app_l_Some _ _ _ _ Hl).
    + intros k1 k2 u1 u2 [[<- <-]|[? Hk1]]%lookup_insert_Some [[<- <-]|[? Hk2]]%lookup_insert_Some; cbn; intros Heq.
      * done.
      * apply Hlt in Hk2. lia.
      * apply Hlt in Hk1. lia.
      * by eapply Ho.
    + intros j k p [[<- [= <- <-]]|[? Hj]]%lookup_insert_Some.
      * exists t. rewrite lookup_insert_eq. split; [done|]. intros _. eexists. rewrite lookup_insert_eq.
        split; [done|]. cbn. split; [done|lia].
      * destruct (Hh _ _ _ Hj) as (t0 & Hws & Hw). exists t0. rewrite lookup_insert_ne by done. split; [done|].
        intros Hin. destruct (Hw Hin) as (u & Hu & Hp & Hls). exists u. rewrite lookup_insert_ne; [done|congruence].
    + intros k. destruct (decide (k = key)) as [->|Hne].
      * rewrite lookup_insert_eq, Hk. cbn. rewrite list_lookup_middle by done. unfold new_limiter. by rewrite New_full.
      * rewrite lookup_insert_ne by done. destruct (l_entries (c_limiters c) !! k) as [u|] eqn:Hu; [|done].
        destruct (He _ _ Hu) as (l & _ & _ & Hl & _). by rewrite (lookup_app_l_Some _ _ _ _ Hl), Hl.
Qed.

(** A request calls its limiter: an admission costs its key a token. *)
Lemma call_fair T ws c i t0 t :
  fair T ws c → (t_ns T ≤ t_ns t)%Z → ws !! i = Some t0 → (t_ns t ≤ t_ns t0 + nine_minutes)%Z →
  fair t (delete i ws) (take (Call i t) c).1 ∧
  ∀ k, (if bool_decide ((take (Call i t) c).2 = Some k) then 1 else 0) + tokens k (take (Call i t) c).1 t <=
       tokens k c t.
Proof.
  intros Hf HT Hi Ht. pose proof (fair_later _ _ _ _ Hf HT) as [He Ho Hh]. clear Hf.
  unfold take. destruct (c_held c !! i) as [[key p]|] eqn:Hheld; cbn.
  2: { split; [|intros k; rewrite bool_decide_false by done; lra]. split; [done..|]. intros j k q Hj. destruct (Hh _ _ _ Hj) as (t1 & ? & ?).
       exists t1. rewrite lookup_delete_ne; [done|]. congruence. }
  destruct (Hh _ _ _ Hheld) as (t0' & Hi' & Hw). rewrite Hi in Hi'. injection Hi' as <-.
  destruct (Hw Ht) as (ul & Hul & <- & Hls). destruct (He _ _ Hul) as (l & t1 & x & Hl & Href & Ht1 & _ & Hlt).
  pose proof (allow_refilling l t1 x t Href Ht1) as Href'. unfold Allow. rewrite Hl.
  destruct (AllowN l t) as [l' ok] eqn:Hal. cbn [fst snd] in Href' |- *.
  assert (∀ k u, l_entries (c_limiters c) !! k = Some u → k ≠ key → limiter u ≠ limiter ul) as Hother
    by (intros k u Hu Hne Heq; by eapply Hne, Ho).
  split; [split; cbn|].
  - intros k u Hu. destruct (decide (k = key)) as [->|Hne].
    + rewrite Hul in Hu. injection Hu as <-. exists l', t, (TokensAt l t - (if ok then 1 else 0)).
      rewrite list_lookup_insert_eq by (by eapply lookup_lt_Some). split_and!; try done; unfold nine_minutes in *; lia.
    + rewrite list_lookup_insert_ne by (by apply not_eq_sym, (Hother k)). by eapply He.
  - exact Ho.
  - intros j k q [Hne Hj]%lookup_delete_Some. destruct (Hh _ _ _ Hj) as (t2 & ? & ?).
    exists t2. by rewrite lookup_delete_ne.
  - intros k. unfold tokens. cbn. destruct (decide (k = key)) as [->|Hne].
    + rewrite Hul, Hl, list_lookup_insert_eq by (by eapply lookup_lt_Some).
      destruct Href' as (_ & _ & _ & Hu). rewrite (Hu t), seconds_refl, Qmult_0_r, Qplus_0_r by lia.
      destruct (refilling_grows l t1 x t t Href) as [[_ Hmax] _]; [lia..|].
      destruct ok; [rewrite bool_decide_true by done|rewrite bool_decide_false by done]; rewrite Q.min_r; lra.
    + rewrite bool_decide_false by (by destruct ok; intros [= ->]).
      destruct (l_entries (c_limiters c) !! k) as [u|] eqn:Hu; [|lra].
      rewrite list_lookup_insert_ne by (by apply not_eq_sym, (Hother k)). lra.
Qed.

(** A tick only evicts full buckets that nobody may still use. *)
Lemma tick_fair T ws c t :
  fair T ws c → (t_ns T ≤ t_ns t)%Z →
  fair t ws (take (Tick t) c).1 ∧ ∀ k, tokens k (take (Tick t) c).1 t <= tokens k c t.
Proof.
  intros Hf HT. pose proof (fair_later _ _ _ _ Hf HT) as Hft. destruct Hft as [He Ho Hh]. cbn [take fst].
  split; [split; cbn|].
  - intros key ul [Hk _]%map_lookup_filter_Some. by eapply He.
  - intros k1 k2 u1 u2 [Hk1 _]%map_lookup_filter_Some [Hk2 _]%map_lookup_filter_Some. by eapply Ho.
  - intros i key p Hi. destruct (Hh _ _ _ Hi) as (t0 & Hws & Hw). exists t0. split; [done|]. intros Hin.
    destruct (Hw Hin) as (ul & Hul & Hp & Hls). exists ul. split; [|done]. apply map_lookup_filter_Some.
    split; [done|]. cbn. unfold ten_minutes, nine_minutes in *. lia.
  - intros k. unfold tokens. cbn. destruct (l_entries (c_limiters c) !! k) as [ul|] eqn:Hk.
    + destruct (He _ _ Hk) as (l & t1 & x & Hl & Href & Ht1 & Hls & Hlt).
      destruct (decide (t_ns t - t_ns (lastSeen ul) ≤ ten_minutes)%Z) as [Hle|Hgt].
      * rewrite (map_lookup_filter_Some_2 _ _ _ ul) by done. rewrite Hl. lra.
      * assert (filter (λ kv : string * userLimiter, (t_ns t - t_ns (lastSeen kv.2) ≤ ten_minutes)%Z)
          (l_entries (c_limiters c)) !! k = None) as ->
          by (apply map_lookup_filter_None; right; intros u Hu; simplify_eq; exact Hgt).
        rewrite Hl, (refilling_full _ _ _ t Href); [lra|]. unfold ten_minutes, nine_minutes in *. lia.
    + assert (filter (λ kv : string * userLimiter, (t_ns t - t_ns (lastSeen kv.2) ≤ ten_minutes)%Z)
        (l_entries (c_limiters c)) !! k = None) as -> by (apply map_lookup_filter_None; by left). lra.
Qed.

Lemma trace_bound key T ws evs c :
  fair T ws c → timely T ws evs →
  (t_ns T ≤ t_ns (ends T evs))%Z ∧ fair (ends T evs) (waits ws evs) (run_trace evs c) ∧
  inject_Z (admitted key evs c) + tokens key (run_trace evs c) (ends T evs) <=
    tokens key c T + rate * seconds T (ends T evs).
Proof.
  revert T ws c. induction evs as [|ev evs IH]; intros T ws c Hf Hev.
  { cbn. split; [lia|]. split; [done|]. rewrite seconds_refl. change (inject_Z 0) with 0. lra. }
  assert (∀ ws', timely (at_time ev) ws' evs → fair (at_time ev) ws' (take ev c).1 →
    (t_ns T ≤ t_ns (at_time ev))%Z →
    (if bool_decide ((take ev c).2 = Some key) then 1 else 0) + tokens key (take ev c).1 (at_time ev) <=
      tokens key c (at_time ev) →
    (t_ns T ≤ t_ns (ends T (ev :: evs)))%Z ∧ fair (ends T (ev :: evs)) (waits ws' evs) (run_trace (ev :: evs) c) ∧
    inject_Z (admitted key (ev :: evs) c) + tokens key (run_trace (ev :: evs) c) (ends T (ev :: evs)) <=
      tokens key c T + rate * seconds T (ends T (ev :: evs))) as Hgo.
  { intros ws' Hev' Hf' HT Hstep. cbn [ends run_trace admitted].
    destruct (tokens_grow T ws c key (at_time ev) Hf HT) as [_ Hg].
    destruct (IH _ _ _ Hf' Hev') as (He & Hfe & Hb). split; [lia|]. split; [done|].
    rewrite inject_Z_plus, (rate_seconds_add T (at_time ev)).
    destruct (bool_decide _); [change (inject_Z 1) with 1|change (inject_Z 0) with 0]; lra. }
  destruct ev as [i k t|i t|t]; cbn [timely at_time waits] in *.
  - destruct Hev as (HT & Hi & Hev). destruct (get_fair T ws c i k t Hf HT) as [Hf' Htok].
    apply Hgo; try done. rewrite Htok. cbn [take]. destruct (getLimiter _ _ _ _). cbn.
    rewrite bool_decide_false by done. lra.
  - destruct Hev as (HT & (t0 & Hi & Ht) & Hev). destruct (call_fair T ws c i t0 t Hf HT Hi Ht) as [Hf' Htok].
    by apply Hgo.
  - destruct Hev as (HT & Hev). destruct (tick_fair T ws c t Hf HT) as [Hf' Htok].
    apply Hgo; try done. specialize (Htok key). cbn [take snd fst] in Htok |- *.
    rewrite bool_decide_false by done. lra.
Qed.

Lemma nobody_fair T : fair T ∅ nobody.
Proof. split; cbn; intros *; by rewrite lookup_empty. Qed.

End bound.

(** C23: the rate limiter bounds what it admits. However the steps of requests
    of any keys and the cleanup interleave - a request takes its limiter and
    calls it in two steps - between two instants a key is admitted at most [rpm]
    requests plus [rpm] per minute elapsed, to the nanosecond; evicting an idle
    key never gives it extra requests. Assumed are that the clock does not go
    backwards from step to step, that no request takes more than nine minutes
    between its two steps, and the documented token bucket of x/time/rate in
    exact arithmetic. *)
Theorem rate_bound `{!RateLib} `{!RateLibSpec} rpm key T before after :
  0 < rpm → timely T ∅ (before ++ after) →
  let start := ends T before in
  60 * 1000000000 * admitted rpm key after (run_trace rpm before nobody) ≤
    rpm * (60 * 1000000000 + (t_ns (ends start after) - t_ns start) + 1).
Proof.
  intros Hrpm Hev start. destruct (timely_app _ _ _ _ Hev) as [Hb Ha].
  destruct (trace_bound rpm Hrpm key T ∅ before nobody (nobody_fair rpm T) Hb) as (_ & Hf & _).
  destruct (trace_bound rpm Hrpm key _ _ after _ Hf Ha) as (_ & Hf' & Hle).
  destruct (tokens_grow rpm Hrpm _ _ _ key _ Hf (Z.le_refl _)) as [[_ Hmax] _].
  destruct (tokens_grow rpm Hrpm _ _ _ key _ Hf' (Z.le_refl _)) as [[Hmin _] _].
  assert (Hq : (inject_Z (admitted rpm key after (run_trace rpm before nobody)) <=
    inject_Z rpm + rate rpm * seconds start (ends start after) + rate rpm * nanosecond)%Q)
    by (unfold start in *; lra).
  unfold rate, seconds, nanosecond, Qdiv, Qle, Qplus, Qmult, Qinv, inject_Z in Hq. simpl in Hq. lia.
Qed.
