(* ===== verification/Server.v ===== *)
(** * Server: internal/app/app.go, the HTTP side

    The router with the generated server mounted on it and the middleware chain
    around it, in the order [app.New] installs them, and what a request that comes through
    the whole chain can do. *)
From S2P Require Import Prelude Go GoStrings Uuid Domain Ports TaskService TeamService AuthService.
From S2P Require Import CommentService AnalyticsService System Api Generated Handler Http Middleware.

(** ** github.com/go-chi/chi

    Finding a route in a table of methods and patterns: the row and the value of
    its [{id}] segment; and the methods chi knows: it answers any other at once,
    before it looks for a route. *)
Inductive routed : Type :=
  | Found (i : nat) (id : string)
  | NotFound
  | MethodNotAllowed.

Class Chi := {
  chi_find : list (method * string) → method → string → routed;
  chi_method : method → bool
}.

Section server.
Context {W : Type} `{!UuidLib} `{!CacheCodec} `{!JwtLib} `{!OapiRuntime} `{!RateLib} `{!Chi}.
Context (clock : W → W * time) (newV7 : comp W uuid) (metrics_page : server W → http_response).
Context (a : App (W := W)) (an : AnalyticsSvc.Service W).

(** The generated server over the handler, its routes under /api/v1. *)
Definition mountV1 (h : Handler.Handler W) : Router W :=
  (λ x, (x.1.1, "/api/v1" +:+ x.1.2, x.2)) <$>
    HandlerFromMux (NewStrictHandler (Handler.strict_server h) []) [].

Definition with_pattern (p : string) (rs : http_response) : http_response :=
  HttpResponse (rs_Status rs) (rs_Header rs) (rs_Body rs) p.

(** [chi.Context.RoutePattern] where the mounted router finds no route or no
    method: the pattern of the mount that matched. [r.Route] mounts its router
    under /api/v1, /api/v1/ and /api/v1/*, and a final slash is cut off. *)
Definition mount_pattern (path : string) : string :=
  if bool_decide (path ∈ ["/api/v1"; "/api/v1/"]) then "/api/v1"
  else if HasPrefix path "/api/v1/" then "/api/v1/*" else "".

(** The answers of the routers' default handlers. *)
Definition not_found (r : http_request) : http_response :=
  with_pattern (mount_pattern (r_Path r)) (http_Error (Text "404 page not found") 404).
Definition not_allowed (r : http_request) : http_response :=
  with_pattern (mount_pattern (r_Path r)) (WriteHeader 405).

(** The router: /metrics, or one of the mounted routes. *)
Definition router : http_call (server W) := λ c r s,
  if negb (chi_method (r_Method r)) then (s, WriteHeader 405)
  else if bool_decide (r_Path r = "/metrics") then (s, with_pattern "/metrics" (metrics_page s))
  else
    let mounted : Router W := mountV1 (handler_of a an) in
    match chi_find (fst <$> mounted) (r_Method r) (r_Path r) with
    | Found i id =>
        match mounted !! i with
        | Some (_, p, operation) =>
            let '(w, rs) := operation id c r (s_world s) in (put_world s w, with_pattern p rs)
        | None => (s, not_found r)
        end
    | NotFound => (s, not_found r)
    | MethodNotAllowed => (s, not_allowed r)
    end.

(** The routes that are mounted, and what each of them runs. *)
Definition mounted : list (method * string) :=
  (λ re : method * string * endpoint, (re.1.1, "/api/v1" +:+ re.1.2)) <$> routes.

Lemma mountV1_routes :
  Forall2 (λ x (y : method * string * endpoint), x.1 = (y.1.1, "/api/v1" +:+ y.1.2) ∧ ∀ id c r w, x.2 id c r w = http a an y.2 id c r w)
    (mountV1 (handler_of a an)) routes.
Proof.
  destruct (HandlerFromMux_default (Handler.strict_server (handler_of a an)) []) as (added & Hm & Hr).
  unfold mountV1. rewrite Hm. cbn [app]. apply Forall2_fmap_l. eapply Forall2_impl; [exact Hr|].
  intros [[m p] f] [[m' p'] e] [[= -> ->] Hf]. split; [done|exact Hf].
Qed.

Lemma mountV1_mounted : fst <$> mountV1 (handler_of a an) = mounted.
Proof.
  apply list_eq_Forall2, Forall2_fmap. eapply Forall2_impl; [exact mountV1_routes|]. by intros x y [Hxy _].
Qed.

Lemma router_run c r s :
  router c r s =
    if negb (chi_method (r_Method r)) then (s, WriteHeader 405)
    else if bool_decide (r_Path r = "/metrics") then (s, with_pattern "/metrics" (metrics_page s))
    else match chi_find mounted (r_Method r) (r_Path r) with
    | Found i id =>
        match routes !! i with
        | Some (_, p, e) =>
            let '(w, rs) := http a an e id c r (s_world s) in
            (put_world s w, with_pattern ("/api/v1" +:+ p) rs)
        | None => (s, not_found r)
        end
    | NotFound => (s, not_found r)
    | MethodNotAllowed => (s, not_allowed r)
    end.
Proof.
  pose proof mountV1_routes as Hall. unfold router. destruct (negb _); [done|]. case_bool_decide; [done|]. cbv zeta.
  rewrite mountV1_mounted. unfold http_call in *.
  destruct (chi_find _ _ _) as [i id| |]; [|done..].
  destruct (routes !! i) as [[[m' p'] e]|] eqn:Hy.
  - destruct (Forall2_lookup_r _ _ _ _ _ Hall Hy) as ([[m p] f] & -> & [= -> ->] & Hf).
    cbn in Hf. by rewrite Hf.
  - match goal with |- match ?l with Some _ => _ | None => _ end = _ => destruct l as [x|] eqn:Hx end; [|done].
    destruct (Forall2_lookup_l _ _ _ _ _ Hall Hx) as (y & Hy' & _). congruence.
Qed.

(** The chain of [r.Use(...)]: request ids, metrics, JWT, rate limit. *)
Definition serve_http (secret : string) (requestsPerMinute : Z) : http_call (server W) :=
  RequestID newV7 (Metrics clock (JWT clock secret (RateLimit clock requestsPerMinute router))).

(** ** What a request can do *)
Context `{!UuidLibSpec} `{!CacheCodecSpec} `{!Backend W} `{!BackendSpec W} `{!AppSpec a}.
Context `{!AnalyticsSvc.ServiceSpec an}.

(** The clock and the identifier generator leave the board alone. *)
Class AmbientSpec : Prop := {
  clock_quiet w : quiet w (clock w).1;
  newV7_quiet w : quiet w (newV7 w).1
}.
Context `{!AmbientSpec}.

Definition board_at (s : server W) : board := board_of (s_world s).

(** The board a request leaves, step by step down the chain. *)
Lemma http_analytics_quiet e id c r w :
  is_analytics e = true → quiet w (http a an e id c r w).1.
Proof.
  intros He. destruct e; try discriminate He; clear He; unfold http; enter_call; rewrite respond_run;
    cbn; unfold Handler.GetOrphanTasks, Handler.GetTeamSummaries, Handler.GetTopContributors,
      Handler.UserIDFromCtx; destruct (ctx_userID c) as [u|]; [|done| |done| |done];
    unfold mbind, comp_bind; cbn.
  - pose proof (AnalyticsSvc.OrphanTasks_quiet an w) as Hq.
    by destruct (AnalyticsSvc.OrphanTasks an w) as [w' [l|err]].
  - pose proof (AnalyticsSvc.TeamSummaries_quiet an w) as Hq.
    by destruct (AnalyticsSvc.TeamSummaries an w) as [w' [l|err]].
  - pose proof (AnalyticsSvc.TopContributors_quiet an w) as Hq.
    by destruct (AnalyticsSvc.TopContributors an w) as [w' [l|err]].
Qed.

(** The router keeps the board, or serves a request for the context's user. *)
Lemma router_serves c r s :
  board_at (router c r s).1 = board_at s ∨
  ∃ e id q, request_of e id c r = Some q ∧ s_world (router c r s).1 = serve a q (s_world s).
Proof.
  rewrite router_run. destruct (negb _); [by left|]. case_bool_decide; [by left|]. destruct (chi_find _ _ _) as [i id| |]; [|by left..].
  destruct (routes !! i) as [[[m p] e]|]; [|by left].
  destruct (is_analytics e) eqn:He.
  - pose proof (http_analytics_quiet e id c r (s_world s) He) as Hq.
    destruct (http a an e id c r (s_world s)) as [w rs]. left. apply Hq.
  - pose proof (http_run a an e id c r (s_world s) He) as Hrun.
    destruct (http a an e id c r (s_world s)) as [w rs]. cbn in Hrun |- *.
    destruct (request_of e id c r) as [q|] eqn:Hq; destruct Hrun as [-> _]; [right|by left].
    by exists e, id, q.
Qed.

(** A request's effect: none, or one service request that the context's user
    may make, in a world with the same board. *)
Definition effect (c : ctx) (r : http_request) (s s' : server W) : Prop :=
  board_at s' = board_at s ∨
  ∃ e id q w, request_of e id c r = Some q ∧ board_of w = board_at s ∧
    board_at s' = board_of (serve a q w).

Lemma effect_from c r s1 s2 s' : board_at s2 = board_at s1 → effect c r s2 s' → effect c r s1 s'.
Proof. unfold effect. by intros ->. Qed.

Lemma now_board s : board_at (now clock s).1 = board_at s.
Proof.
  unfold now, board_at. pose proof (clock_quiet (s_world s)) as Hq.
  destruct (clock (s_world s)) as [w t]. apply Hq.
Qed.

(** The request carries a token that the JWT library accepts under the secret,
    and whose subject is the user. *)
Definition authenticates (secret : string) (r : http_request) (u : uuid) : Prop :=
  ∃ raw t tok sub, Header_Get (r_Header r) "Authorization" = "Bearer " +:+ raw ∧
    jwt_Parse t raw (keyfunc secret) = Ok tok ∧ tok_Valid tok = true ∧
    GetSubject tok = Ok sub ∧ uuid_Parse sub = Ok u.

(** A handler that acts only for the user it is called for, or for the user a
    token of the request authenticates. *)
Definition confined (secret : string) (f : http_call (server W)) : Prop :=
  ∀ c r s, ∃ c', effect c' r s (f c r s).1 ∧
    (ctx_userID c' = ctx_userID c ∨ ∃ u, ctx_userID c' = Some u ∧ authenticates secret r u).

Lemma confined_still secret c r s s' :
  board_at s' = board_at s →
  ∃ c', effect c' r s s' ∧
    (ctx_userID c' = ctx_userID c ∨ ∃ u, ctx_userID c' = Some u ∧ authenticates secret r u).
Proof. intros Hs. exists c. split; by left. Qed.

Lemma router_confined secret : confined secret router.
Proof.
  intros c r s. exists c. split; [|by left].
  destruct (router_serves c r s) as [?|(e & id & q & Hq & Hw)]; [by left|right].
  exists e, id, q, (s_world s). split; [done|]. split; [done|]. unfold board_at. by rewrite Hw.
Qed.

Lemma RateLimit_confined secret rpm next :
  confined secret next → confined secret (RateLimit clock rpm next).
Proof.
  intros Hnext c r s. unfold RateLimit.
  pose proof (now_board s) as Hn1. destruct (now clock s) as [s1 t]. cbn [fst] in Hn1.
  destruct (getLimiter _ _ _ _) as [m0 p].
  pose proof (now_board s1) as Hn2. destruct (now clock s1) as [s2 t']. cbn [fst] in Hn2.
  destruct (Allow _ _ _) as [m ok]. set (s3 := Server _ m _ _).
  assert (board_at s3 = board_at s) as Hs by (unfold board_at in *; cbn; congruence).
  destruct ok; [|by apply confined_still].
  destruct (Hnext c r s3) as (c' & He & Hc). exists c'. split; [by eapply effect_from|done].
Qed.

Lemma JWT_confined secret next : confined secret next → confined secret (JWT clock secret next).
Proof.
  intros Hnext c r s. unfold JWT. case_bool_decide; [apply Hnext|].
  destruct (CutPrefix _ _) as [raw|] eqn:Hcut; [|by apply confined_still].
  pose proof (now_board s) as Hn. destruct (now clock s) as [s1 t]. cbn [fst] in Hn.
  destruct (jwt_Parse _ _ _) as [tok|] eqn:Hp; [|by apply confined_still].
  destruct (tok_Valid tok) eqn:Hv; cbn [negb]; [|by apply confined_still].
  destruct (GetSubject tok) as [sub|] eqn:Hs; [|by apply confined_still].
  destruct (uuid_Parse sub) as [u|] eqn:Hu; [|by apply confined_still].
  destruct (Hnext (ContextWithUserID c u) r s1) as (c' & He & Hc). exists c'.
  split; [by eapply effect_from|]. right. destruct Hc as [->|Hc]; [|done]. exists u.
  split; [done|]. exists raw, (time_Unix t), tok, sub. by apply CutPrefix_Some in Hcut.
Qed.

Lemma Metrics_confined secret next : confined secret next → confined secret (Metrics clock next).
Proof.
  intros Hnext c r s. unfold Metrics.
  pose proof (now_board s) as Hn1. destruct (now clock s) as [s1 t]. cbn [fst] in Hn1.
  destruct (Hnext c r s1) as (c' & He & Hc). destruct (next c r s1) as [s2 rs]. cbn [fst] in He.
  pose proof (now_board s2) as Hn2. destruct (now clock s2) as [s3 t3]. cbn [fst] in Hn2 |- *.
  exists c'. split; [|done]. eapply effect_from in He; [|exact Hn1].
  unfold effect, board_at in *. cbn. by rewrite Hn2.
Qed.

Lemma RequestID_confined secret next : confined secret next → confined secret (RequestID newV7 next).
Proof.
  intros Hnext c r s. unfold RequestID.
  assert (∀ id s1, board_at s1 = board_at s → ∃ c', effect c' r s
    (let '(s, rs) := next (Ctx (ctx_userID c) (Some id)) r s1 in (s, with_header requestIDHeader id rs)).1 ∧
    (ctx_userID c' = ctx_userID c ∨ ∃ u, ctx_userID c' = Some u ∧ authenticates secret r u)) as Hgo.
  { intros id s1 Hs. destruct (Hnext (Ctx (ctx_userID c) (Some id)) r s1) as (c' & He & Hc).
    exists c'. destruct (next _ r s1) as [s2 rs]. split; [by eapply effect_from|done]. }
  case_bool_decide; [|by apply Hgo].
  pose proof (newV7_quiet (s_world s)) as Hq. destruct (newV7 (s_world s)) as [w [id|err]];
    [apply Hgo|apply confined_still]; apply Hq.
Qed.

Lemma serve_http_confined secret rpm : confined secret (serve_http secret rpm).
Proof. apply RequestID_confined, Metrics_confined, JWT_confined, RateLimit_confined, router_confined. Qed.

(** C1: what an HTTP request can do to the board, through the whole chain:
    nothing, a registration, or one service request of the user whom a bearer
    token of that very request authenticates under the configured secret. *)
Theorem serve_http_authenticated secret rpm r s s' rs :
  serve_http secret rpm Background r s = (s', rs) →
  board_at s' = board_at s ∨
  ∃ q w, board_of w = board_at s ∧ board_at s' = board_of (serve a q w) ∧
    ((∃ email name password, q = ReqRegister email name password) ∨
     ∃ u, actor q = Some u ∧ authenticates secret r u).
Proof.
  intros Hr.
  pose proof (serve_http_confined secret rpm) as Hc.
  destruct (Hc Background r s) as (c' & [?|(e & id & q & w & Hq & Hw & Hs)] & Hu);
    rewrite Hr in *; [by left|]. cbn [fst] in Hs.
  destruct (actor q) as [u|] eqn:Ha.
  - right. exists q, w. split; [done|]. split; [done|]. right. exists u. split; [done|].
    rewrite (request_of_actor _ _ _ _ _ _ Hq Ha) in Hu. destruct Hu as [?|(v & ? & ?)]; [done|congruence].
  - destruct q as [email name password|email password| | | | | | | | |]; try done.
    + right. exists (ReqRegister email name password), w. split; [done|]. split; [done|]. left. eauto.
    + left. rewrite Hs, <-Hw. cbn. destruct (AuthSvc.Login _ _ _ w) as [w1 x] eqn:Hl.
      apply AuthSvc.Login_quiet in Hl; [|apply _..]. apply Hl.
Qed.

(** *** What every request is answered *)

(** Nothing changed but the clock, the limiters and the identifiers. *)
Definition untouched (s s' : server W) : Prop :=
  board_at s' = board_at s ∧ s_requests s' = s_requests s.

(** Whom a request acts as: nobody without a token, or its token's user. *)
Definition identity (secret : string) (r : http_request) (u : option uuid) : Prop :=
  (Header_Get (r_Header r) "Authorization" = "" ∧ u = None) ∨
  (∃ v, u = Some v ∧ authenticates secret r v).

(** The router's answer, given to the request in an untouched server. *)
Definition routed_as (c : ctx) (r : http_request) (s s' : server W) (rs : http_response) : Prop :=
  ∃ s1, untouched s s1 ∧ untouched (router c r s1).1 s' ∧ rs = (router c r s1).2.

Lemma now_untouched s : untouched s (now clock s).1.
Proof. split; [apply now_board|]. unfold now. by destruct (clock (s_world s)). Qed.

Lemma untouched_trans s1 s2 s3 : untouched s1 s2 → untouched s2 s3 → untouched s1 s3.
Proof. intros [Hb1 Hr1] [Hb2 Hr2]. split; congruence. Qed.

Lemma router_requests c r s : s_requests (router c r s).1 = s_requests s.
Proof.
  rewrite router_run. destruct (negb _); [done|]. case_bool_decide; [done|]. destruct (chi_find _ _ _) as [i id| |]; [|done..].
  destruct (routes !! i) as [[[m p] e]|]; [|done]. by destruct (http _ _ _ _ _ _ _).
Qed.

Lemma RateLimit_chain rpm c r s :
  let '(s', rs) := RateLimit clock rpm router c r s in
  routed_as c r s s' rs ∨ (untouched s s' ∧ rs = tooManyRequests).
Proof.
  unfold RateLimit. pose proof (now_untouched s) as Hn1. destruct (now clock s) as [s1 t]. cbn [fst] in Hn1.
  destruct (getLimiter _ _ _ _) as [m0 p].
  pose proof (now_untouched s1) as Hn2. destruct (now clock s1) as [s2 t']. cbn [fst] in Hn2.
  destruct (Allow _ _ _) as [m ok]. set (s3 := Server _ m _ _).
  assert (untouched s s3) as Hn3 by (eapply untouched_trans; [exact Hn1|exact Hn2]).
  destruct ok; [|by right]. destruct (router c r s3) as [s' rs] eqn:E. left. exists s3. rewrite E. done.
Qed.

(** The answers to a token that is no good. *)
Definition bad_token : list string :=
  ["invalid authorization header"; "invalid token"; "invalid token claims"; "invalid token subject"].

Lemma JWT_chain secret rpm c r s :
  ctx_userID c = None →
  let '(s', rs) := JWT clock secret (RateLimit clock rpm router) c r s in
  (∃ c', identity secret r (ctx_userID c') ∧ ctx_request_id c' = ctx_request_id c ∧ routed_as c' r s s' rs) ∨
  (untouched s s' ∧ (rs = tooManyRequests ∨
     (Header_Get (r_Header r) "Authorization" ≠ "" ∧ ∃ msg, msg ∈ bad_token ∧ rs = unauthorized msg))).
Proof.
  intros Hc. unfold JWT. case_bool_decide as Hauth.
  { pose proof (RateLimit_chain rpm c r s) as Hr. destruct (RateLimit _ _ _ _ _ _) as [s' rs].
    destruct Hr as [Hr|[? ?]]; [left; exists c; split; [by left|done]|by right; auto]. }
  assert (∀ s1 msg, untouched s s1 → msg ∈ bad_token → untouched s s1 ∧ (unauthorized msg = tooManyRequests ∨
     (Header_Get (r_Header r) "Authorization" ≠ "" ∧ ∃ m, m ∈ bad_token ∧ unauthorized msg = unauthorized m)))
    as Hbad by eauto 6.
  destruct (CutPrefix _ _) as [raw|] eqn:Hcut; [|right; apply Hbad; [done|set_solver]].
  pose proof (now_untouched s) as Hn. destruct (now clock s) as [s1 t]. cbn [fst] in Hn.
  destruct (jwt_Parse _ _ _) as [tok|] eqn:Hp; [|right; apply Hbad; [done|set_solver]].
  destruct (tok_Valid tok) eqn:Hv; cbn [negb]; [|right; apply Hbad; [done|set_solver]].
  destruct (GetSubject tok) as [sub|] eqn:Hsub; [|right; apply Hbad; [done|set_solver]].
  destruct (uuid_Parse sub) as [u|] eqn:Hu; [|right; apply Hbad; [done|set_solver]].
  pose proof (RateLimit_chain rpm (ContextWithUserID c u) r s1) as Hr.
  destruct (RateLimit _ _ _ _ _ _) as [s' rs]. destruct Hr as [(s2 & Hs2 & Hr & ->)|[Hs' ->]].
  - left. exists (ContextWithUserID c u). split; [|split; [done|]].
    + right. exists u. split; [done|]. exists raw, (time_Unix t), tok, sub. by apply CutPrefix_Some in Hcut.
    + exists s2. split; [by eapply untouched_trans|done].
  - right. split; [by eapply untouched_trans|by left].
Qed.

(** The counter of a finished request. *)
Definition counted (r : http_request) (rs : http_response) (m : gmap (string * string * string) N)
    : gmap (string * string * string) N :=
  let path := if bool_decide (rs_Pattern rs ≠ "") then rs_Pattern rs else r_Path r in
  partial_alter (λ n, Some (1 + default 0 n)%N) (method_name (r_Method r), path, fmt_d (rs_Status rs)) m.

(** What chi says of a route: the pattern of the table, the mount's where the
    mounted router has no route or no method for the request, nothing where no
    pattern matched; the counter then takes the path as it is. *)
Definition pattern_of (r : http_request) : string :=
  if negb (chi_method (r_Method r)) then ""
  else if bool_decide (r_Path r = "/metrics") then "/metrics"
  else match chi_find mounted (r_Method r) (r_Path r) with
  | Found i _ => match mounted !! i with Some (_, p) => p | None => mount_pattern (r_Path r) end
  | _ => mount_pattern (r_Path r)
  end.

Lemma router_pattern c r s : rs_Pattern (router c r s).2 = pattern_of r.
Proof.
  rewrite router_run. unfold pattern_of, mounted. destruct (negb _); [done|]. case_bool_decide; [done|].
  fold mounted. destruct (chi_find _ _ _) as [i id| |]; [|done..]. unfold mounted. rewrite list_lookup_fmap.
  destruct (routes !! i) as [[[m p] e]|]; [|done]. cbn. by destruct (http _ _ _ _ _ _ _).
Qed.

(** C18: what a request comes to, through the whole chain. Unless no request id
    can be generated, it is answered under its own id or a new one, and counted
    once, under its method, its route's pattern and the status it is answered:
    where the router answers, the pattern is that of the route, /metrics, or
    below /api/v1 where nothing matches the mount's; where there is none, and
    for a request that a middleware turned away, the path itself is counted;
    and its answer is the router's, for the user its token authenticates or for
    nobody if it has none, or it is turned away by the limiter, or for a token
    that is no good, in both cases with the board untouched. *)
Theorem serve_http_chain secret rpm r s :
  let '(s', rs) := serve_http secret rpm Background r s in
  (untouched s s' ∧ rs = http_Error (Text "internal server error") 500) ∨
  ∃ id rs0, rs = with_header requestIDHeader id rs0 ∧
    (Header_Get (r_Header r) requestIDHeader ≠ "" → id = Header_Get (r_Header r) requestIDHeader) ∧
    s_requests s' = counted r rs (s_requests s) ∧
    ((∃ c s1, identity secret r (ctx_userID c) ∧ ctx_request_id c = Some id ∧ board_at s1 = board_at s ∧
        rs0 = (router c r s1).2 ∧ rs_Pattern rs = pattern_of r ∧ board_at s' = board_at (router c r s1).1) ∨
     (board_at s' = board_at s ∧ rs_Pattern rs = "" ∧ (rs0 = tooManyRequests ∨
        (Header_Get (r_Header r) "Authorization" ≠ "" ∧ ∃ msg, msg ∈ bad_token ∧ rs0 = unauthorized msg)))).
Proof.
  unfold serve_http. set (next := Metrics _ _).
  assert (∀ id s1, untouched s s1 →
    let '(s', rs0) := next (Ctx None (Some id)) r s1 in
    s_requests s' = counted r rs0 (s_requests s) ∧
    ((∃ c s2, identity secret r (ctx_userID c) ∧ ctx_request_id c = Some id ∧ board_at s2 = board_at s ∧
        rs0 = (router c r s2).2 ∧ rs_Pattern rs0 = pattern_of r ∧ board_at s' = board_at (router c r s2).1) ∨
     (board_at s' = board_at s ∧ rs_Pattern rs0 = "" ∧ (rs0 = tooManyRequests ∨
        (Header_Get (r_Header r) "Authorization" ≠ "" ∧ ∃ msg, msg ∈ bad_token ∧ rs0 = unauthorized msg))))) as Hgo.
  { intros id s1 Hs1. unfold next, Metrics. pose proof (now_untouched s1) as Hn1.
    destruct (now clock s1) as [s2 t]. cbn [fst] in Hn1.
    pose proof (JWT_chain secret rpm (Ctx None (Some id)) r s2 eq_refl) as Hj.
    destruct (JWT _ _ _ _ _ _) as [s3 rs]. pose proof (now_untouched s3) as [Hb3 Hr3].
    destruct (now clock s3) as [s4 t']. cbn [fst] in Hb3, Hr3.
    assert (untouched s s2) as Hs2 by by eapply untouched_trans.
    destruct Hj as [(c & Hid & Hrid & s5 & Hs5 & Hr & ->)|[Hs3 Hrs]].
    - destruct (untouched_trans _ _ _ Hs2 Hs5) as [Hb5 Hq5], Hr as [Hb Hq]. split.
      + unfold counted. cbn [s_requests]. rewrite Hr3, Hq, router_requests, Hq5. done.
      + left. exists c, s5. split_and!; [done..|apply router_pattern|]. unfold board_at in *. cbn [s_world]. congruence.
    - destruct (untouched_trans _ _ _ Hs2 Hs3) as [Hb Hq]. split.
      + unfold counted. cbn [s_requests]. by rewrite Hr3, Hq.
      + right. split; [unfold board_at in *; cbn [s_world]; congruence|]. split; [|done].
        by destruct Hrs as [->|(_ & msg & _ & ->)]. }
  unfold RequestID. cbn [ctx_userID Background]. case_bool_decide as Hgiven.
  - destruct (newV7 (s_world s)) as [w x] eqn:Hv. pose proof (newV7_quiet (s_world s)) as Hq. rewrite Hv in Hq.
    assert (untouched s (put_world s w)) as Hu by (split; [apply Hq|done]).
    destruct x as [id|err]; [|by left]. specialize (Hgo (uuid_String id) _ Hu).
    destruct (next _ _ _) as [s' rs0]. right. exists (uuid_String id), rs0. destruct Hgo. by split_and!.
  - assert (untouched s s) as Hu by done. specialize (Hgo (Header_Get (r_Header r) requestIDHeader) s Hu).
    destruct (next _ _ _) as [s' rs0]. right. eexists _, rs0. destruct Hgo. by split_and!.
Qed.

(** no sequence of HTTP requests, authenticated or not, well-formed or
    not, interleaved with failures, breaks the board's soundness. *)
Theorem server_sound secret rpm s0 s :
  sound (board_at s0) →
  rtc (λ s s', ∃ r, s' = (serve_http secret rpm Background r s).1) s0 s →
  sound (board_at s).
Proof.
  intros Hs. induction 1 as [|s0 s1 s2 [r ->] _ IH]; [done|]. apply IH. clear IH.
  pose proof (serve_http_confined secret rpm) as Hc.
  destruct (Hc Background r s0) as (c' & [->|(e & id & q & w & _ & Hw & ->)] & _); [done|].
  rewrite <-Hw in Hs. destruct (serve_simulates a q w) as [->|Hev]; [done|by eapply sound_evolves].
Qed.

End server.

(** ** Logging in and using the token *)
Section tokens.
Context {W : Type} `{!UuidLib} `{!UuidLibSpec} `{!JwtLib} `{!JwtLibSpec} `{!RateLib}.
Context `{!Backend W} `{!BackendSpec W} (clock : W → W * time).
Context (s : AuthSvc.Service W) `{!AuthSvc.ServiceSpec s}.

(** C19: the token that Login returns opens the door: until it expires, a
    request that presents it as a bearer token is passed on with the identity
    of the user who logged in, whatever the context said before; it expires the
    configured time after the login read the clock. *)
Theorem Login_JWT email password w0 w1 token :
  AuthSvc.Login s email password w0 = (w1, Ok token) →
  ∃ u issued, (∃ w, Now (AuthSvc.runtime s) w = (w1, Ok issued)) ∧
    b_users (board_of w0) !! User_ID u = Some u ∧ same_email (User_Email u) email ∧
    ∀ next c r (st : server W), Header_Get (r_Header r) "Authorization" = "Bearer " +:+ token →
      time_Unix (now clock st).2 < time_Unix (time_Add issued (AuthSvc.expiry s)) →
      JWT clock (AuthSvc.secret s) next c r st =
        next (ContextWithUserID c (User_ID u)) r (now clock st).1.
Proof.
  intros Hl. destruct (AuthSvc.Login_token _ _ _ _ _ _ Hl) as (_ & w & u & issued & _ & Hnow & Hu & He & _ & Hs).
  exists u, issued. split; [by exists w|]. do 2 (split; [done|]). intros next c r st Hh Ht. unfold JWT.
  rewrite Hh, CutPrefix_app. rewrite bool_decide_false by done.
  destruct (now clock st) as [st' t]. cbn [fst snd] in Ht |- *.
  rewrite (jwt_roundtrip _ _ _ _ (keyfunc (AuthSvc.secret s)) Hs eq_refl Ht).
  cbn [negb tok_Valid GetSubject claim_sub]. by rewrite uuid_Parse_String.
Qed.

End tokens.
