(* ===== verification/Registry.v ===== *)
(** * Registry: internal/metrics/prometheus.go, the collectors

    The two collectors the program registers, and what the middleware records
    in them: the series of a server are those of the collectors, and counter
    and histogram agree. What the library does with a recorded number (buckets,
    the page that is scraped) is outside. *)
From Stdlib Require Import QArith.
From S2P Require Import Prelude Go GoStrings Uuid TaskService AuthService AnalyticsService System Api Http Middleware.
From S2P Require Import Server.

Open Scope Z_scope.

(** ** The collectors *)

Record CounterVec : Type := MkCounterVec { cv_Name : string; cv_Help : string; cv_labels : list string }.
Record HistogramVec : Type := MkHistogramVec {
  hv_Name : string; hv_Help : string; hv_Buckets : list Q; hv_labels : list string
}.

Definition RequestsTotal : CounterVec :=
  MkCounterVec "http_requests_total" "Total number of HTTP requests." ["method"; "path"; "status"].

(** The buckets are the library's default ones. *)
Definition RequestDuration (DefBuckets : list Q) : HistogramVec :=
  MkHistogramVec "http_request_duration_seconds" "HTTP request latency." DefBuckets ["method"; "path"].

(** [WithLabelValues]: the label pairs of a series; a wrong number of values is
    a panic. *)
Definition WithLabelValues (labels values : list string) : option (list (string * string)) :=
  if bool_decide (length labels = length values) then Some (zip labels values) else None.

(** ** What a server has recorded *)
Section recorded.
Context `{!RateLib} {W : Type}.

Abbreviation series := (string * string * string)%type (only parsing).

(** Requests of a method and a path, over all statuses. *)
Definition on_route (meth path : string) (k : series) : bool := bool_decide (k.1 = (meth, path)).
Definition total (meth path : string) (m : gmap series N) : N :=
  map_fold (λ k n acc, if on_route meth path k then (n + acc)%N else acc) 0%N m.

(** Durations observed for them. *)
Definition observed (meth path : string) (l : list (string * string * Z)) : nat :=
  length (filter (λ o, o.1 = (meth, path)) l).

(** The samples of the counter under their labels. *)
Definition samples (s : server W) : list (option (list (string * string)) * N) :=
  (λ kn : series * N, (WithLabelValues (cv_labels RequestsTotal) [kn.1.1.1; kn.1.1.2; kn.1.2], kn.2)) <$>
    map_to_list (s_requests s).

Definition agree (s : server W) : Prop :=
  ∀ meth path, total meth path (s_requests s) = N.of_nat (observed meth path (s_durations s)).

Lemma total_insert meth path k n m :
  m !! k = None → total meth path (<[k := n]> m) = ((if on_route meth path k then n else 0) + total meth path m)%N.
Proof.
  intros Hk. unfold total. rewrite map_fold_insert_L; [by destruct (on_route _ _ _)| |done].
  intros j1 j2 z1 z2 y _ _ _. cbv beta. destruct (on_route meth path j1), (on_route meth path j2); lia.
Qed.

Lemma total_count meth path k m :
  total meth path (partial_alter (λ n, Some (1 + default 0 n)%N) k m) =
    ((if on_route meth path k then 1 else 0) + total meth path m)%N.
Proof.
  assert (partial_alter (λ n, Some (1 + default 0 n)%N) k m = <[k := (1 + default 0 (m !! k))%N]> (delete k m)) as ->.
  { apply map_eq. intros j. destruct (decide (j = k)) as [->|Hne].
    - by rewrite lookup_partial_alter_eq, lookup_insert_eq.
    - by rewrite lookup_partial_alter_ne, lookup_insert_ne, lookup_delete_ne. }
  rewrite total_insert by apply lookup_delete_eq.
  destruct (m !! k) as [n|] eqn:Hk; cbn [default from_option id].
  - rewrite <-(insert_delete_id m k n Hk) at 2. rewrite total_insert by apply lookup_delete_eq.
    destruct (on_route _ _ _); lia.
  - rewrite delete_id by done. by destruct (on_route _ _ _).
Qed.

Lemma observed_app meth path l o :
  observed meth path (l ++ [o]) = (observed meth path l + (if bool_decide (o.1 = (meth, path)) then 1 else 0))%nat.
Proof. unfold observed. rewrite filter_app, length_app, filter_cons. by do 2 case_decide. Qed.
End recorded.

(** ** The chain of middlewares *)
Section chain.
Context {W : Type} `{!UuidLib} `{!CacheCodec} `{!JwtLib} `{!OapiRuntime} `{!RateLib} `{!Chi}.
Context (clock : W → W * time) (newV7 : comp W uuid) (metrics_page : server W → http_response).
Context (a : App (W := W)) (an : AnalyticsSvc.Service W) (secret : string) (rpm : Z).

(** Handlers that leave the collectors alone. *)
Definition records (s : server W) : gmap (string * string * string) N * list (string * string * Z) :=
  (s_requests s, s_durations s).
Definition unrecorded (next : http_call (server W)) : Prop := ∀ c r s, records (next c r s).1 = records s.

Lemma now_records s : records (now clock s).1 = records s.
Proof. unfold now. by destruct (clock (s_world s)). Qed.

Lemma router_unrecorded : unrecorded (router metrics_page a an).
Proof.
  intros c r s. rewrite router_run. destruct (negb _); [done|]. case_bool_decide; [done|]. destruct (chi_find _ _ _) as [i id| |]; [|done..].
  destruct (routes !! i) as [[[m p] e]|]; [|done]. by destruct (http _ _ _ _ _ _ _).
Qed.

Lemma RateLimit_unrecorded next : unrecorded next → unrecorded (RateLimit clock rpm next).
Proof.
  intros Hn c r s. unfold RateLimit. pose proof (now_records s) as Hn1. destruct (now clock s) as [s1 t].
  destruct (getLimiter _ _ _ _) as [m0 p].
  pose proof (now_records s1) as Hn2. destruct (now clock s1) as [s2 t']. cbn [fst] in Hn1, Hn2.
  destruct (Allow _ _ _) as [m [|]]; [rewrite Hn|]; unfold records in *; cbn; congruence.
Qed.

Lemma JWT_unrecorded next : unrecorded next → unrecorded (JWT clock secret next).
Proof.
  intros Hn c r s. unfold JWT. pose proof (now_records s) as Hn1. destruct (now clock s) as [s1 t].
  repeat case_match; rewrite ?Hn; done.
Qed.

Lemma Metrics_agree next c r s : unrecorded next → agree s → agree (Metrics clock next c r s).1.
Proof.
  intros Hn Hs. unfold Metrics. pose proof (now_records s) as Hn1. destruct (now clock s) as [s1 t].
  specialize (Hn c r s1). destruct (next c r s1) as [s2 rs].
  pose proof (now_records s2) as Hn3. destruct (now clock s2) as [s3 t']. cbn [fst] in *.
  rewrite Hn, Hn1 in Hn3. injection Hn3 as Hr Hd. intros meth path. cbn [s_requests s_durations].
  rewrite total_count, observed_app, Hr, Hd, (Hs meth path). unfold on_route. cbn [fst].
  case_bool_decide; lia.
Qed.

Lemma serve_http_agree r s :
  agree s → agree (serve_http clock newV7 metrics_page a an secret rpm Background r s).1.
Proof.
  intros Hs. unfold serve_http, RequestID. cbn [ctx_userID Background].
  set (next := Metrics _ _).
  assert (∀ c s1, records s1 = records s → agree (next c r s1).1) as Hnext.
  { intros c s1 [= Hr Hd]. apply Metrics_agree; [apply JWT_unrecorded, RateLimit_unrecorded, router_unrecorded|].
    intros meth path. rewrite Hr, Hd. apply Hs. }
  case_bool_decide.
  - destruct (newV7 (s_world s)) as [w [id|e]]; [|exact Hs].
    specialize (Hnext (Ctx None (Some (uuid_String id))) (put_world s w) eq_refl).
    by destruct (next _ r _).
  - specialize (Hnext (Ctx None (Some (Header_Get (r_Header r) requestIDHeader))) s eq_refl).
    by destruct (next _ r s).
Qed.

(** What happens to a server: a request, or a tick of the limiter's cleanup. *)
Inductive happening : Type := Request (r : http_request) | Tick (t : time).

Definition happen (s : server W) (h : happening) : server W :=
  match h with
  | Request r => (serve_http clock newV7 metrics_page a an secret rpm Background r s).1
  | Tick t => Server (s_world s) (cleanup t (s_limiters s)) (s_requests s) (s_durations s)
  end.

(** the two collectors agree. Whatever requests a new server has served,
    with ticks of the cleanup among them, every series of its counter has
    exactly the labels the collector declares, and for every method and route
    the counter, summed over the statuses, is the number of durations the
    histogram has observed. *)
Theorem collectors_agree w hs meth path :
  let s := foldl happen (Server w no_limiters ∅ []) hs in
  total meth path (s_requests s) = N.of_nat (observed meth path (s_durations s)) ∧
  Forall (λ x : option (list (string * string)) * N, (λ l, l.*1) <$> x.1 = Some (cv_labels RequestsTotal)) (samples s).
Proof.
  assert (∀ s, agree s → agree (foldl happen s hs)) as Hall.
  { induction hs as [|h hs IH]; intros s Hs; [done|]. apply IH. destruct h; [by apply serve_http_agree|done]. }
  intros s. split; [by apply Hall|]. apply Forall_fmap, Forall_true. intros [[[m p] st] n]. reflexivity.
Qed.

End chain.
