(* ===== verification/Schema.v ===== *)
(** * Schema: the tables are well typed

    The migrations declare types, keys and references; here they are one
    predicate on tables, and every statement the program sends keeps it: in
    every state that requests in flight can reach, with failures and lost
    answers, whatever the services ask for. *)
From S2P Require Import Prelude Go Uuid Domain Ports MySQLEngine MySQLStorage.
From S2P Require Import MySQLSpec TaskCache TaskService TeamService AuthService CommentService AnalyticsService.
From S2P Require Import System Interleave Concurrent World RoundTrips Api Handler Http Middleware Server.

(** ** The schema *)
Section schema.
Context `{!MySQLEngine} `{!MySQLEngineSpec}.

(** What a DATETIME(3) and a DATE column hold. *)
Definition stored_time (t : time) : Prop := ∃ t0, datetime3 t0 = Some t.
Definition stored_date (t : time) : Prop := ∃ t0, date_of t0 = Some t.

Record user_typed (r : users_rec) : Prop := UserTyped {
  ut_email : varchar 255 (u_email r) = true;
  ut_name : varchar 255 (u_name r) = true;
  ut_password : varchar 255 (u_password r) = true;
  ut_created : stored_time (u_created_at r)
}.

Record team_typed (t : tables) (r : teams_rec) : Prop := TeamTyped {
  mt_name : varchar 255 (m_name r) = true;
  mt_creator : is_Some (users t !! m_created_by r);
  mt_created : stored_time (m_created_at r)
}.

Definition member_typed (t : tables) (k : uuid * uuid) (role : string) : Prop :=
  role ∈ RoleValues ∧ is_Some (teams t !! k.1) ∧ is_Some (users t !! k.2).

Record task_typed (t : tables) (r : tasks_rec) : Prop := TaskTyped {
  kt_title : varchar 500 (k_title r) = true;
  kt_description : text_opt (k_description r) = true;
  kt_status : k_status r ∈ StatusValues;
  kt_priority : k_priority r ∈ PriorityValues;
  kt_due : ∀ d, k_due_date r = Some d → stored_date d;
  kt_created : stored_time (k_created_at r);
  kt_updated : stored_time (k_updated_at r);
  kt_team : is_Some (teams t !! k_team_id r);
  kt_creator : is_Some (users t !! k_created_by r);
  kt_assignee : ∀ a, k_assignee_id r = Some a → is_Some (users t !! a)
}.

Record history_typed (t : tables) (r : history_rec) : Prop := HistoryTyped {
  ht_field : varchar 100 (h_field r) = true;
  ht_old : text_opt (h_old_value r) = true;
  ht_new : text_opt (h_new_value r) = true;
  ht_changed : stored_time (h_changed_at r);
  ht_task : is_Some (tasks t !! h_task_id r);
  ht_user : is_Some (users t !! h_changed_by r)
}.

Record comment_typed (t : tables) (r : comments_rec) : Prop := CommentTyped {
  ct_body : text (c_body r) = true;
  ct_created : stored_time (c_created_at r);
  ct_task : is_Some (tasks t !! c_task_id r);
  ct_user : is_Some (users t !! c_user_id r)
}.

(** AUTO_INCREMENT ids, in order of insertion. *)
Definition ids_typed (ids : list Z) : Prop := StronglySorted Z.lt ids ∧ Forall (Z.lt 0) ids.

Record well_typed (t : tables) : Prop := WellTyped {
  wt_users id r : users t !! id = Some r → user_typed r;
  wt_emails i j u v : users t !! i = Some u → users t !! j = Some v →
    collate (u_email u) = collate (u_email v) → i = j;
  wt_teams id r : teams t !! id = Some r → team_typed t r;
  wt_members k role : team_members t !! k = Some role → member_typed t k role;
  wt_tasks id r : tasks t !! id = Some r → task_typed t r;
  wt_history ir : ir ∈ task_history t → history_typed t ir.2;
  wt_history_ids : ids_typed (task_history t).*1;
  wt_comments ir : ir ∈ task_comments t → comment_typed t ir.2;
  wt_comment_ids : ids_typed (task_comments t).*1
}.

Definition empty_tables : tables := Tables ∅ ∅ ∅ ∅ [] [].

Lemma empty_typed : well_typed empty_tables.
Proof.
  split; cbn; try (by intros ? ? ?%lookup_empty_Some); try (by intros ? ?%elem_of_nil); [|by repeat constructor..].
  by intros i j u v ?%lookup_empty_Some.
Qed.

(** ** Rows stay typed when tables grow *)

(** Every key that is referenced is still there. *)
Record extends (t t' : tables) : Prop := Extends {
  ext_users i : is_Some (users t !! i) → is_Some (users t' !! i);
  ext_teams i : is_Some (teams t !! i) → is_Some (teams t' !! i);
  ext_tasks i : is_Some (tasks t !! i) → is_Some (tasks t' !! i)
}.

Lemma team_typed_ext t t' r : extends t t' → team_typed t r → team_typed t' r.
Proof. intros He []. split; [done|by apply He|done]. Qed.
Lemma member_typed_ext t t' k role : extends t t' → member_typed t k role → member_typed t' k role.
Proof. intros He (? & ? & ?). split; [done|]. split; by apply He. Qed.
Lemma task_typed_ext t t' r : extends t t' → task_typed t r → task_typed t' r.
Proof. intros He []. split; try done; [by apply He|by apply He|intros a ?; apply He; auto]. Qed.
Lemma history_typed_ext t t' r : extends t t' → history_typed t r → history_typed t' r.
Proof. intros He []. split; try done; by apply He. Qed.
Lemma comment_typed_ext t t' r : extends t t' → comment_typed t r → comment_typed t' r.
Proof. intros He []. split; try done; by apply He. Qed.

(** Tables that grew are well typed if their new rows are. *)
Lemma well_typed_grown t t' :
  well_typed t → extends t t' →
  (∀ id r, users t' !! id = Some r → users t !! id = Some r ∨ user_typed r) →
  (∀ i j u v, users t' !! i = Some u → users t' !! j = Some v →
    collate (u_email u) = collate (u_email v) → i = j) →
  (∀ id r, teams t' !! id = Some r → teams t !! id = Some r ∨ team_typed t' r) →
  (∀ k r, team_members t' !! k = Some r → team_members t !! k = Some r ∨ member_typed t' k r) →
  (∀ id r, tasks t' !! id = Some r → tasks t !! id = Some r ∨ task_typed t' r) →
  (∀ ir, ir ∈ task_history t' → ir ∈ task_history t ∨ history_typed t' ir.2) →
  ids_typed (task_history t').*1 →
  (∀ ir, ir ∈ task_comments t' → ir ∈ task_comments t ∨ comment_typed t' ir.2) →
  ids_typed (task_comments t').*1 →
  well_typed t'.
Proof.
  intros Hw He Hu Hn Hm Hk Ht Hh Hhi Hc Hci. split; try done.
  - intros id r Hr. destruct (Hu _ _ Hr) as [?|?]; [by eapply wt_users|done].
  - intros id r Hr. destruct (Hm _ _ Hr) as [?|?]; [|done]. eapply team_typed_ext; [done|by eapply wt_teams].
  - intros k r Hr. destruct (Hk _ _ Hr) as [?|?]; [|done]. eapply member_typed_ext; [done|by eapply wt_members].
  - intros id r Hr. destruct (Ht _ _ Hr) as [?|?]; [|done]. eapply task_typed_ext; [done|by eapply wt_tasks].
  - intros ir Hr. destruct (Hh _ Hr) as [?|?]; [|done]. eapply history_typed_ext; [done|by eapply wt_history].
  - intros ir Hr. destruct (Hc _ Hr) as [?|?]; [|done]. eapply comment_typed_ext; [done|by eapply wt_comments].
Qed.

(** ** Statements *)

Lemma require_Ok b n u : require b n = Ok u → b = true.
Proof. by destruct b. Qed.
Lemma convert_Ok {A} (o : option A) n a : convert o n = Ok a → o = Some a.
Proof. destruct o; by intros [= ->]. Qed.
Lemma convert_opt_Ok {A} (f : A → option A) o n r :
  convert_opt f o n = Ok r → ∀ a, r = Some a → ∃ a0, o = Some a0 ∧ f a0 = Some a.
Proof.
  destruct o as [a0|]; cbn; [|by intros [= <-]]. destruct (f a0) as [a1|] eqn:E; cbn; [|done].
  intros [= <-] a [= <-]. eauto.
Qed.

(** [sql H as P] takes the next guard of a statement that succeeded. *)
Ltac sql H x Hx :=
  apply result_bind_Ok in H as (x & Hx & H);
  first [apply require_Ok in Hx | apply convert_Ok in Hx | idtac]; cbv beta in H.

(** A statement keeps the tables well typed when it succeeds. *)
Definition types {A} (f : db → result (db * A)) : Prop :=
  ∀ d d' a, well_typed (d_tables d) → f d = Ok (d', a) → well_typed (d_tables d').

Ltac by_ext := split; cbn; intros ?; rewrite ?lookup_insert_is_Some'; tauto.
Ltac same_rows Hw := by (intros; auto; (left || eapply wt_emails || eapply wt_history_ids || eapply wt_comment_ids); eauto).

Lemma insert_user_types id email name password created : types (insert_user id email name password created).
Proof.
  intros d d' a Hw Hf. unfold insert_user in Hf.
  sql Hf u1 Hc. sql Hf c Ht. sql Hf u2 Hn. sql Hf u3 He. injection Hf as <- _.
  apply andb_true_iff in Hc as [[? ?]%andb_true_iff ?]. apply bool_decide_eq_true in Hn, He.
  eapply well_typed_grown; [exact Hw|by_ext|..]; cbn; try same_rows Hw.
  - intros i r [[<- <-]|[_ ?]]%lookup_insert_Some; [right|by left]. split; try done. by exists created.
  - intros i j u v [[<- <-]|[? Hi]]%lookup_insert_Some [[<- <-]|[? Hj]]%lookup_insert_Some; cbn; [done|..].
    + intros Heq. by destruct (map_Forall_lookup_1 _ _ _ _ He Hj).
    + intros Heq. by destruct (map_Forall_lookup_1 _ _ _ _ He Hi).
    + by eapply wt_emails.
Qed.

Lemma insert_team_types id name creator created : types (insert_team id name creator created).
Proof.
  intros d d' a Hw Hf. unfold insert_team in Hf.
  sql Hf u1 Hc. sql Hf c Ht. sql Hf u2 Hn. sql Hf u3 Hu. injection Hf as <- _.
  apply bool_decide_eq_true in Hn, Hu.
  eapply well_typed_grown; [exact Hw|by_ext|..]; cbn; try same_rows Hw.
  intros i r [[<- <-]|[_ ?]]%lookup_insert_Some; [right|by left]. split; [done|done|by exists created].
Qed.

Lemma put_member_types d tm u r role :
  well_typed (d_tables d) → enum_of RoleValues role = Some r →
  is_Some (teams (d_tables d) !! tm) → is_Some (users (d_tables d) !! u) →
  well_typed (set_team_members (<[(tm, u) := r]>) (d_tables d)).
Proof.
  intros Hw Hr Ht Hu.
  eapply well_typed_grown; [exact Hw|by_ext|..]; cbn; try same_rows Hw.
  intros k x [[<- <-]|[_ ?]]%lookup_insert_Some; [right|by left].
  split; [by eapply enum_of_sound|done].
Qed.

Lemma insert_member_types tm u role : types (insert_member tm u role).
Proof.
  intros d d' a Hw Hf. unfold insert_member in Hf.
  sql Hf r Hr. sql Hf u1 Hn. sql Hf u2 Ht. sql Hf u3 Hu. injection Hf as <- _.
  apply bool_decide_eq_true in Ht, Hu. by eapply put_member_types.
Qed.

Lemma upsert_member_types tm u role : types (upsert_member tm u role).
Proof.
  intros d d' a Hw Hf. unfold upsert_member in Hf.
  sql Hf r Hr. sql Hf u2 Ht. sql Hf u3 Hu. injection Hf as <- _.
  apply bool_decide_eq_true in Ht, Hu. by eapply put_member_types.
Qed.

(** What the columns of a task accept. *)
Lemma convert_fields_typed r r' t :
  convert_fields r = Ok r' → stored_time (k_created_at r) →
  is_Some (teams t !! k_team_id r) → is_Some (users t !! k_created_by r) →
  references_user t (k_assignee_id r) = true → task_typed t r'.
Proof.
  unfold convert_fields. intros Hf Hcr Hteam Hcreator Ha.
  sql Hf u1 Hc. sql Hf st Hs. sql Hf pr Hp. sql Hf due Hd. sql Hf up Hu. injection Hf as <-.
  apply andb_true_iff in Hc as [? ?]. split; cbn; try done.
  - by eapply enum_of_sound.
  - by eapply enum_of_sound.
  - intros x ->. destruct (convert_opt_Ok _ _ _ _ Hd _ eq_refl) as (x0 & _ & ?). by exists x0.
  - by exists (k_updated_at r).
  - intros x Hx. rewrite Hx in Ha. by apply bool_decide_eq_true in Ha.
Qed.

Lemma convert_fields_refs r r' : convert_fields r = Ok r' →
  k_team_id r' = k_team_id r ∧ k_created_by r' = k_created_by r ∧ k_assignee_id r' = k_assignee_id r ∧
  k_created_at r' = k_created_at r.
Proof.
  unfold convert_fields. intros Hf.
  sql Hf u1 Hc. sql Hf st Hs. sql Hf pr Hp. sql Hf due Hd. sql Hf up Hu. by injection Hf as <-.
Qed.

Lemma set_task_typed d id r :
  well_typed (d_tables d) → task_typed (d_tables d) r →
  well_typed (set_tasks (<[id := r]>) (d_tables d)).
Proof.
  intros Hw Hr. assert (extends (d_tables d) (set_tasks (<[id := r]>) (d_tables d))) as He by by_ext.
  eapply well_typed_grown; [exact Hw|exact He|..]; cbn; try same_rows Hw.
  intros i x [[<- <-]|[_ ?]]%lookup_insert_Some; [right|by left]. by eapply task_typed_ext.
Qed.

Lemma insert_task_types id r : types (insert_task id r).
Proof.
  intros d d' a Hw Hf. unfold insert_task, convert_task in Hf.
  sql Hf r2 Hc. sql Hf u1 Hn. sql Hf u2 Ht. sql Hf u3 Hu. sql Hf u4 Ha. injection Hf as <- _.
  apply bool_decide_eq_true in Ht, Hu. sql Hc r1 Hf. sql Hc cr Hcr. injection Hc as <-. cbn in *.
  apply set_task_typed; [done|]. destruct (convert_fields_refs _ _ Hf) as (Et & Ec & Ea & Ed).
  rewrite Et in Ht. rewrite Ec in Hu. rewrite Ea in Ha. rewrite Ed in Hcr.
  unfold convert_fields in Hf.
  sql Hf v1 Hc. sql Hf st Hs. sql Hf pr Hp. sql Hf due Hd. sql Hf up Hup. injection Hf as <-. cbn in *.
  apply (convert_fields_typed (TasksRec (k_team_id r) (k_created_by r) (k_assignee_id r) (k_title r)
    (k_description r) (k_status r) (k_priority r) (k_due_date r) cr (k_updated_at r))); cbn; try done.
  - unfold convert_fields. cbn. by rewrite Hc, Hs; cbn; rewrite Hp; cbn; rewrite Hd; cbn; rewrite Hup.
  - by exists (k_created_at r).
Qed.

Lemma update_task_row_types id r : types (update_task_row id r).
Proof.
  intros d d' a Hw Hf. unfold update_task_row in Hf.
  destruct (tasks (d_tables d) !! id) as [old|] eqn:Ho; [|by injection Hf as <- _].
  sql Hf r1 Hc. sql Hf u1 Ha. injection Hf as <- _.
  destruct (wt_tasks _ Hw _ _ Ho). apply set_task_typed; [done|].
  destruct (convert_fields_refs _ _ Hc) as (_ & _ & Ea & _). rewrite Ea in Ha.
  by eapply convert_fields_typed.
Qed.

(** A fresh id goes at the end. *)
Lemma ids_typed_snoc seq ids : ids_typed ids → ids_typed (ids ++ [next_id seq ids]).
Proof.
  intros [Hs Hp]. assert (∀ i, i ∈ ids → i < next_id seq ids) as Hlt by apply next_id_fresh.
  assert (0 < next_id seq ids) as Hpos.
  { unfold next_id. clear. induction ids as [|i ids IH]; cbn; lia. }
  split; [|by apply Forall_app; split; [|constructor]].
  revert Hlt. generalize (next_id seq ids) as n. intros n Hlt. clear Hp Hpos.
  induction Hs as [|i ids Hs IH Hi]; [by repeat constructor|].
  cbn. constructor; [apply IH; intros j ?; apply Hlt; by right|].
  apply Forall_app. split; [done|]. constructor; [apply Hlt; by left|constructor].
Qed.

Lemma insert_history_types h : types (insert_history h).
Proof.
  intros d d' a Hw Hf. unfold insert_history in Hf.
  sql Hf r Hc. sql Hf u1 Ht. sql Hf u2 Hu. injection Hf as <- _. apply bool_decide_eq_true in Ht, Hu.
  unfold convert_history in Hc. sql Hc u3 Hl. sql Hc c Hch. injection Hc as <-. cbn in Ht, Hu.
  apply andb_true_iff in Hl as [[? ?]%andb_true_iff ?].
  eapply well_typed_grown; [exact Hw|by_ext|..]; cbn; try same_rows Hw.
  - intros ir [Hin|Hin]%elem_of_app; [by left|right]. apply list_elem_of_singleton in Hin as ->.
    split; cbn; try done. by exists (TH_ChangedAt h).
  - rewrite fmap_app. by apply ids_typed_snoc, wt_history_ids.
Qed.

Lemma insert_comment_types tk u body : types (insert_comment tk u body).
Proof.
  intros d d' a Hw Hf. unfold insert_comment in Hf.
  sql Hf u3 Hl. sql Hf u1 Ht. sql Hf u2 Hu. injection Hf as <- _. apply bool_decide_eq_true in Ht, Hu.
  eapply well_typed_grown; [exact Hw|by_ext|..]; cbn; try same_rows Hw.
  - intros ir [Hin|Hin]%elem_of_app; [by left|right]. apply list_elem_of_singleton in Hin as ->.
    split; try done. apply current_timestamp3_stored.
  - rewrite fmap_app. by apply ids_typed_snoc, wt_comment_ids.
Qed.

(** ** Round trips and transactions *)

Definition typed (d : db) : Prop := well_typed (d_tables d).

Lemma statement_typed {A} (f : db → result (db * A)) : types f → preserves typed (statement f).
Proof.
  intros Hf d Hd. unfold statement. destruct (next_fault d) as [flt d1] eqn:E.
  apply next_fault_spec in E as (Ht & _). unfold typed in *. rewrite <-Ht in Hd.
  destruct flt; [destruct (f d1) as [[d2 a]|e] eqn:Ef|done|destruct (f d1) as [[d2 a]|e] eqn:Ef];
    try done; by eapply Hf.
Qed.

Lemma query_typed {A} (f : db → result A) : preserves typed (query f).
Proof. apply statement_typed. intros d d' a Hw Hf. sql Hf x Hx. by injection Hf as <- _. Qed.

Lemma transaction_typed {A} begin commit (body : comp db A) :
  preserves typed body → preserves typed (transaction begin commit body).
Proof.
  intros Hb d Hd. unfold transaction.
  assert (typed (on_err begin (statement (λ d, Ok (d, tt))) d).1) as H1.
  { apply preserves_on_err; [|done]. apply statement_typed. by intros d0 d' a Hw [= <- _]. }
  destruct (on_err _ _ d) as [d1 [u|e]]; [|done]. cbn [fst] in H1.
  specialize (Hb d1 H1). destruct (body d1) as [d2 [a|e]]; [|done]. cbn [fst] in Hb.
  destruct (next_fault d2) as [flt d3] eqn:E. apply next_fault_spec in E as (Ht & _).
  unfold typed in *. destruct flt; cbn; by rewrite ?Ht.
Qed.

End schema.

(** [typed_call] shows that a storage method keeps the tables typed, down to
    its statements. *)
Ltac typed_call :=
  repeat first
    [ apply query_typed | apply transaction_typed | apply statement_typed
    | progress (unfold GetContext, SelectContext)
    | apply preserves_on_err | apply preserves_ret | apply preserves_lift
    | apply preserves_bind; [|intros ?]
    | apply insert_user_types | apply insert_team_types | apply insert_member_types
    | apply upsert_member_types | apply insert_task_types | apply update_task_row_types
    | apply insert_history_types | apply insert_comment_types ].

Section storages.
Context `{!MySQLEngine} `{!MySQLEngineSpec}.

Lemma SaveUser_typed u : preserves typed (SaveUser u).
Proof. unfold SaveUser. typed_call. Qed.
Lemma GetByEmail_typed e : preserves typed (GetByEmail e).
Proof. unfold GetByEmail. typed_call. Qed.
Lemma GetByID_typed id : preserves typed (GetByID id).
Proof. unfold GetByID. typed_call. Qed.
Lemma CreateTeamWithOwner_typed t o : preserves typed (CreateTeamWithOwner t o).
Proof. unfold CreateTeamWithOwner. typed_call. Qed.
Lemma GetTeamsByUser_typed u : preserves typed (GetTeamsByUser u).
Proof. unfold GetTeamsByUser. typed_call. Qed.
Lemma GetTeamByID_typed id : preserves typed (GetTeamByID id).
Proof. unfold GetTeamByID. typed_call. Qed.
Lemma SaveMember_typed tm u r : preserves typed (SaveMember tm u r).
Proof. unfold SaveMember. typed_call. Qed.
Lemma GetMemberRole_typed tm u : preserves typed (GetMemberRole tm u).
Proof. unfold GetMemberRole. typed_call. Qed.
Lemma SaveTask_typed t : preserves typed (SaveTask t).
Proof. unfold SaveTask. typed_call. Qed.
Lemma GetTaskByID_typed id : preserves typed (GetTaskByID id).
Proof. unfold GetTaskByID. typed_call. Qed.
Lemma insert_entries_typed hs : preserves typed (insert_entries hs).
Proof. induction hs as [|h hs IH]; cbn [insert_entries]; typed_call. exact IH. Qed.
Lemma UpdateTaskWithHistory_typed t hs : preserves typed (UpdateTaskWithHistory t hs).
Proof. unfold UpdateTaskWithHistory. typed_call. apply insert_entries_typed. Qed.
Lemma ListHistory_typed id : preserves typed (ListHistory id).
Proof. unfold ListHistory. typed_call. Qed.
Lemma SaveComment_typed c : preserves typed (SaveComment c).
Proof. unfold SaveComment. typed_call. Qed.
Lemma ListComments_typed id : preserves typed (ListComments id).
Proof. unfold ListComments. typed_call. Qed.

End storages.

(** ** The program *)

(** The board shows every column. *)
Lemma keyed_inj {A B} (f : uuid → A → B) (m m' : gmap uuid A) :
  (∀ i x y, f i x = f i y → x = y) → keyed f m = keyed f m' → m = m'.
Proof.
  intros Hf Hm. apply map_eq. intros i.
  assert (f i <$> m !! i = f i <$> m' !! i) as Hi by by rewrite <-!lookup_keyed, Hm.
  destruct (m !! i), (m' !! i); simplify_eq/=; [|done]. f_equal. by eapply Hf.
Qed.

#[local] Instance history_of_row_inj : Inj (=) (=) history_of_row.
Proof. intros [i []] [j []]. cbn. by intros [= -> -> -> -> -> -> ->]. Qed.
#[local] Instance comment_of_row_inj : Inj (=) (=) comment_of_row.
Proof. intros [i []] [j []]. cbn. by intros [= -> -> -> -> ->]. Qed.

Lemma board_of_tables_inj t t' : board_of_tables t = board_of_tables t' → t = t'.
Proof.
  destruct t as [us ts ms ks hs cs], t' as [us' ts' ms' ks' hs' cs']. unfold board_of_tables. cbn.
  intros [= Hu Ht Hm Hk Hh Hc].
  apply keyed_inj in Hu; [|by intros i [] [] [= -> -> -> ->]].
  apply keyed_inj in Ht; [|by intros i [] [] [= -> -> ->]].
  apply keyed_inj in Hk; [|by intros i [] [] [= -> -> -> -> -> -> -> -> -> ->]].
  apply (inj (fmap history_of_row)) in Hh. apply (inj (fmap comment_of_row)) in Hc. congruence.
Qed.

Section program.
Context {E : Type} `{!MySQLEngine} `{!MySQLEngineSpec} `{!RedisServer} (lib : EnvLib E).
Context `{!UuidLib} `{!CacheCodec} `{!JwtLib} (cfg : Config).

Definition world_typed (w : world E) : Prop := typed (w_db w).

Lemma on_db_typed {A} (m : comp db A) : preserves typed m → preserves world_typed (on_db m).
Proof. intros Hm w Hw. unfold on_db. specialize (Hm _ Hw). by destruct (m (w_db w)). Qed.
Lemma on_redis_typed {A} (m : comp redis A) : preserves world_typed (on_redis (E := E) m).
Proof. intros w Hw. unfold on_redis. by destruct (m (w_redis w)). Qed.
Lemma on_env_typed {A} (m : comp E A) : preserves world_typed (on_env m).
Proof. intros w Hw. unfold on_env. by destruct (m (w_env w)). Qed.

(** It is a property of the board. *)
Lemma typed_board (w w' : world E) : board_of w' = board_of w → world_typed w → world_typed w'.
Proof. unfold world_typed, typed. intros Hb. by rewrite (board_of_tables_inj _ _ Hb). Qed.

Ltac typed_tree :=
  repeat first
    [ progress intros | apply all_calls_bind | apply all_calls_answering | apply all_calls_when_err
    | apply all_calls_ignoring | apply all_calls_trying | done
    | apply all_calls_call; first [apply on_redis_typed | apply on_env_typed | apply on_db_typed]
    | apply SaveUser_typed | apply GetByEmail_typed | apply GetByID_typed | apply CreateTeamWithOwner_typed
    | apply GetTeamsByUser_typed | apply GetTeamByID_typed | apply SaveMember_typed | apply GetMemberRole_typed
    | apply SaveTask_typed | apply GetTaskByID_typed | apply UpdateTaskWithHistory_typed
    | apply ListHistory_typed | apply SaveComment_typed | apply ListComments_typed
    | progress typed_call | case_match ].

Lemma thread_typed q : all_calls world_typed (thread_of ListTasks_calls (World.New lib cfg) q).
Proof.
  destruct q; unfold thread_of, Register_tree, Login_tree, CreateTeam_tree, ListForUser_tree, Invite_tree,
    CreateTask_tree, ListTasks_tree, list_from_storage_tree, UpdateTask_tree, History_tree, AddComment_tree,
    ListComments_tree, check_member_tree, ListTasks_calls; typed_tree.
Qed.

(** C8: the schema holds. However the requests in flight interleave, whatever they ask
    for and whichever calls fail, the tables stay as the migrations declare
    them: every stored status, priority and role is a member of its ENUM, every
    text within its column, every date and time one that its column holds,
    every reference resolved, every email unique under the collation, and the
    numbered rows in order under distinct ids. *)
Theorem tables_typed (w : world E) c :
  well_typed (d_tables (w_db w)) →
  rtc (steps (thread_of ListTasks_calls (World.New lib cfg))) (w, []) c →
  well_typed (d_tables (w_db c.1)).
Proof.
  intros Hw Hrun.
  exact (steps_preserve _ world_typed _ _ thread_typed (λ w w' Hb _, typed_board w w' Hb) Hrun Hw (Forall_nil_2 _)).
Qed.

(** A request on its own. *)
Lemma serve_typed q : ∀ w, world_typed w → world_typed (serve (World.New lib cfg) q w).
Proof.
  intros w Hw. destruct (thread_of_serve ListTasks_calls (World.New lib cfg) q w ListTasks_calls_tree)
    as [Hr <-]. rewrite <-Hr. by apply (run_preserves _ _ (thread_typed q)).
Qed.

(** Any sequence of HTTP requests, through the whole chain, keeps the schema. *)
Theorem server_typed `{!UuidLibSpec} `{!CacheCodecSpec} `{!OapiRuntime} `{!RateLib} `{!Chi}
    `{!RedisServerSpec} `{!EnvLibSpec lib} (metrics_page : server (world E) → http_response)
    secret rpm (s0 s : server (world E)) :
  AmbientSpec (wall_clock lib) (new_uuid lib) →
  well_typed (d_tables (w_db (s_world s0))) →
  rtc (λ s s', ∃ r, s' = (serve_http (wall_clock lib) (new_uuid lib) metrics_page (World.New lib cfg)
    analyticsSvc secret rpm Background r s).1) s0 s →
  well_typed (d_tables (w_db (s_world s))).
Proof.
  intros Hamb Hs Hrun. revert Hs. induction Hrun as [|s0 s1 s2 [r ->] _ IH]; [done|]. intros Hs. apply IH.
  clear IH. destruct (serve_http_confined (wall_clock lib) (new_uuid lib) metrics_page (World.New lib cfg)
    analyticsSvc secret rpm Background r s0) as (c' & [Hb|(e & id & q & w & _ & Hw & Hb)] & _).
  - by eapply (typed_board (s_world s0)).
  - eapply (typed_board (serve (World.New lib cfg) q w)); [exact Hb|].
    by apply serve_typed, (typed_board (s_world s0)).
Qed.

End program.
