(* ===== verification/Listing.v ===== *)
(** * Listing: the answers of the whole service

    The services, the MySQL storage, the Redis cache and encoding/json
    together: what the columns hold is text and dates that JSON writes and
    reads back, so a list from the cache is the list of the database. *)
From S2P Require Import Prelude Go GoStrings Uuid Domain Ports TimeText Json TaskService CacheJson TaskTheorems.
From S2P Require Import AuthService MySQLEngine MySQLStorage MySQLSpec TaskCache System World Schema.

(** The columns of the migrations, DEFAULT CHARSET=utf8mb4, hold text in UTF-8,
    and a DATE or DATETIME, which the driver reads in UTC as the DSN asks, a
    year of four digits. *)
Class ColumnLaws `{MySQLEngine} : Prop := {
  varchar_utf8 n s : varchar n s = true → valid_utf8 s = true;
  text_utf8 s : text s = true → valid_utf8 s = true;
  datetime3_printable t t' : datetime3 t = Some t' → printable t' = true;
  date_printable t t' : date_of t = Some t' → printable t' = true
}.

#[export] Existing Instance json_codec.
#[export] Existing Instance json_codec_spec.

Section listing.
Context `{!MySQLEngine} `{!MySQLEngineSpec} `{!ColumnLaws}.

Lemma enum_utf8 vs s : forallb valid_utf8 vs = true → s ∈ vs → valid_utf8 s = true.
Proof. rewrite forallb_forall. intros Hvs Hs. by apply Hvs, list_elem_of_In. Qed.

(** A row of the tasks table survives JSON. *)
Lemma task_typed_faithful t id r : task_typed t r → task_faithful (task_of id r) = true.
Proof.
  intros [? ? ? ? Hdue]. unfold task_faithful. cbn [task_of Task_Title Task_Description Task_Status Task_Priority
    Task_DueDate Task_CreatedAt Task_UpdatedAt]. rewrite !andb_true_iff.
  assert (∀ x, stored_time x → printable x = true) as Htime by (intros x [x0 Hx]; by eapply datetime3_printable).
  split_and!; [by eapply varchar_utf8| |by apply (enum_utf8 StatusValues)|by apply (enum_utf8 PriorityValues)| |by apply Htime..].
  - unfold text_opt in *. destruct (k_description r); [by apply text_utf8|done].
  - destruct (k_due_date r) as [d|]; [|done]. destruct (Hdue d eq_refl) as [d0 Hd]. by eapply date_printable.
Qed.

(** So do the pages of a table with as many rows as COUNT can count. *)
Lemma listing_faithful d f l :
  well_typed (d_tables d) → int64_range (Z.of_nat (size (tasks (d_tables d)))) →
  listing (W := db) (board_of d) f l → faithful l = true.
Proof.
  intros Hw Hn [p Hl]. destruct l as [ts n]. cbn [CL_Tasks CL_Total] in Hl.
  assert (ts = (page_of p f (board_of d)).1) as -> by exact (f_equal fst Hl).
  assert (n = Z.of_nat (size (matching f (board_of d)))) as -> by exact (f_equal snd Hl). clear Hl.
  unfold page_of. cbn [fst]. unfold faithful. apply andb_true_iff. cbn [CL_Tasks CL_Total]. split.
  - apply forallb_forall. intros t (id & _ & Hid)%list_elem_of_In%list_elem_of_omap.
    unfold matching in Hid. apply map_lookup_filter_Some in Hid as [Hid _]. cbn in Hid.
    rewrite lookup_keyed in Hid. destruct (tasks (d_tables d) !! id) as [r|] eqn:Hr; [|done].
    injection Hid as <-. by eapply task_typed_faithful, wt_tasks.
  - apply bool_decide_eq_true. unfold int64_range in *.
    assert (size (matching f (board_of d)) ≤ size (tasks (d_tables d)))%nat; [|lia].
    unfold matching. etrans; [apply map_size_filter|]. cbn. by rewrite keyed_size.
Qed.

Context {E : Type} `{!RedisServer} `{!RedisServerSpec} (lib : EnvLib E) `{!EnvLibSpec lib}.
Context `{!UuidLib} `{!UuidLibSpec} `{!JwtLib} (cfg : Config).
#[local] Abbreviation app := (World.New lib cfg).

(** Runs without failures keep both the cache and the tables right. *)
Lemma healthy_runs_typed (w0 w : world E) :
  coherent w0 → well_typed (d_tables (w_db w0)) → rtc (healthy_runs app) w0 w →
  coherent w ∧ well_typed (d_tables (w_db w)).
Proof.
  intros Hco Hty Hrun. revert Hco Hty. induction Hrun as [|w0 w1 w2 Hrun _ IH]; [done|]. intros Hco Hty.
  apply IH; destruct Hrun as [q w0 Hw Hp|w0 w1 Hb Hc].
  - by apply (serve_coherent app (AppSpec0 := app_spec lib cfg)).
  - by eapply coherent_cache.
  - by apply (serve_typed lib cfg q w0).
  - by eapply (typed_board w0 w1).
Qed.

(** C14: what List answers is what the database holds. After any run without
    failures of the whole service - services, MySQL storage, Redis cache and
    encoding/json - whose list requests do not filter by the word "all", a list
    that does not either, and whose page starts at an offset that an int holds,
    comes back to a member, and only to a member, as a page of tasks and the
    total that the tables hold at that moment, newest first with tasks of the
    same time in an order of the server's, whether the database or the JSON of
    the cache was read. *)
Theorem list_current (w0 w : world E) caller filter w' res :
  coherent w0 → well_typed (d_tables (w_db w0)) → rtc (healthy_runs app) w0 w →
  proper_status filter → page_ok (normalize filter) →
  int64_range (Z.of_nat (size (tasks (d_tables (w_db w))))) →
  TaskService.List (taskSvc app) caller filter w = (w', Ok res) →
  (∃ tm, TF_TeamID filter = Some tm ∧ is_member (board_of w) tm caller) ∧
  (∃ plan, res = page_of plan (normalize filter) (board_of w)) ∧ board_of w' = board_of w.
Proof.
  intros Hco Hty Hrun Hs Hp Hn Hr. destruct (healthy_runs_typed w0 w Hco Hty Hrun) as [Hcow Htyw].
  exact (List_correct (taskSvc app) caller filter w w' res Hs Hp Hcow
    (λ l, listing_faithful (w_db w) _ l Htyw Hn) Hr).
Qed.

End listing.
