(* ===== verification/ConcreteServer.v ===== *)
(** * ConcreteServer: the HTTP side of the concrete world

    The openapi types, a parameter binder, a router and a token bucket: the
    libraries the HTTP layer is a function of, and the whole program over the
    small world of Concrete; and a request that the rate limiter admits late. *)
From Stdlib Require Import QArith Qminmax Lqa.
From S2P Require Import RateBound Prelude Go GoStrings TimeText Json JsonDec Uuid Domain Ports AuthService World Concrete.
From S2P Require Import AnalyticsService Api Handler Http Middleware Server Listing.
Open Scope Z_scope.

#[export] Existing Instances Canonical.lib Canonical.lib_spec.

(** The columns of the concrete database. *)
#[export] Instance columns : ColumnLaws.
Proof.
  split; cbn.
  - by intros n s [_ Hs]%andb_true_iff.
  - by intros s [_ Hs]%andb_true_iff.
  - intros t t'. apply in_range_printable.
  - intros t t'. apply in_range_printable.
Qed.

(** ** Bodies and parameters *)

(** A date of a text "2006-01-02", and an email with an "@". *)
Definition parse_date (s : string) : option time :=
  '(y, s) ← num 4 0 9999 s; s ← eat "-" s; '(m, s) ← num 2 1 12 s; s ← eat "-" s; '(d, s) ← num 2 1 (daysIn m y) s;
  match s with "" => Some (Time (days_of_civil (y, m, d) * ns_per_day) 0) | _ => None end.

Definition parse_email (s : string) : option string :=
  match IndexByte s "@" with Some _ => Some s | None => None end.

(** [s] up to the first [c], and what follows it. *)
Fixpoint split_at (c : ascii) (s : string) : string * option string :=
  match s with
  | EmptyString => ("", None)
  | String d s =>
      if bool_decide (d = c) then ("", Some s)
      else let '(a, b) := split_at c s in (String d a, b)
  end.

(** All the pieces of [s] between occurrences of [c]. *)
Fixpoint split_all (fuel : nat) (c : ascii) (s : string) : list string :=
  match fuel, split_at c s with
  | S fuel, (a, Some b) => a :: split_all fuel c b
  | _, (a, _) => [a]
  end.
Definition split (c : ascii) (s : string) : list string := split_all (String.length s) c s.

Definition query_value (name query : string) : option string :=
  list_find (λ kv : string * option string, kv.1 = name) (split_at "=" <$> split "&" query)
    ≫= λ ikv, ikv.2.2.

Definition bind {A} (parse : string → result A) (name query : string) : result (option A) :=
  match query_value name query with
  | None => Ok None
  | Some v => a ← parse v; Ok (Some a)
  end.

Definition parse_int (s : string) : result Z :=
  if str_forall is_digit s && bool_decide (s ≠ "") then Ok (Z.of_N (undec 0 s))
  else Err (OtherError "invalid number").

#[export] Instance oapi : OapiRuntime := {|
  Email_UnmarshalJSON j := match j with JString raw => parse_email (unquote raw) | _ => None end;
  Date_UnmarshalJSON j := match j with JString raw => parse_date (unquote raw) | _ => None end;
  Date_MarshalJSON t := Some (enc_string (Format_date t));
  decode_error _ := OtherError "invalid JSON";
  bind_path_UUID := Canonical.parse;
  bind_query_UUID := bind Canonical.parse;
  bind_query_string := bind Ok;
  bind_query_int := bind parse_int
|}.

(** ** Routes *)

(** A pattern's segments against a path's: the value of [{id}]. *)
Fixpoint match_path (pattern path : list string) (id : string) : option string :=
  match pattern, path with
  | [], [] => Some id
  | p :: pattern, s :: path =>
      if bool_decide (p = "{id}") then match_path pattern path s
      else if bool_decide (p = s) then match_path pattern path id else None
  | _, _ => None
  end.

Definition find_route (table : list (method * string)) (m : method) (path : string) : routed :=
  let hit (k : nat * (method * string)) :=
    (λ id, (k.1, k.2.1, id)) <$> match_path (split "/" k.2.2) (split "/" path) "" in
  match omap hit (imap pair table) with
  | [] => NotFound
  | hits => match list_find (λ h : nat * method * string, h.1.2 = m) hits with
            | Some (_, (i, _, id)) => Found i id
            | None => MethodNotAllowed
            end
  end.

#[export] Instance chi : Chi := {|
  chi_find := find_route;
  chi_method m := match m with
    | MethodOther name => bool_decide (name ∈ ["CONNECT"; "DELETE"; "HEAD"; "OPTIONS"; "PATCH"; "TRACE"])
    | _ => true
    end
|}.

(** ** A token bucket *)

(** Rate, burst, and the tokens left at the last event. *)
Record bucket : Type := Bucket { b_rate : Q; b_burst : Z; b_last : option (Q * time) }.

Definition bucket_tokens (l : bucket) (t : time) : Q :=
  match b_last l with
  | None => inject_Z (b_burst l)
  | Some (x, s) => Qmin (inject_Z (b_burst l)) (x + b_rate l * seconds s t)
  end.

#[export] Instance rate_lib : RateLib := {|
  NewLimiter r b := Bucket r b None;
  AllowN l t :=
    let x := bucket_tokens l t in
    let ok := Qle_bool 1 x in
    (Bucket (b_rate l) (b_burst l) (Some (Qred (x - if ok then 1 else 0), t)), ok);
  TokensAt := bucket_tokens;
  Limit := b_rate;
  Burst := b_burst
|}.

#[export] Instance rate_lib_spec : RateLibSpec.
Proof.
  split.
  - done.
  - intros r b t. reflexivity.
  - done.
  - intros l t _ Hr Hok%Qle_bool_iff. cbn [TokensAt Limit rate_lib] in *.
    assert (0 <= b_rate l * nanosecond)%Q by (apply Qmult_le_0_compat; [done|discriminate]). lra.
  - intros l t _ Hno. apply Qnot_le_lt. intros Hle%Qle_bool_iff. unfold TokensAt, AllowN in *. cbn in *. congruence.
  - intros l t u _ _. unfold TokensAt, AllowN, Burst, Limit; cbn [rate_lib fst snd].
    unfold bucket_tokens at 1. cbn [b_last b_burst b_rate]. by rewrite Qred_correct.
Qed.

(** A request that takes its limiter, waits for more than ten minutes while the
    cleanup evicts it, and then calls it, is admitted besides the one request of
    the minute that the new limiter admits. *)
Definition minutes (n : Z) : time := Time (t_ns noon + n * 60 * 1000000000) 0.

Theorem late_request :
  admitted 1 "key" [Call 1 (minutes 12); Call 0 (minutes 12)]
    (run_trace 1 [Get 0 "key" (minutes 0); Tick (minutes 11); Get 1 "key" (minutes 12)] nobody) = 2.
Proof. vm_compute. reflexivity. Qed.

(** ** The whole program *)

#[export] Instance ambient_spec {E} (lib : EnvLib E) :
  AmbientSpec (wall_clock lib) (new_uuid lib).
Proof.
  split; intros w.
  - unfold wall_clock. by destruct (env_Now lib (w_env w)).
  - unfold new_uuid, on_env. by destruct (env_NewV7 lib (w_env w)).
Qed.

Definition metrics_page (s : server (world env)) : http_response := WriteHeader 200.

Definition program : http_call (server (world env)) :=
  serve_http (wall_clock env_lib) (new_uuid env_lib) metrics_page app analyticsSvc
    (JWTSecret config) 60.

Definition small_server : server (world env) := Server small_world no_limiters ∅ [].

Definition request_to (m : method) (path query : string) (headers : gmap string string)
    (body : string) : http_request :=
  HttpRequest m path query headers body "10.0.0.1:5000".

(** Alice's token. *)
Definition alice_token : string := ser (Canonical.to_string alice, 1700003700, JWTSecret config).
Definition as_alice : gmap string string := {[ "Authorization" := "Bearer " +:+ alice_token ]}.

Definition answer (r : http_request) : server (world env) * http_response :=
  program Background r small_server.
