(* ===== verification/Seed.v ===== *)
(** * Seed: scripts/seed/main.go

    The tool that fills a running service with sample data over HTTP, as a
    program against a transport: its requests in order, what it takes from the
    answers, where it gives up, and what it reports. The network and the texts
    of errors are parameters. A network that records what it is asked shows what
    the service reads of it. *)
From S2P Require Import Prelude Go GoStrings Uuid Base64 Json JsonDec Api Wire.
Open Scope Z_scope.

(** The texts of errors: [err.Error()], the error of a value that encoding/json
    does not encode, and of a text that it does not decode. *)
Class SeedTexts : Type := {
  Error : error → string;
  encode_error : v1.json → error;
  json_error : string → error
}.

(** [claims["sub"].(string)] of a JSON object, and nothing of anything else. *)
Definition claims_sub (b : string) : string :=
  match parse b with
  | Some (JObject claims) =>
      if forallb (λ kv, any_ok kv.2) claims then
        match last (filter (λ kv, unquote kv.1 = "sub") claims) with
        | Some (_, JString raw) => unquote raw
        | _ => ""
        end
      else ""
  | _ => ""
  end.

(** The network: whether a request can be built, and its exchange. *)
Record Transport (W : Type) : Type := MkTransport {
  NewRequest : method → string → option error;
  Do : method → string → gmap string string → string → comp W http_response
}.
Arguments MkTransport {W}.
Arguments NewRequest {W}.
Arguments Do {W}.

(** A line of the log that reports a status, and any other. *)
Inductive entry : Type :=
  | Reported (what : string) (code : Z)
  | Logged (text : string).

Section seed.
Context {W : Type} `{!UuidLib} `{!OapiRuntime} `{!SeedTexts} (net : Transport W) (baseURL : string).

(** The tool: the network's state and its log; [Err] is [log.Fatalf]. *)
Definition tool (A : Type) : Type := comp (W * list entry) A.

Definition log_entry (e : entry) : tool unit := λ s, ((s.1, s.2 ++ [e]), Ok tt).
Definition Fatalf {A} (msg : string) (err : error) : tool A := throw (wrap msg err).
Definition exchange {A} (m : comp W A) : tool A := λ s,
  let '(w, r) := m s.1 in ((w, s.2), r).

Definition method_text (m : method) : string :=
  match m with MethodGet => "GET" | MethodPost => "POST" | MethodPut => "PUT" | MethodOther n => n end.

Definition execRequest (m : method) (path token : string) (b : option (gmap string string))
    : tool http_response :=
  let text := match json_Marshal_map <$> b with Some (Ok text) => text | _ => "" end in
  match NewRequest net m (baseURL +:+ path) with
  | Some err => Fatalf "build request" err
  | None =>
      let h := match b with Some _ => {[ "Content-Type" := "application/json" ]} | None => ∅ end in
      let h := if bool_decide (token = "") then h else <[ "Authorization" := "Bearer " +:+ token ]> h in
      on_err (wrap (method_text m +:+ " " +:+ path)) (exchange (Do net m (baseURL +:+ path) h text))
  end.

Definition do (m : method) (path token : string) (b : gmap string string) : tool Z :=
  resp ← execRequest m path token (Some b);
  mret (rs_Status resp).

(** [json.Unmarshal(raw, out)] into a struct of one string field. *)
Definition Unmarshal_field (field raw : string) : result string :=
  match j ← parse raw; dec_struct [(field, in_field id (λ x _, x) dec_string)] "" j with
  | Some v => Ok v
  | None => Err (json_error raw)
  end.

(** The answer's field [field]; the quotation of the answer is left out of the
    fatal messages. *)
Definition doJSON (m : method) (path token : string) (b : gmap string string) (field : string)
    : tool string :=
  resp ← execRequest m path token (Some b);
  if 300 <=? rs_Status resp
  then throw (OtherError (method_text m +:+ " " +:+ path +:+ " → " +:+ fmt_d (rs_Status resp)))
  else match Unmarshal_field field (body_text Error encode_error (rs_Body resp)) with
       | Ok v => mret v
       | Err err => Fatalf ("decode response from " +:+ method_text m +:+ " " +:+ path) err
       end.

Definition tail (s : string) (n : nat) : string :=
  if (String.length s <=? n)%nat then s else drop_str (String.length s - n) s.

Definition register (email name password : string) : tool unit :=
  code ← do MethodPost "/register" "" {[ "email" := email; "name" := name; "password" := password ]};
  (if bool_decide (code ≠ 204) && bool_decide (code ≠ 201) && bool_decide (code ≠ 200) &&
      bool_decide (code ≠ 409)
   then Fatalf ("register " +:+ email) (OtherError ("unexpected status " +:+ fmt_d code))
   else mret tt) ;;
  log_entry (Reported ("register " +:+ email) code).

Definition login (email password : string) : tool string :=
  token ← doJSON MethodPost "/login" "" {[ "email" := email; "password" := password ]} "token";
  log_entry (Logged ("login " +:+ email +:+ " → token …" +:+ tail token 8)) ;;
  mret token.

Definition createTeam (token name : string) : tool string :=
  id ← doJSON MethodPost "/teams" token {[ "name" := name ]} "id";
  log_entry (Logged ("createTeam " +:+ quoted name +:+ " → " +:+ id)) ;;
  mret id.

Definition invite (token teamID targetUserID : string) : tool unit :=
  code ← do MethodPost ("/teams/" +:+ teamID +:+ "/invite") token {[ "user_id" := targetUserID ]};
  log_entry (Reported ("invite user " +:+ targetUserID +:+ " to team " +:+ teamID) code).

Definition createTask (token teamID title desc priority dueDate : string) : tool string :=
  let body : gmap string string :=
    {[ "team_id" := teamID; "title" := title; "priority" := priority; "due_date" := dueDate ]} in
  let body := if bool_decide (desc = "") then body else <[ "description" := desc ]> body in
  id ← doJSON MethodPost "/tasks" token body "id";
  log_entry (Logged ("createTask " +:+ quoted title +:+ " → " +:+ id)) ;;
  mret id.

Definition updateTask (token taskID : string) (fields : gmap string string) : tool unit :=
  code ← do MethodPut ("/tasks/" +:+ taskID) token fields;
  log_entry (Reported ("updateTask " +:+ taskID) code).

Definition addComment (token taskID text : string) : tool unit :=
  code ← do MethodPost ("/tasks/" +:+ taskID +:+ "/comments") token {[ "body" := text ]};
  log_entry (Reported ("addComment on " +:+ taskID) code).

Definition jwtSub (token : string) : string :=
  match SplitN token "." 3 with
  | [_; payload; _] =>
      match DecodeString payload with
      | None => ""
      | Some b => claims_sub b
      end
  | _ => ""
  end.

(** What the run ends with: the tokens, the teams and the tasks it prints. *)
Record Seeded : Type := MkSeeded {
  sd_tokens : list string; sd_teams : list string; sd_tasks : list string
}.

Definition main : tool Seeded :=
  register "alice@example.com" "Alice" "secret123" ;;
  register "bob@example.com" "Bob" "secret123" ;;
  register "carol@example.com" "Carol" "secret123" ;;

  aliceToken ← login "alice@example.com" "secret123";
  bobToken ← login "bob@example.com" "secret123";
  carolToken ← login "carol@example.com" "secret123";

  let bobID := jwtSub bobToken in
  let carolID := jwtSub carolToken in

  backendID ← createTeam aliceToken "Backend Squad";
  frontendID ← createTeam bobToken "Frontend Guild";

  invite aliceToken backendID bobID ;;
  invite aliceToken backendID carolID ;;
  invite bobToken frontendID carolID ;;

  t1 ← createTask aliceToken backendID "Set up CI pipeline"
         "Configure GitHub Actions for lint, test, build" "high" "2026-07-15";
  t2 ← createTask aliceToken backendID "Design auth schema"
         "Users, sessions, refresh tokens" "medium" "2026-07-10";
  t3 ← createTask bobToken backendID "Write API docs"
         "Document all v1 endpoints in OpenAPI" "low" "2026-08-01";

  updateTask aliceToken t1 {[ "status" := "in_progress" ]} ;;
  updateTask aliceToken t2 {[ "status" := "done" ]} ;;

  addComment aliceToken t1 "Pipeline draft is ready, needs review." ;;
  addComment bobToken t1 "LGTM, merging once tests pass." ;;
  addComment aliceToken t2 "Went with UUIDs for user IDs." ;;

  t4 ← createTask bobToken frontendID "Scaffold React app" "Vite + TypeScript + Tailwind" "high"
         "2026-07-05";
  t5 ← createTask bobToken frontendID "Login page UI" "Email + password form, error states" "medium"
         "2026-07-12";
  t6 ← createTask carolToken frontendID "Dark mode support" "" "low" "2026-08-15";

  updateTask bobToken t4 {[ "status" := "done" ]} ;;
  updateTask bobToken t5 {[ "status" := "in_progress"; "priority" := "high" ]} ;;

  addComment carolToken t5 "Designs are in Figma, link in Notion." ;;
  addComment bobToken t6 "Can we use prefers-color-scheme for this?" ;;

  mret (MkSeeded [aliceToken; bobToken; carolToken] [backendID; frontendID] [t1; t2; t3; t4; t5; t6]).

End seed.

(** ** What the service reads of it *)

Section bodies.
Context `{!UuidLib} `{!UuidLibSpec} `{!OapiRuntime}.

(** A struct of the members a body has. *)
Lemma read_body {A} (zero : A) (fs : fields A) members a :
  written maxNestingDepth (JObject members) → dec_members fs zero members = Some a →
  json_Decode zero (dec_struct fs) (encode (JObject members)) = Ok a.
Proof.
  intros Hw Hd. unfold json_Decode, parse_first.
  pose proof (scan_encode _ _ Hw (S (2 * String.length (encode (JObject members)))) "" I) as Hs.
  rewrite str_app_nil_r in Hs. rewrite Hs by lia. cbn [mbind option_bind dec_struct]. by rewrite Hd.
Qed.

Lemma written_members d members :
  Forall (λ kv, str_forall plain kv.1 = true ∧ written 0 kv.2) members → (0 < d)%nat → written d (JObject members).
Proof.
  intros Hm Hd. apply (written_mono 1); [|lia]. constructor. eapply Forall_impl; [exact Hm|].
  intros kv [Hk Hv]. split; [by apply raw_ok_plain|done].
Qed.

Ltac body_written :=
  apply written_members; [|by apply Nat.ltb_lt];
  repeat (apply Forall_cons_2; [split; [done|]; first [apply written_enc_uuid | by apply written_enc_string]|]);
  apply Forall_nil_2.
Ltac body_member :=
  erewrite dec_members_field; [|reflexivity|first [by apply undoes_string | by apply undoes_uuid | eassumption]].

(** A pointer field of a value that is there. *)
Lemma read_ptr {A} (zero : A) (d : Dec A) j a cur :
  j ≠ JNull → (∀ c, d c j = Some a) → dec_ptr zero d cur j = Some (Some a).
Proof. intros Hj Ha. unfold dec_ptr. destruct j; [done|..]; by rewrite Ha. Qed.

Lemma undoes_date s day :
  Date_UnmarshalJSON (enc_string s) = Some day → undoes dec_Date (enc_string s) (v1.MkDate day).
Proof. intros Hs cur. unfold dec_Date. by rewrite Hs. Qed.

Ltac body_ptr :=
  erewrite dec_members_field;
    [|reflexivity|apply read_ptr; [done|first [by apply undoes_string | by apply undoes_date]]].

Lemma read_createTask (team : uuid) title desc priority due day :
  Forall (λ s, valid_utf8 s = true) [title; desc; priority; due] →
  Date_UnmarshalJSON (enc_string due) = Some day →
  ∀ body : gmap string string,
  body = {[ "team_id" := uuid_String team; "title" := title; "priority" := priority; "due_date" := due ]} →
  (json_Marshal_map (if bool_decide (desc = "") then body else <[ "description" := desc ]> body) ≫= decode_CreateTask) =
    Ok (v1.MkCreateTaskRequest None (if bool_decide (desc = "") then None else Some desc)
          (Some (v1.MkDate day)) (Some priority) team title).
Proof.
  intros Hutf Hday body ->. repeat (apply Forall_cons in Hutf as [? Hutf]). pose proof (uuid_String_utf8 team) as Hid.
  case_bool_decide.
  - apply (read_body _ _ [("due_date", enc_string due); ("priority", enc_string priority);
      ("team_id", enc_uuid team); ("title", enc_string title)]); [body_written|].
    body_ptr. body_ptr. by repeat body_member.
  - apply (read_body _ _ [("description", enc_string desc); ("due_date", enc_string due);
      ("priority", enc_string priority); ("team_id", enc_uuid team); ("title", enc_string title)]); [body_written|].
    body_ptr. body_ptr. body_ptr. by repeat body_member.
Qed.

(** *** A network that keeps what it was asked *)

Record sent : Type := Sent { s_Method : method; s_URL : string; s_Header : gmap string string; s_Body : string }.

Definition recording (answer : sent → result http_response) : Transport (list sent) :=
  MkTransport (λ _ _, None)
    (λ m url h text l, let r := Sent m url h text in (l ++ [r], answer r)).

Definition bearer (token : string) : gmap string string :=
  if bool_decide (token = "") then {[ "Content-Type" := "application/json" ]}
  else {[ "Authorization" := "Bearer " +:+ token; "Content-Type" := "application/json" ]}.

(** One request is sent, under the token, with a text that [decode] reads as
    [body]. *)
Definition asks {A B} (m : tool (W:=list sent) A) (me : method) (url token : string)
    (decode : string → result B) (body : B) : Prop :=
  ∃ text, (m ([], [])).1.1 = [Sent me url (bearer token) text] ∧ decode text = Ok body.

Section asked.
Context `{!SeedTexts} (answer : sent → result http_response) (base : string).

Lemma execRequest_sends m path token b l log :
  execRequest (recording answer) base m path token (Some b) (l, log) =
    let r := Sent m (base +:+ path) (bearer token)
               (match json_Marshal_map b with Ok text => text | Err _ => "" end) in
    ((l ++ [r], log), match answer r with
                      | Ok rs => Ok rs
                      | Err err => Err (wrap (method_text m +:+ " " +:+ path) err)
                      end).
Proof.
  unfold execRequest, recording. cbn [NewRequest Do]. unfold on_err, exchange. cbn [fst snd fmap option_fmap option_map].
  unfold bearer. case_bool_decide; cbn zeta; by destruct (answer _).
Qed.

Lemma do_asks {A B} m path token b (k : Z → tool (W:=list sent) A) (decode : string → result B) body :
  (json_Marshal_map b ≫= decode) = Ok body → (∀ code s, (k code s).1.1 = s.1) →
  asks (mbind k (do (recording answer) base m path token b)) m (base +:+ path) token decode body.
Proof.
  intros Hb Hk. eexists. split; [|exact Hb].
  unfold mbind, comp_bind, do, mbind, comp_bind. rewrite execRequest_sends. cbn zeta. cbn [app].
  destruct (answer _) as [rs|]; [exact (Hk _ _)|done].
Qed.

Lemma doJSON_asks {A B} m path token b field (k : string → tool (W:=list sent) A) (decode : string → result B) body :
  (json_Marshal_map b ≫= decode) = Ok body → (∀ v s, (k v s).1.1 = s.1) →
  asks (mbind k (doJSON (recording answer) base m path token b field)) m (base +:+ path) token decode body.
Proof.
  intros Hb Hk. eexists. split; [|exact Hb].
  unfold mbind, comp_bind, doJSON, mbind, comp_bind. rewrite execRequest_sends. cbn zeta. cbn [app].
  destruct (answer _) as [rs|]; [|done]. destruct (_ <=? _); [done|].
  destruct (Unmarshal_field _ _) as [v|]; [exact (Hk _ _)|done].
Qed.

(** C32: what the tool asks for is what the service reads. Each function of
    the tool sends one request, to its path and under its token, whose text the
    generated decoder of that operation reads as the body meant: for UTF-8
    texts, an email and a date that the openapi types accept, and identifiers
    in the text of a UUID; a task without a description is sent without one,
    and an update sends only its fields. *)
Theorem bodies_read email name password token (team task user : uuid) title desc priority due day status text :
  Forall (λ s, valid_utf8 s = true) [email; name; password; title; desc; priority; due; status; text] →
  Email_UnmarshalJSON (enc_string email) = Some email →
  Date_UnmarshalJSON (enc_string due) = Some day →
  let net := recording answer in
  asks (register net base email name password) MethodPost (base +:+ "/register") ""
    decode_Register (v1.MkRegisterRequest email name password) ∧
  asks (login net base email password) MethodPost (base +:+ "/login") ""
    decode_Login (v1.MkLoginRequest email password) ∧
  asks (createTeam net base token name) MethodPost (base +:+ "/teams") token
    decode_CreateTeam (v1.MkCreateTeamRequest name) ∧
  asks (invite net base token (uuid_String team) (uuid_String user)) MethodPost
    (base +:+ ("/teams/" +:+ uuid_String team +:+ "/invite")) token
    decode_Invite (v1.MkInviteRequest user) ∧
  asks (createTask net base token (uuid_String team) title desc priority due) MethodPost (base +:+ "/tasks") token
    decode_CreateTask (v1.MkCreateTaskRequest None (if bool_decide (desc = "") then None else Some desc)
      (Some (v1.MkDate day)) (Some priority) team title) ∧
  asks (updateTask net base token (uuid_String task) {[ "status" := status ]}) MethodPut
    (base +:+ ("/tasks/" +:+ uuid_String task)) token
    decode_UpdateTask (v1.MkUpdateTaskRequest None None None None (Some status) None) ∧
  asks (updateTask net base token (uuid_String task) {[ "status" := status; "priority" := priority ]}) MethodPut
    (base +:+ ("/tasks/" +:+ uuid_String task)) token
    decode_UpdateTask (v1.MkUpdateTaskRequest None None None (Some priority) (Some status) None) ∧
  asks (addComment net base token (uuid_String task) text) MethodPost
    (base +:+ ("/tasks/" +:+ uuid_String task +:+ "/comments")) token
    decode_AddComment (v1.MkAddCommentRequest text).
Proof.
  intros Hutf Hemail Hday net. do 9 (apply Forall_cons in Hutf as [? Hutf]).
  pose proof (uuid_String_utf8 user) as Hid.
  split_and!.
  - apply do_asks; [|by intros code s; repeat case_bool_decide].
    apply (read_body _ _ [("email", enc_string email); ("name", enc_string name); ("password", enc_string password)]);
      [body_written|by repeat body_member].
  - apply doJSON_asks; [|done].
    apply (read_body _ _ [("email", enc_string email); ("password", enc_string password)]);
      [body_written|by repeat body_member].
  - apply doJSON_asks; [|done]. apply (read_body _ _ [("name", enc_string name)]); [body_written|by repeat body_member].
  - apply do_asks; [|done]. apply (read_body _ _ [("user_id", enc_uuid user)]); [body_written|by repeat body_member].
  - apply doJSON_asks; [|done]. by apply (read_createTask team title desc priority due day); [repeat constructor| |].
  - apply do_asks; [|done]. apply (read_body _ _ [("status", enc_string status)]); [body_written|by body_ptr].
  - apply do_asks; [|done].
    apply (read_body _ _ [("priority", enc_string priority); ("status", enc_string status)]);
      [body_written|by body_ptr; body_ptr].
  - apply do_asks; [|done]. apply (read_body _ _ [("body", enc_string text)]); [body_written|by repeat body_member].
Qed.

End asked.
End bodies.
