(* ===== verification/SeedRun.v ===== *)
(** * SeedRun: the seed tool against the service

    The whole program end to end: the tool of Seed talks to the HTTP server of
    Server over the storages of World, in the concrete world of Concrete and
    ConcreteServer. Requests and answers are JSON texts, and tokens have the
    three parts of a JWT, in unpadded base64. *)
From stdpp Require Import sorting.
From S2P Require Import Prelude Go GoStrings Base64 Json JsonDec Uuid Domain Ports AuthService MySQLEngine MySQLSpec TaskCache World Concrete.
From S2P Require Import System AnalyticsService Api Handler Http Middleware Server ConcreteServer Seed.
Open Scope Z_scope.

#[export] Existing Instances Canonical.lib Canonical.lib_spec.

(** ** Tokens in three parts *)

Lemma SplitN_dot a b n :
  IndexByte a "." = None → SplitN (a +:+ String "." b) "." (S (S n)) = a :: SplitN b "." (S n).
Proof.
  intros Ha. assert (IndexByte (a +:+ String "." b) "." = Some (String.length a)) as Hi.
  { induction a as [|c a IH]; [done|]. rewrite str_app_cons. cbn in Ha |- *.
    case_bool_decide; [done|]. destruct (IndexByte a "."); [done|]. by rewrite IH. }
  cbn [SplitN]. rewrite Hi, take_str_app.
  replace (S (String.length a)) with (String.length (a +:+ ".")) by (rewrite str_length_app; cbn; lia).
  replace (a +:+ String "." b) with ((a +:+ ".") +:+ b) by by rewrite str_app_assoc.
  by rewrite drop_str_app.
Qed.

Definition token_of (header payload signature : string) : string :=
  EncodeToString header +:+ String "." (EncodeToString payload +:+ String "." (EncodeToString signature)).

Lemma token_parts h p s : SplitN (token_of h p s) "." 3 = [EncodeToString h; EncodeToString p; EncodeToString s].
Proof. unfold token_of. by rewrite !SplitN_dot by apply EncodeToString_dotless. Qed.

(** The registered claims that are used. *)
Definition enc_claims (c : string * Z) : json := JObject [("sub", enc_string c.1); ("exp", enc_int c.2)].
Definition dec_claims : Dec (string * Z) := dec_struct [
  ("sub", in_field fst (λ x c, (x, c.2)) dec_string); ("exp", in_field snd (λ x c, (c.1, x)) dec_int) ].

Lemma claims_roundtrip sub exp :
  valid_utf8 sub = true → int64_range exp →
  (j ← parse (encode (enc_claims (sub, exp))); dec_claims ("", 0) j) = Some (sub, exp).
Proof.
  intros Hs He. rewrite parse_encode.
  2: { apply (written_mono 1); [|by apply Nat.leb_le]. constructor.
       repeat (constructor; [split; [by apply raw_ok_plain|]|]); [by apply written_enc_string|
         constructor; apply number_ok_fmt_d|constructor]. }
  cbn [mbind option_bind]. unfold enc_claims, dec_claims, dec_struct. cbn [fst snd].
  erewrite dec_members_field; [|reflexivity|by apply undoes_string].
  by erewrite dec_members_field; [|reflexivity|by apply undoes_int].
Qed.

#[export] Instance jwt3 : JwtLib := {|
  SignedString c secret :=
    if valid_utf8 (claim_sub c) && bool_decide (int64_range (claim_exp c))
    then Ok (token_of "HS256" (encode (enc_claims (claim_sub c, claim_exp c))) secret)
    else Err (OtherError "invalid claims");
  jwt_Parse now raw key :=
    match SplitN raw "." 3 with
    | [_; payload; signature] =>
        match p ← DecodeString payload; j ← parse p; dec_claims ("", 0) j with
        | Some (sub, exp) =>
            k ← key SigningMethodHMAC;
            if bool_decide (EncodeToString k = signature) && (now <? exp) then Ok (MkToken true (Ok sub))
            else Err (OtherError "token is invalid")
        | None => Err (OtherError "token is malformed")
        end
    | _ => Err (OtherError "token is malformed")
    end
|}.

#[export] Instance jwt3_spec : JwtLibSpec.
Proof.
  intros [sub exp] secret raw now key Hraw Hk Hn. unfold SignedString, jwt3 in Hraw. cbn [claim_sub claim_exp] in *.
  destruct (valid_utf8 sub) eqn:Hs; [|done]. case_bool_decide as He; [|done].
  assert (raw = token_of "HS256" (encode (enc_claims (sub, exp))) secret) as -> by by injection Hraw.
  unfold jwt_Parse, jwt3. rewrite token_parts, DecodeString_EncodeToString. cbn [mbind option_bind].
  rewrite (claims_roundtrip sub exp Hs He), Hk. cbn [mbind result_bind].
  rewrite bool_decide_true by done. by rewrite (proj2 (Z.ltb_lt _ _)).
Qed.

#[export] Instance seed_texts : SeedTexts := {|
  Seed.Error _ := "error"; encode_error _ := OtherError "unsupported value"; json_error _ := OtherError "invalid JSON"
|}.

Definition id_of (s : string) : uuid :=
  match Canonical.parse s with Ok id => id | Err _ => Canonical.nth_id Byte.x00 end.

(** ** The service and the network *)

Definition service_app : App (W := world env) := World.New env_lib config.
Definition service : http_call (server (world env)) :=
  serve_http (wall_clock env_lib) (new_uuid env_lib) metrics_page service_app analyticsSvc
    (JWTSecret config) 60.

Definition host : string := "http://localhost:8080".
Definition localhost : Transport (server (world env)) :=
  MkTransport (λ _ _, None)
    (λ m url headers text s,
       match CutPrefix url host with
       | Some path =>
           let '(s', rs) := service Background (HttpRequest m path "" headers text "127.0.0.1:40000") s in
           (s', Ok rs)
       | None => (s, Err (OtherError "no such host"))
       end).

Definition empty_server : server (world env) :=
  Server (World (Db (Tables ∅ ∅ ∅ ∅ [] []) 1 1 noon [] 0) (Redis ∅ []) (Env 1 noon [])) no_limiters ∅ [].

Definition seeded : (server (world env) * list entry) * result Seeded :=
  main localhost (host +:+ "/api/v1") (empty_server, []).

(** ** What the seed leaves *)

Definition the_board (s : server (world env)) : board := board_of (s_world s).

(** The users of the tokens, by name and email. *)
Definition users_seeded (b : board) (sd : Seeded) : list (option (string * string)) :=
  (λ token, (λ u, (User_Name u, User_Email u)) <$> b_users b !! id_of (jwtSub token)) <$> sd_tokens sd.

(** Everybody's role in a team, in the order of the tokens. *)
Definition roles_seeded (b : board) (sd : Seeded) (team : string) : list (option string) :=
  (λ token, b_members b !! (id_of team, id_of (jwtSub token))) <$> sd_tokens sd.

(** Who and what an identifier of the board stands for. *)
Definition user_name (b : board) (id : uuid) : option string := User_Name <$> b_users b !! id.
Definition team_name (b : board) (id : uuid) : option string := Team_Name <$> b_teams b !! id.
Definition task_title (b : board) (id : uuid) : option string := Task_Title <$> b_tasks b !! id.

Definition teams_seeded (b : board) (sd : Seeded) : list (option (string * option string)) :=
  (λ id, (λ t, (Team_Name t, user_name b (Team_CreatedBy t))) <$> b_teams b !! id_of id) <$> sd_teams sd.

(** A task with the names of its team, its creator and its assignee. *)
Record task_row : Type := TaskRow {
  row_team : option string;
  row_creator : option string;
  row_assignee : option (option string);
  row_title : string;
  row_description : option string;
  row_status : string;
  row_priority : string;
  row_due : option time
}.
Definition task_seeded (b : board) (t : Task) : task_row :=
  TaskRow (team_name b (Task_TeamID t)) (user_name b (Task_CreatedBy t)) (user_name b <$> Task_AssigneeID t)
    (Task_Title t) (Task_Description t) (Task_Status t) (Task_Priority t) (Task_DueDate t).
Definition tasks_seeded (b : board) (sd : Seeded) : list (option task_row) :=
  (λ id, task_seeded b <$> b_tasks b !! id_of id) <$> sd_tasks sd.

(** An entry of the history: the task, who, the field, the old and the new
    value. A comment: the task, who, the text. *)
Definition entry_seeded (b : board) (h : TaskHistory)
    : option string * option string * string * option string * option string :=
  (task_title b (TH_TaskID h), user_name b (TH_ChangedBy h), TH_Field h, TH_OldValue h, TH_NewValue h).
Definition comment_seeded (b : board) (c : Comment) : option string * option string * string :=
  (task_title b (Comment_TaskID c), user_name b (Comment_UserID c), Comment_Body c).

Definition reported_ok (e : entry) : bool :=
  match e with Reported _ code => bool_decide (code = 200) || bool_decide (code = 201) | Logged _ => true end.

(** A finished run and the board it leaves, or nothing. *)
Definition finished (run : (server (world env) * list entry) * result Seeded)
    : option (board * list entry * Seeded) :=
  match run.2 with Ok sd => Some (the_board run.1.1, run.1.2, sd) | Err _ => None end.

(** The tool run again on the service it has filled. *)
Definition reseeded : (server (world env) * list entry) * result Seeded :=
  main localhost (host +:+ "/api/v1") (seeded.1.1, []).

(** What the run made. *)
Record made : Type := Made {
  m_users : list (option (string * string));
  m_teams : list (option (string * option string));
  m_roles : list (list (option string));
  m_tasks : list (option task_row);
  m_history : list (option string * option string * string * option string * option string);
  m_comments : list (option string * option string * string)
}.
Definition made_by (b : board) (sd : Seeded) : made :=
  Made (users_seeded b sd) (teams_seeded b sd) (roles_seeded b sd <$> sd_teams sd) (tasks_seeded b sd)
    (entry_seeded b <$> b_history b) (comment_seeded b <$> b_comments b).

(** What the tool asks for: the sample data. *)
Definition sample_task (team creator title : string) (description : option string)
    (status priority due : string) : option task_row :=
  Some (TaskRow (Some team) (Some creator) None title description status priority (parse_date due)).
Definition sample_entry (title who field old new : string)
    : option string * option string * string * option string * option string :=
  (Some title, Some who, field, Some old, Some new).
Definition sample_data : made :=
  Made
    [Some ("Alice", "alice@example.com"); Some ("Bob", "bob@example.com"); Some ("Carol", "carol@example.com")]
    [Some ("Backend Squad", Some "Alice"); Some ("Frontend Guild", Some "Bob")]
    [[Some RoleOwner; Some RoleMember; Some RoleMember]; [None; Some RoleOwner; Some RoleMember]]
    [sample_task "Backend Squad" "Alice" "Set up CI pipeline"
       (Some "Configure GitHub Actions for lint, test, build") StatusInProgress PriorityHigh "2026-07-15";
     sample_task "Backend Squad" "Alice" "Design auth schema"
       (Some "Users, sessions, refresh tokens") StatusDone PriorityMedium "2026-07-10";
     sample_task "Backend Squad" "Bob" "Write API docs"
       (Some "Document all v1 endpoints in OpenAPI") StatusTodo PriorityLow "2026-08-01";
     sample_task "Frontend Guild" "Bob" "Scaffold React app"
       (Some "Vite + TypeScript + Tailwind") StatusDone PriorityHigh "2026-07-05";
     sample_task "Frontend Guild" "Bob" "Login page UI"
       (Some "Email + password form, error states") StatusInProgress PriorityHigh "2026-07-12";
     sample_task "Frontend Guild" "Carol" "Dark mode support" None StatusTodo PriorityLow "2026-08-15"]
    [sample_entry "Set up CI pipeline" "Alice" "status" StatusTodo StatusInProgress;
     sample_entry "Design auth schema" "Alice" "status" StatusTodo StatusDone;
     sample_entry "Scaffold React app" "Bob" "status" StatusTodo StatusDone;
     sample_entry "Login page UI" "Bob" "status" StatusTodo StatusInProgress;
     sample_entry "Login page UI" "Bob" "priority" PriorityMedium PriorityHigh]
    [(Some "Set up CI pipeline", Some "Alice", "Pipeline draft is ready, needs review.");
     (Some "Set up CI pipeline", Some "Bob", "LGTM, merging once tests pass.");
     (Some "Design auth schema", Some "Alice", "Went with UUIDs for user IDs.");
     (Some "Login page UI", Some "Carol", "Designs are in Figma, link in Notion.");
     (Some "Dark mode support", Some "Bob", "Can we use prefers-color-scheme for this?")].

(** How much there is: users, teams, memberships, tasks. *)
Definition sizes (b : board) : nat * nat * nat * nat :=
  (size (b_users b), size (b_teams b), size (b_members b), size (b_tasks b)).


(** The last task of the sample data. *)
Lemma bodies_read_witness :
  ∃ day, parse_date "2026-08-15" = Some day ∧
  asks (createTask (recording (λ _, Err (OtherError "no service"))) host "token"
          (uuid_String (Canonical.nth_id Byte.x01)) "Dark mode support" "" "low" "2026-08-15")
    MethodPost (host +:+ "/tasks") "token" decode_CreateTask
    (v1.MkCreateTaskRequest None None (Some (v1.MkDate day)) (Some "low") (Canonical.nth_id Byte.x01)
       "Dark mode support").
Proof.
  assert (Email_UnmarshalJSON (enc_string "eve@example.com") = Some "eve@example.com") as He by reflexivity.
  destruct (parse_date "2026-08-15") as [day|] eqn:Hday; [|discriminate Hday].
  exists day. split; [reflexivity|].
  assert (Date_UnmarshalJSON (enc_string "2026-08-15") = Some day) as Hd by exact Hday.
  destruct (bodies_read (λ _, Err (OtherError "no service")) host "eve@example.com" "Eve" "pw" "token"
    (Canonical.nth_id Byte.x01) (Canonical.nth_id Byte.x02) (Canonical.nth_id Byte.x03)
    "Dark mode support" "" "low" "2026-08-15" day "done" "hi"
    ltac:(repeat constructor) He Hd) as (_ & _ & _ & _ & Htask & _).
  exact Htask.
Defined.
