(* ===== verification/Witnesses.v ===== *)
(** * Witnesses: the theorems at work

    Each property that has hypotheses, applied in the small world of Concrete or
    to the program of ConcreteServer: its hypotheses hold there, by evaluation. *)
From Stdlib Require Import Strings.Byte QArith.
From S2P Require Import Prelude Go Json JsonDec Uuid Domain Ports TaskService CacheJson TaskTheorems TeamService.
From S2P Require Import AuthService CommentService MySQLEngine MySQLStorage MySQLSpec TaskCache.
From S2P Require Import StorageTheorems System Interleave Concurrent Flight MySQLAnalytics.
From S2P Require Import World RoundTrips Concrete Races.
From S2P Require Import Api Handler Http.
From S2P Require Import Middleware RateBound Server Schema Listing ConcreteServer.
Open Scope Z_scope.

Abbreviation w0 := small_world.

(** [ran H call] evaluates a call to its outcome, and names the equation. *)
Lemma outcome_of {A B} (p : A * B) r : p.2 = r → p = (p.1, r).
Proof. by destruct p; intros <-. Qed.
Tactic Notation "ran" ident(H) uconstr(call) :=
  eassert (H : call = (call.1, _)); [apply outcome_of; vm_compute; reflexivity|].

Definition new_task : CreateTaskInput :=
  MkCreateTaskInput team3 "Write" None (Some bob) None "".
Definition done_input : UpdateTaskInput :=
  MkUpdateTaskInput (Some "New title") None (Some StatusDone) (Some bob) None None.
Definition team_filter : TaskFilter := MkTaskFilter (Some team3) None None 1 20.

(** The small world with failures scheduled on its database. *)
Definition failing (fs : list fault) : world env := World (set_faults fs small_db) (w_redis w0) (w_env w0).

(** *** Tasks *)

Lemma Create_correct_witness : ∃ w' t,
  TaskService.Create (taskSvc app) alice new_task w0 = (w', Ok t) ∧
  authorised (board_of w0) team3 alice (Some bob) ∧ b_tasks (board_of w0) !! Task_ID t = None.
Proof.
  ran H (TaskService.Create (taskSvc app) alice new_task w0). do 2 eexists. split; [exact H|].
  destruct (Create_correct _ _ _ _ _ _ H) as (Ha & _ & Hf & _). exact (conj Ha Hf).
Defined.

Lemma Create_fails_safe_witness : ∃ w' e,
  TaskService.Create (taskSvc app) carol new_task w0 = (w', Err e) ∧
  errors_Is e ErrForbidden = true ∧
  (healthy w0 → board_of w' = board_of w0 ∧
     (errors_Is e ErrForbidden = true ↔ ¬ authorised (board_of w0) team3 carol (Some bob))).
Proof.
  ran H (TaskService.Create (taskSvc app) carol new_task w0). do 2 eexists. split; [exact H|].
  split; [reflexivity|]. destruct (Create_fails_safe _ _ _ _ _ _ H) as [_ Hh]. exact Hh.
Defined.

Lemma Update_correct_witness : ∃ w' t,
  TaskService.Update (taskSvc app) alice task4 done_input w0 = (w', Ok t) ∧
  ∃ old now, b_tasks (board_of w0) !! task4 = Some old ∧
    update_authorised (board_of w0) old alice done_input ∧
    t = merged_task old done_input now.
Proof.
  ran H (TaskService.Update (taskSvc app) alice task4 done_input w0). do 2 eexists.
  split; [exact H|].
  destruct (Update_correct _ _ _ _ _ _ _ H) as (old & now & changed & hs & Ho & Ha & Ht & _).
  exists old, now. exact (conj Ho (conj Ha Ht)).
Defined.

(** The connection is lost after the update's commit was sent. *)
Lemma Update_fails_safe_witness :
  let w := failing [NoFault; NoFault; NoFault; NoFault; NoFault; FailAfter "lost"] in
  ∃ w' e, TaskService.Update (taskSvc app) alice task4 done_input w = (w', Err e) ∧
  (errors_Is e ErrForbidden = true → ∃ old, b_tasks (board_of w) !! task4 = Some old ∧
     ¬ update_authorised (board_of w) old alice done_input).
Proof.
  intros w. ran H (TaskService.Update (taskSvc app) alice task4 done_input w). do 2 eexists.
  split; [exact H|]. destruct (Update_fails_safe _ _ _ _ _ _ _ H) as (_ & _ & Hf & _). exact Hf.
Defined.

Lemma coherent_start : coherent w0.
Proof. intros f d _ Hd. vm_compute in Hd. discriminate Hd. Qed.

Lemma History_correct_witness : ∃ w' l,
  TaskService.History (taskSvc app) bob task4 w0 = (w', Ok l) ∧ board_of w' = board_of w0.
Proof.
  ran H (TaskService.History (taskSvc app) bob task4 w0). do 2 eexists. split; [exact H|].
  destruct (History_correct _ _ _ _ _ _ H) as (Hb & _). exact Hb.
Defined.

Lemma cacheKey_injective_witness :
  cacheKey team_filter = cacheKey (MkTaskFilter (Some team3) None None 1 20) ∧
  team_filter = MkTaskFilter (Some team3) None None 1 20.
Proof. split; [reflexivity|]. apply cacheKey_injective; [done|done|reflexivity]. Defined.

Lemma cachePattern_exact_witness : glob_literal (teamPrefix team3) = true.
Proof. apply (cachePattern_exact team3). Defined.

(** *** Teams *)

Lemma CreateTeam_correct_witness : ∃ w' t,
  TeamSvc.Create (teamSvc app) carol "Other" w0 = (w', Ok t) ∧
  Team_CreatedBy t = carol ∧ b_teams (board_of w0) !! Team_ID t = None.
Proof.
  ran H (TeamSvc.Create (teamSvc app) carol "Other" w0). do 2 eexists. split; [exact H|].
  destruct (TeamSvc.CreateTeam_correct _ _ _ _ _ _ H) as (_ & Hc & Hf & _). exact (conj Hc Hf).
Defined.

Lemma Invite_correct_witness : ∃ w',
  TeamSvc.Invite (teamSvc app) alice team3 carol w0 = (w', Ok tt) ∧
  TeamSvc.may_invite (board_of w0) team3 alice ∧
  board_of w' = with_members (<[(team3, carol) := RoleMember]>) (board_of w0).
Proof.
  ran H (TeamSvc.Invite (teamSvc app) alice team3 carol w0). eexists. split; [exact H|].
  destruct (TeamSvc.Invite_correct _ _ _ _ _ _ H) as (Hm & _ & Hb). exact (conj Hm Hb).
Defined.

Lemma Invite_fails_safe_witness : ∃ w' e,
  TeamSvc.Invite (teamSvc app) bob team3 carol w0 = (w', Err e) ∧
  errors_Is e ErrForbidden = true ∧ ¬ TeamSvc.may_invite (board_of w0) team3 bob.
Proof.
  ran H (TeamSvc.Invite (teamSvc app) bob team3 carol w0). do 2 eexists. split; [exact H|].
  split; [reflexivity|].
  destruct (TeamSvc.Invite_fails_safe _ _ _ _ _ _ _ H) as (_ & Hf & _). exact (Hf eq_refl).
Defined.

(** Alice, the owner, invites herself. *)
Lemma Invite_demotes_witness : ∃ w',
  TeamSvc.Invite (teamSvc app) alice team3 alice w0 = (w', Ok tt) ∧
  ¬ TeamSvc.may_invite (board_of w') team3 alice.
Proof.
  ran H (TeamSvc.Invite (teamSvc app) alice team3 alice w0). eexists. split; [exact H|].
  destruct (TeamSvc.Invite_demotes _ _ _ _ _ H) as [Hno _]. exact Hno.
Defined.

(** *** Users *)

Lemma Register_correct_witness : ∃ w',
  AuthSvc.Register (authSvc app) "dan@example.com" "Dan" "pw" w0 = (w', Ok tt) ∧
  ¬ AuthSvc.registered (W := world env) (board_of w0) "dan@example.com".
Proof.
  ran H (AuthSvc.Register (authSvc app) "dan@example.com" "Dan" "pw" w0). eexists.
  split; [exact H|]. destruct (AuthSvc.Register_correct _ _ _ _ _ _ H) as [Hno _]. exact Hno.
Defined.

Lemma Register_conflict_witness : ∃ w' e,
  AuthSvc.Register (authSvc app) "alice@example.com" "Dan" "pw" w0 = (w', Err e) ∧
  (AuthSvc.registered (W := world env) (board_of w0) "alice@example.com" → healthy w0 → errors_Is e ErrConflict = true).
Proof.
  ran H (AuthSvc.Register (authSvc app) "alice@example.com" "Dan" "pw" w0). do 2 eexists.
  split; [exact H|]. destruct (AuthSvc.Register_conflict _ _ _ _ _ _ _ H) as (_ & Hc & _). exact Hc.
Defined.

Lemma Login_sound_witness : ∃ w' token,
  AuthSvc.Login (authSvc app) "alice@example.com" "secret" w0 = (w', Ok token) ∧
  board_of w' = board_of w0.
Proof.
  ran H (AuthSvc.Login (authSvc app) "alice@example.com" "secret" w0). do 2 eexists.
  split; [exact H|]. destruct (AuthSvc.Login_sound _ _ _ _ _ _ H) as [Hb _]. exact Hb.
Defined.

(** Nobody is registered in the empty world. *)
Definition empty_world : world env :=
  World (Db (Tables ∅ ∅ ∅ ∅ [] []) 1 1 noon [] 0) (w_redis w0) (w_env w0).

Lemma Login_uniform_witness :
  (AuthSvc.Login (authSvc app) "alice@example.com" "secret" empty_world).2 = Err ErrUnauthorized.
Proof.
  apply (AuthSvc.Login_uniform (authSvc app)); [by repeat constructor|]. intros u Hu. discriminate Hu.
Defined.

Lemma Register_Login_witness : ∃ w',
  AuthSvc.Register (authSvc app) "dan@example.com" "Dan" "pw" w0 = (w', Ok tt) ∧
  ∃ u, b_users (board_of w') !! User_ID u = Some u ∧ User_Email u = "dan@example.com".
Proof.
  ran H (AuthSvc.Register (authSvc app) "dan@example.com" "Dan" "pw" w0). eexists.
  split; [exact H|].
  set (w' := (AuthSvc.Register (authSvc app) "dan@example.com" "Dan" "pw" w0).1) in *.
  assert (healthy w') as Hw by (split; [vm_compute; reflexivity|constructor]).
  destruct (AuthSvc.Register_Login _ _ _ _ _ _ w' H eq_refl Hw) as (u & now & Hu & He & _).
  exists u. exact (conj Hu He).
Defined.

(** *** Comments *)

Lemma Add_correct_witness : ∃ w' c,
  CommentSvc.Add (commentSvc app) bob task4 "Done?" w0 = (w', Ok c) ∧
  CommentSvc.may_comment (board_of w0) bob task4 ∧ Comment_CreatedAt c = zero_time.
Proof.
  ran H (CommentSvc.Add (commentSvc app) bob task4 "Done?" w0). do 2 eexists. split; [exact H|].
  destruct (CommentSvc.Add_correct _ _ _ _ _ _ _ H) as (Hm & Hz & _). exact (conj Hm Hz).
Defined.

Lemma Add_fails_safe_witness : ∃ w' e,
  CommentSvc.Add (commentSvc app) carol task4 "Done?" w0 = (w', Err e) ∧
  (healthy w0 → board_of w' = board_of w0 ∧
     (¬ CommentSvc.may_comment (board_of w0) carol task4 →
      CommentSvc.turned_away (board_of w0) carol task4 e)).
Proof.
  ran H (CommentSvc.Add (commentSvc app) carol task4 "Done?" w0). do 2 eexists. split; [exact H|].
  destruct (CommentSvc.Add_fails_safe _ _ _ _ _ _ _ H) as [_ Hh]. exact Hh.
Defined.

Lemma ListComments_correct_witness : ∃ w' l,
  CommentSvc.List (commentSvc app) bob task4 w0 = (w', Ok l) ∧ comments_of task4 (board_of w0) l.
Proof.
  ran H (CommentSvc.List (commentSvc app) bob task4 w0). do 2 eexists. split; [exact H|].
  destruct (CommentSvc.ListComments_correct _ _ _ _ _ _ H) as (_ & Hl & _).
  exact (proj2 (Hl _ eq_refl)).
Defined.

(** *** The audit trail *)

Definition old_task : Task :=
  MkTask task4 team3 alice None "Title" None StatusTodo PriorityLow None noon noon.

Lemma audit_trail_exact_witness :
  let '(task', entries) := buildHistoryEntries old_task done_input task4 alice in
  TH_Field <$> entries = ["title"; "status"; "assignee_id"] ∧ identity_eq old_task task'.
Proof. split; [reflexivity|]. apply (audit_trail_exact old_task done_input task4 alice). Defined.

Lemma update_merges_witness :
  Task_Title (buildHistoryEntries old_task done_input task4 alice).1 = "New title" ∧
  Task_Priority (buildHistoryEntries old_task done_input task4 alice).1 = PriorityLow.
Proof. rewrite update_merges. by split. Defined.

Lemma update_idempotent_witness :
  let task' := (buildHistoryEntries old_task done_input task4 alice).1 in
  buildHistoryEntries task' done_input task4 alice = (task', []).
Proof. apply (update_idempotent old_task done_input task4 alice). Defined.

(** *** The system *)

Lemma system_refines_witness :
  let w' := serve app (ReqCreateTeam carol "Other") w0 in
  board_of w' = board_of w0 ∨ evolves (W := world env) (board_of w0) (board_of w').
Proof. apply (system_refines app (ReqCreateTeam carol "Other") w0). Defined.

(** From an empty world: Dan registers, founds a team and writes a task. *)
Definition dan : uuid := Canonical.nth_id x10.
Definition dans_team : uuid := Canonical.nth_id x11.
Definition dans_requests : list request :=
  [ReqRegister "dan@example.com" "Dan" "pw"; ReqCreateTeam dan "Dan's";
   ReqCreateTask dan (MkCreateTaskInput dans_team "First" None (Some dan) None "")].
Definition dans_world : world env := foldl (λ w q, serve app q w) empty_world dans_requests.

Lemma requests_run qs w : rtc (runs app) w (foldl (λ w q, serve app q w) w qs).
Proof.
  revert w. induction qs as [|q qs IH]; intros w; [apply rtc_refl|].
  eapply rtc_l; [apply (runs_serve app q)|]. apply IH.
Qed.
Lemma dans_run : rtc (runs app) empty_world dans_world.
Proof. exact (requests_run dans_requests empty_world). Qed.

Lemma empty_sound : sound (board_of empty_world).
Proof. apply sound_empty. Qed.

Lemma system_sound_witness :
  size (b_tasks (board_of dans_world)) = 1%nat ∧ sound (board_of dans_world).
Proof.
  split; [vm_compute; reflexivity|]. exact (system_sound app _ _ empty_sound dans_run).
Defined.

Lemma system_monotone_witness : grows (board_of empty_world) (board_of dans_world).
Proof. exact (system_monotone app _ _ empty_sound dans_run). Defined.


(** Alice and Bob register at once, call by call in turn. *)
Definition two_registrations : list request :=
  [ReqRegister "alice@example.com" "Alice" "secret"; ReqRegister "bob@example.com" "Bob" "hunter2"].
Definition crossed_registrations : world env * list (flight (world env)) :=
  play [0; 1; 0; 1; 0; 1; 0; 1; 0; 1]%nat (empty_world, (λ q, (q, start q)) <$> two_registrations).

Lemma crossed_run : rtc (steps start) (empty_world, []) (crossed_registrations.1, crossed_registrations.2).
Proof.
  rewrite <-surjective_pairing. etrans; [apply (arrive_steps _ two_registrations _ [])|apply play_steps].
Qed.

(** Nothing is cached at the start. *)
Lemma nothing_cached `{!Backend (world env)} h : entries_sourced h ∅.
Proof. by intros f d ?%lookup_empty_Some. Qed.

Lemma concurrent_sound_witness :
  (forallb succeeded crossed_registrations.2 = true ∧
   size (b_users (board_of crossed_registrations.1)) = 2%nat) ∧
  sound (board_of crossed_registrations.1) ∧ grows (board_of empty_world) (board_of crossed_registrations.1).
Proof.
  split; [split; vm_compute; reflexivity|].
  exact (concurrent_sound app ListTasks_calls _ _ _ empty_sound (nothing_cached _) crossed_run).
Defined.

(** The small world's board. *)
Lemma small_tasks id t : b_tasks (board_of w0) !! id = Some t →
  id = task4 ∧ Task_ID t = task4 ∧ Task_TeamID t = team3 ∧ Task_CreatedBy t = alice ∧ Task_AssigneeID t = None.
Proof.
  intros Ht. change (keyed task_of (tasks small_tables) !! id = Some t) in Ht. rewrite lookup_keyed in Ht.
  apply fmap_Some in Ht as (r & Hr & ->). cbn [tasks small_tables] in Hr.
  by apply lookup_singleton_Some in Hr as [<- <-].
Qed.

Lemma small_sound : sound (board_of w0).
Proof.
  split.
  - by intros id t (-> & ? & _)%small_tasks.
  - intros tm u [r Hr]. change (team_members small_tables !! (tm, u) = Some r) in Hr.
    cbn [team_members small_tables] in Hr.
    apply lookup_insert_Some in Hr as [[[= <- <-] _]|[_ [[= <- <-] _]%lookup_singleton_Some]];
      split; vm_compute; by eexists.
  - intros id t (_ & _ & -> & _)%small_tasks. vm_compute. by eexists.
  - intros id t (_ & _ & -> & -> & _)%small_tasks. vm_compute. by eexists.
  - by intros id t a (_ & _ & _ & _ & ->)%small_tasks.
  - by intros h ?%elem_of_nil.
  - by intros c ?%elem_of_nil.
Qed.

(** Bob's torn listing, among the requests in flight. *)
Lemma torn_run : rtc (steps start) (w0, []) torn.
Proof. apply scheduled_steps. Qed.

Lemma torn_answer : ∃ p x, (ReqListTasks bob board_filter, p) ∈ torn.2 ∧
  answer_of (ReqListTasks bob board_filter, p) = Some (Ok x).
Proof.
  do 2 eexists. split; [apply (list_elem_of_lookup_2 _ 0%nat); vm_compute; reflexivity|reflexivity].
Qed.


Lemma tables_typed_witness :
  size (users (d_tables (w_db crossed_registrations.1))) = 2%nat ∧
  well_typed (d_tables (w_db crossed_registrations.1)).
Proof.
  split; [vm_compute; reflexivity|]. apply (tables_typed env_lib config empty_world); [exact empty_typed|].
  rewrite (surjective_pairing crossed_registrations). exact crossed_run.
Defined.

(** *** Analytics *)

Lemma healthy_start : healthy (w_db w0 : db).
Proof. reflexivity. Qed.

Lemma TeamSummaries_correct_witness : ∃ d' r,
  AnalyticsStorage.TeamSummaries (w_db w0) = (d', r) ∧ d_tables d' = small_tables.
Proof.
  ran H (AnalyticsStorage.TeamSummaries (w_db w0)). do 2 eexists. split; [exact H|].
  destruct (AnalyticsStorage.TeamSummaries_correct _ _ _ healthy_start H) as [Ht _]. exact Ht.
Defined.

Lemma TopContributors_correct_witness : ∃ d' r,
  AnalyticsStorage.TopContributors (w_db w0) = (d', r) ∧ d_tables d' = small_tables.
Proof.
  ran H (AnalyticsStorage.TopContributors (w_db w0)). do 2 eexists. split; [exact H|].
  destruct (AnalyticsStorage.TopContributors_correct _ _ _ healthy_start H) as [Ht _]. exact Ht.
Defined.

Lemma OrphanTasks_correct_witness : ∃ d' r,
  AnalyticsStorage.OrphanTasks (w_db w0) = (d', r) ∧ d_tables d' = small_tables.
Proof.
  ran H (AnalyticsStorage.OrphanTasks (w_db w0)). do 2 eexists. split; [exact H|].
  destruct (AnalyticsStorage.OrphanTasks_correct _ _ _ healthy_start H) as [Ht _]. exact Ht.
Defined.

(** *** Storage and cache *)

(** The connection is lost after the commit was sent: the rows are there. *)
Definition lost_commit : db :=
  set_faults [NoFault; NoFault; FailAfter "lost"] (w_db w0).

Lemma UpdateTaskWithHistory_atomic_witness : ∃ d' r,
  UpdateTaskWithHistory old_task [] lost_commit = (d', r) ∧
  (board_of d' = board_of lost_commit ∨
   update_task (W := db) old_task [] (board_of lost_commit) tt (board_of d')).
Proof.
  ran H (UpdateTaskWithHistory old_task [] lost_commit). do 2 eexists. split; [exact H|].
  destruct (UpdateTaskWithHistory_atomic _ _ _ _ _ H) as [Ha _]. exact Ha.
Defined.


Definition cached_redis : redis := Redis {[ cacheKey team_filter := "page" ]} [].

Lemma Invalidate_complete_witness : ∃ r',
  TaskCache.Invalidate (teamPrefix team3 +:+ "*") cached_redis = (r', Ok tt) ∧
  r_store cached_redis !! cacheKey team_filter = Some "page" ∧
  r_store r' !! cacheKey team_filter = None.
Proof.
  ran H (TaskCache.Invalidate (teamPrefix team3 +:+ "*") cached_redis). eexists.
  split; [exact H|]. split; [vm_compute; reflexivity|].
  assert (glob_literal (teamPrefix team3) = true) as Hg by (vm_compute; reflexivity).
  destruct (Invalidate_complete _ _ _ _ Hg H) as (_ & _ & Hd). exact (Hd eq_refl "status=all:assignee=all:page=1:limit=20").
Defined.

(** *** HTTP *)

Definition alice_ctx : ctx := ContextWithUserID Background alice.
Definition edit_body : string :=
  encode (JObject [("assignee_id", JNull); ("status", enc_string StatusDone)]).
Definition edit : http_request := request_to MethodPut "" "" ∅ edit_body.

Lemma http_authorised_witness :
  let rs := (http app analyticsSvc UpdateTask (uuid_String task4) alice_ctx edit w0).2 in
  rs_Status rs = 200 ∧
  ∃ q, request_of UpdateTask (uuid_String task4) alice_ctx edit = Some q ∧ permitted (board_of w0) q.
Proof.
  assert ((rs_Status (http app analyticsSvc UpdateTask (uuid_String task4) alice_ctx edit w0).2) = 200)
    as Hs by (vm_compute; reflexivity).
  split; [exact Hs|].
  destruct (http_authorised app analyticsSvc UpdateTask (uuid_String task4) alice_ctx edit w0)
    as [Hok _]. exact (Hok (or_introl Hs)).
Defined.

Lemma http_unauthenticated_witness :
  let rs := http app analyticsSvc UpdateTask (uuid_String task4) Background edit w0 in
  rs.1 = w0 ∧ rs_Status rs.2 ∈ [400; 401].
Proof. apply http_unauthenticated; done. Defined.

(** *** The whole chain *)

Definition list_request : http_request :=
  request_to MethodGet "/api/v1/tasks" ("team_id=" +:+ uuid_String team3) as_alice "".

Lemma serve_http_authenticated_witness : ∃ s' rs,
  answer list_request = (s', rs) ∧ rs_Status rs = 200 ∧
  (board_at s' = board_at small_server ∨
   ∃ q w, board_of w = board_at small_server ∧ board_at s' = board_of (serve app q w) ∧
     ((∃ email name password, q = ReqRegister email name password) ∨
      ∃ u, actor q = Some u ∧ authenticates (JWTSecret config) list_request u)).
Proof.
  destruct (answer list_request) as [s' rs] eqn:H. exists s', rs. split; [reflexivity|].
  split; [|exact (serve_http_authenticated _ _ _ _ _ _ _ _ _ _ _ H)].
  change rs with (s', rs).2. rewrite <- H. vm_compute. reflexivity.
Defined.

Lemma serve_http_chain_witness : ∃ s' rs,
  answer list_request = (s', rs) ∧ rs_Status rs = 200 ∧
  s_requests s' = counted list_request rs ∅ ∧ ∃ id rs0, rs = with_header requestIDHeader id rs0.
Proof.
  pose proof (serve_http_chain (wall_clock env_lib) (new_uuid env_lib) metrics_page app analyticsSvc
    (JWTSecret config) 60 list_request small_server) as Hc.
  assert (rs_Status (answer list_request).2 = 200) as Hs by (vm_compute; reflexivity).
  unfold answer, program in Hs |- *. destruct (serve_http _ _ _ _ _ _ _ _ _ _) as [s' rs].
  exists s', rs. split; [reflexivity|]. split; [exact Hs|]. cbn [snd] in Hs.
  destruct Hc as [[_ ->]|(id & rs0 & Hrs & _ & Hq & _)]; [discriminate Hs|]. split; [exact Hq|by exists id, rs0].
Defined.

Definition empty_server : server (world env) := Server empty_world no_limiters ∅ [].

Lemma server_sound_witness :
  let s := (program Background list_request empty_server).1 in sound (board_at s).
Proof.
  intros s. apply (server_sound (wall_clock env_lib) (new_uuid env_lib) metrics_page app analyticsSvc
    (JWTSecret config) 60 empty_server s empty_sound).
  apply rtc_once. exists list_request. reflexivity.
Defined.

Lemma Login_JWT_witness : ∃ w1 token,
  AuthSvc.Login (authSvc app) "alice@example.com" "secret" w0 = (w1, Ok token) ∧
  ∃ u issued, (∃ w, Now (AuthSvc.runtime (authSvc app)) w = (w1, Ok issued)) ∧
    ∀ next c r st, Header_Get (r_Header r) "Authorization" = "Bearer " +:+ token →
      time_Unix (now (wall_clock env_lib) st).2 < time_Unix (time_Add issued 3600000000000) →
      JWT (wall_clock env_lib) "secret-key" next c r st =
        next (ContextWithUserID c (User_ID u)) r (now (wall_clock env_lib) st).1.
Proof.
  ran H (AuthSvc.Login (authSvc app) "alice@example.com" "secret" w0). do 2 eexists.
  split; [exact H|].
  destruct (Login_JWT (wall_clock env_lib) _ _ _ _ _ _ H) as (u & issued & Hw & _ & _ & Hn).
  exists u, issued. exact (conj Hw Hn).
Defined.

(** *** The rate limiter: sixty a minute, one second after a burst. *)

Definition burst : list event := replicate 61 [Get 0 "user:1" noon; Call 0 noon] ≫= id.
Definition later : time := Time (t_ns noon + 1000000000) 0.

Lemma rate_bound_witness :
  60 * 1000000000 * admitted 60 "user:1" (burst ++ [Get 1 "user:1" later; Call 1 later]) (run_trace 60 [] nobody) ≤
  60 * (60 * 1000000000 + 1000000000 + 1).
Proof.
  apply (rate_bound 60 "user:1" noon [] (burst ++ [Get 1 "user:1" later; Call 1 later])); [lia|].
  cbn. repeat (split; [discriminate|split; [reflexivity|split; [discriminate|
    split; [eexists; split; [reflexivity|discriminate]|]]]]). exact I.
Defined.

(** *** The whole service *)

Lemma no_events_healthy (w : world env) : d_faults (w_db w) = [] → r_events (w_redis w) = [] → healthy w.
Proof. intros Hd Hr. split; [exact Hd|]. unfold redis_healthy. by rewrite Hr. Qed.

(** Dan lists his team's tasks twice; the second time the cache answers. *)
Definition dans_filter : TaskFilter := MkTaskFilter (Some dans_team) None None 1 20.
Definition listed_world : world env := serve app (ReqListTasks dan dans_filter) dans_world.

Lemma served q w1 w : rtc (healthy_runs app) w1 w →
  d_faults (w_db w) = [] → r_events (w_redis w) = [] → proper_request q → rtc (healthy_runs app) w1 (serve app q w).
Proof. intros Hr Hd He Hp. eapply rtc_r; [exact Hr|]. apply healthy_serve; [by apply no_events_healthy|done]. Qed.

Lemma listed_run : rtc (healthy_runs app) empty_world listed_world.
Proof.
  unfold listed_world, dans_world, dans_requests. cbn [foldl].
  apply served; [|vm_compute; reflexivity..|by cbn].
  do 3 (apply served; [|vm_compute; reflexivity..|exact I]). apply rtc_refl.
Qed.

Lemma nothing_coherent : coherent empty_world.
Proof. intros f d _ Hd. vm_compute in Hd. discriminate Hd. Qed.

Lemma list_current_witness : ∃ w' res,
  TaskService.List (taskSvc app) dan dans_filter listed_world = (w', Ok res) ∧
  size (cache_of listed_world) = 1%nat ∧ length res.1 = 1%nat ∧
  ∃ plan, res = page_of plan (normalize dans_filter) (board_of listed_world).
Proof.
  ran H (TaskService.List (taskSvc app) dan dans_filter listed_world). do 2 eexists. split; [exact H|].
  split; [vm_compute; reflexivity|]. split; [reflexivity|].
  destruct (list_current env_lib config empty_world listed_world dan dans_filter _ _ nothing_coherent empty_typed
    listed_run ltac:(done) ltac:(unfold page_ok, int64_range; cbn; lia)
    ltac:(apply (bool_decide_unpack _); vm_compute; exact I) H) as (_ & Ha & _). exact Ha.
Defined.

(** A page of the small world's board, as JSON and back. *)
Definition small_page : cachedList :=
  let p := page_of 0 team_filter (board_of w0) in MkCachedList p.1 p.2.

Lemma cachedList_roundtrip_witness :
  length (CL_Tasks small_page) = 1%nat ∧
  ∃ d, Marshal_cachedList small_page = Ok d ∧ Unmarshal_cachedList d = Ok small_page.
Proof.
  split; [reflexivity|]. destruct (cachedList_roundtrip small_page) as [Hr _].
  exact (Hr ltac:(vm_compute; reflexivity)).
Defined.
