(* ===== verification/OpsWitnesses.v ===== *)
(** * OpsWitnesses: the theorems about logging, start-up and scripts at work

    A masked and filtered line, a start-up in which MySQL answers the third
    ping, and the schema script on the repository's files. *)
From S2P Require Import Prelude Go GoStrings EmailClient Interleave Slogx SlogxHandler Startup Lifecycle Genschema.
Import slogx config.
Open Scope Z_scope.

(** *** Logging *)

Definition redacting : Settings :=
  MkSettings LevelDebug FormatJSON Stdout {[ "email" := MaskEmail ]} {[ "password" ]} defaultLevelNames
    DefaultMasker_Mask ["trace_id"].
Definition login_record : LogRecord :=
  MkRecord "now" LevelInfo "login"
    [MkAttr "email" (StringValue "alice@example.com"); MkAttr "password" (StringValue "secret");
     MkAttr "card" (GroupValue [("kind", Plain (StringValue "visa")); ("password", Plain (StringValue "1234"))])].
Definition request_values : gmap string Value := {[ "trace_id" := Plain (StringValue "t-1") ]}.
Definition login_line : line :=
  Line FormatJSON Stdout
    [([], MkAttr "time" (AnyValue "now")); ([], MkAttr "level" (StringValue "INFO"));
     ([], MkAttr "msg" (StringValue "login")); (["http"], MkAttr "trace_id" (StringValue "t-1"));
     (["http"], MkAttr "email" (StringValue "al***e@example.com"));
     (["http"; "card"], MkAttr "kind" (StringValue "visa"))].

Lemma login_line_of :
  line_of redacting (WithGroup plain "http") request_values login_record = Some login_line.
Proof. vm_compute. reflexivity. Qed.

Lemma redaction_witness :
  length (l_Attrs login_line) = 6%nat ∧
  Forall (λ ga : list string * Attr, Key ga.2 ∈ s_Remove redacting → False) (l_Attrs login_line).
Proof.
  split; [reflexivity|].
  pose proof (redaction redacting (WithGroup plain "http") request_values login_record) as H.
  rewrite login_line_of in H. destruct H as (_ & _ & Hin & _).
  apply Forall_forall. intros [gs a] Ha. destruct (Hin gs a Ha) as [Hno _]. exact Hno.
Defined.

(** *** Starting *)

Definition is_ok {A} (r : result A) : bool := match r with Ok _ => true | Err _ => false end.


(** MySQL answers from the eighth second on; Redis takes a second, if it has
    it. *)
Definition late_drivers : Drivers :=
  MkDrivers (λ _, None)
    (λ _ t, (second, if 8 * second <=? t then Ok tt else Err (OtherError "connection refused")))
    (λ _ deadline t, if t + second <=? deadline then (second, Ok tt)
                     else (Z.max 0 (deadline - t), Err (OtherError "context deadline exceeded")))
    (λ _, Ok tt) (λ _, Err (OtherError "no file")).

Definition sample_config : Config :=
  MkConfig "local" (MkServer 8080 second second second)
    (MkDatabase "mysql" 3306 "tasks" "root" "secret" 10 5 second)
    (MkRedis "redis:6379" "" 0 10 second) (MkAuth "key" second) (MkRateLimit 60)
    (EmailClient.MkCircuitBreakerConfig 1 second second) (EmailClient.MkEmailServiceConfig "http://mail").

Definition fresh_process : infra := MkInfra 0 0 ∅ [].

Lemma fresh_wf : wf fresh_process.
Proof. intros i Hi. cbn in Hi. set_solver. Qed.

Lemma mysql_New_correct_witness :
  ∃ w' db k, mysql.New late_drivers (cfg_Database sample_config) fresh_process = (w', Ok db) ∧
    answered (db_Ping late_drivers (mysql.buildDSN (cfg_Database sample_config))) 0 10 k.
Proof.
  destruct (mysql_New_correct late_drivers (cfg_Database sample_config) fresh_process fresh_wf)
    as (w' & [db|e] & Hrun & Hr).
  - destruct Hr as (k & Hk & _). exists w', db, k. exact (conj Hrun Hk).
  - assert (is_ok (mysql.New late_drivers (cfg_Database sample_config) fresh_process).2 = true) as Hok
      by (vm_compute; reflexivity).
    rewrite Hrun in Hok. discriminate Hok.
Defined.

Lemma app_no_leak_witness :
  ∃ w' a, app.New late_drivers sample_config fresh_process = (w', Ok a) ∧
    size (held w') = 3%nat ∧
    ∀ timeout, ∃ w'', app.Shutdown late_drivers a timeout w' = (w'', Ok tt) ∧ held w'' = ∅.
Proof.
  destruct (app_no_leak late_drivers sample_config fresh_process fresh_wf) as (w' & [a|e] & Hrun & Hr).
  - destruct Hr as (_ & _ & _ & _ & Hs). exists w', a. split; [exact Hrun|]. split; [|exact Hs].
    change w' with (w', Ok a : result app.App).1. rewrite <-Hrun. vm_compute. reflexivity.
  - assert (is_ok (app.New late_drivers sample_config fresh_process).2 = true) as Hok
      by (vm_compute; reflexivity).
    rewrite Hrun in Hok. discriminate Hok.
Defined.

Lemma startup_waits_witness :
  ∃ w' a, app.New late_drivers sample_config fresh_process = (w', Ok a).
Proof.
  apply (startup_waits late_drivers sample_config fresh_process fresh_wf eq_refl).
  - intros dsn t. cbn. unfold second. lia.
  - intros opts deadline t. cbn. destruct (_ <=? _); cbn; [unfold second|]; lia.
  - intros dsn t Ht. cbn in Ht |- *. destruct (Z.leb_spec (8 * second) t); [done|]. unfold second in *. lia.
  - intros opts t _. cbn. by rewrite (proj2 (Z.leb_le _ _)) by (unfold second; lia).
Defined.

Lemma main_exit_witness :
  let '(w', code) := app.main late_drivers "config.yaml" app.Signalled fresh_process in
  code = 2 ∧ held w' = ∅.
Proof.
  pose proof (main_exit late_drivers "config.yaml" app.Signalled fresh_process fresh_wf) as Hm.
  destruct (app.main late_drivers "config.yaml" app.Signalled fresh_process) as [w' code].
  destruct Hm as (_ & H2 & Hh). split; [apply H2; by eexists|by apply Hh].
Defined.

(** The same with a configuration: the server listens, SIGTERM arrives, main
    shuts the server down, whose goroutine is told so, and ends with 0. *)
Definition ready_drivers : Drivers :=
  MkDrivers (ParseDSN late_drivers) (db_Ping late_drivers) (rdb_Ping late_drivers) (srv_Shutdown late_drivers)
    (λ _, Ok sample_config).
Definition terminated : list label :=
  [Listens; Signals SIGTERM; TakesSignal; Returns ErrServerClosed; Stops].

Lemma terminated_exits :
  ∃ p, reaches ready_drivers "config.yaml" fresh_process terminated p ∧ p_main p = Exited 0 ∧
    p_log p = [Info "server starting" ":8080"; Info "signal received, shutting down" "terminated";
               Info "server stopped" ""].
Proof.
  assert (match boot ready_drivers "config.yaml" fresh_process with
          | (p0, Some (cfg, a)) =>
              match steps ready_drivers cfg a terminated p0 with
              | Some p => p_main p = Exited 0 ∧ p_log p =
                  [Info "server starting" ":8080"; Info "signal received, shutting down" "terminated";
                   Info "server stopped" ""]
              | None => False
              end
          | _ => False
          end) as H by (vm_compute; done).
  unfold reaches. destruct (boot _ _ _) as [p0 [[cfg a]|]]; [|done].
  destruct (steps _ _ _ _ _) as [p|] eqn:E; [|done]. by exists p.
Qed.

Lemma lifecycle_exit_witness :
  ∃ p why, reaches ready_drivers "config.yaml" fresh_process terminated p ∧
    app.main ready_drivers "config.yaml" why fresh_process = (p_infra p, 0).
Proof.
  destruct terminated_exits as (p & Hr & Hp & _).
  destruct (lifecycle_exit _ _ _ _ _ _ Hr Hp) as (_ & why & Hw & _). exists p, why. exact (conj Hr Hw).
Defined.

Lemma lifecycle_ends_witness :
  ∃ p, reaches ready_drivers "config.yaml" fresh_process terminated p ∧
    (length (filter (λ l, is_signal l = false) terminated) ≤ 4)%nat.
Proof.
  destruct terminated_exits as (p & Hr & _). exists p. split; [exact Hr|].
  exact (proj1 (lifecycle_ends _ _ _ _ _ Hr)).
Defined.

(** *** The schema script *)

Import genschema.

Lemma readme_current_witness :
  ∃ tables, parseMigrations (Ok (reverse migrations.*1)) migrationFile = Some (Ok tables) ∧
    mermaidERD tables +:+ nl = readme_diagram.
Proof. apply readme_current. apply reverse_Permutation. Defined.

Definition small_readme : string :=
  "intro " +:+ startMarker +:+ " old " +:+ endMarker +:+ " outro".
Definition patched_readme : string :=
  "intro " +:+ startMarker +:+ nl +:+ "new" +:+ nl +:+ endMarker +:+ " outro".

Lemma small_patched : patch small_readme "new" = Ok patched_readme.
Proof. vm_compute. reflexivity. Qed.

Lemma patch_again_witness : patch patched_readme "newer" = patch small_readme "newer".
Proof.
  destruct (patch_again small_readme "new" patched_readme small_patched eq_refl)
    as (before & after & _ & Hall). apply (Hall "newer").
Defined.
